(* ===== verification/_CoqProject ===== *)
-Q . S2P
Prelude.v
Types.v
Net.v
IpParse.v
Text.v
NetworkRecovery.v
SanitizedPeers.v
Conversions.v
LocalAgent.v
UnitTests.v
Streams.v
Pcap.v
MioStreams.v
SocketFactory.v
PvpnClient.v
PeerSync.v
Connection.v
ConnectionSteps.v
ConnectionInvariants.v
ConnectionTheorems.v
ConnectionSafety.v
Mailbox.v
StreamCalls.v
Clocks.v
DataPath.v
Api.v
Threads.v
Termination.v
Settling.v
Startup.v
Scenario.v
ThreadsRun.v
UnixRun.v
ConfigParser.v
SecretCache.v
BlobCache.v
ForkSelector.v
Sample.v
SampleRun.v
BuildVersion.v
Vectors.v
WinNet.v
LocalIpFinder.v
WinRoutes.v
WinErrors.v
WinSockets.v
WinSocketFactory.v
WinTun.v
WindowsStreams.v
WinSettling.v
WinLoop.v
WinAdapter.v
WinIpv6.v
WinTunSession.v
WinConnection.v
WinRegistry.v
WinScenario.v
WinRun.v
WinMachine.v
