(* ===== verification/Prelude.v ===== *)
(** * Verification of the Proton TUN core library

    This development models [protun], the Rust library that runs a VPN
    connection for an application: it owns a connection thread whose loop
    drives the [pvpnclient] protocol library, its sockets and a TUN device, and
    reports states and events.  Paths below are relative to the repository.

    ** Parts of the program and where they are modelled

    - [Prelude.v] (this file): bytes, machine integers, results, the state
      monad [M] with panics and fuel, step-tracking ([tracks]), totality
      ([returns]), where a panic can come from ([safe]), list and option lemmas, the hint
      database [protun] and the tactics [track], [solve_returns], [approx].
    - [Types.v]: the data of [src/api/*.rs] and [src/connection/streams.rs] and
      the types of [pvpnclient] that cross its interface.  The feature set is
      [unix], [mio] and [local-agent], and [windows] in the files [Win*].
      [Net.v]: how an address is printed; [IpParse.v]: how it is parsed, and
      the conversions of [IpAddress] in [src/api/type_conversions.rs].
      [Text.v]: the functions of [str] the program uses, with printing and
      parsing of numbers.
    - [NetworkRecovery.v]: [src/connection/network_recovery_handler.rs].
    - [SanitizedPeers.v]: [src/connection/sanitized_peers.rs].
    - [Conversions.v]: [src/api/type_conversions.rs], [src/connection/util.rs].
    - [LocalAgent.v]: [src/connection/local_agent_handler.rs].
    - [UnitTests.v]: the unit tests of [src/connection/tests] for these three
      components, evaluated on the model.
    - [Streams.v]: the traits [Stream] and [Streams] as type classes with the
      laws their users rely on, and the implementations of [Stream] in
      [src/connection/mio] (TCP, UDP, Unix and Apple TUN) over a class [Device]
      for the operating system's end.
    - [Pcap.v]: [src/connection/pcap_stream.rs] over a model of files.
    - [MioStreams.v]: [src/connection/mio/streams.rs]; it implements the
      interface [Streams] and its laws.  [SocketFactory.v]:
      [src/connection/mio/socket_factory_unix.rs].
    - [PvpnClient.v]: [src/connection/pvpn_client.rs], the trait the loop uses
      as a class and its implementation over the library, which is an interface.
    - [PeerSync.v]: the effect of the peer updates on the client's peer set.
    - [Connection.v]: [src/connection/pvpn_connection.rs], the record
      [PvpnConnection] and one definition per method, named as in the source
      (with a prefix [conn_] where a component has a method of the same name).
    - [ConnectionSteps.v]: the connection as a transition system ([io_step],
      [msg_step], [conn_step]) and the proof that every method follows it.
    - [ConnectionInvariants.v], [ConnectionTheorems.v], [ConnectionSafety.v]:
      the invariants of that system and the theorems on the loop.
    - [Mailbox.v]: the loop looks at its queue only in [try_recv].
    - [StreamCalls.v]: the loop touches its stream set only by calls of the
      stream interfaces, so that an invariant of the calls is an invariant of the
      connection; composed with the mio stream set.
    - [Clocks.v]: [src/connection/time.rs], and the calls the loop makes on its
      client, composed with the clock.  [DataPath.v]: what an iteration carries
      between the client and the streams, over interfaces that keep a log.
    - [Api.v]: the handle [Connection] of [src/api/connection.rs] and
      [src/api/logger.rs].  [Startup.v]: [src/api/connection_unix.rs], the
      constructor and the dependencies of the thread.
    - [Threads.v]: the application's threads and the connection's thread of
      [start_pvpn_connection] as one transition system ([System], [sys_do]): the
      two halves of a call (queueing the message, setting the waker), the steps
      of the thread between two points at which others matter to it, and the
      join of [disconnect_and_wait].  A wake the system refuses is a step too.
    - [Termination.v]: the loops within an iteration, every iteration and every run
      that is asked to disconnect return, over classes of what the streams and the
      library promise.  [Settling.v]: the client, the mio streams and the Unix
      streams keep those promises.
    - [Scenario.v], [ThreadsRun.v], [UnixRun.v]: the whole stack instantiated and
      run, with the witnesses of the theorems on the loop and the threads.
    - [ConfigParser.v] and [ForkSelector.v]: [test_config_parser.rs] and
      [muon_test_auth.rs] of [src/api/test_utils].  [BlobCache.v] and [Sample.v]:
      [src/example/binary_blob_file.rs] and [src/example/sample.rs], the program
      that puts them together, with its witness in [SampleRun.v].  [SecretCache.v]:
      the interface [PersistentCache] of [src/api/connection.rs] as a class with
      the law its users rely on, which [BlobCache.v] discharges.
      [BuildVersion.v]: [build/windows_build.rs].
    - [Vectors.v]: [src/utils/vector.rs] and [common.rs].  [WinNet.v]: byte
      order, the rows and functions of the Windows networking API as a class
      with its documented laws.  [LocalIpFinder.v] and [WinRoutes.v]:
      [local_ip_finder.rs], [routing_table.rs] and [routes.rs] of
      [src/connection/windows/helpers], with the registry record of
      [src/utils/windows/registry_editor.rs].
    - [WinErrors.v]: [src/utils/windows/io_error.rs].  [WinSockets.v] and
      [WinSocketFactory.v]: the sockets of [src/connection/windows/tcp.rs] and
      [udp.rs] and the events of [helpers/socket_handle.rs], in use and when
      opened.  [WinTun.v]: [tun_windows.rs].  [WindowsStreams.v]: the stream set
      of [streams.rs] and [helpers/poll_waker.rs]; it implements [Streams].
      [WinSettling.v]: these streams keep the promises of [Termination.v].
      [WinLoop.v]: the connection loop over that stream set.
    - [WinAdapter.v] and [WinIpv6.v]: [helpers/windows_api].  [WinTunSession.v]:
      [helpers/wintun/wintun_session.rs], which composes them with the routes.
      [WinConnection.v]: [src/api/windows], [helpers/winsock.rs] and the status
      text of the registry, up to the thread that runs the loop.  [WinRegistry.v]:
      the registry as a tree of keys, the routes and the status of the program kept
      in it under their paths, for the routes of [WinRoutes.v].
    - [WinScenario.v], [WinRun.v], [WinMachine.v]: a simulated system that
      satisfies the laws of all the Windows interfaces, with the witnesses.

    ** How the parts interact

    The application sends messages through the handle; [handle_messages] takes
    them from the queue.  An iteration sets the time, pulls actions from the
    client (open, write and close streams, store secrets, write the capture),
    computes and reports the connection state from the client's tunnel, the
    recovery handler and the local agent handler, and polls the streams, whose
    data it pushes to the client.  Callbacks and cache writes are the entries
    of the trace [out]; what [try_recv] answers, in order, is the list
    [message_receiver].  [interleavings_scheduled] shows that this loses nothing:
    every interleaving with the application's threads is such a list, so that the
    theorems on the loop, which hold for every list, hold for all of them.

    ** What the theorems show

    - Loop: the state last reported is the connection's state; states are not
      repeated; the capture events refine the life cycle of one capture; the
      states shown fit the mode; no network is reported as such and no data is
      pushed then; client and connection have the same peers; a disconnect
      request ends the loop, disconnected and cleaned up; the loop panics only
      where [ClientRealtimeFactory::now] does, whose [expect] refuses a system
      clock set before 1970.
    - Data path: what is read is pushed to the client, all of it and in order,
      and what the client gives goes to the stream it names or to the cache.
      Over a whole run the secrets written are those the library gave, and the
      sample's next connection finds the last one of each key.
    - Threads: every interleaving is a schedule of the sequential loop; no wake-up
      is lost; after a disconnect request, under every interleaving, the thread takes
      a bounded number of steps and, under the conditions on the outside world
      below, is not stuck before it has ended; and [disconnect_and_wait] returns
      only when it has.
    - Termination: every iteration returns, and so does every run that is asked to
      disconnect, whatever happens in between, for streams and a library that keep
      the promises below; the panic of the clock ends a run too.
    - Recovery: refinement of an exponential back-off counter, bounds, timing.
    - Peers: the sanitizing scan equals a declarative selection.
    - Streams: TCP keeps the order of bytes and terminates on a socket that
      makes progress; TUN writes hand over a prefix; Apple framing round trip.
    - Stream set: tokens are unique and never reused, events are routed exactly;
      sockets are handed to the platform's callback before they are used.
    - Client: its flags are those of the library's last answer.
    - Capture file: packets up to the limit, whole unless their write fails, when
      the bytes written stay and are not counted; overwriting keeps the tail.
    - Local agent: the state reported, resets, one stats event per request, and
      two cases in which information is lost.
    - Handle and logger: one message per call, panics after the end, first
      initialization wins.
    - Windows routes: the interface chosen is the best candidate; only recorded
      routes are removed, and one that could not be removed stays recorded, unless
      the record cannot be read: then it is emptied; system tables are freed.
    - Windows streams: the sockets answer as the mio ones do once errors are
      classified; readiness is not lost; every socket is bound outside the
      tunnel; opening and closing accounts for every socket and event; a TUN
      write sends whole packets; a connection waits on exactly the open handles
      of its streams.
    - Windows adapter: the row, the addresses and the DNS servers the system ends
      up with; the IPv6 switch always ends with COM and the lock released; the
      ring's size is valid.
    - Starting: on both platforms, when the constructor and the thread panic or
      fail (a system clock set before 1970 among the reasons), and how the thread
      ends under every interleaving with the application's calls.  On Windows,
      dropping the tunnel's session leaves no route of the tunnel's interface, the
      other interfaces' routes as they were, less those an earlier run had left
      recorded, and an empty record ([table_left]), when deletions, the table and
      the registry work ([routes_work]).  Windows may add and remove routes of the
      tunnel's interface at any call on the adapter; that the calls leave the routes
      of other interfaces alone is the law [SessionFrame].
    - Clocks: the library is never told a time before the previous one, and reading
      the system's time fails exactly when it is before the epoch.
    - Addresses: printing and parsing are inverse.
    - Sample and build: the configuration format is read back, and what is
      malformed is refused; the cache refines a map; a captured cookie is the
      first of its name; the version resource has the numbers of the tag.

    ** Bounds and fuel

    Loops whose length depends on the outside world take fuel and answer
    [NoFuel] when it runs out: the iterations of [run], the pull loops, the
    read passes, and flushing a TCP or TUN stream.  [run_fuel_irrelevant] shows
    that a result does not depend on the fuel, and [run_returns] that some fuel is
    enough: for a library that, pulled and told how its actions went, asks to be
    pulled only finitely often ([ClientSettles]), for streams whose writes return
    ([StreamEnds]) and that have finitely much to be read between two polls
    ([ReadsSettle]).  A peer that sends without a pause can keep the code reading, so
    the last cannot be left out.  [tcp_write_terminates] and
    [tun_unix_write_prefix] give sufficient fuel for a device that makes
    progress, which [write_bound] and [win_write_bound] take for the streams of the
    two stacks, [win_tun_write_packets] for Wintun, and [ipv6_toggle] and
    [windows_connect] show that enough fuel exists for the enumeration of binding
    paths, which ends; [handle_messages] needs none.  Arithmetic is that of the
    release profile: [u64] sums wrap, casts truncate, debug assertions do nothing,
    and an index out of range panics.  Token numbers and buffer lengths are natural
    numbers: they stay far below 2^64.

    ** What is not modelled

    Callbacks of the application and its cache are taken to return; one that panicked
    would end the connection's thread.  The text of log messages, apart from the
    addresses and routes in them, the panic hook, what the sample prints, the
    capabilities of the test helpers that only forward to [tokio], and the generated
    bindings.  The crates [pvpnclient], [mio], [muon], [ini], [base64] and [wintun],
    the registry and the functions of the operating systems are interfaces, with what
    the code relies on stated as laws and satisfied by the simulated systems. *)

From stdpp Require Export base tactics decidable countable list list_numbers gmap strings pretty sets.
From Stdlib Require Export ZArith Lia.
From Stdlib.Strings Require Byte.

(** ** Bytes and machine integers *)

Abbreviation byte := Byte.byte.

(** The value of a [u8]. *)
Definition byte_val (b : byte) : Z := Z.of_N (Byte.to_N b).

#[global] Instance byte_eq_dec : EqDecision byte := Byte.byte_eq_dec.

Declare Scope int_scope.
Delimit Scope int_scope with int.

(** Unsigned wrap-around at width [w]. *)
Definition wrapU (w x : Z) : Z := x `mod` 2 ^ w.

(** Two's-complement wrap-around at width [w] (an [as iN] cast). *)
Definition wrapS (w x : Z) : Z := (x + 2 ^ (w - 1)) `mod` 2 ^ w - 2 ^ (w - 1).

Notation "a +u64 b" := (wrapU 64 (a + b)) (at level 50, left associativity) : int_scope.
Notation "a *u64 b" := (wrapU 64 (a * b)) (at level 40, left associativity) : int_scope.

Definition in_u64 (x : Z) : Prop := (0 <= x < 2 ^ 64)%Z.

Lemma wrapU_small w x : (0 <= x < 2 ^ w)%Z -> wrapU w x = x.
Proof. intros. by apply Z.mod_small. Qed.

Lemma wrapU_bounds w x : (0 <= w)%Z -> (0 <= wrapU w x < 2 ^ w)%Z.
Proof. intros. apply Z.mod_pos_bound. apply Z.pow_pos_nonneg; lia. Qed.

Lemma wrapS_small w x : (0 < w)%Z -> (- 2 ^ (w - 1) <= x < 2 ^ (w - 1))%Z -> wrapS w x = x.
Proof.
  intros Hw Hx. unfold wrapS.
  assert (2 ^ w = 2 * 2 ^ (w - 1))%Z as Hp.
  { rewrite <- Z.pow_succ_r by lia. f_equal; lia. }
  rewrite Z.mod_small by lia. lia.
Qed.

Lemma wrapS_bounds w x : (0 < w)%Z -> (- 2 ^ (w - 1) <= wrapS w x < 2 ^ (w - 1))%Z.
Proof.
  intros Hw. unfold wrapS.
  assert (2 ^ w = 2 * 2 ^ (w - 1))%Z as Hp.
  { rewrite <- Z.pow_succ_r by lia. f_equal; lia. }
  pose proof (Z.mod_pos_bound (x + 2 ^ (w - 1)) (2 ^ w)). lia.
Qed.

(** ** Results and errors *)

(** [Result<A, E>]. *)
Inductive result (A E : Type) : Type :=
| Ok (a : A)
| Err (e : E).
Arguments Ok {A E} a.
Arguments Err {A E} e.

Definition is_ok {A E} (r : result A E) : bool :=
  match r with Ok _ => true | Err _ => false end.

#[global] Instance result_eq_dec {A E} `{EqDecision A, EqDecision E} : EqDecision (result A E).
Proof. solve_decision. Defined.

(** The [?] operator on [Result]. *)
Definition result_bind {A B E} (r : result A E) (k : A -> result B E) : result B E :=
  match r with Ok a => k a | Err e => Err e end.

(** ** Computations that may panic or run out of fuel

    Imperative code is written in a state monad whose outcome is a value and
    a state, a panic, or the exhaustion of the fuel given to a loop whose
    termination depends on the outside world. *)
Inductive outcome (A : Type) : Type :=
| Ret (a : A)
| Panic
| NoFuel.
Arguments Ret {A} a.
Arguments Panic {A}.
Arguments NoFuel {A}.

(** The [?] operator on what a function that may panic returns. *)
Definition outcome_try {A B E} (o : outcome (result A E)) (k : A -> outcome (result B E)) : outcome (result B E) :=
  match o with
  | Ret (Ok a) => k a
  | Ret (Err e) => Ret (Err e)
  | Panic => Panic
  | NoFuel => NoFuel
  end.

Lemma outcome_try_assoc {A B D E} (o : outcome (result A E)) (k : A -> outcome (result B E))
    (k' : B -> outcome (result D E)) :
  outcome_try o (fun a => outcome_try (k a) k') = outcome_try (outcome_try o k) k'.
Proof. by destruct o as [[]| |]. Qed.

Definition M (St A : Type) : Type := St -> outcome (A * St).

#[global] Instance M_ret St : MRet (M St) := fun A a s => Ret (a, s).
#[global] Instance M_bind St : MBind (M St) := fun A B k m s =>
  match m s with
  | Ret (a, s') => k a s'
  | Panic => Panic
  | NoFuel => NoFuel
  end.

Section monad.
Context {St : Type}.

Definition get {A} (f : St -> A) : M St A := fun s => Ret (f s, s).
Definition modify (f : St -> St) : M St () := fun s => Ret ((), f s).
Definition panic {A} : M St A := fun _ => Panic.
Definition no_fuel {A} : M St A := fun _ => NoFuel.

(** Run a component's own state transformer on a field of the state. *)
Definition liftS {F A} (gt : St -> F) (st : F -> St -> St) (op : F -> A * F) : M St A :=
  fun s => let '(a, f) := op (gt s) in Ret (a, st f s).

(** As [liftS], for an operation that panics where it answers [None]. *)
Definition liftO {F A} (gt : St -> F) (st : F -> St -> St) (op : F -> option (A * F)) : M St A :=
  fun s => match op (gt s) with Some (a, f) => Ret (a, st f s) | None => Panic end.

(** [if cond { body }]. *)
Definition when (b : bool) (body : M St ()) : M St () :=
  if b then body else mret ().

(** [for x in l { body x }]. *)
Fixpoint forM {A} (l : list A) (body : A -> M St ()) : M St () :=
  match l with
  | [] => mret ()
  | x :: l' => body x ;; forM l' body
  end.

(** [while cond { body }] with at most [fuel] iterations. *)
Fixpoint whileM (fuel : nat) (cond : St -> bool) (body : M St ()) : M St () :=
  fun s =>
    if cond s then
      match fuel with
      | O => NoFuel
      | S n => (body ;; whileM n cond body) s
      end
    else Ret ((), s).
End monad.

Lemma bind_inv {St A B} (m : M St A) (k : A -> M St B) s b s' :
  (m ≫= k) s = Ret (b, s') -> exists a s1, m s = Ret (a, s1) /\ k a s1 = Ret (b, s').
Proof. unfold mbind, M_bind. destruct (m s) as [[a s1]| |]; [|done..]. eauto. Qed.

Lemma bind_panic {St A B} (m : M St A) (k : A -> M St B) s :
  (m ≫= k) s = Panic -> m s = Panic \/ exists a s1, m s = Ret (a, s1) /\ k a s1 = Panic.
Proof. unfold mbind, M_bind. destruct (m s) as [[a s1]| |]; [|by left|done]. right. eauto. Qed.

Lemma bind_eq {St A B} (m : M St A) (k : A -> M St B) s a s1 :
  m s = Ret (a, s1) -> (m ≫= k) s = k a s1.
Proof. unfold mbind, M_bind. by intros ->. Qed.

Lemma rtc_invariant {St} (R : relation St) (I : St -> Prop) x y :
  (forall a b, R a b -> I a -> I b) -> rtc R x y -> I x -> I y.
Proof. intros HI. induction 1; eauto. Qed.

Lemma rtc_backward {St} (R : relation St) (Q : St -> Prop) x y :
  (forall a b, R a b -> Q b -> Q a) -> rtc R x y -> Q y -> Q x.
Proof. intros HQ. induction 1; eauto. Qed.

(** ** Tracking a step relation, preserving an invariant

    [tracks R m]: whenever [m] returns, the final state is reached from the
    initial one by steps of [R].  The combinators of the monad compose
    such facts, so that an operation of the program is shown to follow the
    transition system of its component one call at a time. *)
Section tracks.
Context {St : Type} (R : relation St).

Definition tracks {A} (m : M St A) : Prop :=
  forall s a s', m s = Ret (a, s') -> rtc R s s'.

(** As [tracks], from the states satisfying [P]. *)
Definition tracks_from {A} (P : St -> Prop) (m : M St A) : Prop :=
  forall s a s', P s -> m s = Ret (a, s') -> rtc R s s'.

Lemma tracks_ret {A} (a : A) : tracks (mret a).
Proof. intros s b s' [= <- <-]. reflexivity. Qed.

Lemma tracks_get {A} (f : St -> A) : tracks (get f).
Proof. intros s b s' [= <- <-]. reflexivity. Qed.

Lemma tracks_panic {A} : tracks (@panic St A).
Proof. by intros s b s'. Qed.

Lemma tracks_no_fuel {A} : tracks (@no_fuel St A).
Proof. by intros s b s'. Qed.

Lemma tracks_bind {A B} (m : M St A) (k : A -> M St B) :
  tracks m -> (forall a, tracks (k a)) -> tracks (mbind k m).
Proof.
  intros Hm Hk s b s'. unfold mbind, M_bind.
  destruct (m s) as [[a s1]| |] eqn:E; [|done..]. intros E'.
  etrans; [by eapply Hm|by eapply Hk].
Qed.

Lemma tracks_step (f : St -> St) :
  (forall s, R s (f s)) -> tracks (modify f).
Proof. intros H s a s' [= <- <-]. by apply rtc_once. Qed.

Lemma tracks_lift {F A} gt st (op : F -> A * F) :
  (forall s a f, op (gt s) = (a, f) -> R s (st f s)) -> tracks (liftS gt st op).
Proof.
  intros H s a s'. unfold liftS. destruct (op (gt s)) as [a' f] eqn:E.
  intros [= <- <-]. apply rtc_once. by eapply H.
Qed.

Lemma tracks_lift_partial {F A} gt st (op : F -> option (A * F)) :
  (forall s a f, op (gt s) = Some (a, f) -> R s (st f s)) -> tracks (liftO gt st op).
Proof.
  intros H s a s'. unfold liftO. destruct (op (gt s)) as [[a' f]|] eqn:E; [|done].
  intros [= <- <-]. apply rtc_once. by eapply H.
Qed.

Lemma tracks_if {A} (b : bool) (m1 m2 : M St A) :
  tracks m1 -> tracks m2 -> tracks (if b then m1 else m2).
Proof. by destruct b. Qed.

Lemma tracks_when b m : tracks m -> tracks (when b m).
Proof. intros. apply tracks_if; [done|apply tracks_ret]. Qed.

Lemma tracks_forM {A} (l : list A) body :
  (forall x, x ∈ l -> tracks (body x)) -> tracks (forM l body).
Proof.
  induction l as [|x l IH]; intros H; [apply tracks_ret|].
  apply tracks_bind; [apply H; set_solver|]. intros _. apply IH. set_solver.
Qed.

Lemma tracks_whileM n cond body : tracks body -> tracks (whileM n cond body).
Proof.
  intros Hb. induction n as [|n IH]; intros s a s'; simpl.
  - destruct (cond s); [done|]. intros [= <- <-]. reflexivity.
  - destruct (cond s); [|by intros [= <- <-]].
    by apply (tracks_bind body (fun _ => whileM n cond body)).
Qed.

(** An invariant of the steps holds of every state the computation returns. *)
Lemma tracks_invariant {A} (I : St -> Prop) (m : M St A) s a s' :
  (forall x y, R x y -> I x -> I y) -> tracks m -> I s -> m s = Ret (a, s') -> I s'.
Proof.
  intros HI Hm Hs E. specialize (Hm _ _ _ E). clear E.
  induction Hm; eauto.
Qed.
End tracks.

Lemma tracks_mono {St A} (R R' : relation St) (m : M St A) :
  (forall x y, R x y -> R' x y) -> tracks R m -> tracks R' m.
Proof. intros HR Hm s a s' E. eapply rtc_subrel; [exact HR|by eapply Hm]. Qed.

(** More fuel never changes the result of a loop that has returned. *)
Lemma whileM_mono {St} n m cond (body : M St ()) s r :
  n <= m -> r <> NoFuel -> whileM n cond body s = r -> whileM m cond body s = r.
Proof.
  intros Hnm Hr. revert m s Hnm. induction n as [|n IH]; intros m s Hnm; destruct m as [|m];
    simpl; try lia; destruct (cond s); try done; try by intros <-.
  unfold mbind, M_bind. destruct (body s) as [[u s1]| |]; [|done..].
  apply IH. lia.
Qed.

Create HintDb protun.
#[export] Hint Resolve tracks_ret tracks_get tracks_panic tracks_no_fuel : protun.
#[export] Hint Resolve rtc_refl rtc_once : protun.

(** Decompose a monadic computation along its syntax. *)
Ltac track1 :=
  match goal with
  | |- tracks _ (mbind _ _) => apply tracks_bind; [|intro]
  | |- tracks _ (mret _) => apply tracks_ret
  | |- tracks _ (get _) => apply tracks_get
  | |- tracks _ panic => apply tracks_panic
  | |- tracks _ no_fuel => apply tracks_no_fuel
  | |- tracks _ (when _ _) => apply tracks_when
  | |- tracks _ (forM _ _) => apply tracks_forM; intros ? _
  | |- tracks _ (whileM _ _ _) => apply tracks_whileM
  | |- tracks _ (if ?b then _ else _) => destruct b
  | |- tracks _ (match ?x with _ => _ end) => destruct x
  | |- tracks _ (let '(_, _) := ?x in _) => destruct x
  end.
Ltac track := repeat first [assumption | progress eauto with protun nocore | track1].

(** ** Computations that always return, and where they panic *)

Section returns.
Context {St : Type}.

Definition returns {A} (m : M St A) : Prop := forall s, exists a s', m s = Ret (a, s').

Lemma returns_ret {A} (a : A) : returns (mret a).
Proof. intros s. by exists a, s. Qed.

Lemma returns_get {A} (f : St -> A) : returns (get f).
Proof. intros s. by exists (f s), s. Qed.

Lemma returns_modify (f : St -> St) : returns (modify f).
Proof. intros s. by exists (), (f s). Qed.

Lemma returns_lift {F A} gt st (op : F -> A * F) : returns (liftS gt st op).
Proof. intros s. unfold liftS. destruct (op (gt s)) as [a f]. by exists a, (st f s). Qed.

Lemma returns_bind {A B} (m : M St A) (k : A -> M St B) :
  returns m -> (forall a, returns (k a)) -> returns (m ≫= k).
Proof.
  intros Hm Hk s. destruct (Hm s) as (a & s1 & E). destruct (Hk a s1) as (b & s2 & E2).
  exists b, s2. by rewrite (bind_eq _ _ _ _ _ E).
Qed.

Lemma returns_when b m : returns m -> returns (when b m).
Proof. intros. destruct b; [done|apply returns_ret]. Qed.

Lemma returns_forM {A} (l : list A) body : (forall x, returns (body x)) -> returns (forM l body).
Proof. intros H. induction l; [apply returns_ret|]. by apply returns_bind. Qed.

(** From the states satisfying [P], [m] panics only where [Q] holds. *)
Definition safe {A} (Q P : St -> Prop) (m : M St A) : Prop := forall s, P s -> m s = Panic -> Q s.

Lemma safe_bind {A B} (Q P : St -> Prop) (R : relation St) (m : M St A) (k : A -> M St B) :
  (forall x y, R x y -> P x -> P y) -> (forall x y, R x y -> Q y -> Q x) ->
  tracks R m -> safe Q P m -> (forall a, safe Q P (k a)) -> safe Q P (m ≫= k).
Proof.
  intros HP HQ Ht Hm Hk s Hs. unfold mbind, M_bind. specialize (Hm s Hs).
  destruct (m s) as [[a s1]| |] eqn:E; [|by intros _; apply Hm|done]. intros E1.
  apply (rtc_backward R Q s s1 HQ); [by eapply Ht|]. eapply Hk; [|exact E1].
  by eapply (tracks_invariant R P m s a s1).
Qed.

Lemma safe_returns {A} (Q P : St -> Prop) (m : M St A) : returns m -> safe Q P m.
Proof. intros Hm s _. destruct (Hm s) as (a & s1 & ->). done. Qed.

Lemma safe_lift_partial {F A} (Q P : St -> Prop) gt st (op : F -> option (A * F)) :
  (forall s, op (gt s) = None -> Q s) -> safe Q P (liftO gt st op).
Proof. intros HQ s _. unfold liftO. destruct (op (gt s)) as [[a f]|] eqn:E; [done|]. intros _. by apply HQ. Qed.

Lemma safe_whileM (Q P : St -> Prop) (R : relation St) n cond body :
  (forall x y, R x y -> P x -> P y) -> (forall x y, R x y -> Q y -> Q x) ->
  tracks R body -> safe Q P body -> safe Q P (whileM n cond body).
Proof.
  intros HP HQ Ht Hb. induction n as [|n IH]; intros s Hs; simpl; destruct (cond s); try done.
  by apply (safe_bind Q P R body (fun _ => whileM n cond body)).
Qed.

(** What [m] comes to, a value or a panic, [m'] comes to. *)
Definition approximates {A} (m m' : M St A) : Prop := forall s o, o <> NoFuel -> m s = o -> m' s = o.

Lemma approximates_refl {A} (m : M St A) : approximates m m.
Proof. by intros s o. Qed.

Lemma approximates_no_fuel {A} (m : M St A) : approximates no_fuel m.
Proof. by intros s o Ho <-. Qed.

Lemma approximates_bind {A B} (m m' : M St A) (k k' : A -> M St B) :
  approximates m m' -> (forall a, approximates (k a) (k' a)) -> approximates (m ≫= k) (m' ≫= k').
Proof.
  intros Hm Hk s o Ho. unfold mbind, M_bind. destruct (m s) as [[a s1]| |] eqn:E; [| |by intros <-].
  - rewrite (Hm s (Ret (a, s1))) by done. by apply Hk.
  - by rewrite (Hm s Panic) by done.
Qed.
End returns.

Ltac returns1 :=
  match goal with
  | |- returns (mbind _ _) => apply returns_bind; [|intro]
  | |- returns (mret _) => apply returns_ret
  | |- returns (get _) => apply returns_get
  | |- returns (modify _) => apply returns_modify
  | |- returns (liftS _ _ _) => apply returns_lift
  | |- returns (when _ _) => apply returns_when
  | |- returns (forM _ _) => apply returns_forM; intros ?
  | |- returns (if ?b then _ else _) => destruct b
  | |- returns (match ?x with _ => _ end) => destruct x
  | |- returns (let '(_, _) := ?x in _) => destruct x
  end.
Ltac solve_returns := repeat first [assumption | returns1 | progress eauto with protun nocore].

(** Decompose a comparison of two computations with the same shape. *)
Ltac approx1 :=
  match goal with
  | |- approximates ?m ?m => apply approximates_refl
  | |- approximates no_fuel _ => apply approximates_no_fuel
  | |- approximates (mbind _ _) (mbind _ _) => apply approximates_bind; [|intro]
  | |- approximates (when ?b _) (when ?b _) => destruct b; simpl
  | |- approximates (if ?b then _ else _) _ => destruct b
  | |- approximates (match ?x with _ => _ end) _ => destruct x
  end.
Ltac approx := repeat first [assumption | progress eauto with protun nocore | approx1].

(** ** Lists and options *)

Section lists.
Context {A : Type}.

(** [retain]/[filter] with a boolean test. *)
Definition retain (p : A -> bool) (l : list A) : list A := List.filter p l.

Lemma elem_of_retain p (l : list A) x : x ∈ retain p l <-> p x = true /\ x ∈ l.
Proof. unfold retain. rewrite !list_elem_of_In, filter_In. tauto. Qed.

Lemma retain_sublist p (l : list A) : sublist (retain p l) l.
Proof. induction l as [|x l IH]; simpl; [done|]. destruct (p x); by constructor. Qed.

Lemma retain_all p (l : list A) : (forall x, x ∈ l -> p x = true) -> retain p l = l.
Proof.
  induction l as [|x l IH]; simpl; [done|]. intros H.
  rewrite (H x) by set_solver. f_equal. apply IH. set_solver.
Qed.

Lemma retain_app p (l k : list A) : retain p (l ++ k) = retain p l ++ retain p k.
Proof. apply List.filter_app. Qed.

(** [iter().find(p)]. *)
Definition find (p : A -> bool) (l : list A) : option A := List.find p l.

Lemma find_Some p (l : list A) x : find p l = Some x -> x ∈ l /\ p x = true.
Proof. rewrite list_elem_of_In. apply List.find_some. Qed.

Lemma find_app p (l k : list A) :
  find p (l ++ k) = match find p l with Some x => Some x | None => find p k end.
Proof. unfold find. induction l as [|x l IH]; simpl; [done|]. by destruct (p x). Qed.

Lemma find_None p (l : list A) : find p l = None <-> forall x, x ∈ l -> p x = false.
Proof.
  induction l as [|y l IH]; simpl.
  - split; [|done]. intros _ x Hx. set_solver.
  - destruct (p y) eqn:E; split; intros H; try done.
    + specialize (H y). rewrite E in H. discriminate H. set_solver.
    + intros x [->|Hx]%elem_of_cons; [done|]. by apply IH.
    + apply IH. intros x Hx. apply H. set_solver.
Qed.
End lists.

(** [iter().last()] on a list of observations. *)
Definition last_of {A B} (f : A -> option B) (l : list A) (d : B) : B :=
  foldl (fun acc x => match f x with Some b => b | None => acc end) d l.

Lemma last_of_snoc {A B} (f : A -> option B) l x d :
  last_of f (l ++ [x]) d = match f x with Some b => b | None => last_of f l d end.
Proof. unfold last_of. by rewrite foldl_snoc. Qed.
