(* ===== verification/Types.v ===== *)
(** * Data exchanged by the components

    The records and enums of [src/api] and [src/connection/streams.rs], and
    the types of the [pvpnclient] crate that cross its interface, the latter
    with exactly the constructors and fields the source names.  The model is
    of the default feature set ([unix], [mio], [local-agent]). *)

From S2P Require Import Prelude.

(** ** Standard-library data *)

(** [Ipv4Addr] is its 32-bit and [Ipv6Addr] its 128-bit number. *)
Inductive IpAddr :=
| V4 (addr : Z)
| V6 (addr : Z).

#[global] Instance IpAddr_eq_dec : EqDecision IpAddr.
Proof. solve_decision. Defined.
#[global] Instance IpAddr_countable : Countable IpAddr.
Proof.
  refine (inj_countable'
    (fun i => match i with V4 a => inl a | V6 a => inr a end)
    (fun s => match s with inl a => V4 a | inr a => V6 a end) _).
  by intros [].
Defined.

(** The wrapper [struct IpAddress(IpAddr)] derives its equality and hash. *)
Abbreviation IpAddress := IpAddr.

Record SocketAddr := { sa_ip : IpAddr; sa_port : Z }.

(** Durations and instants are whole nanoseconds. *)
Abbreviation Duration := Z.
Abbreviation Instant := Z.
Definition from_secs (s : Z) : Duration := (s * 1000000000)%Z.
Definition as_millis (d : Duration) : Z := (d / 1000000)%Z.

(** [std::io::ErrorKind]: the kinds the source names, the remaining ones
    being told apart by a number. *)
Inductive ErrorKind :=
| AddrInUse | AddrNotAvailable | AlreadyExists | BrokenPipe | ConnectionAborted
| ConnectionRefused | ConnectionReset | HostUnreachable | Interrupted | InvalidData
| InvalidInput | NetworkDown | NetworkUnreachable | NotConnected | NotFound
| PermissionDenied | QuotaExceeded | ResourceBusy | TimedOut | UnexpectedEof
| WouldBlockKind | WriteZero | OtherKind | UnlistedKind (n : N).

#[global] Instance ErrorKind_eq_dec : EqDecision ErrorKind.
Proof. solve_decision. Defined.

(** [std::io::Error]. *)
Record io_error := { kind : ErrorKind; raw_os_error : option Z; message : string }.

#[global] Instance io_error_eq_dec : EqDecision io_error.
Proof. solve_decision. Defined.

(** [io::Error::new(kind, message)]. *)
Definition io_error_new (k : ErrorKind) (msg : string) : io_error :=
  {| kind := k; raw_os_error := None; message := msg |}.

Abbreviation io_result A := (result A io_error).

(** ** src/api/connection.rs *)

Definition CLIENT_PRIV_KEY_SIZE_BYTES : nat := 32.
Definition PEER_PUB_KEY_SIZE_BYTES : nat := 32.

Record WgClientPrivateKey := { client_key : list byte }.
Record WgPeerPublicKey := { peer_key : list byte }.

#[global] Instance WgPeerPublicKey_eq_dec : EqDecision WgPeerPublicKey.
Proof. solve_decision. Defined.

Record PeerInfo := {
  peer_id : string;
  server_ip : IpAddress;
  server_public_key : WgPeerPublicKey;
  udp_ports : list Z;
  tcp_ports : list Z;
  tls_ports : list Z;
  priority : Z;
  peer_exit_label : option string;
}.

#[global] Instance PeerInfo_eq_dec : EqDecision PeerInfo.
Proof. solve_decision. Defined.

Inductive FileWriteMode := Append | Overwrite.

Inductive PcapFile :=
| Path (path : string) (mode : FileWriteMode)
| Fd (fd : Z).

Record PcapFileInfo := { pcap_file : PcapFile; max_bytes : option Z }.

#[global] Instance FileWriteMode_eq_dec : EqDecision FileWriteMode.
Proof. solve_decision. Defined.
#[global] Instance PcapFile_eq_dec : EqDecision PcapFile.
Proof. solve_decision. Defined.
#[global] Instance PcapFileInfo_eq_dec : EqDecision PcapFileInfo.
Proof. solve_decision. Defined.

Inductive ConnectivityEvent := Up | Down | NetworkSwitch.

Inductive CacheKey := Certificate | PrivateKey | ApiSession.

#[global] Instance CacheKey_eq_dec : EqDecision CacheKey.
Proof. solve_decision. Defined.

Inductive TunStreamInfo := NoTun | TunFd (fd : Z).

Record Cookie := { cookie_name : string; cookie_value : string }.
Record Cookies := { items : list Cookie }.
Record ForkSelectorInfo := { selector : string; cookies : Cookies }.

(** ** src/api/local_agent.rs *)

Inductive NetshieldLevel :=
| NetshieldNone | MalwareFilter | AdsAndMalwareFilter | AdultAndAdsAndMalwareFilter.

#[global] Instance NetshieldLevel_eq_dec : EqDecision NetshieldLevel.
Proof. solve_decision. Defined.

Record LocalAgentSettings := {
  split_tcp : option bool;
  netshield_level : option NetshieldLevel;
  soft_jail : option bool;
  port_forwarding : option bool;
  random_nat : option bool;
  circumvention_routing : option bool;
}.

#[global] Instance LocalAgentSettings_eq_dec : EqDecision LocalAgentSettings.
Proof. solve_decision. Defined.

(** [LocalAgentSettings::default()]. *)
Definition LocalAgentSettings_default : LocalAgentSettings :=
  {| split_tcp := None; netshield_level := None; soft_jail := None;
     port_forwarding := None; random_nat := None; circumvention_routing := None |}.

(** The floating-point coordinates are kept as their bit patterns: no
    component computes with them. *)
Record Coordinates := { latitude : Z; longitude : Z }.

Inductive Restriction :=
| Streaming (reason : string)
| Torrent (reason : string)
| OtherRestriction (name reason : string).

#[global] Instance Coordinates_eq_dec : EqDecision Coordinates.
Proof. solve_decision. Defined.
#[global] Instance Restriction_eq_dec : EqDecision Restriction.
Proof. solve_decision. Defined.

Record AgentConnectionInfo := {
  server_exit_v4 : option IpAddress;
  server_exit_v6 : option IpAddress;
  user_isp_ip : option string;
  user_isp_country_code : option string;
  user_isp_name : option string;
  user_isp_coordinates : option Coordinates;
  info_restrictions : list Restriction;
  groups : list string;
  settings : LocalAgentSettings;
}.

#[global] Instance AgentConnectionInfo_eq_dec : EqDecision AgentConnectionInfo.
Proof. solve_decision. Defined.

Definition AgentConnectionInfo_default : AgentConnectionInfo :=
  {| server_exit_v4 := None; server_exit_v6 := None; user_isp_ip := None;
     user_isp_country_code := None; user_isp_name := None; user_isp_coordinates := None;
     info_restrictions := []; groups := []; settings := LocalAgentSettings_default |}.

Inductive WaitJailReason :=
| BadUserBehavior (msg : string)
| DisabledUser (msg : string)
| LowPlan (msg : string)
| Need2FA (msg : string)
| PendingInvoice (msg : string)
| SessionOverLimit (msg : string)
| WaitingClientChallengeReply (msg : string)
| Internal (msg : string)
| OtherJail (code : Z) (msg : string).

#[global] Instance WaitJailReason_eq_dec : EqDecision WaitJailReason.
Proof. solve_decision. Defined.

(** ** src/api/state.rs *)

Inductive Protocol := WireguardUdp | WireguardTcp | Stealth.

#[global] Instance Protocol_eq_dec : EqDecision Protocol.
Proof. solve_decision. Defined.

Inductive InterfaceError := IoError (error : string).

#[global] Instance InterfaceError_eq_dec : EqDecision InterfaceError.
Proof. solve_decision. Defined.

Inductive InterfaceState :=
| InterfaceUp (error : option InterfaceError)
| InterfaceDown (last_error : option InterfaceError).

#[global] Instance InterfaceState_eq_dec : EqDecision InterfaceState.
Proof. solve_decision. Defined.

Inductive DisconnectReason := TunEstablishError (msg : string).

#[global] Instance DisconnectReason_eq_dec : EqDecision DisconnectReason.
Proof. solve_decision. Defined.

Inductive PeerConnectionWaitReason := WaitingForNetwork.

#[global] Instance PeerConnectionWaitReason_eq_dec : EqDecision PeerConnectionWaitReason.
Proof. solve_decision. Defined.

Inductive AgentConnectionWaitReason :=
| SoftJailed
| HardJailed (jails : list WaitJailReason).

#[global] Instance AgentConnectionWaitReason_eq_dec : EqDecision AgentConnectionWaitReason.
Proof. solve_decision. Defined.

Record PeerConnectionInfo := {
  conn_peer_id : string;
  entry_ip : IpAddress;
  protocol : Protocol;
  port : Z;
}.

#[global] Instance PeerConnectionInfo_eq_dec : EqDecision PeerConnectionInfo.
Proof. solve_decision. Defined.

Inductive ConnectionState :=
| Disconnected (error : option DisconnectReason)
| Connecting (peers : list PeerConnectionInfo) (wait_reasons : list PeerConnectionWaitReason)
| ConnectingToLocalAgent (peer : PeerConnectionInfo) (wait_reason : option AgentConnectionWaitReason)
| Connected (peer : PeerConnectionInfo) (agent_info : option AgentConnectionInfo).

#[global] Instance ConnectionState_eq_dec : EqDecision ConnectionState.
Proof. solve_decision. Defined.

Record VpnState := { interface_state : InterfaceState; vpn_connection_state : ConnectionState }.

(** ** src/api/events.rs *)

Inductive LocalAgentSettingType :=
| SettingNetshieldLevel | SettingBouncing | SettingPortForwarding
| SettingSplitTcp | SettingSafeMode | SettingRandomNat.

Inductive ErrorEvent :=
| ApiSessionExpired
| LocalAgentSettingPolicyRefused (setting : LocalAgentSettingType)
| CertificateRefreshFatalError.

Inductive CaptureStopReason :=
| Request (file : PcapFileInfo)
| MaxSizeReached (file : PcapFileInfo)
| CaptureDisconnected (file : PcapFileInfo)
| AlreadyStopped.

(** [estimated_loss] is an [f32], kept as its bit pattern. *)
Inductive Event :=
| ConnectionStats (timestamp_ms received_bytes sent_bytes : Z)
    (time_since_last_handshake : Duration) (estimated_loss : Z)
    (estimated_round_trip_time : Duration)
| PacketCaptureStarted (info : PcapFileInfo)
| PacketCaptureStopped (reason : CaptureStopReason)
| LocalAgentStats (bytes_received bytes_sent malicious_blocked ads_blocked
    trackers_blocked adult_content_blocked data_saved : option Z)
| ErrorEv (error : ErrorEvent).

(** ** src/connection/streams.rs *)

Inductive WouldBlock := WouldBlockYes | WouldBlockNo.
Inductive PendingWrite := PendingYes | PendingNo.

#[global] Instance WouldBlock_eq_dec : EqDecision WouldBlock.
Proof. solve_decision. Defined.
#[global] Instance PendingWrite_eq_dec : EqDecision PendingWrite.
Proof. solve_decision. Defined.

(** [impl From<bool> for PendingWrite]. *)
Definition PendingWrite_from (value : bool) : PendingWrite :=
  if value then PendingYes else PendingNo.

Inductive StreamResult :=
| StreamOk (bytes_count start_offset : nat) (would_block : WouldBlock) (pending_write : PendingWrite)
| StreamErr (e : io_error)
| StreamClosed.

(** [StreamResult::ok]. *)
Definition stream_ok (bytes_count : nat) (wb : WouldBlock) (pw : PendingWrite) : StreamResult :=
  StreamOk bytes_count 0 wb pw.

(** ** Types of the pvpnclient crate that cross its interface *)

(** Stream identifiers are integers ([StreamId::from(i32)]) that are ordered;
    the identifiers the crate reserves are constants of it, all the source
    relies on being that they are told apart by a [match]. *)
Abbreviation StreamId := Z.

Class StreamIds := {
  TUN_STREAM_ID : StreamId;
  PCAP_STREAM_ID : StreamId;
  PRIVKEY_STREAM_ID : StreamId;
  CERT_STREAM_ID : StreamId;
  MUON_AUTH_STREAM_ID : StreamId;
  reserved_distinct :
    NoDup [TUN_STREAM_ID; PCAP_STREAM_ID; PRIVKEY_STREAM_ID; CERT_STREAM_ID; MUON_AUTH_STREAM_ID];
}.

Record PollResult := {
  stream_id : StreamId;
  is_readable : bool;
  is_writable : bool;
  is_error : bool;
}.

(** [PeerAddr], built from an optional address of each family. *)
Inductive PeerAddr :=
| PeerIpv4 (a : Z)
| PeerIpv6 (a : Z)
| PeerBoth (a4 a6 : Z).

#[global] Instance PeerAddr_eq_dec : EqDecision PeerAddr.
Proof. solve_decision. Defined.
#[global] Instance PeerAddr_countable : Countable PeerAddr.
Proof.
  refine (inj_countable'
    (fun i => match i with PeerIpv4 a => inl a | PeerIpv6 a => inr (inl a)
                         | PeerBoth a b => inr (inr (a, b)) end)
    (fun s => match s with inl a => PeerIpv4 a | inr (inl a) => PeerIpv6 a
                         | inr (inr (a, b)) => PeerBoth a b end) _).
  by intros [].
Defined.

(** A [Peer] is the values its builder was given. *)
Record Peer := {
  p_addr : PeerAddr;
  p_key : list byte;
  p_tag : option string;
  p_udp_ports : list Z;
  p_tcp_ports : list Z;
  p_tls_ports : list Z;
  p_priority : Z;
  p_bouncing_labels : list string;
}.

#[global] Instance Peer_eq_dec : EqDecision Peer.
Proof. solve_decision. Defined.

Inductive VpnProtocol := VpnWireguardUdp | VpnWireguardTcp | VpnStealth.

#[global] Instance VpnProtocol_eq_dec : EqDecision VpnProtocol.
Proof. solve_decision. Defined.

Inductive TunnelInfo :=
| TunnelConnected (protocol : VpnProtocol) (peer : Peer) (peer_addr : SocketAddr) (since : Duration)
| TunnelConnecting (protocol : VpnProtocol) (peer : Peer) (peer_addr : SocketAddr)
| TunnelDisconnected.

Record TunnelStats := {
  rx : Z; tx : Z;
  time_since_last_handshake : Duration;
  estimated_loss : Z;
  estimated_rtt : Duration;
}.

Inductive VpnStreamKind := UdpStream | TcpStream.

#[global] Instance VpnStreamKind_eq_dec : EqDecision VpnStreamKind.
Proof. solve_decision. Defined.

Record OpenStream := { os_kind : VpnStreamKind; os_addr : SocketAddr }.

Inductive SystemError :=
| SysAddressInUse | SysAddrNotAvailable | SysAlreadyExists | SysBrokenPipe
| SysConnectionAborted | SysConnectionRefused | SysConnectionReset | SysHostUnreachable
| SysInterrupted | SysInvalidData | SysInvalidInput | SysNetworkDown
| SysNetworkUnreachable | SysNotConnected | SysNotFound | SysPermissionDenied
| SysQuotaExceeded | SysResourceBusy | SysTimeout | SysUnexpectedEof | SysWouldBlock
| SysWriteZero | SysUnknown.

(** A socket option is opaque to the source. *)
Abbreviation SocketOption := N.

Inductive ActionKind :=
| ActOpen (target : OpenStream) (first_write : option (list byte))
| ActWrite (data : list byte)
| ActSet (option : SocketOption)
| ActClose
| ActShutdown
| ActRead (data : list byte)
| ActError (err : SystemError)
| ActDone.

Record Action := { act_stream : StreamId; act_kind : ActionKind }.

Definition Action_read (id : StreamId) (data : list byte) : Action :=
  {| act_stream := id; act_kind := ActRead data |}.
Definition Action_close (id : StreamId) : Action := {| act_stream := id; act_kind := ActClose |}.
Definition Action_done (id : StreamId) : Action := {| act_stream := id; act_kind := ActDone |}.
Definition Action_error (id : StreamId) (e : SystemError) : Action :=
  {| act_stream := id; act_kind := ActError e |}.

(** *** Local agent *)

Inductive LocalAgentSelector :=
| SelInfoEstablished | SelInfoGroups | SelInfoRemote | SelRestrictions
| SelSettingsCircumventionRouting | SelSettingsLabel | SelSettingsNetshieldLevel
| SelSettingsPortForwarding | SelSettingsRandomNat | SelSettingsSoftjail
| SelSettingsSplitTcp | SelJails
| SelStatsBytesSent | SelStatsBytesReceived | SelStatsNetshieldBlockCountAds
| SelStatsNetshieldBlockCountMalicious | SelStatsNetshieldBlockCountTracking
| SelStatsNetshieldBlockCountAdult.

#[global] Instance LocalAgentSelector_eq_dec : EqDecision LocalAgentSelector.
Proof. solve_decision. Defined.

Inductive PvpnNetshieldLevel :=
| PvpnNetshieldNone | PvpnMalwareFilter | PvpnAdsAndMalwareFilter
| PvpnAdultAndAdsAndMalwareFilter.

Record SessionSettings := {
  ss_split_tcp : option bool;
  ss_netshield_level : option PvpnNetshieldLevel;
  ss_softjail : option bool;
  ss_port_forwarding : option bool;
  ss_random_nat : option bool;
  ss_circumvention_routing : option bool;
}.

(** [tls_snis] always takes its default value. *)
Record Settings := {
  authorized_protocols : list VpnProtocol;
  session_settings : SessionSettings;
}.

Inductive LocalAgentAction :=
| Watch (sel : LocalAgentSelector)
| GetValue (sel : LocalAgentSelector)
| ProvideAuthForkSelector (selector : string) (cookies : list (string * string)).

Inductive PvpnRestriction :=
| PvpnStreaming (reason : string)
| PvpnTorrent (reason : string)
| PvpnOther (name reason : string).

Inductive HandledJail :=
| SystemErrorJail (msg : string)
| ExpiredCertificate (msg : string)
| RevokedCertificate (msg : string)
| KeyAlreadyUsed (msg : string)
| InvalidCertificateSignature (msg : string).

Inductive ToHandleJail :=
| RequireRecent2FA (msg : string)
| Expired2FA (msg : string)
| Require2FA (msg : string)
| WaitingClientChallengeReplyJail (msg : string)
| PolicyViolation1 (msg : string)
| PolicyViolation2 (msg : string)
| BadUserBehaviorJail (msg : string)
| DisabledUserJail (msg : string)
| SessionOverLimitJail (msg : string)
| FreeSessionOverLimit (msg : string)
| BasicSessionOverLimit (msg : string)
| PlusSessionOverLimit (msg : string)
| VisionarySessionOverLimit (msg : string)
| ProSessionOverLimit (msg : string)
| GuestSession (msg : string)
| RestrictedServer (msg : string)
| NoCertificateProvided (msg : string)
| SessionInstallationInProgress (msg : string)
| UnknownJail (code : Z) (msg : string).

Inductive Jail :=
| InternallyHandled (j : HandledJail)
| ToHandle (j : ToHandleJail).

Inductive LocalAgentServerError :=
| UnknownFeatureRequest | BadMessageSyntax | SessionNotFound | SessionError
| NetshieldLevelPolicyRefused | BouncingPolicyRefused | PortFwPolicyRefused
| SplitTcpPolicyRefused | SafeModePolicyRefused | RandomNatPolicyRefused
| NetshieldLevelSystemErr | NetshieldLevelInvalidInput | BouncingSystemErr
| BouncingInvalidInput | PortFwSystemErr | PortFwInvalidInput | PortFwNotAvailable
| RandomNatSystemErr | RandomNatInvalidInput | SplitTcpSystemErr | SplitTcpInvalidInput
| SoftJailSystemErr | SoftJailInvalidInput | SafeModeSystemErr | SafeModeInvalidInput
| ConflictBouncingVsRandomNat | ConflictBouncingVsSplitTcp | ConflictBouncingVsPortFw
| OtherServerError (msg : string) | UnknownField.

Inductive LocalAgentError :=
| MuonAuthError (detail : string)
| MuonErrorOnCertRefresh (detail : string)
| TooManyTriesOnCertRefresh
| ServerError (e : LocalAgentServerError).

(** [Jails] wraps a hash set: the list is its iteration order.  The last
    constructor stands for the values the handler only logs. *)
Inductive LocalAgentValue :=
| InfoEstablished (timestamp : option Duration)
| InfoGroups (v : option (list string))
| InfoPlatform (v : option string)
| InfoRemote (v : option string)
| InfoRemoteReal (v : option string)
| InfoRemoteRealLocationCode (v : option string)
| InfoExitIpv4 (v : option Z)
| InfoExitIpv6 (v : option Z)
| RestrictionsValue (v : option (list PvpnRestriction))
| SettingsCircumventionRouting (v : option bool)
| SettingsLabel (v : option string)
| SettingsNetshieldLevel (v : option PvpnNetshieldLevel)
| SettingsPortForwarding (v : option bool)
| SettingsRandomNat (v : option bool)
| SettingsSoftjail (v : option bool)
| SettingsSplitTcp (v : option bool)
| StatsBytesReceived (v : option Z)
| StatsBytesSent (v : option Z)
| StatsNetshieldBlockCountMalicious (v : option Z)
| StatsNetshieldBlockCountAds (v : option Z)
| StatsNetshieldBlockCountTracking (v : option Z)
| StatsNetshieldBlockCountAdult (v : option Z)
| JailsValue (v : option (list Jail))
| UnrecognizedValue.

Inductive LocalAgentMessage :=
| LaValue (v : LocalAgentValue)
| LaError (e : LocalAgentError)
| MuonForkSelectorNeeded
| LocalAgentConnected.

(** ** Messages and configuration of the connection *)

Inductive ConnectionMode :=
| NoLocalAgent (wg_private_key : WgClientPrivateKey)
| LocalAgent (user_agent app_version : string) (settings : LocalAgentSettings).

Record InitialConnectionConfig := {
  cfg_peers : list PeerInfo;
  cfg_network_available : bool;
  cfg_pcap_file : option PcapFileInfo;
  cfg_connection_mode : ConnectionMode;
}.

Record ConfigUpdate := {
  upd_peers : option (list PeerInfo);
  upd_settings : option LocalAgentSettings;
  upd_tun : option TunStreamInfo;
}.

Inductive PvpnMessage :=
| Disconnect
| ConnectivityChange (event : ConnectivityEvent)
| StartPacketCapture (info : PcapFileInfo)
| StopPacketCapture
| RequestStats
| Update (update : ConfigUpdate)
| ProvideApiForkSelector (info : ForkSelectorInfo)
| RequestLocalAgentStats.
