(* ===== verification/Net.v ===== *)
(** * Textual form of IP addresses

    [std::net::IpAddr]'s [Display], which names a peer without a tag. *)

From S2P Require Import Prelude Types.

Local Open Scope Z_scope.

(** The [i]-th byte from the right. *)
Definition octet (a : Z) (i : Z) : Z := Z.land (Z.shiftr a (8 * i)) 255.

Definition ipv4_to_string (a : Z) : string :=
  pretty (octet a 3) +:+ "." +:+ pretty (octet a 2) +:+ "." +:+ pretty (octet a 1) +:+ "."
    +:+ pretty (octet a 0).

(** The eight 16-bit groups, most significant first. *)
Definition segments (a : Z) : list Z :=
  (fun i => Z.land (Z.shiftr a (16 * i)) 65535) <$> [7; 6; 5; 4; 3; 2; 1; 0].

(** [Ipv6Addr::new] of eight 16-bit groups. *)
Definition ipv6_new (groups : list Z) : Z := foldl (fun acc g => acc * 65536 + g) 0 groups.

Definition hex_digit (d : Z) : string :=
  match String.get (Z.to_nat d) "0123456789abcdef" with
  | Some ch => String.String ch String.EmptyString
  | None => String.EmptyString
  end.

(** [{:x}] of a 16-bit number. *)
Definition hex16 (s : Z) : string :=
  let d i := hex_digit (Z.land (Z.shiftr s (4 * i)) 15) in
  if s <? 16 then d 0
  else if s <? 256 then d 1 +:+ d 0
  else if s <? 4096 then d 2 +:+ d 1 +:+ d 0
  else d 3 +:+ d 2 +:+ d 1 +:+ d 0.

Definition fmt_subslice (l : list Z) : string :=
  match l with
  | [] => ""
  | s :: l => foldl (fun acc s => acc +:+ ":" +:+ hex16 s) (hex16 s) l
  end.

Record span := { span_start : nat; span_len : nat }.

(** The first longest run of zero groups. *)
Definition longest_zeros (l : list Z) : span :=
  (foldl (fun '(i, (longest, current)) s =>
    (S i,
     if s =? 0 then
       let current := {| span_start := if (span_len current =? 0)%nat then i else span_start current;
                         span_len := S (span_len current) |} in
       (if (span_len longest <? span_len current)%nat then current else longest, current)
     else (longest, {| span_start := 0; span_len := 0 |})))
    (0%nat, ({| span_start := 0; span_len := 0 |}, {| span_start := 0; span_len := 0 |})) l).2.1.

Definition ipv6_to_string (a : Z) : string :=
  let s := segments a in
  if decide (take 6 s = [0; 0; 0; 0; 0; 65535]) then "::ffff:" +:+ ipv4_to_string (Z.land a (2 ^ 32 - 1))
  else
    let z := longest_zeros s in
    if (1 <? span_len z)%nat then
      fmt_subslice (take (span_start z) s) +:+ "::" +:+ fmt_subslice (drop (span_start z + span_len z) s)
    else fmt_subslice s.

Definition ip_to_string (ip : IpAddr) : string :=
  match ip with V4 a => ipv4_to_string a | V6 a => ipv6_to_string a end.

Example ipv4_localhost : ip_to_string (V4 2130706433) = "127.0.0.1".
Proof. reflexivity. Qed.
Example ipv6_unspecified : ip_to_string (V6 0) = "::".
Proof. reflexivity. Qed.
Example ipv6_documentation : ip_to_string (V6 (0x20010db8 * 2 ^ 96 + 1)) = "2001:db8::1".
Proof. vm_compute. reflexivity. Qed.
Example ipv6_mapped : ip_to_string (V6 (0xffff * 2 ^ 32 + 0x01020304)) = "::ffff:1.2.3.4".
Proof. vm_compute. reflexivity. Qed.
