(* ===== verification/IpParse.v ===== *)
(** * Parsing of IP addresses

    [IpAddress] crosses the language boundary as a string
    ([src/api/type_conversions.rs]): it is printed with [Display] and read back
    with [IpAddr::from_str], the standard library's parser.  The parser is
    modelled step by step, and reading what was printed gives the address back. *)

From Stdlib Require Import Strings.Ascii.
From S2P Require Import Prelude Types Net.

Local Open Scope char_scope.
Local Open Scope Z_scope.

(** ** The parser *)

(** A parser moves over the rest of the input, also when it fails. *)
Definition Parser (A : Type) := list ascii -> option A * list ascii.

Definition read_atomically {A} (inner : Parser A) : Parser A := fun state =>
  match inner state with
  | (None, _) => (None, state)
  | (Some a, state') => (Some a, state')
  end.

Definition read_char : Parser ascii := fun state =>
  match state with [] => (None, []) | ch :: state => (Some ch, state) end.

Definition read_given_char (target : ascii) : Parser () :=
  read_atomically (fun state =>
    match read_char state with
    | (Some ch, state) => (if bool_decide (ch = target) then Some () else None, state)
    | (None, state) => (None, state)
    end).

Definition read_separator {A} (sep : ascii) (index : nat) (inner : Parser A) : Parser A :=
  read_atomically (fun state =>
    if (0 <? index)%nat then
      match read_given_char sep state with
      | (None, state) => (None, state)
      | (Some _, state) => inner state
      end
    else inner state).

(** [char::to_digit]. *)
Definition to_digit (radix : Z) (ch : ascii) : option Z :=
  let n := Z.of_nat (nat_of_ascii ch) in
  let d := if (48 <=? n) && (n <=? 57) then n - 48
           else if (97 <=? n) && (n <=? 122) then n - 87
           else if (65 <=? n) && (n <=? 90) then n - 55
           else radix in
  if d <? radix then Some d else None.

(** The loop of [read_number] with a maximal number of digits: [None] when there
    are too many, otherwise the value, modulo the width of [u32], and the count. *)
Fixpoint read_digits (radix : Z) (max_digits count : nat) (acc : Z) (state : list ascii)
  : option (Z * nat) * list ascii :=
  match state with
  | [] => (Some (acc, count), [])
  | ch :: rest =>
      match to_digit radix ch with
      | None => (Some (acc, count), state)
      | Some d =>
          if (max_digits <? S count)%nat then (None, rest)
          else read_digits radix max_digits (S count) ((acc * radix + d) mod 2 ^ 32) rest
      end
  end.

(** [max] is the largest value of the type that is read. *)
Definition read_number (radix : Z) (max_digits : nat) (allow_zero_prefix : bool) (max : Z) : Parser Z :=
  read_atomically (fun state =>
    let has_leading_zero := bool_decide (head state = Some "0") in
    match read_digits radix max_digits 0 0 state with
    | (None, state) => (None, state)
    | (Some (value, digit_count), state) =>
        (if (digit_count =? 0)%nat then None
         else if negb allow_zero_prefix && has_leading_zero && (1 <? digit_count)%nat then None
         else if value <=? max then Some value else None, state)
    end).

(** The four numbers, [i] of them read so far. *)
Fixpoint read_octets (n i : nat) (groups : list Z) (state : list ascii) : option (list Z) * list ascii :=
  match n with
  | O => (Some groups, state)
  | S n =>
      match read_separator "." i (read_number 10 3 false 255) state with
      | (None, state) => (None, state)
      | (Some g, state) => read_octets n (S i) (groups ++ [g]) state
      end
  end.

Definition ipv4_from_octets (l : list Z) : Z := foldl (fun acc o => acc * 256 + o) 0 l.

Definition read_ipv4_addr : Parser Z :=
  read_atomically (fun state =>
    match read_octets 4 0 [] state with
    | (None, state) => (None, state)
    | (Some groups, state) => (Some (ipv4_from_octets groups), state)
    end).

(** [read_groups] into [n] further slots, [i] of them filled so far: the groups
    read and whether an IPv4 address ended them. *)
Fixpoint read_groups (n i : nat) (state : list ascii) : list Z * bool * list ascii :=
  match n with
  | O => ([], false, state)
  | S n =>
      match (if (0 <? n)%nat then read_separator ":" i read_ipv4_addr state else (None, state)) with
      | (Some v4, state) => ([v4 / 65536; v4 mod 65536], true, state)
      | (None, state) =>
          match read_separator ":" i (read_number 16 4 true 65535) state with
          | (None, state) => ([], false, state)
          | (Some g, state) =>
              let '(gs, v4, state) := read_groups n (S i) state in (g :: gs, v4, state)
          end
      end
  end.

Definition read_ipv6_addr : Parser Z :=
  read_atomically (fun state =>
    let '(head, head_ipv4, state) := read_groups 8 0 state in
    if (length head =? 8)%nat then (Some (ipv6_new head), state)
    else if head_ipv4 : bool then (None, state)
    else
      match read_given_char ":" state with
      | (None, state) => (None, state)
      | (Some _, state) =>
          match read_given_char ":" state with
          | (None, state) => (None, state)
          | (Some _, state) =>
              let limit := (8 - (length head + 1))%nat in
              let '(tail, _, state) := read_groups limit 0 state in
              (Some (ipv6_new (head ++ replicate (8 - length head - length tail)%nat 0 ++ tail)), state)
          end
      end).

Definition read_ip_addr : Parser IpAddr := fun state =>
  match read_ipv4_addr state with
  | (Some a, state) => (Some (V4 a), state)
  | (None, state) =>
      match read_ipv6_addr state with
      | (Some a, state) => (Some (V6 a), state)
      | (None, state) => (None, state)
      end
  end.

(** [IpAddr::from_str]: the whole input must be read. *)
Definition IpAddr_from_str (s : string) : option IpAddr :=
  match read_ip_addr (String.list_ascii_of_string s) with
  | (r, []) => r
  | _ => None
  end.

(** [TryFrom<String> for IpAddress] and [From<IpAddress> for String]. *)
Definition IpAddress_try_from (value : string) : option IpAddr := IpAddr_from_str value.
Definition String_from_IpAddress (value : IpAddr) : string := ip_to_string value.

Example parse_examples :
  IpAddress_try_from "127.0.0.1" = Some (V4 2130706433)
  /\ IpAddress_try_from "2001:db8::1" = Some (V6 (0x20010db8 * 2 ^ 96 + 1))
  /\ IpAddress_try_from "::ffff:1.2.3.4" = Some (V6 (0xffff * 2 ^ 32 + 0x01020304))
  /\ IpAddress_try_from "1:2:3:4:5:6:1.2.3.4" = Some (V6 (ipv6_new [1; 2; 3; 4; 5; 6; 258; 772]))
  /\ IpAddress_try_from "::" = Some (V6 0)
  /\ IpAddress_try_from "01.2.3.4" = None /\ IpAddress_try_from "1.2.3.256" = None
  /\ IpAddress_try_from "1.2.3.4 " = None /\ IpAddress_try_from "1::2::3" = None
  /\ IpAddress_try_from "1:2:3:4:5:6:7::" = Some (V6 (ipv6_new [1; 2; 3; 4; 5; 6; 7; 0]))
  /\ IpAddress_try_from "1:2:3:4:5:6:7::8" = None
  /\ IpAddress_try_from "12345::" = None /\ IpAddress_try_from "" = None.
Proof. vm_compute. tauto. Qed.

(** ** Characters *)

Abbreviation chars := String.list_ascii_of_string.

Lemma chars_app a b : chars (a +:+ b) = chars a ++ chars b.
Proof. induction a as [|ch a IH]; simpl; [done|]. by rewrite IH. Qed.

(** The input ends, or goes on with a character that is no digit. *)
Definition stops (radix : Z) (rest : list ascii) : Prop :=
  match rest with [] => True | ch :: _ => to_digit radix ch = None end.

Lemma to_digit_bounds radix ch d : to_digit radix ch = Some d -> 0 <= d < radix.
Proof.
  unfold to_digit. set (n := Z.of_nat (nat_of_ascii ch)).
  match goal with |- (if ?v <? radix then _ else _) = _ -> _ => destruct (Z.ltb_spec v radix) as [Hlt|]; [|done] end.
  intros [= <-]. split; [|done]. revert Hlt.
  repeat case_match; rewrite ?andb_true_iff, ?Z.leb_le in *; lia.
Qed.

Definition digits_value (radix acc : Z) (ds : list Z) : Z := foldl (fun acc d => acc * radix + d) acc ds.

Abbreviation digits radix := (Forall2 (fun ch d => to_digit radix ch = Some d)).

Lemma read_digits_spec radix max count acc l ds rest :
  digits radix l ds -> stops radix rest -> (count + length l <= max)%nat ->
  0 <= acc < radix ^ Z.of_nat count -> radix ^ Z.of_nat max <= 2 ^ 32 ->
  read_digits radix max count acc (l ++ rest) = (Some (digits_value radix acc ds, (count + length l)%nat), rest).
Proof.
  intros Hl Hr. revert count acc. induction Hl as [|ch d l ds Hd _ IH]; intros count acc Hc Ha Hm; simpl in *.
  - rewrite Nat.add_0_r. destruct rest as [|ch rest]; simpl in *; [done|]. by rewrite Hr.
  - rewrite Hd. pose proof (to_digit_bounds _ _ _ Hd) as Hb.
    destruct (Nat.ltb_spec max (S count)); [lia|].
    assert (0 <= acc * radix + d < radix ^ Z.of_nat (S count)) as Ha'.
    { rewrite Nat2Z.inj_succ, Z.pow_succ_r by lia. nia. }
    assert (radix ^ Z.of_nat (S count) <= radix ^ Z.of_nat max) by (apply Z.pow_le_mono_r; lia).
    rewrite (Z.mod_small (acc * radix + d)) by (destruct Ha'; split; [done|eapply Z.lt_le_trans, Z.le_trans; eassumption]).
    rewrite IH by (done || lia). by rewrite Nat.add_succ_r.
Qed.

Lemma read_number_spec radix max azp mx l ds rest :
  digits radix l ds -> stops radix rest -> l <> [] -> (length l <= max)%nat -> radix ^ Z.of_nat max <= 2 ^ 32 ->
  digits_value radix 0 ds <= mx -> (azp = true \/ head l <> Some "0" \/ length l = 1%nat) ->
  read_number radix max azp mx (l ++ rest) = (Some (digits_value radix 0 ds), rest).
Proof.
  intros Hl Hr Hne Hlen Hm Hv Hz. unfold read_number, read_atomically.
  rewrite (read_digits_spec radix max 0 0 l ds rest) by (done || simpl; lia). simpl.
  destruct l as [|ch l]; [done|]. simpl.
  rewrite (proj2 (Z.leb_le _ _)) by done.
  destruct Hz as [->|[Hz|Hz]]; [done| |].
  - rewrite (bool_decide_eq_false_2 (Some ch = Some "0")) by done. by rewrite andb_false_r.
  - simpl in Hz. injection Hz as ->. by rewrite !andb_false_r.
Qed.

(** Where [read_digits] leaves the input, whatever it answers. *)
Lemma read_digits_rest radix max count acc l rest :
  stops radix rest ->
  exists l', sublist l' l /\ (read_digits radix max count acc (l ++ rest)).2 = l' ++ rest.
Proof.
  intros Hr. revert count acc. induction l as [|ch l IH]; intros count acc; simpl.
  - exists []. split; [done|]. destruct rest as [|ch rest]; simpl in *; [done|]. by rewrite Hr.
  - destruct (to_digit radix ch) as [d|]; [|by exists (ch :: l)]. case_match; [by exists l; split; [constructor|]|].
    destruct (IH (S count) ((acc * radix + d) mod 2 ^ 32)) as (l' & Hs & E). exists l'. split; [by constructor|done].
Qed.

(** ** Numbers in decimal and in hexadecimal *)

Definition decimal_ok (a : Z) : bool :=
  match mapM (to_digit 10) (chars (pretty a)) with
  | Some ds => (digits_value 10 0 ds =? a) && (0 <? length ds)%nat && (length ds <=? 3)%nat
               && (negb (bool_decide (head (chars (pretty a)) = Some "0")) || (length ds =? 1)%nat)
  | None => false
  end.

Lemma decimal_all : forallb decimal_ok (seqZ 0 256) = true.
Proof. vm_compute. reflexivity. Qed.

Lemma read_decimal a rest :
  0 <= a < 256 -> stops 10 rest -> read_number 10 3 false 255 (chars (pretty a) ++ rest) = (Some a, rest).
Proof.
  intros Ha Hr. pose proof decimal_all as Hall. rewrite forallb_forall in Hall.
  specialize (Hall a). rewrite <- list_elem_of_In, elem_of_seqZ in Hall. specialize (Hall ltac:(lia)).
  unfold decimal_ok in Hall. destruct (mapM _ _) as [ds|] eqn:E; [|done].
  apply mapM_Some_1 in E. pose proof (Forall2_length _ _ _ E) as Hl.
  rewrite !andb_true_iff, orb_true_iff, negb_true_iff, bool_decide_eq_false, !Nat.eqb_eq, Nat.ltb_lt, Nat.leb_le, Z.eqb_eq in Hall.
  destruct Hall as [[[Hv H0] H3] Hz]. rewrite <- Hv at 2.
  apply read_number_spec; [done|done| |lia|done|lia|rewrite Hl; tauto].
  intros Hn. rewrite Hn in Hl. simpl in Hl. lia.
Qed.

Lemma hex_digit_spec d : 0 <= d < 16 -> exists ch, chars (hex_digit d) = [ch] /\ to_digit 16 ch = Some d.
Proof.
  intros Hd. assert (d ∈ seqZ 0 16) as Hin by (apply elem_of_seqZ; lia). revert Hin.
  change (seqZ 0 16) with [0; 1; 2; 3; 4; 5; 6; 7; 8; 9; 10; 11; 12; 13; 14; 15].
  rewrite !elem_of_cons. intros Hin. repeat destruct Hin as [->|Hin]; try by eexists. by apply elem_of_nil in Hin.
Qed.

Lemma hex16_spec s :
  0 <= s < 65536 ->
  exists ds, digits 16 (chars (hex16 s)) ds /\ digits_value 16 0 ds = s /\ (0 < length ds <= 4)%nat.
Proof.
  intros Hs. unfold hex16.
  assert (Hd : forall i, 0 <= i -> Z.land (Z.shiftr s (4 * i)) 15 = s / 2 ^ (4 * i) mod 16).
  { intros i Hi. rewrite Z.shiftr_div_pow2 by lia. change 15 with (Z.ones 4). by rewrite Z.land_ones by lia. }
  rewrite !Hd by lia. change (2 ^ (4 * 0)) with 1. change (2 ^ (4 * 1)) with 16.
  change (2 ^ (4 * 2)) with 256. change (2 ^ (4 * 3)) with 4096.
  assert (Hb : forall x, exists ch, chars (hex_digit (x mod 16)) = [ch] /\ to_digit 16 ch = Some (x mod 16)).
  { intros x. apply hex_digit_spec, Z.mod_pos_bound. lia. }
  destruct (Hb (s / 1)) as (c0 & E0 & T0), (Hb (s / 16)) as (c1 & E1 & T1),
    (Hb (s / 256)) as (c2 & E2 & T2), (Hb (s / 4096)) as (c3 & E3 & T3). clear Hb Hd.
  repeat case_match; rewrite ?chars_app, ?E0, ?E1, ?E2, ?E3; simpl;
    rewrite ?Z.ltb_lt, ?Z.ltb_ge in *; eexists; (split; [repeat (constructor; [eassumption|]); constructor|]);
    (split; [unfold digits_value; simpl; Z.to_euclidean_division_equations; lia|simpl; lia]).
Qed.

Lemma read_hex s rest :
  0 <= s < 65536 -> stops 16 rest -> read_number 16 4 true 65535 (chars (hex16 s) ++ rest) = (Some s, rest).
Proof.
  intros Hs Hr. destruct (hex16_spec s Hs) as (ds & Hd & Hv & Hl). pose proof (Forall2_length _ _ _ Hd) as He.
  rewrite <- Hv at 2. apply read_number_spec; [done|done| |lia|done|lia|by left].
  intros Hn. rewrite Hn in He. simpl in He. lia.
Qed.

(** ** IPv4 *)

Lemma given_char_ok ch rest : read_given_char ch (ch :: rest) = (Some (), rest).
Proof. unfold read_given_char, read_atomically. simpl. by rewrite bool_decide_eq_true_2. Qed.

Lemma given_char_fail ch rest : head rest <> Some ch -> read_given_char ch rest = (None, rest).
Proof.
  intros Hh. unfold read_given_char, read_atomically. destruct rest as [|ch' rest]; simpl; [done|].
  by rewrite bool_decide_eq_false_2 by (simpl in Hh; congruence).
Qed.

(** The separator of the [i]-th item. *)
Definition sep_chars (sep : ascii) (i : nat) : list ascii := if (0 <? i)%nat then [sep] else [].

Lemma separator_ok {A} sep i (inner : Parser A) l a rest :
  inner l = (Some a, rest) -> read_separator sep i inner (sep_chars sep i ++ l) = (Some a, rest).
Proof.
  intros E. unfold read_separator, sep_chars, read_atomically.
  destruct (0 <? i)%nat; simpl; [|by rewrite E]. by rewrite given_char_ok, E.
Qed.

Lemma separator_fail {A} sep i (inner : Parser A) l :
  (inner l).1 = None -> read_separator sep i inner (sep_chars sep i ++ l) = (None, sep_chars sep i ++ l).
Proof.
  intros E. unfold read_separator, sep_chars, read_atomically. destruct (inner l) as [r rest] eqn:El. simpl in E. subst r.
  destruct (0 <? i)%nat; simpl; [|by rewrite El]. by rewrite given_char_ok, El.
Qed.

Lemma octet_bounds a i : 0 <= octet a i < 256.
Proof.
  unfold octet. change 255 with (Z.ones 8). rewrite Z.land_ones by lia. apply Z.mod_pos_bound. lia.
Qed.

Lemma octets_value a :
  0 <= a < 2 ^ 32 -> ipv4_from_octets [octet a 3; octet a 2; octet a 1; octet a 0] = a.
Proof.
  intros Ha. unfold ipv4_from_octets, octet. simpl. change 255 with (Z.ones 8).
  rewrite !Z.land_ones, !Z.shiftr_div_pow2 by lia.
  change (2 ^ (8 * 3)) with 16777216. change (2 ^ (8 * 2)) with 65536. change (2 ^ (8 * 1)) with 256.
  change (2 ^ (8 * 0)) with 1. change (2 ^ 8) with 256. change (2 ^ 32) with 4294967296 in Ha.
  Z.to_euclidean_division_equations. lia.
Qed.

(** Numbers separated by dots, the first being the [i]-th. *)
Fixpoint dotted (i : nat) (l : list Z) : list ascii :=
  match l with [] => [] | o :: l => sep_chars "." i ++ chars (pretty o) ++ dotted (S i) l end.

Lemma chars_ipv4 a : chars (ipv4_to_string a) = dotted 0 [octet a 3; octet a 2; octet a 1; octet a 0].
Proof.
  unfold ipv4_to_string. rewrite !chars_app. cbn [dotted]. generalize (chars (pretty (octet a 3))),
    (chars (pretty (octet a 2))), (chars (pretty (octet a 1))), (chars (pretty (octet a 0))).
  intros l3 l2 l1 l0. simpl. by rewrite app_nil_r.
Qed.

Lemma read_octets_ok i groups l rest :
  Forall (fun o => 0 <= o < 256) l -> stops 10 rest ->
  read_octets (length l) i groups (dotted i l ++ rest) = (Some (groups ++ l), rest).
Proof.
  intros Hl Hr. revert i groups. induction Hl as [|o l Ho _ IH]; intros i groups; cbn [length read_octets dotted].
  - by rewrite app_nil_r.
  - rewrite <- !app_assoc. rewrite (separator_ok "." i _ _ o (dotted (S i) l ++ rest)).
    + by rewrite IH, <- app_assoc.
    + apply read_decimal; [done|]. by destruct l.
Qed.

Lemma read_ipv4_ok a rest :
  0 <= a < 2 ^ 32 -> stops 10 rest -> read_ipv4_addr (chars (ipv4_to_string a) ++ rest) = (Some a, rest).
Proof.
  intros Ha Hr. unfold read_ipv4_addr, read_atomically. rewrite chars_ipv4.
  rewrite (read_octets_ok 0 [] [octet a 3; octet a 2; octet a 1; octet a 0]);
    [|by repeat (constructor; [apply octet_bounds|])|done].
  cbn [app]. by rewrite octets_value.
Qed.

Lemma read_number_rest radix max azp mx l rest v st :
  stops radix rest -> read_number radix max azp mx (l ++ rest) = (Some v, st) ->
  exists l', sublist l' l /\ st = l' ++ rest.
Proof.
  intros Hr. destruct (read_digits_rest radix max 0 0 l rest Hr) as (l' & Hs & E).
  unfold read_number, read_atomically. destruct (read_digits radix max 0 0 (l ++ rest)) as [[[v' cnt]|] st']; [|done].
  simpl in E. repeat case_match; intros; simplify_eq. by exists l'.
Qed.

(** An IPv4 address is not read where no [.] follows the first digits. *)
Lemma read_ipv4_fail l rest :
  "." ∉ l -> stops 10 rest -> head rest <> Some "." -> (read_ipv4_addr (l ++ rest)).1 = None.
Proof.
  intros Hl Hr Hh. unfold read_ipv4_addr, read_atomically. cbn [read_octets].
  destruct (read_separator "." 0 (read_number 10 3 false 255) (l ++ rest)) as [[g|] st] eqn:E; [|done].
  assert (head st <> Some ".") as Hst.
  { unfold read_separator, read_atomically in E. cbn [Nat.ltb Nat.leb] in E.
    destruct (read_number 10 3 false 255 (l ++ rest)) as [[g'|] st'] eqn:En; simplify_eq.
    apply read_number_rest in En as (l' & Hs & ->); [|done]. destruct l' as [|ch l']; [done|].
    simpl. intros [= ->]. apply Hl. eapply elem_of_sublist; [|exact Hs]. left. }
  unfold read_separator at 1, read_atomically at 1. cbn [Nat.ltb Nat.leb]. by rewrite given_char_fail.
Qed.

(** ** IPv6 *)

Lemma hex_no_dot s : 0 <= s < 65536 -> "." ∉ chars (hex16 s).
Proof.
  intros Hs Hin. destruct (hex16_spec s Hs) as (ds & Hd & _). apply list_elem_of_lookup in Hin as [k Hk].
  by destruct (Forall2_lookup_l _ _ _ _ _ Hd Hk) as (d & _ & E).
Qed.

(** Groups separated by colons, the first being the [i]-th. *)
Fixpoint text (i : nat) (l : list Z) : list ascii :=
  match l with [] => [] | g :: l => sep_chars ":" i ++ chars (hex16 g) ++ text (S i) l end.

Lemma chars_fmt l : chars (fmt_subslice l) = text 0 l.
Proof.
  destruct l as [|g l]; [done|]. simpl.
  assert (Hf : forall acc i, chars (foldl (fun acc s => acc +:+ ":" +:+ hex16 s) acc l) = chars acc ++ text (S i) l).
  { induction l as [|h l IH]; intros acc i; simpl; [by rewrite app_nil_r|].
    by rewrite (IH _ (S i)), !chars_app, <- app_assoc. }
  by rewrite (Hf _ 0%nat).
Qed.

(** What follows the groups: the end, or the two colons. *)
Definition group_end (rest : list ascii) : Prop := rest = [] \/ exists r, rest = ":" :: ":" :: r.

Lemma number_fail radix max azp mx rest : stops radix rest -> read_number radix max azp mx rest = (None, rest).
Proof.
  intros Hr. unfold read_number, read_atomically. destruct rest as [|ch rest]; simpl in *; [done|]. by rewrite Hr.
Qed.

Lemma ends_groups {A} (inner : Parser A) i rest :
  group_end rest -> (inner []).1 = None -> (forall r, (inner (":" :: r)).1 = None) ->
  read_separator ":" i inner rest = (None, rest).
Proof.
  intros Hr Hn Hc. unfold read_separator, read_atomically. destruct Hr as [->|(r & ->)].
  - destruct (0 <? i)%nat; [by rewrite given_char_fail|]. by destruct (inner []) as [[|] ?].
  - destruct (0 <? i)%nat.
    + rewrite given_char_ok. specialize (Hc r). by destruct (inner (":" :: r)) as [[|] ?].
    + specialize (Hc (":" :: r)). by destruct (inner (":" :: ":" :: r)) as [[|] ?].
Qed.

Lemma ipv4_fail_short rest : stops 10 rest -> head rest <> Some "." -> (read_ipv4_addr rest).1 = None.
Proof. apply (read_ipv4_fail []). set_solver. Qed.

(** The end of the text that follows a group is no digit and no dot. *)
Lemma after_group i l rest :
  group_end rest -> stops 16 (text (S i) l ++ rest) /\ stops 10 (text (S i) l ++ rest)
  /\ head (text (S i) l ++ rest) <> Some ".".
Proof. intros [->|(r & ->)]; destruct l; done. Qed.

Lemma read_groups_text n i l rest :
  (length l <= n)%nat -> Forall (fun g => 0 <= g < 65536) l -> group_end rest ->
  read_groups n i (text i l ++ rest) = (l, false, rest).
Proof.
  revert i l. induction n as [|n IH]; intros i l Hl Hg He.
  - destruct l; [done|]. simpl in Hl. lia.
  - destruct l as [|g l]; cbn [read_groups text].
    + cbn [app].
      assert ((if (0 <? n)%nat then read_separator ":" i read_ipv4_addr rest else (None, rest)) = (None, rest)) as ->
        by (destruct (0 <? n)%nat; [by apply ends_groups|done]).
      by rewrite (ends_groups (read_number 16 4 true 65535) i rest).
    + apply Forall_cons in Hg as [Hg Hgs]. destruct (after_group i l rest He) as (H16 & H10 & Hd).
      rewrite <- !app_assoc.
      assert ((if (0 <? n)%nat then read_separator ":" i read_ipv4_addr (sep_chars ":" i ++ chars (hex16 g) ++ text (S i) l ++ rest)
               else (None, sep_chars ":" i ++ chars (hex16 g) ++ text (S i) l ++ rest))
              = (None, sep_chars ":" i ++ chars (hex16 g) ++ text (S i) l ++ rest)) as ->.
      { destruct (0 <? n)%nat; [|done]. apply separator_fail, read_ipv4_fail; [by apply hex_no_dot|done..]. }
      rewrite (separator_ok ":" i _ _ g (text (S i) l ++ rest)) by (by apply read_hex).
      rewrite IH by (simpl in Hl; lia || done). done.
Qed.

(** The span lies in the list and holds zeros. *)
Definition zero_span (z : span) (l : list Z) : Prop :=
  (span_start z + span_len z <= length l)%nat
  /\ forall k, (span_start z <= k < span_start z + span_len z)%nat -> l !! k = Some 0.

Lemma zero_span_app z l l' : zero_span z l -> zero_span z (l ++ l').
Proof.
  intros [Hb Hz]. split; [rewrite length_app; lia|]. intros k Hk. rewrite lookup_app_l by lia. by apply Hz.
Qed.

Lemma longest_zeros_span l : zero_span (longest_zeros l) l.
Proof.
  unfold longest_zeros. match goal with |- context [foldl ?f ?a l] => set (step := f); set (init := a) end.
  enough (exists longest current, foldl step init l = (length l, (longest, current)) /\ zero_span longest l
    /\ (span_len current = 0 \/ span_start current + span_len current = length l)%nat /\ zero_span current l)
    as (z & c & -> & Hz & _) by done.
  induction l as [|s l IH] using rev_ind.
  - eexists _, _. split; [done|]. split_and!; [|by left|]; (split; simpl; [lia|intros; lia]).
  - destruct IH as (z & c & E & Hz & Hc & Hzc). rewrite foldl_snoc, E, length_app. cbn [length].
    unfold step at 1. destruct (Z.eqb_spec s 0) as [->|].
    + set (c' := {| span_start := _; span_len := _ |}).
      assert (zero_span c' (l ++ [0]) /\ (span_start c' + span_len c' = length l + 1)%nat) as [Hc' He].
      { subst c'. simpl. destruct Hzc as [Hb Hzc]. destruct (Nat.eqb_spec (span_len c) 0) as [E0|];
          (split; [|lia]); (split; [rewrite length_app; simpl; lia|]); simpl; intros k Hk.
        - replace k with (length l) by lia. by rewrite list_lookup_middle.
        - destruct (decide (k = length l)) as [->|]; [by rewrite list_lookup_middle|].
          rewrite lookup_app_l by lia. apply Hzc. lia. }
      eexists _, c'. rewrite Nat.add_1_r. split; [done|]. split_and!; [|right; lia|done].
      case_match; [done|by apply zero_span_app].
    + exists z, {| span_start := 0; span_len := 0 |}. rewrite Nat.add_1_r. split; [done|].
      split_and!; [by apply zero_span_app|by left|]. split; simpl; [lia|intros; lia].
Qed.

Lemma zero_span_split z (l : list Z) :
  zero_span z l ->
  l = take (span_start z) l ++ replicate (span_len z) 0 ++ drop (span_start z + span_len z) l.
Proof.
  intros [Hb Hz]. rewrite <- (take_drop (span_start z) l) at 1. f_equal.
  rewrite <- (take_drop (span_len z) (drop (span_start z) l)) at 1. rewrite drop_drop. f_equal.
  apply list_eq_same_length with (n := span_len z); [by rewrite length_replicate|rewrite length_take, length_drop; lia|].
  intros k x y Hk Hx [-> _]%lookup_replicate. apply lookup_take_Some in Hx as [Hx _].
  rewrite lookup_drop, Hz in Hx by lia. by simplify_eq.
Qed.

Lemma segments_bounds a : Forall (fun g => 0 <= g < 65536) (segments a).
Proof.
  unfold segments. apply Forall_fmap, Forall_forall. intros i _. simpl. change 65535 with (Z.ones 16).
  rewrite Z.land_ones by lia. apply Z.mod_pos_bound. lia.
Qed.

Lemma segments_value a : 0 <= a < 2 ^ 128 -> ipv6_new (segments a) = a.
Proof.
  intros Ha. unfold segments, ipv6_new. cbv [fmap list_fmap foldl]. set (g i := Z.land (Z.shiftr a (16 * i)) 65535).
  assert (Hs : forall i j, 0 <= i -> j = i + 1 -> Z.shiftr a (16 * i) = Z.shiftr a (16 * j) * 65536 + g i).
  { intros i j Hi ->. replace (16 * (i + 1)) with (16 * i + 16) by lia. rewrite <- Z.shiftr_shiftr by lia.
    unfold g. change 65535 with (Z.ones 16). rewrite Z.land_ones, (Z.shiftr_div_pow2 _ 16) by lia.
    change (2 ^ 16) with 65536. pose proof (Z.div_mod (Z.shiftr a (16 * i)) 65536). lia. }
  assert (H8 : Z.shiftr a (16 * 8) = 0) by (rewrite Z.shiftr_div_pow2 by lia; by apply Z.div_small).
  change (((((((((0 * 65536 + g 7) * 65536 + g 6) * 65536 + g 5) * 65536 + g 4) * 65536 + g 3) * 65536 + g 2)
    * 65536 + g 1) * 65536 + g 0) = a).
  pose proof (Hs 0 1). pose proof (Hs 1 2). pose proof (Hs 2 3). pose proof (Hs 3 4). pose proof (Hs 4 5).
  pose proof (Hs 5 6). pose proof (Hs 6 7). pose proof (Hs 7 8). pose proof (Z.shiftr_0_r a : Z.shiftr a (16 * 0) = a).
  clearbody g. clear Hs. lia.
Qed.

Lemma text_not_ipv4 l rest :
  Forall (fun g => 0 <= g < 65536) l -> group_end rest ->
  read_ipv4_addr (text 0 l ++ rest) = (None, text 0 l ++ rest).
Proof.
  intros Hl He. enough ((read_ipv4_addr (text 0 l ++ rest)).1 = None) as Hn.
  { revert Hn. unfold read_ipv4_addr, read_atomically. by destruct (read_octets _ _ _ _) as [[|] ?]. }
  destruct Hl as [|g l Hg Hl]; cbn [text].
  - apply ipv4_fail_short; destruct He as [->|(r & ->)]; done.
  - destruct (after_group 0 l rest He) as (_ & H10 & Hd). cbn [sep_chars Nat.ltb Nat.leb app].
    rewrite <- app_assoc. apply read_ipv4_fail; [by apply hex_no_dot|done..].
Qed.

(** The parser on groups, on groups with a gap, and on a mapped IPv4 address. *)
Lemma read_ipv6_groups l :
  Forall (fun g => 0 <= g < 65536) l -> length l = 8%nat -> read_ipv6_addr (text 0 l) = (Some (ipv6_new l), []).
Proof.
  intros Hl H8. unfold read_ipv6_addr, read_atomically. rewrite <- (app_nil_r (text 0 l)).
  rewrite read_groups_text by (lia || done || by left). by rewrite H8.
Qed.

Lemma read_ipv6_gap h t n :
  Forall (fun g => 0 <= g < 65536) h -> Forall (fun g => 0 <= g < 65536) t ->
  (length h + n + length t = 8)%nat -> (1 <= n)%nat ->
  read_ipv6_addr (text 0 h ++ ":" :: ":" :: text 0 t) = (Some (ipv6_new (h ++ replicate n 0 ++ t)), []).
Proof.
  intros Hh Ht Hl Hn. unfold read_ipv6_addr, read_atomically.
  rewrite read_groups_text; [|lia|done|right; by eexists].
  destruct (Nat.eqb_spec (length h) 8); [lia|]. rewrite !given_char_ok. rewrite <- (app_nil_r (text 0 t)).
  rewrite read_groups_text; [|lia|done|by left]. by replace (8 - length h - length t)%nat with n by lia.
Qed.

Lemma read_ipv6_mapped v4 :
  0 <= v4 < 2 ^ 32 ->
  read_ipv6_addr (":" :: ":" :: chars (hex16 65535) ++ ":" :: chars (ipv4_to_string v4))
  = (Some (ipv6_new (replicate 5 0 ++ [65535; v4 / 65536; v4 mod 65536])), []).
Proof.
  intros Hv. unfold read_ipv6_addr, read_atomically.
  change (":" :: ":" :: ?r) with (text 0 [] ++ ":" :: ":" :: r) at 1.
  rewrite read_groups_text; [|simpl; lia|done|right; by eexists].
  cbn [length Nat.eqb]. rewrite !given_char_ok. cbn [Nat.sub Nat.add].
  set (rest := ":" :: chars (ipv4_to_string v4)).
  assert (Hg : read_groups 7 0 (chars (hex16 65535) ++ rest) = ([65535; v4 / 65536; v4 mod 65536], true, [])).
  { change (chars (hex16 65535) ++ rest) with (sep_chars ":" 0 ++ chars (hex16 65535) ++ rest).
    cbn [read_groups]. change (0 <? 6)%nat with true. cbn match.
    rewrite separator_fail by (apply read_ipv4_fail; [by apply hex_no_dot|done..]).
    rewrite (separator_ok ":" 0 _ _ 65535 rest) by (by apply read_hex).
    unfold rest. rewrite <- (app_nil_r (chars (ipv4_to_string v4))).
    change (":" :: chars (ipv4_to_string v4) ++ []) with (sep_chars ":" 1 ++ chars (ipv4_to_string v4) ++ []).
    change (0 <? 5)%nat with true. cbn match.
    by rewrite (separator_ok ":" 1 read_ipv4_addr _ v4 []) by (by apply read_ipv4_ok). }
  rewrite Hg. done.
Qed.

Lemma read_ipv6_ok a : 0 <= a < 2 ^ 128 -> read_ipv6_addr (chars (ipv6_to_string a)) = (Some a, []).
Proof.
  intros Ha. unfold ipv6_to_string. case_decide as Hm.
  - rewrite chars_app. change (chars "::ffff:") with ([":"; ":"] ++ chars (hex16 65535) ++ [":"]).
    rewrite <- !app_assoc. cbn [app]. rewrite read_ipv6_mapped.
    + set (v4 := Z.land a (2 ^ 32 - 1)). do 2 f_equal.
      transitivity (ipv6_new (segments a)); [|by apply segments_value]. f_equal.
      rewrite <- (take_drop 6 (segments a)), Hm. cbn [app replicate]. unfold v4. clear Hm. do 6 f_equal.
      change (drop 6 (segments a)) with [Z.land (Z.shiftr a (16 * 1)) 65535; Z.land (Z.shiftr a (16 * 0)) 65535].
      f_equal; [|f_equal].
      all: change (2 ^ 32 - 1) with (Z.ones 32); change 65535 with (Z.ones 16);
        rewrite !Z.land_ones, ?Z.shiftr_div_pow2 by lia;
        change (2 ^ (16 * 1)) with 65536; change (2 ^ (16 * 0)) with 1; change (2 ^ 16) with 65536; change (2 ^ 32) with 4294967296;
        Z.to_euclidean_division_equations; lia.
    + change (2 ^ 32 - 1) with (Z.ones 32). rewrite Z.land_ones by lia. by apply Z.mod_pos_bound.
  - set (z := longest_zeros (segments a)). pose proof (longest_zeros_span (segments a)) as Hz. fold z in Hz.
    pose proof (segments_bounds a) as Hb. case_match eqn:Hl.
    + apply Nat.ltb_lt in Hl. rewrite !chars_app, !chars_fmt.
      change (chars "::" ++ ?r) with (":" :: ":" :: r).
      rewrite (read_ipv6_gap _ _ (span_len z)); [|by apply Forall_take|by apply Forall_drop| |lia].
      * by rewrite <- zero_span_split, segments_value.
      * destruct Hz as [Hz _]. rewrite length_take, length_drop. change (length (segments a)) with 8%nat in *. lia.
    + rewrite chars_fmt, read_ipv6_groups by done. by rewrite segments_value.
Qed.

(** The printed form of an IPv6 address does not start like an IPv4 address. *)
Lemma ipv6_not_ipv4 a : read_ipv4_addr (chars (ipv6_to_string a)) = (None, chars (ipv6_to_string a)).
Proof.
  pose proof (segments_bounds a) as Hb. unfold ipv6_to_string. case_decide; [|case_match].
  - rewrite chars_app. exact (text_not_ipv4 [] _ ltac:(constructor) ltac:(right; by eexists)).
  - rewrite !chars_app, !chars_fmt. apply text_not_ipv4; [by apply Forall_take|right; by eexists].
  - rewrite chars_fmt, <- (app_nil_r (text 0 _)). apply text_not_ipv4; [done|by left].
Qed.

(** ** The characters of an address *)

Definition address_char (ch : ascii) : bool :=
  bool_decide (is_Some (to_digit 16 ch)) || bool_decide (ch = ".") || bool_decide (ch = ":").

Lemma digits_address_chars radix l ds : radix <= 16 -> digits radix l ds -> Forall address_char l.
Proof.
  intros Hr. induction 1 as [|ch d l ds Hd _ IH]; constructor; [|done].
  unfold address_char. rewrite (bool_decide_eq_true_2 (is_Some _)); [done|].
  unfold to_digit in *. repeat case_match; rewrite ?Z.ltb_lt, ?Z.ltb_ge in *; try done; lia.
Qed.

Lemma decimal_address_chars a : 0 <= a < 256 -> Forall address_char (chars (pretty a)).
Proof.
  intros Ha. pose proof decimal_all as Hall. rewrite forallb_forall in Hall.
  specialize (Hall a). rewrite <- list_elem_of_In, elem_of_seqZ in Hall. specialize (Hall ltac:(lia)).
  unfold decimal_ok in Hall. destruct (mapM _ _) as [ds|] eqn:E; [|done].
  apply mapM_Some_1 in E. by eapply (digits_address_chars 10).
Qed.

Lemma ipv4_address_chars a : Forall address_char (chars (ipv4_to_string a)).
Proof.
  rewrite chars_ipv4. cbn [dotted]. rewrite ?Forall_app.
  repeat (split; [by repeat constructor|split; [apply decimal_address_chars, octet_bounds|]]). constructor.
Qed.

Lemma text_address_chars i l : Forall (fun g => 0 <= g < 65536) l -> Forall address_char (text i l).
Proof.
  intros Hl. revert i. induction Hl as [|g l Hg _ IH]; intros i; cbn [text]; [constructor|].
  rewrite !Forall_app. split_and!; [unfold sep_chars; case_match; by repeat constructor| |done].
  destruct (hex16_spec g Hg) as (ds & Hd & _). by eapply (digits_address_chars 16).
Qed.

Lemma ip_address_chars ip : Forall address_char (chars (ip_to_string ip)).
Proof.
  destruct ip as [a|a]; cbn [ip_to_string]; [apply ipv4_address_chars|].
  unfold ipv6_to_string. pose proof (segments_bounds a) as Hb. case_decide; [|case_match].
  - rewrite chars_app, Forall_app. split; [by repeat constructor|apply ipv4_address_chars].
  - rewrite !chars_app, !chars_fmt, !Forall_app. split_and!; [|by repeat constructor|];
      apply text_address_chars; [by apply Forall_take|by apply Forall_drop].
  - rewrite chars_fmt. by apply text_address_chars.
Qed.

(** An address of its width. *)
Definition ip_in_range (ip : IpAddr) : Prop :=
  match ip with V4 a => 0 <= a < 2 ^ 32 | V6 a => 0 <= a < 2 ^ 128 end.

Lemma from_str_to_string ip : ip_in_range ip -> IpAddr_from_str (ip_to_string ip) = Some ip.
Proof.
  unfold IpAddr_from_str, read_ip_addr. destruct ip as [a|a]; simpl ip_to_string; intros Ha.
  - rewrite <- (app_nil_r (chars (ipv4_to_string a))). by rewrite read_ipv4_ok.
  - by rewrite ipv6_not_ipv4, read_ipv6_ok.
Qed.

(** C40.  An address that crosses the language boundary as a string arrives
    unchanged: parsing the text of any IPv4 or IPv6 address, compressed and
    IPv4-mapped forms included, gives the address back. *)
Theorem ip_address_roundtrip (ip : IpAddr) :
  ip_in_range ip -> IpAddress_try_from (String_from_IpAddress ip) = Some ip.
Proof. apply from_str_to_string. Qed.

Lemma ip_address_roundtrip_witness :
  IpAddress_try_from (String_from_IpAddress (V6 (0x2a07b944 * 2 ^ 96 + 2 ^ 17 + 2)))
  = Some (V6 (0x2a07b944 * 2 ^ 96 + 2 ^ 17 + 2)).
Proof. apply ip_address_roundtrip. simpl. lia. Defined.
