(* ===== verification/Text.v ===== *)
(** * Text of the standard library

    The functions of [str] that the configuration parser and the build script
    use, on texts of ASCII characters: [parse] of integers and booleans,
    [split], [rsplitn], [trim], [trim_start_matches], [strip_prefix] and
    [eq_ignore_ascii_case].  Numbers that are printed are parsed back, and joined
    pieces are split again. *)

From Stdlib Require Import Strings.Ascii.
From S2P Require Import Prelude Types Net IpParse.

Local Open Scope char_scope.
Local Open Scope Z_scope.

Abbreviation text_of := String.string_of_list_ascii.

(** ** Integers *)

(** [checked_mul] and [checked_add] (or [checked_sub]) digit by digit, with the
    result between [lo] and [hi]. *)
Fixpoint checked_digits (positive : bool) (lo hi acc : Z) (l : list ascii) : option Z :=
  match l with
  | [] => Some acc
  | ch :: l =>
      match to_digit 10 ch with
      | None => None
      | Some d =>
          let acc := if positive then acc * 10 + d else acc * 10 - d in
          if (lo <=? acc) && (acc <=? hi) then checked_digits positive lo hi acc l else None
      end
  end.

(** [from_str] of an integer type from [lo] to [hi]: an optional sign, the minus
    sign for a signed type only, and at least one digit. *)
Definition parse_int (lo hi : Z) (s : list ascii) : option Z :=
  match s with
  | [] => None
  | [ch] => if bool_decide (ch = "+" \/ ch = "-") then None else checked_digits true lo hi 0 [ch]
  | ch :: l =>
      if bool_decide (ch = "+") then checked_digits true lo hi 0 l
      else if bool_decide (ch = "-" /\ lo < 0) then checked_digits false lo hi 0 l
      else checked_digits true lo hi 0 s
  end.

Definition parse_u16 (s : string) : option Z := parse_int 0 65535 (chars s).
Definition parse_i32 (s : string) : option Z := parse_int (- 2 ^ 31) (2 ^ 31 - 1) (chars s).

(** [bool::from_str]. *)
Definition parse_bool (s : string) : option bool :=
  if bool_decide (s = "true")%string then Some true
  else if bool_decide (s = "false")%string then Some false
  else None.

(** ** Pieces *)

(** [split(sep)] with a character: at least one piece. *)
Fixpoint split_on (sep : ascii) (l : list ascii) : list (list ascii) :=
  match l with
  | [] => [[]]
  | ch :: l =>
      if bool_decide (ch = sep) then [] :: split_on sep l
      else match split_on sep l with
           | [] => [[ch]]
           | p :: ps => (ch :: p) :: ps
           end
  end.

(** [rsplit_once(sep)]: what precedes and what follows the last separator. *)
Fixpoint rsplit_once (sep : ascii) (l : list ascii) : option (list ascii * list ascii) :=
  match l with
  | [] => None
  | ch :: l =>
      match rsplit_once sep l with
      | Some (before, after) => Some (ch :: before, after)
      | None => if bool_decide (ch = sep) then Some ([], l) else None
      end
  end.

(** [rsplitn(n, sep)]: at most [n] pieces, from the right. *)
Fixpoint rsplitn (n : nat) (sep : ascii) (l : list ascii) : list (list ascii) :=
  match n with
  | O => []
  | 1%nat => [l]
  | S n =>
      match rsplit_once sep l with
      | Some (before, after) => after :: rsplitn n sep before
      | None => [l]
      end
  end.

(** [trim_start_matches(ch)]. *)
Fixpoint trim_start_matches (ch : ascii) (l : list ascii) : list ascii :=
  match l with
  | [] => []
  | ch' :: l' => if bool_decide (ch' = ch) then trim_start_matches ch l' else l
  end.

Definition is_whitespace (ch : ascii) : bool :=
  let n := Z.of_nat (nat_of_ascii ch) in ((9 <=? n) && (n <=? 13)) || (n =? 32).

Fixpoint trim_start (l : list ascii) : list ascii :=
  match l with
  | [] => []
  | ch :: l' => if is_whitespace ch then trim_start l' else l
  end.

Definition trim (l : list ascii) : list ascii := reverse (trim_start (reverse (trim_start l))).

(** [strip_prefix(prefix)]. *)
Fixpoint strip_prefix (prefix l : list ascii) : option (list ascii) :=
  match prefix, l with
  | [], _ => Some l
  | p :: prefix, ch :: l => if bool_decide (p = ch) then strip_prefix prefix l else None
  | _ :: _, [] => None
  end.

Definition to_ascii_lowercase (ch : ascii) : ascii :=
  let n := nat_of_ascii ch in if ((65 <=? n) && (n <=? 90))%nat then ascii_of_nat (n + 32) else ch.

Definition eq_ignore_ascii_case (a b : string) : bool :=
  bool_decide (to_ascii_lowercase <$> chars a = to_ascii_lowercase <$> chars b).

Example text_examples :
  parse_u16 "65535" = Some 65535 /\ parse_u16 "65536" = None /\ parse_u16 "+7" = Some 7 /\ parse_u16 "-0" = None
  /\ parse_u16 "" = None /\ parse_u16 "+" = None /\ parse_u16 " 7" = None /\ parse_u16 "007" = Some 7
  /\ parse_i32 "-2147483648" = Some (- 2 ^ 31) /\ parse_i32 "2147483648" = None /\ parse_i32 "--1" = None
  /\ (text_of <$> split_on "," (chars "a,,b")) = ["a"; ""; "b"]%string
  /\ (text_of <$> split_on "," (chars "")) = [""]%string
  /\ (text_of <$> rsplitn 3 "-" (chars "v0.1-rc-31-gc364")) = ["gc364"; "31"; "v0.1-rc"]%string
  /\ (text_of <$> rsplitn 3 "-" (chars "c364")) = ["c364"]%string
  /\ text_of (trim (chars " a b ")) = "a b"%string
  /\ eq_ignore_ascii_case "Session-ID" "SESSION-id" = true.
Proof. vm_compute. tauto. Qed.

(** ** Printing and parsing *)

Lemma text_chars s : text_of (chars s) = s.
Proof. apply String.string_of_list_ascii_of_string. Qed.
Lemma chars_text l : chars (text_of l) = l.
Proof. apply String.list_ascii_of_string_of_list_ascii. Qed.

Lemma chars_inj a b : chars a = chars b -> a = b.
Proof. intros E. by rewrite <- (text_chars a), <- (text_chars b), E. Qed.

Lemma pretty_char_digit x : (x < 10)%N -> to_digit 10 (pretty_N_char x) = Some (Z.of_N x).
Proof.
  intros Hx. assert (x = 0 \/ x = 1 \/ x = 2 \/ x = 3 \/ x = 4 \/ x = 5 \/ x = 6 \/ x = 7 \/ x = 8 \/ x = 9)%N as H by lia.
  by repeat destruct H as [->|H]; [..|rewrite H].
Qed.

Lemma digits_value_app radix acc ds ds' :
  digits_value radix acc (ds ++ ds') = digits_value radix (digits_value radix acc ds) ds'.
Proof. apply foldl_app. Qed.

Lemma pretty_go_digits x s ds :
  digits 10 (chars s) ds ->
  exists ds', digits 10 (chars (pretty_N_go x s)) (ds' ++ ds) /\ digits_value 10 0 ds' = Z.of_N x
    /\ (x <> 0%N -> ds' <> []).
Proof.
  revert s ds. induction (N.lt_wf_0 x) as [x _ IH]. intros s ds Hs.
  assert (x = 0 \/ 0 < x)%N as [->|Hx] by lia; [rewrite pretty_N_go_0; by exists []|].
  rewrite pretty_N_go_step by done.
  pose proof (N.mod_lt x 10 ltac:(lia)) as Hm.
  destruct (IH (x `div` 10)%N (N.div_lt x 10 Hx eq_refl) (String (pretty_N_char (x `mod` 10)) s) (Z.of_N (x mod 10) :: ds))
    as (ds' & Hd & Hv & _); [constructor; [by apply pretty_char_digit|done]|].
  exists (ds' ++ [Z.of_N (x mod 10)]). rewrite <- app_assoc. split; [done|]. split.
  - rewrite digits_value_app, Hv. unfold digits_value. simpl. rewrite N2Z.inj_div, N2Z.inj_mod.
    change (Z.of_N 10) with 10. pose proof (Z.div_mod (Z.of_N x) 10). lia.
  - intros _. by destruct ds'.
Qed.

(** A number is printed as its digits. *)
Lemma pretty_digits (z : Z) :
  0 <= z -> exists ds, digits 10 (chars (pretty z)) ds /\ digits_value 10 0 ds = z /\ ds <> [].
Proof.
  intros Hz. destruct z as [|p|p]; [by exists [0]; repeat constructor| |lia].
  change (pretty (Z.pos p)) with (pretty (N.pos p)). unfold pretty, pretty_N. rewrite decide_False by done.
  destruct (pretty_go_digits (N.pos p) "" [] (List.Forall2_nil _)) as (ds & Hd & Hv & Hne).
  rewrite app_nil_r in Hd. exists ds. by split_and!; [|..|apply Hne].
Qed.

Lemma digit_not_sign ch d : to_digit 10 ch = Some d -> ch <> "+" /\ ch <> "-".
Proof. intros Hd. split; intros ->; vm_compute in Hd; discriminate Hd. Qed.

Lemma digits_value_ge acc ds : 0 <= acc -> Forall (fun d => 0 <= d) ds -> acc <= digits_value 10 acc ds.
Proof.
  intros Ha Hds. revert acc Ha. induction Hds as [|d ds Hd _ IH]; intros acc Ha; unfold digits_value in *; simpl; [lia|].
  specialize (IH (acc * 10 + d)). lia.
Qed.

Lemma digits_nonneg l ds : digits 10 l ds -> Forall (fun d => 0 <= d) ds.
Proof. induction 1 as [|ch d l ds Hd _ IH]; constructor; [|done]. apply to_digit_bounds in Hd; lia. Qed.

Lemma checked_digits_ok lo hi acc l ds :
  digits 10 l ds -> 0 <= acc -> lo <= 0 -> digits_value 10 acc ds <= hi ->
  checked_digits true lo hi acc l = Some (digits_value 10 acc ds).
Proof.
  intros Hl. revert acc. induction Hl as [|ch d l ds Hd Hl IH]; intros acc Ha Hlo Hhi; simpl; [done|].
  rewrite Hd. apply to_digit_bounds in Hd. unfold digits_value in *. simpl in *.
  pose proof (digits_value_ge (acc * 10 + d) ds ltac:(lia) (digits_nonneg _ _ Hl)) as Hge. unfold digits_value in Hge.
  rewrite (proj2 (Z.leb_le _ _)), (proj2 (Z.leb_le _ _)) by lia. simpl. apply IH; lia.
Qed.

Lemma parse_int_digits lo hi l ds :
  digits 10 l ds -> ds <> [] -> lo <= 0 -> digits_value 10 0 ds <= hi -> parse_int lo hi l = Some (digits_value 10 0 ds).
Proof.
  intros Hl Hne Hlo Hhi. pose proof (checked_digits_ok lo hi 0 l ds Hl ltac:(lia) Hlo Hhi) as Hc.
  destruct Hl as [|ch d l ds Hd Hl]; [done|]. destruct (digit_not_sign ch d Hd) as [Hp Hm].
  unfold parse_int. destruct l as [|ch' l]; [by rewrite bool_decide_eq_false_2 by naive_solver|].
  by rewrite !bool_decide_eq_false_2 by naive_solver.
Qed.

(** A printed number is parsed back, by any integer type that has it. *)
Lemma parse_int_pretty lo hi z : lo <= 0 -> 0 <= z <= hi -> parse_int lo hi (chars (pretty z)) = Some z.
Proof.
  intros Hlo Hz. destruct (pretty_digits z ltac:(lia)) as (ds & Hd & Hv & Hne).
  rewrite <- Hv at 2. apply parse_int_digits; try done. lia.
Qed.

Lemma parse_u16_pretty z : 0 <= z < 65536 -> parse_u16 (pretty z) = Some z.
Proof. intros Hz. apply parse_int_pretty; lia. Qed.

(** Negative numbers, digit by digit downwards. *)
Lemma checked_digits_neg lo hi acc l ds :
  digits 10 l ds -> 0 <= acc -> 0 <= hi -> lo <= - digits_value 10 acc ds ->
  checked_digits false lo hi (- acc) l = Some (- digits_value 10 acc ds).
Proof.
  intros Hl. revert acc. induction Hl as [|ch d l ds Hd Hl IH]; intros acc Ha Hhi Hlo; simpl; [done|].
  rewrite Hd. apply to_digit_bounds in Hd. unfold digits_value in *. simpl in *.
  pose proof (digits_value_ge (acc * 10 + d) ds ltac:(lia) (digits_nonneg _ _ Hl)) as Hge. unfold digits_value in Hge.
  replace (- acc * 10 - d) with (- (acc * 10 + d)) by lia.
  rewrite (proj2 (Z.leb_le _ _)), (proj2 (Z.leb_le _ _)) by lia. simpl. apply IH; lia.
Qed.

Lemma parse_i32_pretty z : - 2 ^ 31 <= z < 2 ^ 31 -> parse_i32 (pretty z) = Some z.
Proof.
  intros Hz. destruct z as [|p|p]; [done|apply parse_int_pretty; lia|].
  change (pretty (Z.neg p)) with ("-" +:+ pretty (Z.pos p))%string. unfold parse_i32. rewrite chars_app.
  destruct (pretty_digits (Z.pos p) ltac:(lia)) as (ds & Hd & Hv & Hne).
  assert (checked_digits false (- 2 ^ 31) (2 ^ 31 - 1) (- 0) (chars (pretty (Z.pos p))) = Some (- digits_value 10 0 ds)) as Hc
    by (apply checked_digits_neg; try done; lia).
  rewrite Hv in Hc. change (- 0) with 0 in Hc. change (- Z.pos p) with (Z.neg p) in Hc.
  destruct (chars (pretty (Z.pos p))) as [|ch l]; [by apply Forall2_nil_inv_l in Hd|]. exact Hc.
Qed.

(** ** Splitting *)

Lemma split_piece sep p l : sep ∉ p -> split_on sep (p ++ sep :: l) = p :: split_on sep l.
Proof.
  induction p as [|ch p IH]; intros Hp; simpl; [by rewrite bool_decide_eq_true_2|].
  rewrite bool_decide_eq_false_2 by set_solver. by rewrite IH by set_solver.
Qed.

Lemma split_last sep p : sep ∉ p -> split_on sep p = [p].
Proof.
  induction p as [|ch p IH]; intros Hp; simpl; [done|].
  rewrite bool_decide_eq_false_2 by set_solver. by rewrite IH by set_solver.
Qed.

(** The pieces with separators between them. *)
Fixpoint join (sep : ascii) (ps : list (list ascii)) : list ascii :=
  match ps with
  | [] => []
  | [p] => p
  | p :: ps => p ++ sep :: join sep ps
  end.

Lemma split_join sep ps : ps <> [] -> Forall (fun p => sep ∉ p) ps -> split_on sep (join sep ps) = ps.
Proof.
  induction ps as [|p ps IH]; [done|]. intros _ Hps. apply Forall_cons in Hps as [Hp Hps].
  destruct ps as [|p' ps]; [by apply split_last|]. cbn [join]. rewrite split_piece by done. f_equal. by apply IH.
Qed.

Lemma rsplit_once_last sep before after : sep ∉ after -> rsplit_once sep (before ++ sep :: after) = Some (before, after).
Proof.
  intros Ha. induction before as [|ch b IH]; simpl; [|by rewrite IH].
  assert (rsplit_once sep after = None) as ->; [|by rewrite bool_decide_eq_true_2].
  induction after as [|ch a IH]; simpl; [done|]. rewrite IH by set_solver. by rewrite bool_decide_eq_false_2 by set_solver.
Qed.

Lemma trim_start_matches_id ch l : head l <> Some ch -> trim_start_matches ch l = l.
Proof. destruct l as [|c l]; [done|]. simpl. intros Hh. by rewrite bool_decide_eq_false_2 by congruence. Qed.

Lemma trim_start_matches_run ch k l :
  head l <> Some ch -> trim_start_matches ch (replicate k ch ++ l) = l.
Proof.
  intros Hl. induction k as [|k IH]; simpl; [by apply trim_start_matches_id|]. by rewrite bool_decide_eq_true_2.
Qed.

Lemma trim_start_id l : Forall (fun ch => is_whitespace ch = false) l -> trim_start l = l.
Proof. destruct 1 as [|ch l Hc _]; [done|]. simpl. by rewrite Hc. Qed.

Lemma trim_id l : Forall (fun ch => is_whitespace ch = false) l -> trim l = l.
Proof.
  intros Hl. unfold trim. rewrite (trim_start_id l Hl), trim_start_id by (by apply Forall_reverse). apply reverse_involutive.
Qed.

Lemma trim_end_newline l :
  Forall (fun ch => is_whitespace ch = false) l -> trim (l ++ ["010"]) = l.
Proof.
  intros Hl. unfold trim. assert (trim_start (l ++ ["010"]) = l \/ trim_start (l ++ ["010"]) = l ++ ["010"]) as [->| ->].
  { destruct Hl as [|ch l Hc _]; [by left|]. right. simpl. by rewrite Hc. }
  - rewrite trim_start_id by (by apply Forall_reverse). apply reverse_involutive.
  - rewrite reverse_app. simpl. rewrite trim_start_id by (by apply Forall_reverse). apply reverse_involutive.
Qed.

Lemma strip_prefix_app prefix l : strip_prefix prefix (prefix ++ l) = Some l.
Proof. induction prefix; simpl; [done|]. by rewrite bool_decide_eq_true_2. Qed.

Lemma strip_prefix_Some prefix l rest : strip_prefix prefix l = Some rest -> l = prefix ++ rest.
Proof.
  revert l. induction prefix as [|p prefix IH]; intros [|ch l]; simpl; try done; try (by intros [= ->]).
  case_bool_decide; [|done]. intros E%IH. by subst.
Qed.
