(* ===== verification/NetworkRecovery.v ===== *)
(** * Recovery from premature network notifications

    [src/connection/network_recovery_handler.rs]: after a socket fails with a
    network-down error although the system reports a network, the handler asks
    the client to retry with exponential backoff.  The file gives the handler,
    its invariant, an abstract back-off counter it refines, and the timing
    guarantees the poll loop relies on. *)

From S2P Require Import Prelude Types.

Local Open Scope Z_scope.

(** ** The handler *)

Definition INITIAL_DELAYED_NETWORK_CHANGE_DURATION : Duration := from_secs 1.

(** [src/connection/constants.rs]: the cap depends on the [android] feature. *)
Definition MAX_DELAYED_NETWORK_CHANGE_DURATION (android : bool) : Duration :=
  if android then from_secs 30 else from_secs 10.

Record NetworkRecoveryHandler := {
  send_delayed_network_change_at : option Instant;
  delayed_network_change_duration : Duration;
  network_available : bool;
  initial_duration : Duration;
  max_duration : Duration;
}.

Definition NetworkRecoveryHandler_new (android available : bool) : NetworkRecoveryHandler :=
  {| send_delayed_network_change_at := None;
     delayed_network_change_duration := INITIAL_DELAYED_NETWORK_CHANGE_DURATION;
     network_available := available;
     initial_duration := INITIAL_DELAYED_NETWORK_CHANGE_DURATION;
     max_duration := MAX_DELAYED_NETWORK_CHANGE_DURATION android |}.

Definition new_for_tests (available : bool) (initial max : Duration) : NetworkRecoveryHandler :=
  {| send_delayed_network_change_at := None;
     delayed_network_change_duration := initial;
     network_available := available;
     initial_duration := initial;
     max_duration := max |}.

Definition is_network_available (h : NetworkRecoveryHandler) : bool := network_available h.

(** [on_resumed]: the boolean tells whether [notify_network_change] is called. *)
Definition on_resumed (now : Instant) (h : NetworkRecoveryHandler) : bool * NetworkRecoveryHandler :=
  match network_available h, send_delayed_network_change_at h with
  | true, Some notify_at =>
      if notify_at <=? now then
        (true,
         {| send_delayed_network_change_at := None;
            delayed_network_change_duration :=
              Z.min (delayed_network_change_duration h * 2) (max_duration h);
            network_available := network_available h;
            initial_duration := initial_duration h;
            max_duration := max_duration h |})
      else (false, h)
  | _, _ => (false, h)
  end.

Definition wakeup_delay (now : Instant) (h : NetworkRecoveryHandler) : option Duration :=
  match network_available h, send_delayed_network_change_at h with
  | true, Some notify_at => Some (if now <? notify_at then notify_at - now else 0)
  | _, _ => None
  end.

Definition with_schedule (at_ : option Instant) (d : Duration) (avail : bool)
    (h : NetworkRecoveryHandler) : NetworkRecoveryHandler :=
  {| send_delayed_network_change_at := at_;
     delayed_network_change_duration := d;
     network_available := avail;
     initial_duration := initial_duration h;
     max_duration := max_duration h |}.

Definition on_successful_socket_open (h : NetworkRecoveryHandler) : NetworkRecoveryHandler :=
  with_schedule None (delayed_network_change_duration h) (network_available h) h.

Definition on_connected (h : NetworkRecoveryHandler) : NetworkRecoveryHandler :=
  with_schedule None (initial_duration h) (network_available h) h.

Definition on_connectivity_change (event : ConnectivityEvent) (h : NetworkRecoveryHandler)
  : NetworkRecoveryHandler :=
  let h := with_schedule None (initial_duration h) (network_available h) h in
  match event with
  | Up => with_schedule None (initial_duration h) true h
  | NetworkSwitch => with_schedule None (initial_duration h) true h
  | Down => with_schedule None (initial_duration h) false h
  end.

Definition on_stream_error (err : io_error) (now : Instant) (h : NetworkRecoveryHandler)
  : NetworkRecoveryHandler :=
  if network_available h then
    match kind err with
    | NetworkUnreachable | NetworkDown =>
        with_schedule (Some (now + delayed_network_change_duration h))
          (delayed_network_change_duration h) (network_available h) h
    | _ => h
    end
  else h.

(** ** Its transition system *)

Inductive recovery_op :=
| OpResumed (now : Instant)
| OpSocketOpen
| OpConnected
| OpConnectivity (event : ConnectivityEvent)
| OpStreamError (err : io_error) (now : Instant).

(** One call on the handler; the boolean is a notification to the client. *)
Definition recovery_apply (op : recovery_op) (h : NetworkRecoveryHandler)
  : bool * NetworkRecoveryHandler :=
  match op with
  | OpResumed now => on_resumed now h
  | OpSocketOpen => (false, on_successful_socket_open h)
  | OpConnected => (false, on_connected h)
  | OpConnectivity ev => (false, on_connectivity_change ev h)
  | OpStreamError e now => (false, on_stream_error e now h)
  end.

Definition recovery_step (h h' : NetworkRecoveryHandler) : Prop :=
  exists op b, recovery_apply op h = (b, h').

Fixpoint recovery_run (ops : list recovery_op) (h : NetworkRecoveryHandler)
  : list bool * NetworkRecoveryHandler :=
  match ops with
  | [] => ([], h)
  | op :: ops =>
      let '(b, h1) := recovery_apply op h in
      let '(bs, h2) := recovery_run ops h1 in (b :: bs, h2)
  end.

(** ** Invariant *)

Definition DURATION_MAX : Duration := from_secs (2 ^ 64) - 1.

(** The delay stays between the initial one and the cap, doubling it stays a
    [Duration], and nothing is scheduled while the network is down. *)
Record recovery_wf (h : NetworkRecoveryHandler) : Prop := {
  wf_initial : 0 < initial_duration h;
  wf_low : initial_duration h <= delayed_network_change_duration h;
  wf_high : delayed_network_change_duration h <= max_duration h;
  wf_double : max_duration h * 2 <= DURATION_MAX;
  wf_down : network_available h = false -> send_delayed_network_change_at h = None;
}.

(** Case analysis on the handler's branches. *)
Ltac recovery_cases :=
  unfold recovery_apply, on_resumed, on_stream_error, on_connectivity_change,
    on_connected, on_successful_socket_open, with_schedule in *;
  simplify_eq/=; repeat (case_match; simplify_eq/=).

Lemma recovery_new_wf android available : recovery_wf (NetworkRecoveryHandler_new android available).
Proof. split; destruct android; vm_compute; done. Qed.

Lemma recovery_apply_wf op h b h' :
  recovery_wf h -> recovery_apply op h = (b, h') -> recovery_wf h'.
Proof.
  intros [] Ha. destruct op; recovery_cases; split; simpl; try done; try lia; try congruence; auto.
Qed.
#[export] Hint Resolve recovery_new_wf recovery_apply_wf : protun.

(** C16.  The back-off delay of the handler the connection creates stays, over
    any sequence of calls, between the initial delay (1 s) and the platform's
    cap (10 s, 30 s on Android); the doubling in [on_resumed] never overflows
    a [Duration]; and no retry is pending while the network is unavailable. *)
Theorem recovery_delay_bounded (android available : bool) (ops : list recovery_op) :
  let h := (recovery_run ops (NetworkRecoveryHandler_new android available)).2 in
  from_secs 1 <= delayed_network_change_duration h <= MAX_DELAYED_NETWORK_CHANGE_DURATION android
  /\ delayed_network_change_duration h * 2 <= DURATION_MAX
  /\ (network_available h = false -> send_delayed_network_change_at h = None).
Proof.
  assert (forall h0, recovery_wf h0 -> let h := (recovery_run ops h0).2 in
    recovery_wf h /\ initial_duration h = initial_duration h0 /\ max_duration h = max_duration h0) as Hrun.
  { induction ops as [|op ops IH]; intros h0 H0; simpl; [done|].
    destruct (recovery_apply op h0) as [b h1] eqn:E.
    specialize (IH h1 (recovery_apply_wf _ _ _ _ H0 E)).
    destruct (recovery_run ops h1) as [bs h2]; simpl in *.
    destruct IH as (? & -> & ->). split; [done|]. clear -E. destruct op; recovery_cases; done. }
  destruct (Hrun _ (recovery_new_wf android available)) as ([] & Hi & Hm).
  simpl in Hi, Hm. cbv zeta. rewrite Hi, Hm in *.
  unfold INITIAL_DELAYED_NETWORK_CHANGE_DURATION in *. repeat split; auto; lia.
Qed.

(** ** Abstract back-off counter *)

(** The specification counts the failed attempts since the last reset. *)
Record backoff := { attempts : nat; due : option Instant; up : bool }.

Definition backoff_delay (initial max : Duration) (b : backoff) : Duration :=
  Z.min (initial * 2 ^ Z.of_nat (attempts b)) max.

Definition network_error (k : ErrorKind) : bool :=
  match k with NetworkUnreachable | NetworkDown => true | _ => false end.

Definition backoff_apply (initial max : Duration) (op : recovery_op) (b : backoff) : bool * backoff :=
  match op with
  | OpResumed now =>
      match due b with
      | Some t => if t <=? now
                  then (true, {| attempts := S (attempts b); due := None; up := up b |})
                  else (false, b)
      | None => (false, b)
      end
  | OpSocketOpen => (false, {| attempts := attempts b; due := None; up := up b |})
  | OpConnected => (false, {| attempts := 0; due := None; up := up b |})
  | OpConnectivity ev =>
      (false, {| attempts := 0; due := None;
                 up := match ev with Down => false | _ => true end |})
  | OpStreamError e now =>
      if up b && network_error (kind e)
      then (false, {| attempts := attempts b; due := Some (now + backoff_delay initial max b);
                      up := up b |})
      else (false, b)
  end.

Fixpoint backoff_run (initial max : Duration) (ops : list recovery_op) (b : backoff)
  : list bool * backoff :=
  match ops with
  | [] => ([], b)
  | op :: ops =>
      let '(x, b1) := backoff_apply initial max op b in
      let '(xs, b2) := backoff_run initial max ops b1 in (x :: xs, b2)
  end.

Record refines_backoff (h : NetworkRecoveryHandler) (b : backoff) : Prop := {
  rb_wf : recovery_wf h;
  rb_delay : delayed_network_change_duration h = backoff_delay (initial_duration h) (max_duration h) b;
  rb_due : send_delayed_network_change_at h = due b;
  rb_up : network_available h = up b;
}.

Lemma backoff_delay_S initial max b n :
  0 < initial <= max -> attempts b = S n ->
  backoff_delay initial max b
  = Z.min (backoff_delay initial max {| attempts := n; due := due b; up := up b |} * 2) max.
Proof.
  intros Hi Hn. unfold backoff_delay. rewrite Hn. simpl attempts.
  rewrite Nat2Z.inj_succ, Z.pow_succ_r by lia.
  replace (initial * (2 * 2 ^ Z.of_nat n)) with (initial * 2 ^ Z.of_nat n * 2) by ring.
  generalize (initial * 2 ^ Z.of_nat n) as q. lia.
Qed.

Lemma backoff_delay_0 initial max d u :
  initial <= max -> backoff_delay initial max {| attempts := 0; due := d; up := u |} = initial.
Proof. intros. unfold backoff_delay. simpl. lia. Qed.

Ltac simulates := eexists; split; [done|]; split; [split|]; simpl; auto.

(** One call of the handler is one step of the counter, with the same notification. *)
Lemma refines_backoff_step op h b x h' :
  refines_backoff h b -> recovery_apply op h = (x, h') ->
  exists b', backoff_apply (initial_duration h) (max_duration h) op b = (x, b')
    /\ refines_backoff h' b'
    /\ initial_duration h' = initial_duration h /\ max_duration h' = max_duration h.
Proof.
  intros [Hwf Hd Hdue Hup] Ha.
  pose proof (recovery_apply_wf _ _ _ _ Hwf Ha) as Hwf'.
  destruct b as [n d u]; simpl in *. destruct Hwf as [Hi Hlo Hhi _ Hdn].
  destruct op as [now| | |ev|e now]; simpl in *.
  - unfold on_resumed in Ha. rewrite Hdue in Ha, Hdn. rewrite Hup in Ha, Hdn.
    destruct u; [|rewrite (Hdn eq_refl) in *; simplify_eq/=; by simulates].
    destruct d as [t|]; [|simplify_eq; by simulates].
    destruct (t <=? now); simplify_eq; simulates; try done.
    rewrite Hd. by rewrite (backoff_delay_S _ _ {| attempts := S n; due := None; up := true |} n) by (done || lia).
  - simplify_eq. simulates.
  - simplify_eq. simulates. by rewrite backoff_delay_0 by lia.
  - simplify_eq. destruct ev; simulates; by rewrite backoff_delay_0 by lia.
  - unfold on_stream_error in Ha. rewrite Hup in Ha.
    destruct u; simpl; [|simplify_eq; by simulates].
    destruct (kind e); simplify_eq; simulates; congruence.
Qed.

(** C15.  The handler implements an exponential back-off counter: for any
    sequence of calls it notifies the client exactly when the counter does,
    and its delay is the initial delay doubled once per retry since the last
    reset, capped at the maximum. *)
Theorem recovery_refines_backoff (initial max : Duration) (available : bool) (ops : list recovery_op) :
  0 < initial <= max -> max * 2 <= DURATION_MAX ->
  let h := recovery_run ops (new_for_tests available initial max) in
  let b := backoff_run initial max ops {| attempts := 0; due := None; up := available |} in
  h.1 = b.1 /\ refines_backoff h.2 b.2.
Proof.
  intros Hi Hm. cbv zeta.
  assert (refines_backoff (new_for_tests available initial max)
            {| attempts := 0; due := None; up := available |}) as H0.
  { repeat split; simpl; try lia; try done. by rewrite backoff_delay_0 by lia. }
  assert (initial_duration (new_for_tests available initial max) = initial
    /\ max_duration (new_for_tests available initial max) = max) as H1 by done.
  revert H0 H1. generalize (new_for_tests available initial max) as h.
  generalize {| attempts := 0; due := None; up := available |} as b.
  induction ops as [|op ops IH]; intros b h H0 [Hih Hmh]; simpl; [done|].
  destruct (recovery_apply op h) as [x h1] eqn:E.
  destruct (refines_backoff_step _ _ _ _ _ H0 E) as (b1 & Eb & H1 & Hi1 & Hm1).
  rewrite Hih, Hmh in *. rewrite Eb.
  specialize (IH b1 h1 H1 (conj Hi1 Hm1)).
  destruct (recovery_run ops h1), (backoff_run initial max ops b1); simpl in *.
  destruct IH as [-> ?]. done.
Qed.

Definition net_err : io_error := io_error_new NetworkUnreachable "test".

Lemma recovery_refines_backoff_witness :
  (recovery_run [OpStreamError net_err 0; OpResumed (from_secs 1); OpStreamError net_err (from_secs 1);
                 OpResumed (from_secs 2); OpResumed (from_secs 3)]
     (new_for_tests true (from_secs 1) (from_secs 60))).1 = [false; true; false; false; true].
Proof.
  destruct (recovery_refines_backoff (from_secs 1) (from_secs 60) true
    [OpStreamError net_err 0; OpResumed (from_secs 1); OpStreamError net_err (from_secs 1);
     OpResumed (from_secs 2); OpResumed (from_secs 3)]) as [H _];
    [vm_compute; split; done|vm_compute; done|].
  rewrite H. reflexivity.
Defined.

(** ** Timing *)

(** [wakeup_delay] is exact: sleeping for the delay it returns makes
    [on_resumed] notify the client, any earlier wake-up leaves the handler as
    it is, and when it returns no delay no wake-up notifies. *)
Lemma wakeup_delay_exact (h : NetworkRecoveryHandler) (now : Instant) :
  match wakeup_delay now h with
  | Some d => 0 <= d
      /\ (forall t, now + d <= t -> (on_resumed t h).1 = true)
      /\ (forall t, now <= t < now + d -> on_resumed t h = (false, h))
  | None => forall t, on_resumed t h = (false, h)
  end.
Proof.
  unfold wakeup_delay, on_resumed.
  destruct (network_available h); [|done].
  destruct (send_delayed_network_change_at h) as [n|]; [|done].
  destruct (Z.ltb_spec now n); (split; [lia|]); split; intros t Ht;
    destruct (Z.leb_spec n t); simpl; try done; lia.
Qed.

(** After a network-down error on a live network a retry is pending one
    back-off delay later, whatever was scheduled before; every other error,
    and every error while the network is unavailable, changes nothing. *)
Lemma stream_error_schedules (h : NetworkRecoveryHandler) (e : io_error) (now : Instant) :
  recovery_wf h ->
  let h' := on_stream_error e now h in
  if network_available h && network_error (kind e)
  then wakeup_delay now h' = Some (delayed_network_change_duration h)
       /\ delayed_network_change_duration h' = delayed_network_change_duration h
  else h' = h.
Proof.
  intros []. cbv zeta. unfold on_stream_error, wakeup_delay.
  destruct (network_available h) eqn:E; simpl; [|done].
  destruct (kind e); simpl; try done; split; auto; case_match; f_equal; lia.
Qed.

Lemma stream_error_schedules_witness :
  wakeup_delay 5 (on_stream_error net_err 5 (NetworkRecoveryHandler_new false true))
  = Some (from_secs 1).
Proof.
  apply (stream_error_schedules (NetworkRecoveryHandler_new false true) net_err 5).
  apply recovery_new_wf.
Defined.
