(* ===== verification/SanitizedPeers.v ===== *)
(** * Sanitized peer lists

    [src/connection/sanitized_peers.rs]: the peers a client supplies are
    reduced to one per entry IP before they reach the VPN client.  The loop is
    translated with its hash map and its list of duplicate indices and is
    shown equal to a declarative selection of the best peer of each IP. *)

From S2P Require Import Prelude Types.

(** [iter().enumerate()]. *)
Definition enumerate {A} (l : list A) : list (nat * A) := imap pair l.

(** The two variables of the loop: [best_peer_for_ip] and [duplicates_idx]. *)
Record scan := { best_peer_for_ip : gmap IpAddress (nat * Z); duplicates_idx : list nat }.

(** The body of the first loop. *)
Definition scan_peer (s : scan) (ip : nat * PeerInfo) : scan :=
  let '(index, peer) := ip in
  match best_peer_for_ip s !! server_ip peer with
  | Some (existing_index, existing_priority) =>
      if (priority peer <? existing_priority)%Z then
        {| duplicates_idx := duplicates_idx s ++ [existing_index];
           best_peer_for_ip := <[server_ip peer := (index, priority peer)]> (best_peer_for_ip s) |}
      else
        {| duplicates_idx := duplicates_idx s ++ [index];
           best_peer_for_ip := best_peer_for_ip s |}
  | None =>
      {| duplicates_idx := duplicates_idx s;
         best_peer_for_ip := <[server_ip peer := (index, priority peer)]> (best_peer_for_ip s) |}
  end.

Definition scan_peers (peers : list PeerInfo) : scan :=
  foldl scan_peer {| best_peer_for_ip := ∅; duplicates_idx := [] |} (enumerate peers).

(** [SanitizedPeers::from]; the wrapper is the vector it holds. *)
Definition SanitizedPeers_from (peers : list PeerInfo) : list PeerInfo :=
  let dups := duplicates_idx (scan_peers peers) in
  match dups with
  | [] => peers
  | _ => (retain (fun ip => bool_decide (ip.1 ∉ dups)) (enumerate peers)).*2
  end.

Definition SanitizedPeers_is_empty (peers : list PeerInfo) : bool :=
  match peers with [] => true | _ => false end.

Definition SanitizedPeers_contains (peers : list PeerInfo) (p : PeerInfo) : bool :=
  bool_decide (p ∈ peers).

(** ** Declarative selection *)

(** Peer [j] replaces peer [i]: same IP, and a smaller priority number or the
    same one at an earlier position. *)
Definition beats (jq ip : nat * PeerInfo) : bool :=
  bool_decide (server_ip jq.2 = server_ip ip.2)
  && ((priority jq.2 <? priority ip.2)%Z
      || ((priority jq.2 =? priority ip.2)%Z && (jq.1 <? ip.1)%nat)).

Definition best_peers (peers : list PeerInfo) : list PeerInfo :=
  (retain (fun ip => negb (existsb (fun jq => beats jq ip) (enumerate peers))) (enumerate peers)).*2.

(** ** Lemmas on enumeration *)

Lemma enumerate_snoc {A} (l : list A) x : enumerate (l ++ [x]) = enumerate l ++ [(length l, x)].
Proof. unfold enumerate. rewrite imap_app. simpl. by rewrite Nat.add_0_r. Qed.

Lemma elem_of_enumerate {A} (l : list A) i x : (i, x) ∈ enumerate l <-> l !! i = Some x.
Proof.
  unfold enumerate. rewrite elem_of_lookup_imap. split.
  - intros (j & y & [= -> ->] & ?). done.
  - intros. by exists i, x.
Qed.

Lemma enumerate_snd {A} (l : list A) : (enumerate l).*2 = l.
Proof.
  induction l as [|x l IH] using rev_ind; [done|].
  by rewrite enumerate_snoc, fmap_app, IH.
Qed.

Lemma retain_fmap_NoDup {A B C} (p : A -> bool) (f : A -> B) (g : A -> C) l :
  NoDup (f <$> l) ->
  (forall x y, x ∈ l -> y ∈ l -> p x = true -> p y = true -> g x = g y -> f x = f y) ->
  NoDup (g <$> retain p l).
Proof.
  induction l as [|x l IH]; simpl; [constructor|].
  rewrite NoDup_cons. intros [Hx Hl] Hinj.
  assert (NoDup (g <$> retain p l)) as IH'.
  { apply IH; [done|]. intros. apply Hinj; auto; set_solver. }
  destruct (p x) eqn:E; [|done]. simpl. apply NoDup_cons. split; [|done].
  intros (y & Hg & [Hp Hy]%elem_of_retain)%list_elem_of_fmap.
  apply Hx. apply list_elem_of_fmap. exists y. split; [|done].
  apply Hinj; auto; set_solver.
Qed.

Lemma enumerate_NoDup_fst {A} (l : list A) : NoDup (enumerate l).*1.
Proof.
  induction l as [|x l IH] using rev_ind; [constructor|].
  rewrite enumerate_snoc, fmap_app. apply NoDup_app. split; [done|]. split; [|apply NoDup_singleton].
  intros i ([j y] & -> & Hj%elem_of_enumerate)%list_elem_of_fmap. simpl.
  apply lookup_lt_Some in Hj. rewrite list_elem_of_singleton. simpl. lia.
Qed.

(** ** The loop invariant *)

Definition better_or_eq (p q : PeerInfo) (i j : nat) : Prop :=
  (priority p < priority q)%Z \/ (priority p = priority q /\ i <= j).

Record scan_inv (l : list PeerInfo) (s : scan) : Prop := {
  si_best : forall ip i pr, best_peer_for_ip s !! ip = Some (i, pr) ->
    exists p, l !! i = Some p /\ server_ip p = ip /\ priority p = pr
      /\ forall j q, l !! j = Some q -> server_ip q = ip -> better_or_eq p q i j;
  si_dom : forall i p, l !! i = Some p -> is_Some (best_peer_for_ip s !! server_ip p);
  si_dups : forall i p, l !! i = Some p ->
    (i ∈ duplicates_idx s <-> best_peer_for_ip s !! server_ip p <> Some (i, priority p));
  si_bound : forall i, i ∈ duplicates_idx s -> i < length l;
  si_count : length (duplicates_idx s) + size (best_peer_for_ip s) = length l;
}.

Lemma lookup_snoc_inv {A} (l : list A) x i y :
  (l ++ [x]) !! i = Some y -> l !! i = Some y \/ (i = length l /\ y = x).
Proof. rewrite lookup_snoc_Some. intros [[_ ?]|[-> ->]]; auto. Qed.

Lemma scan_inv_new l s p :
  scan_inv l s -> best_peer_for_ip s !! server_ip p = None ->
  scan_inv (l ++ [p]) (scan_peer s (length l, p)).
Proof.
  intros [Hb Hd Hdu Hbd Hc] E. simpl. rewrite E.
  assert (forall j q, l !! j = Some q -> server_ip q <> server_ip p) as Hfresh.
  { intros j q Hj Heq. destruct (Hd _ _ Hj) as [? Hs]. congruence. }
  split; simpl.
  - intros ip i pr. rewrite lookup_insert. case_decide as Hip.
    + intros [= <- <-]. exists p. rewrite list_lookup_middle by done. repeat split; auto.
      intros j q [Hj|[-> ->]]%lookup_snoc_inv Hq; [exfalso; eapply Hfresh; eauto; congruence|].
      right; auto.
    + intros (p' & Hl & H1 & H2 & H3)%Hb. exists p'. repeat split; auto using lookup_app_l_Some.
      intros j q [Hj|[-> ->]]%lookup_snoc_inv Hq; [by apply H3|congruence].
  - intros i q [Hj|[-> ->]]%lookup_snoc_inv; [|rewrite lookup_insert_eq; eauto].
    rewrite lookup_insert_ne by (intros ?; eapply Hfresh; eauto). eauto.
  - intros i q [Hj|[-> ->]]%lookup_snoc_inv.
    + rewrite lookup_insert_ne by (intros ?; eapply Hfresh; eauto). auto.
    + rewrite lookup_insert_eq. split; [intros Hin%Hbd; lia|congruence].
  - intros i Hi%Hbd. rewrite length_app. simpl. lia.
  - rewrite map_size_insert_None by done. rewrite length_app. simpl. lia.
Qed.

Lemma scan_inv_replace l s p i pr :
  scan_inv l s -> best_peer_for_ip s !! server_ip p = Some (i, pr) -> (priority p < pr)%Z ->
  scan_inv (l ++ [p]) (scan_peer s (length l, p)).
Proof.
  intros [Hb Hd Hdu Hbd Hc] E Hlt. simpl. rewrite E.
  destruct (Hb _ _ _ E) as (p0 & Hp0 & Hip0 & Hpr0 & Hbest).
  rewrite (proj2 (Z.ltb_lt _ _) Hlt). split; simpl.
  - intros ip j pr'. rewrite lookup_insert. case_decide as Hip.
    + intros [= <- <-]. exists p. rewrite list_lookup_middle by done. repeat split; auto.
      intros j' q [Hj|[-> ->]]%lookup_snoc_inv Hq; [|right; auto].
      destruct (Hbest j' q Hj) as [|[? ?]]; [congruence|left; lia..].
    + intros (p' & Hl & H1 & H2 & H3)%Hb. exists p'. repeat split; auto using lookup_app_l_Some.
      intros j' q [Hj|[-> ->]]%lookup_snoc_inv Hq; [by apply H3|congruence].
  - intros j q [Hj|[-> ->]]%lookup_snoc_inv; [|rewrite lookup_insert_eq; eauto].
    rewrite lookup_insert. case_decide; eauto.
  - intros j q [Hj|[-> ->]]%lookup_snoc_inv; rewrite elem_of_app, list_elem_of_singleton.
    + rewrite (Hdu _ _ Hj), lookup_insert.
      pose proof (lookup_lt_Some _ _ _ Hj). case_decide as Heq.
      * split; [intros _ [= ]; lia|]. intros _.
        destruct (decide (j = i)) as [->|]; [by right|left]. rewrite <- Heq, E. congruence.
      * split; [intros [?| ->]; [done|simplify_eq]|by left].
    + rewrite lookup_insert_eq. pose proof (lookup_lt_Some _ _ _ Hp0).
      split; [intros [Hin%Hbd|]; lia|congruence].
  - intros j. rewrite elem_of_app, list_elem_of_singleton, length_app. simpl.
    pose proof (lookup_lt_Some _ _ _ Hp0). intros [Hin%Hbd| ->]; lia.
  - rewrite map_size_insert_Some by eauto. rewrite !length_app. simpl. lia.
Qed.

Lemma scan_inv_keep l s p i pr :
  scan_inv l s -> best_peer_for_ip s !! server_ip p = Some (i, pr) -> ~ (priority p < pr)%Z ->
  scan_inv (l ++ [p]) (scan_peer s (length l, p)).
Proof.
  intros [Hb Hd Hdu Hbd Hc] E Hge. simpl. rewrite E.
  destruct (Hb _ _ _ E) as (p0 & Hp0 & Hip0 & Hpr0 & Hbest).
  pose proof (lookup_lt_Some _ _ _ Hp0) as Hi.
  rewrite (proj2 (Z.ltb_ge _ _)) by lia. split; simpl.
  - intros ip j pr' Hx. destruct (Hb _ _ _ Hx) as (p2 & Hl & H1 & H2 & H3).
    exists p2. repeat split; auto using lookup_app_l_Some.
    intros j' q [Hj|[-> ->]]%lookup_snoc_inv Hq; [by apply H3|].
    rewrite <- Hq, E in Hx. simplify_eq. unfold better_or_eq. lia.
  - intros j q [Hj|[-> ->]]%lookup_snoc_inv; eauto.
  - intros j q [Hj|[-> ->]]%lookup_snoc_inv; rewrite elem_of_app, list_elem_of_singleton.
    + rewrite (Hdu _ _ Hj). pose proof (lookup_lt_Some _ _ _ Hj). split; [intros [|]; [done|lia]|by left].
    + rewrite E. split; [intros _ [= ]; lia|by right].
  - intros j. rewrite elem_of_app, list_elem_of_singleton, length_app. simpl.
    intros [Hin%Hbd| ->]; lia.
  - rewrite !length_app. simpl. lia.
Qed.

Lemma scan_peers_inv peers : scan_inv peers (scan_peers peers).
Proof.
  unfold scan_peers. induction peers as [|p l IH] using rev_ind.
  - split; simpl; try done; set_solver.
  - rewrite enumerate_snoc, foldl_snoc.
    revert IH. generalize (foldl scan_peer {| best_peer_for_ip := ∅; duplicates_idx := [] |} (enumerate l)) as s.
    intros s IH. destruct (best_peer_for_ip s !! server_ip p) as [[i pr]|] eqn:E.
    + destruct (decide (priority p < pr)%Z); eauto using scan_inv_replace, scan_inv_keep.
    + by apply scan_inv_new.
Qed.

(** The code's result without its early return. *)
Lemma sanitized_retain peers :
  SanitizedPeers_from peers
  = (retain (fun ip => bool_decide (ip.1 ∉ duplicates_idx (scan_peers peers))) (enumerate peers)).*2.
Proof.
  unfold SanitizedPeers_from. destruct (duplicates_idx (scan_peers peers)) as [|d ds] eqn:E; [|done].
  rewrite retain_all; [by rewrite enumerate_snd|].
  intros x _. apply bool_decide_eq_true_2. set_solver.
Qed.

Lemma beaten_spec peers i p :
  existsb (fun jq => beats jq (i, p)) (enumerate peers) = true
  <-> exists j q, peers !! j = Some q /\ server_ip q = server_ip p
      /\ ((priority q < priority p)%Z \/ (priority q = priority p /\ j < i)).
Proof.
  rewrite existsb_exists. split.
  - intros ([j q] & Hin & Hb). apply list_elem_of_In, elem_of_enumerate in Hin.
    exists j, q. split; [done|]. unfold beats in Hb. simpl in Hb.
    apply andb_prop in Hb as [?%bool_decide_eq_true_1 Hb]. split; [done|].
    apply orb_prop in Hb as [|Hb]; [left; lia|right].
    apply andb_prop in Hb as [? ?%Nat.ltb_lt]. lia.
  - intros (j & q & Hj & Hip & Hlt). exists (j, q).
    rewrite <- list_elem_of_In, elem_of_enumerate. split; [done|].
    unfold beats; simpl. rewrite bool_decide_eq_true_2 by done. simpl.
    destruct Hlt as [?|[-> ?%Nat.ltb_lt]].
    + by rewrite (proj2 (Z.ltb_lt _ _)).
    + rewrite Z.eqb_refl. simpl. rewrite orb_true_iff. auto.
Qed.

(** An index is kept exactly when no other peer of its IP beats it. *)
Lemma kept_iff_unbeaten peers i p :
  peers !! i = Some p ->
  bool_decide (i ∉ duplicates_idx (scan_peers peers))
  = negb (existsb (fun jq => beats jq (i, p)) (enumerate peers)).
Proof.
  intros Hi. destruct (scan_peers_inv peers) as [Hb Hd Hdu _ _].
  destruct (Hd _ _ Hi) as [[j pr] Hbest].
  destruct (Hb _ _ _ Hbest) as (q & Hj & Hip & Hpr & Hmin).
  apply eq_bool_prop_intro. rewrite bool_decide_spec, negb_True, Is_true_true, beaten_spec.
  rewrite (Hdu _ _ Hi), Hbest. split.
  - intros Heq%dec_stable (j' & q' & Hj' & Hip' & Hlt). simplify_eq.
    destruct (Hmin j' q' Hj' Hip') as [|[]]; lia.
  - intros Hno Hne. apply Hne. destruct (Hmin i p Hi eq_refl) as [|[? Hle]].
    + exfalso. apply Hno. exists j, q. auto.
    + destruct (decide (j = i)) as [->|]; [by simplify_eq|].
      exfalso. apply Hno. exists j, q. repeat split; auto. right. split; [done|lia].
Qed.

(** C17.  The sanitizing loop computes exactly the declarative selection: from
    the given peers it keeps, in their order, those that no other peer of
    the same entry IP beats (a smaller priority number wins, the first one on
    a tie). *)
Theorem sanitized_peers_best (peers : list PeerInfo) :
  SanitizedPeers_from peers = best_peers peers.
Proof.
  rewrite sanitized_retain. unfold best_peers. f_equal. unfold retain.
  apply List.filter_ext_in. intros [i p] Hin.
  apply list_elem_of_In, elem_of_enumerate in Hin. simpl.
  by apply kept_iff_unbeaten.
Qed.

(** Membership in the result, by position. *)
Lemma elem_of_sanitized peers p :
  p ∈ SanitizedPeers_from peers <->
  exists i, peers !! i = Some p /\ i ∉ duplicates_idx (scan_peers peers).
Proof.
  rewrite sanitized_retain, list_elem_of_fmap. split.
  - intros ([i q] & -> & [Hk%bool_decide_eq_true_1 Hq%elem_of_enumerate]%elem_of_retain). eauto.
  - intros (i & Hi & Hk). exists (i, p). split; [done|].
    apply elem_of_retain. split; [by apply bool_decide_eq_true_2|by apply elem_of_enumerate].
Qed.

(** The kept index of an IP is the one the map holds. *)
Lemma kept_best peers i p :
  peers !! i = Some p -> i ∉ duplicates_idx (scan_peers peers) ->
  best_peer_for_ip (scan_peers peers) !! server_ip p = Some (i, priority p).
Proof.
  intros Hi Hk. destruct (scan_peers_inv peers) as [_ _ Hdu _ _].
  rewrite (Hdu _ _ Hi) in Hk. by apply dec_stable.
Qed.

Lemma sanitized_ips_NoDup peers : NoDup (server_ip <$> SanitizedPeers_from peers).
Proof.
  rewrite sanitized_retain, <- list_fmap_compose.
  apply (retain_fmap_NoDup _ fst); [apply enumerate_NoDup_fst|].
  intros [i p] [j q] Hi%elem_of_enumerate Hj%elem_of_enumerate
    Hk%bool_decide_eq_true_1 Hl%bool_decide_eq_true_1. simpl in *. intros Heq.
  pose proof (kept_best _ _ _ Hi Hk) as H1. pose proof (kept_best _ _ _ Hj Hl) as H2.
  rewrite Heq in H1. congruence.
Qed.
#[export] Hint Resolve sanitized_ips_NoDup : protun.

(** The result has one peer per entry IP, loses no entry IP, takes its
    peers from the input in their order, and the peer kept for an IP has the
    smallest priority number given for that IP. *)
Lemma sanitized_peers_unique_ips (peers : list PeerInfo) :
  let r := SanitizedPeers_from peers in
  NoDup (server_ip <$> r) /\ sublist r peers
  /\ (forall p, p ∈ peers -> exists q, q ∈ r /\ server_ip q = server_ip p
        /\ (priority q <= priority p)%Z).
Proof.
  cbv zeta. split; [apply sanitized_ips_NoDup|]. split.
  - rewrite sanitized_retain. eapply transitivity; [apply fmap_sublist, retain_sublist|].
    by rewrite enumerate_snd.
  - intros p [i Hi]%list_elem_of_lookup.
    destruct (scan_peers_inv peers) as [Hb Hd Hdu _ _].
    destruct (Hd _ _ Hi) as [[j pr] Hbest].
    destruct (Hb _ _ _ Hbest) as (q & Hj & Hip & Hpr & Hmin).
    exists q. split; [|split; [done|destruct (Hmin _ _ Hi eq_refl) as [|[]]; lia]].
    apply elem_of_sanitized. exists j. split; [done|].
    rewrite (Hdu _ _ Hj), Hip, Hbest, Hpr. auto.
Qed.

Lemma sanitized_NoDup_id peers : NoDup (server_ip <$> peers) -> SanitizedPeers_from peers = peers.
Proof.
  intros Hnd. rewrite sanitized_retain, retain_all; [by rewrite enumerate_snd|].
  intros [i p] Hi%elem_of_enumerate. apply bool_decide_eq_true_2.
  destruct (scan_peers_inv peers) as [Hb Hd Hdu _ _]. simpl. rewrite (Hdu _ _ Hi).
  intros Hne. destruct (Hd _ _ Hi) as [[j pr] Hbest].
  destruct (Hb _ _ _ Hbest) as (q & Hj & Hip & Hpr & _). apply Hne. rewrite Hbest.
  assert (j = i) as ->; [|by simplify_eq].
  eapply (NoDup_lookup (server_ip <$> peers)); [done|..]; rewrite list_lookup_fmap.
  - by rewrite Hj; simpl; rewrite Hip.
  - by rewrite Hi.
Qed.

(** Sanitizing is idempotent, so an already sanitized update leaves the
    connection's peer list unchanged. *)
Lemma sanitized_peers_idempotent (peers : list PeerInfo) :
  SanitizedPeers_from (SanitizedPeers_from peers) = SanitizedPeers_from peers.
Proof. apply sanitized_NoDup_id, sanitized_ips_NoDup. Qed.

(** [Vec::with_capacity(peers.len() - duplicates_idx.len())] does not
    underflow, and the capacity it reserves is the exact length of the result. *)
Lemma sanitized_capacity_exact (peers : list PeerInfo) :
  let dups := duplicates_idx (scan_peers peers) in
  length dups <= length peers
  /\ length (SanitizedPeers_from peers) = length peers - length dups.
Proof.
  cbv zeta. destruct (scan_peers_inv peers) as [Hb Hd Hdu Hbd Hc]. split; [lia|].
  cut (length (SanitizedPeers_from peers) = size (best_peer_for_ip (scan_peers peers))); [lia|].
  rewrite <- (length_fmap server_ip).
  rewrite <- size_dom, <- (size_list_to_set (C:=gset IpAddress)) by apply sanitized_ips_NoDup.
  f_equal. apply set_eq. intros ip. rewrite elem_of_list_to_set, elem_of_dom, list_elem_of_fmap.
  split.
  - intros (p & -> & (i & Hi & _)%elem_of_sanitized). eauto.
  - intros [[i pr] Hbest]. destruct (Hb _ _ _ Hbest) as (p & Hi & Hip & Hpr & _).
    exists p. split; [done|]. apply elem_of_sanitized. exists i. split; [done|].
    rewrite (Hdu _ _ Hi), Hip, Hbest, Hpr. auto.
Qed.
