(* ===== verification/Conversions.v ===== *)
(** * Conversions between the API, the connection and pvpnclient

    [src/api/type_conversions.rs], [src/connection/util.rs] and the
    conversions at the end of [src/connection/pvpn_connection.rs]. *)

From S2P Require Import Prelude Types.

(** ** Keys *)

(** [Vec<u8>::try_into::<[u8; N]>]. *)
Definition try_into_array (n : nat) (value : list byte) : option (list byte) :=
  if decide (length value = n) then Some value else None.

Definition WgClientPrivateKey_try_from (value : list byte) : result WgClientPrivateKey string :=
  match try_into_array CLIENT_PRIV_KEY_SIZE_BYTES value with
  | Some bytes => Ok {| client_key := bytes |}
  | None => Err ("private key must be " +:+ pretty CLIENT_PRIV_KEY_SIZE_BYTES +:+ " bytes")
  end.

Definition WgPeerPublicKey_try_from (value : list byte) : result WgPeerPublicKey string :=
  match try_into_array PEER_PUB_KEY_SIZE_BYTES value with
  | Some bytes => Ok {| peer_key := bytes |}
  | None => Err ("peer public key must be " +:+ pretty PEER_PUB_KEY_SIZE_BYTES +:+ " bytes")
  end.

(** [From<WgClientPrivateKey> for Vec<u8>] and [for WireguardPrivateKey]. *)
Definition client_key_bytes (k : WgClientPrivateKey) : list byte := client_key k.
Definition peer_key_bytes (k : WgPeerPublicKey) : list byte := peer_key k.

(** ** Statistics, settings and enums *)

Definition Event_from_tunnel_stats (value : TunnelStats) (timestamp_ms : Z) : Event :=
  ConnectionStats timestamp_ms (rx value) (tx value) (time_since_last_handshake value)
    (estimated_loss value) (estimated_rtt value).

Definition NetshieldLevel_into (value : NetshieldLevel) : PvpnNetshieldLevel :=
  match value with
  | NetshieldNone => PvpnNetshieldNone
  | MalwareFilter => PvpnMalwareFilter
  | AdsAndMalwareFilter => PvpnAdsAndMalwareFilter
  | AdultAndAdsAndMalwareFilter => PvpnAdultAndAdsAndMalwareFilter
  end.

Definition NetshieldLevel_from (value : PvpnNetshieldLevel) : NetshieldLevel :=
  match value with
  | PvpnNetshieldNone => NetshieldNone
  | PvpnMalwareFilter => MalwareFilter
  | PvpnAdsAndMalwareFilter => AdsAndMalwareFilter
  | PvpnAdultAndAdsAndMalwareFilter => AdultAndAdsAndMalwareFilter
  end.

Definition SessionSettings_from (value : LocalAgentSettings) : SessionSettings :=
  {| ss_split_tcp := split_tcp value;
     ss_netshield_level := NetshieldLevel_into <$> netshield_level value;
     ss_softjail := soft_jail value;
     ss_port_forwarding := port_forwarding value;
     ss_random_nat := random_nat value;
     ss_circumvention_routing := circumvention_routing value |}.

Definition Restriction_from (value : PvpnRestriction) : Restriction :=
  match value with
  | PvpnStreaming reason => Streaming reason
  | PvpnTorrent reason => Torrent reason
  | PvpnOther name reason => OtherRestriction name reason
  end.

Definition Protocol_from (p : VpnProtocol) : Protocol :=
  match p with
  | VpnWireguardUdp => WireguardUdp
  | VpnWireguardTcp => WireguardTcp
  | VpnStealth => Stealth
  end.

(** [pvpn_settings]. *)
Definition pvpn_settings (s : SessionSettings) : Settings :=
  {| authorized_protocols := [VpnWireguardUdp; VpnWireguardTcp; VpnStealth];
     session_settings := s |}.

(** [From<Cookies> for MuonCookies]: a raw cookie is its name and value. *)
Definition MuonCookies_from (c : Cookies) : list (string * string) :=
  (fun c => (cookie_name c, cookie_value c)) <$> items c.

(** ** Socket errors *)

Definition error_kind_to_socket_err (error_kind : ErrorKind) : SystemError :=
  match error_kind with
  | AddrInUse => SysAddressInUse
  | AddrNotAvailable => SysAddrNotAvailable
  | AlreadyExists => SysAlreadyExists
  | BrokenPipe => SysBrokenPipe
  | ConnectionAborted => SysConnectionAborted
  | ConnectionRefused => SysConnectionRefused
  | ConnectionReset => SysConnectionReset
  | HostUnreachable => SysHostUnreachable
  | Interrupted => SysInterrupted
  | InvalidData => SysInvalidData
  | InvalidInput => SysInvalidInput
  | NetworkDown => SysNetworkDown
  | NetworkUnreachable => SysNetworkUnreachable
  | NotConnected => SysNotConnected
  | NotFound => SysNotFound
  | PermissionDenied => SysPermissionDenied
  | QuotaExceeded => SysQuotaExceeded
  | ResourceBusy => SysResourceBusy
  | TimedOut => SysTimeout
  | UnexpectedEof => SysUnexpectedEof
  | WouldBlockKind => SysWouldBlock
  | WriteZero => SysWriteZero
  | _ => SysUnknown
  end.

(** ** Peers *)

Definition to_non_zero_vec (ports : list Z) : list Z :=
  retain (fun x => negb (x =? 0)%Z) ports.

(** [PeerInfo::addr]: [PeerAddr::try_from] is given exactly one address. *)
Definition addr (p : PeerInfo) : PeerAddr :=
  match server_ip p with
  | V4 a => PeerIpv4 a
  | V6 a => PeerIpv6 a
  end.

Definition as_peer (p : PeerInfo) : Peer :=
  {| p_addr := addr p;
     p_key := peer_key (server_public_key p);
     p_tag := Some (peer_id p);
     p_udp_ports := to_non_zero_vec (udp_ports p);
     p_tcp_ports := to_non_zero_vec (tcp_ports p);
     p_tls_ports := to_non_zero_vec (tls_ports p);
     p_priority := wrapS 16 (priority p);
     p_bouncing_labels := match peer_exit_label p with Some l => [l] | None => [] end |}.

(** ** Client mode *)

Section client_mode.
(** The parsers of pvpnclient for the cached secrets, with their errors'
    debug output. *)
Context {Ed25519PrivateKey LocalAgentCertificate MuonAuth : Type}.
Variable private_key_from_pem : list byte -> result Ed25519PrivateKey string.
Variable certificate_from_pem : list byte -> result LocalAgentCertificate string.
Variable muon_auth_try_from : list byte -> result MuonAuth string.

Inductive PvpnClientMode :=
| ModeLocalAgent (app_version user_agent : string) (private_key : option Ed25519PrivateKey)
    (certificate : option LocalAgentCertificate) (muon_auth : option MuonAuth)
| ModeNoLocalAgent (wg_private_key : list byte).

Definition to_certificate (data : list byte) : io_result LocalAgentCertificate :=
  match certificate_from_pem data with
  | Ok cert => Ok cert
  | Err e => Err (io_error_new InvalidData ("Failed to parse certificate: " +:+ e))
  end.

Definition to_private_key (data : list byte) : io_result Ed25519PrivateKey :=
  match private_key_from_pem data with
  | Ok key => Ok key
  | Err e => Err (io_error_new InvalidData ("Failed to parse private key: " +:+ e))
  end.

Definition to_muon_auth (data : list byte) : io_result MuonAuth :=
  match muon_auth_try_from data with
  | Ok key => Ok key
  | Err e => Err (io_error_new InvalidData ("Failed to parse muon auth: " +:+ e))
  end.

(** [cache.get(k).map(f).transpose()]. *)
Definition map_transpose {A} (f : list byte -> io_result A) (o : option (list byte))
  : io_result (option A) :=
  match o with
  | None => Ok None
  | Some d => match f d with Ok a => Ok (Some a) | Err e => Err e end
  end.

Definition to_pvpn_client_mode (mode : ConnectionMode) (cache_get : CacheKey -> option (list byte))
  : io_result PvpnClientMode :=
  match mode with
  | NoLocalAgent wg_private_key => Ok (ModeNoLocalAgent (client_key wg_private_key))
  | LocalAgent user_agent app_version _ =>
      result_bind (map_transpose to_private_key (cache_get PrivateKey)) (fun private_key =>
      result_bind (map_transpose to_certificate (cache_get Certificate)) (fun certificate =>
      result_bind (map_transpose to_muon_auth (cache_get ApiSession)) (fun auth =>
      Ok (ModeLocalAgent app_version user_agent private_key certificate auth))))
  end.

(** A cached secret is usable: absent, or accepted by its parser. *)
Definition parses {A} (f : list byte -> result A string) (o : option (list byte)) : bool :=
  match o with None => true | Some d => is_ok (f d) end.

(** Building the client mode never consults the cache outside
    local-agent mode; in local-agent mode it succeeds exactly when every
    cached secret parses, and otherwise fails with [InvalidData]. *)
Lemma client_mode_from_cache (mode : ConnectionMode) (cache_get : CacheKey -> option (list byte)) :
  match mode, to_pvpn_client_mode mode cache_get with
  | NoLocalAgent k, Ok m => m = ModeNoLocalAgent (client_key k)
  | NoLocalAgent _, Err _ => False
  | LocalAgent ua av _, Ok m =>
      parses private_key_from_pem (cache_get PrivateKey)
        && parses certificate_from_pem (cache_get Certificate)
        && parses muon_auth_try_from (cache_get ApiSession) = true
      /\ exists k c a, m = ModeLocalAgent av ua k c a
           /\ (k = None <-> cache_get PrivateKey = None)
           /\ (c = None <-> cache_get Certificate = None)
           /\ (a = None <-> cache_get ApiSession = None)
  | LocalAgent _ _ _, Err e =>
      parses private_key_from_pem (cache_get PrivateKey)
        && parses certificate_from_pem (cache_get Certificate)
        && parses muon_auth_try_from (cache_get ApiSession) = false
      /\ kind e = InvalidData
  end.
Proof.
  destruct mode as [k|ua av st]; simpl; [done|].
  unfold map_transpose, to_private_key, to_certificate, to_muon_auth, parses.
  repeat (case_match; simplify_eq/=); try done; (split; [done|]);
    try done; do 3 eexists; repeat split; done.
Qed.
End client_mode.
Arguments PvpnClientMode : clear implicits.

(** ** Properties *)

(** The Netshield level crosses the interface without loss in both
    directions, so a level the server reports is the level that was requested. *)
Lemma netshield_level_roundtrip (l : NetshieldLevel) (v : PvpnNetshieldLevel) :
  NetshieldLevel_from (NetshieldLevel_into l) = l
  /\ NetshieldLevel_into (NetshieldLevel_from v) = v.
Proof. by destruct l, v. Qed.

(** A byte vector becomes a WireGuard key exactly when it has 32 bytes;
    converting the key back gives the same bytes, and any other length is an
    error and not a truncated key. *)
Lemma wireguard_key_roundtrip (value : list byte) :
  match WgClientPrivateKey_try_from value, WgPeerPublicKey_try_from value with
  | Ok k, Ok p => length value = 32 /\ client_key_bytes k = value /\ peer_key_bytes p = value
  | Err e, Err e' => length value <> 32
      /\ e = "private key must be 32 bytes" /\ e' = "peer public key must be 32 bytes"
  | _, _ => False
  end.
Proof.
  unfold WgClientPrivateKey_try_from, WgPeerPublicKey_try_from, try_into_array,
    CLIENT_PRIV_KEY_SIZE_BYTES, PEER_PUB_KEY_SIZE_BYTES. by case_decide.
Qed.

Definition listed_kind (k : ErrorKind) : bool :=
  match k with OtherKind | UnlistedKind _ => false | _ => true end.

(** Socket errors are reported to the VPN client without confusion: the
    conversion is injective on the kinds the client distinguishes, and only
    the others become [Unknown]. *)
Lemma socket_error_injective (k k' : ErrorKind) :
  (error_kind_to_socket_err k = SysUnknown <-> listed_kind k = false)
  /\ (listed_kind k = true -> error_kind_to_socket_err k = error_kind_to_socket_err k' -> k = k').
Proof. destruct k, k'; simpl; split; try done; split; done. Qed.

Lemma socket_error_injective_witness :
  error_kind_to_socket_err TimedOut = error_kind_to_socket_err TimedOut /\ TimedOut = TimedOut.
Proof.
  split; [reflexivity|]. apply (socket_error_injective TimedOut TimedOut); reflexivity.
Defined.

Lemma addr_inj p q : addr p = addr q <-> server_ip p = server_ip q.
Proof. unfold addr. destruct (server_ip p), (server_ip q); split; congruence. Qed.

(** The peer handed to the VPN client keeps the address, the key, the id
    as its tag, the non-zero ports of each protocol in their order, and the
    exit label; the priority is kept when it fits an [i16], and is otherwise
    reduced modulo 2^16. *)
Lemma as_peer_faithful (p : PeerInfo) :
  let q := as_peer p in
  p_addr q = addr p /\ p_key q = peer_key (server_public_key p) /\ p_tag q = Some (peer_id p)
  /\ (forall x, x ∈ p_udp_ports q <-> x ∈ udp_ports p /\ x <> 0%Z)
  /\ (forall x, x ∈ p_tcp_ports q <-> x ∈ tcp_ports p /\ x <> 0%Z)
  /\ (forall x, x ∈ p_tls_ports q <-> x ∈ tls_ports p /\ x <> 0%Z)
  /\ sublist (p_udp_ports q) (udp_ports p)
  /\ sublist (p_tcp_ports q) (tcp_ports p)
  /\ sublist (p_tls_ports q) (tls_ports p)
  /\ p_bouncing_labels q = option_list (peer_exit_label p)
  /\ ((-32768 <= priority p < 32768)%Z -> p_priority q = priority p)
  /\ (p_priority q `mod` 65536 = priority p `mod` 65536)%Z.
Proof.
  assert (forall l x, x ∈ to_non_zero_vec l <-> x ∈ l /\ x <> 0%Z) as Hports.
  { intros l x. unfold to_non_zero_vec. rewrite elem_of_retain, negb_true_iff, Z.eqb_neq. tauto. }
  cbv zeta. simpl. do 3 (split; [done|]). do 3 (split; [apply Hports|]).
  do 3 (split; [apply retain_sublist|]). split; [by destruct (peer_exit_label p)|]. split.
  - intros. apply wrapS_small; simpl; lia.
  - unfold wrapS. rewrite Zminus_mod_idemp_l. f_equal. lia.
Qed.

Definition peer_with_priority (pr : Z) : PeerInfo :=
  {| peer_id := "p"; server_ip := V4 1; server_public_key := {| peer_key := [] |};
     udp_ports := [51820%Z; 0%Z; 443%Z]; tcp_ports := []; tls_ports := []; priority := pr;
     peer_exit_label := None |}.

Lemma as_peer_faithful_witness : p_priority (as_peer (peer_with_priority 7)) = 7%Z.
Proof.
  destruct (as_peer_faithful (peer_with_priority 7)) as (_&_&_&_&_&_&_&_&_&_&H&_).
  apply H. simpl. lia.
Defined.

(** Outside the [i16] range the cast loses the order of priorities: a
    peer the client prefers (smaller number) can be handed over as the less
    preferred one. *)
Lemma as_peer_priority_order_lost :
  exists p q : PeerInfo, (priority p < priority q)%Z
    /\ (p_priority (as_peer q) < p_priority (as_peer p))%Z.
Proof.
  exists (peer_with_priority 0), (peer_with_priority 40000). split; vm_compute; done.
Qed.
