(* ===== verification/LocalAgent.v ===== *)
(** * Local agent handler

    [src/connection/local_agent_handler.rs]: what the local agent server
    reports is folded into the handler, which decides whether the connection
    counts as connected, and which turns messages into events.  The stats
    accumulator, written as a macro over six fields in the source, is a record
    indexed by [stat]. *)

From S2P Require Import Prelude Types Conversions.

(** ** Data-saved estimate *)

Definition AVG_AD_SIZE_BYTES : Z := 200 * 1024.
Definition AVG_TRACKER_SIZE_BYTES : Z := 50 * 1024.
Definition AVG_MALICIOUS_SIZE_BYTES : Z := 750 * 1024.
Definition AVG_ADULT_CONTENT_SIZE_BYTES : Z := 1454 * 1024.

(** [if let Some(n) = blocked { saved += n * size }] on [u64]. *)
Definition add_saved (saved : Z) (blocked : option Z) (size : Z) : Z :=
  match blocked with
  | Some n => (saved +u64 (n *u64 size))%int
  | None => saved
  end.

Definition update_local_agent_stats_with_estimates (event : Event) : Event :=
  match event with
  | LocalAgentStats br bs malicious ads trackers adult _ =>
      let saved := add_saved 0 malicious AVG_MALICIOUS_SIZE_BYTES in
      let saved := add_saved saved ads AVG_AD_SIZE_BYTES in
      let saved := add_saved saved trackers AVG_TRACKER_SIZE_BYTES in
      let saved := add_saved saved adult AVG_ADULT_CONTENT_SIZE_BYTES in
      LocalAgentStats br bs malicious ads trackers adult (Some saved)
  | _ => event
  end.

(** ** Stats accumulator *)

(** The fields given to [create_stats_accumulator!]. *)
Inductive stat :=
| bytes_received | bytes_sent | malicious_blocked | ads_blocked | trackers_blocked
| adult_content_blocked.

#[global] Instance stat_eq_dec : EqDecision stat.
Proof. solve_decision. Defined.

Definition all_stats : list stat :=
  [bytes_received; bytes_sent; malicious_blocked; ads_blocked; trackers_blocked; adult_content_blocked].

Record LocalAgentStatsAccumulator := {
  a_bytes_received : option (option Z);
  a_bytes_sent : option (option Z);
  a_malicious_blocked : option (option Z);
  a_ads_blocked : option (option Z);
  a_trackers_blocked : option (option Z);
  a_adult_content_blocked : option (option Z);
}.

(** [Default::default()] and the result of [reset]. *)
Definition accumulator_empty : LocalAgentStatsAccumulator :=
  Build_LocalAgentStatsAccumulator None None None None None None.

(** [self.$field]. *)
Definition acc_field (s : stat) (a : LocalAgentStatsAccumulator) : option (option Z) :=
  match s with
  | bytes_received => a_bytes_received a
  | bytes_sent => a_bytes_sent a
  | malicious_blocked => a_malicious_blocked a
  | ads_blocked => a_ads_blocked a
  | trackers_blocked => a_trackers_blocked a
  | adult_content_blocked => a_adult_content_blocked a
  end.

(** [self.$field = Some(val)]. *)
Definition acc_assign (s : stat) (val : option Z) (a : LocalAgentStatsAccumulator)
  : LocalAgentStatsAccumulator :=
  let upd s' := if decide (s = s') then Some val else acc_field s' a in
  Build_LocalAgentStatsAccumulator (upd bytes_received) (upd bytes_sent) (upd malicious_blocked)
    (upd ads_blocked) (upd trackers_blocked) (upd adult_content_blocked).

Definition emit_event_when_full (a : LocalAgentStatsAccumulator)
  : option Event * LocalAgentStatsAccumulator :=
  match a with
  | Build_LocalAgentStatsAccumulator (Some br) (Some bs) (Some m) (Some ad) (Some t) (Some ac) =>
      (Some (update_local_agent_stats_with_estimates (LocalAgentStats br bs m ad t ac None)),
       accumulator_empty)
  | _ => (None, a)
  end.

(** The method [create_accumulate_fn!] generates for each field. *)
Definition accumulate (s : stat) (val : option Z) (a : LocalAgentStatsAccumulator)
  : option Event * LocalAgentStatsAccumulator :=
  emit_event_when_full (acc_assign s val a).

(** ** The handler *)

Record LocalAgentHandler := {
  is_connected : bool;
  last_peer : option PeerConnectionInfo;
  agent_info : AgentConnectionInfo;
  established_ts : option Duration;
  exit_label : option string;
  jails : list WaitJailReason;
  restrictions : list Restriction;
  local_agent_stats : LocalAgentStatsAccumulator;
}.

Definition LocalAgentHandler_new : LocalAgentHandler :=
  {| is_connected := false; last_peer := None; agent_info := AgentConnectionInfo_default;
     established_ts := None; exit_label := None; jails := []; restrictions := [];
     local_agent_stats := accumulator_empty |}.

Definition get_wait_reason (h : LocalAgentHandler) : option AgentConnectionWaitReason :=
  match soft_jail (settings (agent_info h)) with
  | Some true => Some SoftJailed
  | _ => match jails h with
         | [] => None
         | js => Some (HardJailed js)
         end
  end.

Definition get_state (peer : PeerConnectionInfo) (h : LocalAgentHandler) : ConnectionState :=
  match get_wait_reason h with
  | Some wait_reason => ConnectingToLocalAgent peer (Some wait_reason)
  | None => if is_connected h then Connected peer (Some (agent_info h))
            else ConnectingToLocalAgent peer None
  end.

Definition on_connected_to_peer (peer : PeerConnectionInfo) (h : LocalAgentHandler)
  : LocalAgentHandler :=
  if match last_peer h with Some lp => bool_decide (peer <> lp) | None => false end then
    {| is_connected := false; last_peer := Some peer; agent_info := AgentConnectionInfo_default;
       established_ts := None; exit_label := None; jails := [];
       restrictions := restrictions h; local_agent_stats := accumulator_empty |}
  else
    {| is_connected := is_connected h; last_peer := Some peer; agent_info := agent_info h;
       established_ts := established_ts h; exit_label := exit_label h; jails := jails h;
       restrictions := restrictions h; local_agent_stats := accumulator_empty |}.

Definition local_agent_selectors_to_watch : list LocalAgentSelector :=
  [SelInfoEstablished; SelInfoGroups; SelInfoRemote; SelRestrictions;
   SelSettingsCircumventionRouting; SelSettingsLabel; SelSettingsNetshieldLevel;
   SelSettingsPortForwarding; SelSettingsRandomNat; SelSettingsSoftjail; SelSettingsSplitTcp;
   SelJails].

(** *** Field updates *)

Definition with_info (f : AgentConnectionInfo -> AgentConnectionInfo) (h : LocalAgentHandler)
  : LocalAgentHandler :=
  {| is_connected := is_connected h; last_peer := last_peer h; agent_info := f (agent_info h);
     established_ts := established_ts h; exit_label := exit_label h; jails := jails h;
     restrictions := restrictions h; local_agent_stats := local_agent_stats h |}.

Definition with_agent (conn : bool) (ts : option Duration) (label : option string)
    (js : list WaitJailReason) (rs : list Restriction) (st : LocalAgentStatsAccumulator)
    (h : LocalAgentHandler) : LocalAgentHandler :=
  {| is_connected := conn; last_peer := last_peer h; agent_info := agent_info h;
     established_ts := ts; exit_label := label; jails := js; restrictions := rs;
     local_agent_stats := st |}.

Definition with_jails js h :=
  with_agent (is_connected h) (established_ts h) (exit_label h) js (restrictions h) (local_agent_stats h) h.

Definition info_with (exit4 exit6 : option IpAddress) (isp_ip country : option string)
    (gs : list string) (i : AgentConnectionInfo) : AgentConnectionInfo :=
  {| server_exit_v4 := exit4; server_exit_v6 := exit6; user_isp_ip := isp_ip;
     user_isp_country_code := country; user_isp_name := user_isp_name i;
     user_isp_coordinates := user_isp_coordinates i; info_restrictions := info_restrictions i;
     groups := gs; settings := settings i |}.

Definition with_agent_settings (s : LocalAgentSettings) (i : AgentConnectionInfo) : AgentConnectionInfo :=
  {| server_exit_v4 := server_exit_v4 i; server_exit_v6 := server_exit_v6 i;
     user_isp_ip := user_isp_ip i; user_isp_country_code := user_isp_country_code i;
     user_isp_name := user_isp_name i; user_isp_coordinates := user_isp_coordinates i;
     info_restrictions := info_restrictions i; groups := groups i; settings := s |}.

(** *** Messages *)

(** The [WaitJailReason] of a jail, the body of the loop of [handle_jails]. *)
Definition jail_reason (jail : Jail) : WaitJailReason :=
  match jail with
  | InternallyHandled jail =>
      match jail with
      | SystemErrorJail m => Internal m
      | ExpiredCertificate m => Internal m
      | RevokedCertificate m => Internal m
      | KeyAlreadyUsed m => Internal m
      | InvalidCertificateSignature m => Internal m
      end
  | ToHandle jail =>
      match jail with
      | RequireRecent2FA m => Need2FA m
      | Expired2FA m => Need2FA m
      | Require2FA m => Need2FA m
      | WaitingClientChallengeReplyJail m => WaitingClientChallengeReply m
      | PolicyViolation1 m => LowPlan m
      | PolicyViolation2 m => PendingInvoice m
      | BadUserBehaviorJail m => BadUserBehavior m
      | DisabledUserJail m => DisabledUser m
      | SessionOverLimitJail m => SessionOverLimit m
      | FreeSessionOverLimit m => SessionOverLimit m
      | BasicSessionOverLimit m => SessionOverLimit m
      | PlusSessionOverLimit m => SessionOverLimit m
      | VisionarySessionOverLimit m => SessionOverLimit m
      | ProSessionOverLimit m => SessionOverLimit m
      | GuestSession m => Internal m
      | RestrictedServer m => Internal m
      | NoCertificateProvided m => Internal m
      | SessionInstallationInProgress m => Internal m
      | UnknownJail code m => OtherJail code m
      end
  end.

Definition handle_jails (js : option (list Jail)) (h : LocalAgentHandler)
  : option Event * LocalAgentHandler :=
  let h := with_jails [] h in
  match js with
  | Some js => (None, foldl (fun h jail => with_jails (jails h ++ [jail_reason jail]) h) h js)
  | None => (None, h)
  end.

Definition handle_stat (s : stat) (val : option Z) (h : LocalAgentHandler)
  : option Event * LocalAgentHandler :=
  let '(ev, st) := accumulate s val (local_agent_stats h) in
  (ev, with_agent (is_connected h) (established_ts h) (exit_label h) (jails h) (restrictions h) st h).

Definition handle_value (value : LocalAgentValue) (h : LocalAgentHandler)
  : option Event * LocalAgentHandler :=
  let i := agent_info h in
  let s := settings i in
  match value with
  | InfoEstablished ts =>
      (None, with_agent (is_connected h) ts (exit_label h) (jails h) (restrictions h) (local_agent_stats h) h)
  | InfoGroups v =>
      (None, with_info (info_with (server_exit_v4 i) (server_exit_v6 i) (user_isp_ip i)
                          (user_isp_country_code i) (default [] v)) h)
  | InfoPlatform _ => (None, h)
  | InfoRemote _ => (None, h)
  | InfoRemoteReal a =>
      (None, with_info (info_with (server_exit_v4 i) (server_exit_v6 i) a
                          (user_isp_country_code i) (groups i)) h)
  | InfoRemoteRealLocationCode c =>
      (None, with_info (info_with (server_exit_v4 i) (server_exit_v6 i) (user_isp_ip i) c (groups i)) h)
  | InfoExitIpv4 a =>
      (None, with_info (info_with (V4 <$> a) (server_exit_v6 i) (user_isp_ip i)
                          (user_isp_country_code i) (groups i)) h)
  | InfoExitIpv6 a =>
      (None, with_info (info_with (server_exit_v4 i) (V6 <$> a) (user_isp_ip i)
                          (user_isp_country_code i) (groups i)) h)
  | RestrictionsValue rs =>
      (None, with_agent (is_connected h) (established_ts h) (exit_label h) (jails h)
               (match rs with Some rs => Restriction_from <$> rs | None => [] end)
               (local_agent_stats h) h)
  | SettingsCircumventionRouting v =>
      (None, with_info (with_agent_settings
        (Build_LocalAgentSettings (split_tcp s) (netshield_level s) (soft_jail s)
           (port_forwarding s) (random_nat s) v)) h)
  | SettingsLabel v =>
      (None, with_agent (is_connected h) (established_ts h) v (jails h) (restrictions h) (local_agent_stats h) h)
  | SettingsNetshieldLevel v =>
      (None, with_info (with_agent_settings
        (Build_LocalAgentSettings (split_tcp s) (NetshieldLevel_from <$> v) (soft_jail s)
           (port_forwarding s) (random_nat s) (circumvention_routing s))) h)
  | SettingsPortForwarding v =>
      (None, with_info (with_agent_settings
        (Build_LocalAgentSettings (split_tcp s) (netshield_level s) (soft_jail s)
           v (random_nat s) (circumvention_routing s))) h)
  | SettingsRandomNat v =>
      (None, with_info (with_agent_settings
        (Build_LocalAgentSettings (split_tcp s) (netshield_level s) (soft_jail s)
           (port_forwarding s) v (circumvention_routing s))) h)
  | SettingsSoftjail v =>
      (None, with_info (with_agent_settings
        (Build_LocalAgentSettings (split_tcp s) (netshield_level s) v
           (port_forwarding s) (random_nat s) (circumvention_routing s))) h)
  | SettingsSplitTcp v =>
      (None, with_info (with_agent_settings
        (Build_LocalAgentSettings v (netshield_level s) (soft_jail s)
           (port_forwarding s) (random_nat s) (circumvention_routing s))) h)
  | StatsBytesReceived v => handle_stat bytes_received v h
  | StatsBytesSent v => handle_stat bytes_sent v h
  | StatsNetshieldBlockCountMalicious v => handle_stat malicious_blocked v h
  | StatsNetshieldBlockCountAds v => handle_stat ads_blocked v h
  | StatsNetshieldBlockCountTracking v => handle_stat trackers_blocked v h
  | StatsNetshieldBlockCountAdult v => handle_stat adult_content_blocked v h
  | JailsValue js => handle_jails js h
  | UnrecognizedValue => (None, h)
  end.

Definition policy_refused (setting : LocalAgentSettingType) : option Event :=
  Some (ErrorEv (LocalAgentSettingPolicyRefused setting)).

Definition handle_error (error : LocalAgentError) : option Event :=
  match error with
  | MuonAuthError _ => Some (ErrorEv ApiSessionExpired)
  | MuonErrorOnCertRefresh _ => Some (ErrorEv CertificateRefreshFatalError)
  | TooManyTriesOnCertRefresh => Some (ErrorEv CertificateRefreshFatalError)
  | ServerError e =>
      match e with
      | NetshieldLevelPolicyRefused => policy_refused SettingNetshieldLevel
      | BouncingPolicyRefused => policy_refused SettingBouncing
      | PortFwPolicyRefused => policy_refused SettingPortForwarding
      | SplitTcpPolicyRefused => policy_refused SettingSplitTcp
      | SafeModePolicyRefused => policy_refused SettingSafeMode
      | RandomNatPolicyRefused => policy_refused SettingRandomNat
      | _ => None
      end
  end.

Definition handle_message (message : LocalAgentMessage) (h : LocalAgentHandler)
  : option Event * LocalAgentHandler :=
  match message with
  | LaValue value => handle_value value h
  | LaError error => (handle_error error, h)
  | MuonForkSelectorNeeded => (Some (ErrorEv ApiSessionExpired), h)
  | LocalAgentConnected =>
      (None, with_agent true (established_ts h) (exit_label h) (jails h) (restrictions h)
               (local_agent_stats h) h)
  end.

Fixpoint handle_messages_seq (ms : list LocalAgentMessage) (h : LocalAgentHandler)
  : list Event * LocalAgentHandler :=
  match ms with
  | [] => ([], h)
  | m :: ms =>
      let '(ev, h1) := handle_message m h in
      let '(evs, h2) := handle_messages_seq ms h1 in (option_list ev ++ evs, h2)
  end.

(** ** Transition system *)

(** The connection changes its handler in these two ways only. *)
Inductive agent_step (h : LocalAgentHandler) : LocalAgentHandler -> Prop :=
| agent_message m ev h' : handle_message m h = (ev, h') -> agent_step h h'
| agent_peer p : agent_step h (on_connected_to_peer p h).
#[export] Hint Constructors agent_step : protun.

(** ** Reported state *)

Definition soft_jailed (h : LocalAgentHandler) : bool :=
  match soft_jail (settings (agent_info h)) with Some true => true | _ => false end.

(** In local-agent mode the connection is reported connected exactly when
    the agent has connected, the session is not soft-jailed and no jail is in
    force; then the agent information is present.  Otherwise it is reported
    as connecting to the agent, with the soft jail as the reason before the
    hard jails. *)
Lemma agent_state_spec (h : LocalAgentHandler) (peer : PeerConnectionInfo) :
  get_state peer h =
    if soft_jailed h then ConnectingToLocalAgent peer (Some SoftJailed)
    else if negb (bool_decide (jails h = [])) then
      ConnectingToLocalAgent peer (Some (HardJailed (jails h)))
    else if is_connected h then Connected peer (Some (agent_info h))
    else ConnectingToLocalAgent peer None.
Proof.
  unfold get_state, get_wait_reason, soft_jailed.
  destruct (soft_jail _) as [[]|], (jails h); simpl; try done; by destruct (is_connected h).
Qed.

(** The jails after a list of jails has been pushed. *)
Lemma foldl_jails js h :
  foldl (fun h jail => with_jails (jails h ++ [jail_reason jail]) h) h js
  = with_jails (jails h ++ (jail_reason <$> js)) h.
Proof.
  revert h. induction js as [|j js IH]; intros h; simpl.
  - rewrite app_nil_r. by destruct h.
  - rewrite IH. simpl. by rewrite <- app_assoc.
Qed.

(** A jails message replaces the jails in force by the ones it lists, one
    reason per jail in order, and changes nothing else of the handler; an
    empty or absent list lifts every hard jail. *)
Lemma jails_replaced (js : option (list Jail)) (h : LocalAgentHandler) :
  handle_message (LaValue (JailsValue js)) h
  = (None, with_jails (jail_reason <$> default [] js) h).
Proof.
  simpl. unfold handle_jails. destruct js as [js|]; simpl; [|done].
  rewrite foldl_jails. by destruct h.
Qed.

(** Connecting to a different peer forgets what the previous server
    reported: the new connection starts in the connecting state with no jail
    and default agent information, whereas reconnecting to the same peer keeps
    the agent's state. *)
Lemma peer_change_resets (h : LocalAgentHandler) (p q : PeerConnectionInfo) :
  last_peer h = Some p ->
  let h' := on_connected_to_peer q h in
  last_peer h' = Some q /\ local_agent_stats h' = accumulator_empty
  /\ if decide (q = p)
     then get_state q h' = get_state q h /\ agent_info h' = agent_info h
          /\ is_connected h' = is_connected h /\ jails h' = jails h
     else get_state q h' = ConnectingToLocalAgent q None
          /\ agent_info h' = AgentConnectionInfo_default
          /\ established_ts h' = None /\ exit_label h' = None.
Proof.
  intros Hl. cbv zeta. unfold on_connected_to_peer. rewrite Hl.
  case_decide as Hq.
  - rewrite bool_decide_eq_false_2 by (intros []; done). done.
  - rewrite bool_decide_eq_true_2 by done. done.
Qed.

Definition sample_peer (ip : Z) : PeerConnectionInfo :=
  {| conn_peer_id := "p"; entry_ip := V4 ip; protocol := WireguardUdp; port := 1234 |}.

Definition connected_handler : LocalAgentHandler :=
  (handle_messages_seq
     [LocalAgentConnected; LaValue (JailsValue (Some [ToHandle (PolicyViolation1 "low plan")]))]
     (on_connected_to_peer (sample_peer 1) LocalAgentHandler_new)).2.

Lemma peer_change_resets_witness :
  get_state (sample_peer 2) (on_connected_to_peer (sample_peer 2) connected_handler)
  = ConnectingToLocalAgent (sample_peer 2) None.
Proof.
  apply (peer_change_resets connected_handler (sample_peer 1) (sample_peer 2)).
  reflexivity.
Defined.

(** ** Errors *)

(** Errors of the local agent never change the handler; exactly the
    expired session, the failed certificate refresh and the six policy
    refusals reach the application, each with its own event. *)
Lemma agent_errors_reported (e : LocalAgentError) (h : LocalAgentHandler) :
  handle_message (LaError e) h =
    (match e with
     | MuonAuthError _ => Some (ErrorEv ApiSessionExpired)
     | MuonErrorOnCertRefresh _ | TooManyTriesOnCertRefresh =>
         Some (ErrorEv CertificateRefreshFatalError)
     | ServerError se =>
         (fun s => ErrorEv (LocalAgentSettingPolicyRefused s)) <$>
           match se with
           | NetshieldLevelPolicyRefused => Some SettingNetshieldLevel
           | BouncingPolicyRefused => Some SettingBouncing
           | PortFwPolicyRefused => Some SettingPortForwarding
           | SplitTcpPolicyRefused => Some SettingSplitTcp
           | SafeModePolicyRefused => Some SettingSafeMode
           | RandomNatPolicyRefused => Some SettingRandomNat
           | _ => None
           end
     end, h).
Proof. destruct e as [| | |[]]; done. Qed.

(** ** Stats *)

Lemma acc_field_assign s s' v a :
  acc_field s' (acc_assign s v a) = if decide (s = s') then Some v else acc_field s' a.
Proof. by destruct s'. Qed.

Lemma emit_not_full s a : acc_field s a = None -> emit_event_when_full a = (None, a).
Proof. destruct a, s; simpl; intros ->; repeat case_match; done. Qed.

Definition stats_event (v : stat -> option Z) : Event :=
  update_local_agent_stats_with_estimates
    (LocalAgentStats (v bytes_received) (v bytes_sent) (v malicious_blocked) (v ads_blocked)
       (v trackers_blocked) (v adult_content_blocked) None).

Lemma emit_full a v :
  (forall s, acc_field s a = Some (v s)) ->
  emit_event_when_full a = (Some (stats_event v), accumulator_empty).
Proof.
  intros H. destruct a.
  pose proof (H bytes_received). pose proof (H bytes_sent). pose proof (H malicious_blocked).
  pose proof (H ads_blocked). pose proof (H trackers_blocked). pose proof (H adult_content_blocked).
  simpl in *. by simplify_eq.
Qed.

(** The agent's answer to the request for one stat. *)
Definition stat_message (sv : stat * option Z) : LocalAgentMessage :=
  let '(s, v) := sv in
  LaValue match s with
    | bytes_received => StatsBytesReceived v
    | bytes_sent => StatsBytesSent v
    | malicious_blocked => StatsNetshieldBlockCountMalicious v
    | ads_blocked => StatsNetshieldBlockCountAds v
    | trackers_blocked => StatsNetshieldBlockCountTracking v
    | adult_content_blocked => StatsNetshieldBlockCountAdult v
    end.

Lemma handle_stat_message sv h : handle_message (stat_message sv) h = handle_stat sv.1 sv.2 h.
Proof. by destruct sv as [[] v]. Qed.

Lemma handle_messages_seq_app ms1 ms2 h :
  handle_messages_seq (ms1 ++ ms2) h =
  let '(e1, h1) := handle_messages_seq ms1 h in
  let '(e2, h2) := handle_messages_seq ms2 h1 in (e1 ++ e2, h2).
Proof.
  revert h. induction ms1 as [|m ms1 IH]; intros h; simpl.
  - by destruct (handle_messages_seq ms2 h).
  - destruct (handle_message m h) as [ev h1]. rewrite IH.
    destruct (handle_messages_seq ms1 h1) as [e1 h2], (handle_messages_seq ms2 h2) as [e2 h3].
    by rewrite app_assoc.
Qed.

(** The value a list of answers gives for a stat. *)
Definition stat_of (l : list (stat * option Z)) (s : stat) : option (option Z) :=
  snd <$> find (fun p => bool_decide (p.1 = s)) l.

Lemma stat_of_snoc (l : list (stat * option Z)) s v s' :
  s ∉ l.*1 -> stat_of (l ++ [(s, v)]) s' = if decide (s = s') then Some v else stat_of l s'.
Proof.
  unfold stat_of, find. induction l as [|[t w] l IH]; simpl; intros Hs.
  - case_decide as H; [by rewrite bool_decide_eq_true_2|by rewrite bool_decide_eq_false_2].
  - assert (s <> t) by set_solver. destruct (decide (t = s')) as [->|].
    + rewrite (bool_decide_eq_true_2 (s' = s')) by done. by rewrite decide_False by done.
    + rewrite (bool_decide_eq_false_2 (t = s')) by done. apply IH. set_solver.
Qed.

(** While a stat is missing the answers are only remembered. *)
Lemma stats_partial (l : list (stat * option Z)) h s0 :
  local_agent_stats h = accumulator_empty -> NoDup l.*1 -> s0 ∉ l.*1 ->
  let '(evs, h') := handle_messages_seq (stat_message <$> l) h in
  evs = [] /\ forall s, acc_field s (local_agent_stats h') = stat_of l s.
Proof.
  intros He. induction l as [|[s v] l IH] using rev_ind; intros Hnd Hs0.
  - split; [done|]. intros s. rewrite He. by destruct s.
  - rewrite fmap_app in Hnd. rewrite fmap_app in Hs0. rewrite fmap_app. apply NoDup_app in Hnd as (Hnd & Hdis & _). simpl in Hs0, Hdis.
    specialize (IH Hnd ltac:(set_solver)). rewrite handle_messages_seq_app.
    destruct (handle_messages_seq (stat_message <$> l) h) as [evs h1].
    destruct IH as [-> Hf]. cbn [fmap list_fmap handle_messages_seq].
    rewrite handle_stat_message. unfold handle_stat, accumulate. cbn [fst snd].
    assert (s ∉ l.*1) as Hs by (intros ?; eapply Hdis; [done|set_solver]).
    assert (s <> s0) as Hne by set_solver.
    rewrite (emit_not_full s0).
    + simpl. split; [done|]. intros s'. rewrite acc_field_assign, Hf. by rewrite stat_of_snoc.
    + rewrite acc_field_assign, decide_False by done. rewrite Hf. unfold stat_of.
      rewrite (proj2 (find_None _ _)); [done|]. intros x Hx. apply bool_decide_eq_false_2.
      intros Heq. apply Hs0. rewrite <- Heq. set_solver.
Qed.

Lemma all_stats_in s : s ∈ all_stats.
Proof. destruct s; unfold all_stats; set_solver. Qed.

Lemma stats_keys_NoDup (l : list (stat * option Z)) : l.*1 ≡ₚ all_stats -> NoDup l.*1.
Proof.
  intros H. rewrite H. unfold all_stats.
  repeat (apply NoDup_cons; split; [set_solver|]). apply NoDup_nil_2.
Qed.

(** When the answers to the six requested stats arrive together, in any
    order, exactly one stats event is emitted; it carries the six values that
    were answered, and the accumulator is left empty for the next request. *)
Lemma stats_event_once (l : list (stat * option Z)) (h : LocalAgentHandler) :
  local_agent_stats h = accumulator_empty -> l.*1 ≡ₚ all_stats ->
  let '(evs, h') := handle_messages_seq (stat_message <$> l) h in
  evs = [stats_event (fun s => default None (stat_of l s))]
  /\ local_agent_stats h' = accumulator_empty.
Proof.
  intros He Hp. pose proof (stats_keys_NoDup _ Hp) as Hnd.
  destruct l as [|[s v] l _] using rev_ind; [by apply Permutation_nil in Hp|].
  rewrite fmap_app in Hp. rewrite fmap_app in Hnd. rewrite fmap_app. simpl in Hp, Hnd. apply NoDup_app in Hnd as (Hnd & Hdis & _).
  assert (s ∉ l.*1) as Hs by (intros ?; eapply Hdis; [done|set_solver]).
  pose proof (stats_partial l h s He Hnd Hs) as Hpart. rewrite handle_messages_seq_app.
  destruct (handle_messages_seq (stat_message <$> l) h) as [evs h1].
  destruct Hpart as [-> Hf]. cbn [fmap list_fmap handle_messages_seq].
  rewrite handle_stat_message. unfold handle_stat, accumulate. cbn [fst snd].
  rewrite (emit_full _ (fun s' => default None (stat_of (l ++ [(s, v)]) s'))); [done|].
  intros s'. rewrite acc_field_assign, Hf, stat_of_snoc by done.
  case_decide as Hne; [done|].
  assert (s' ∈ l.*1) as Hin.
  { pose proof (all_stats_in s') as Hin. rewrite <- Hp in Hin. set_solver. }
  unfold stat_of. destruct (find _ l) as [[t w]|] eqn:E; [done|].
  apply list_elem_of_fmap in Hin as ([t w] & -> & Hin).
  eapply find_None in E; [|done]. by rewrite bool_decide_eq_true_2 in E.
Qed.

Definition sample_answers : list (stat * option Z) :=
  [(bytes_sent, Some 10%Z); (ads_blocked, Some 2%Z); (bytes_received, Some 20%Z);
   (adult_content_blocked, None); (malicious_blocked, Some 1%Z); (trackers_blocked, Some 3%Z)].

Lemma stats_event_once_witness :
  (handle_messages_seq (stat_message <$> sample_answers) LocalAgentHandler_new).1
  = [LocalAgentStats (Some 20%Z) (Some 10%Z) (Some 1%Z) (Some 2%Z) (Some 3%Z) None (Some 1331200%Z)].
Proof.
  pose proof (stats_event_once sample_answers LocalAgentHandler_new eq_refl) as H.
  destruct (handle_messages_seq (stat_message <$> sample_answers) LocalAgentHandler_new) as [evs h'].
  destruct H as [-> _]; [|reflexivity].
  apply (bool_decide_unpack _). vm_compute. exact I.
Defined.

(** Answers that straddle an update of the connection state are lost:
    [on_connected_to_peer], which the connection loop calls in every iteration
    while the tunnel is up, empties the accumulator, so six answers split over
    two iterations emit no event at all. *)
Lemma stats_lost_across_iterations (l1 l2 : list (stat * option Z)) (h : LocalAgentHandler)
    (p : PeerConnectionInfo) :
  local_agent_stats h = accumulator_empty -> (l1 ++ l2).*1 ≡ₚ all_stats -> l1 <> [] -> l2 <> [] ->
  let '(evs1, h1) := handle_messages_seq (stat_message <$> l1) h in
  let '(evs2, h2) := handle_messages_seq (stat_message <$> l2) (on_connected_to_peer p h1) in
  evs1 = [] /\ evs2 = [].
Proof.
  intros He Hp H1 H2. pose proof (stats_keys_NoDup _ Hp) as Hnd.
  rewrite fmap_app in Hnd. apply NoDup_app in Hnd as (Hn1 & Hdis & Hn2).
  destruct l1 as [|[s1 v1] l1]; [done|]. destruct l2 as [|[s2 v2] l2]; [done|].
  pose proof (stats_partial _ h s2 He Hn1) as Hpart.
  destruct (handle_messages_seq (stat_message <$> (s1, v1) :: l1) h) as [evs1 h1].
  destruct Hpart as [-> _]; [intros Hin; apply (Hdis _ Hin); set_solver|].
  pose proof (stats_partial ((s2, v2) :: l2) (on_connected_to_peer p h1) s1) as Hpart.
  destruct (handle_messages_seq _ (on_connected_to_peer p h1)) as [evs2 h2].
  split; [done|]. apply Hpart; [|done|apply Hdis; set_solver].
  unfold on_connected_to_peer. by case_match.
Qed.

Lemma stats_lost_across_iterations_witness :
  let h1 := (handle_messages_seq (stat_message <$> take 3 sample_answers) LocalAgentHandler_new).2 in
  (handle_messages_seq (stat_message <$> drop 3 sample_answers)
     (on_connected_to_peer (sample_peer 1) h1)).1 = [].
Proof.
  pose proof (stats_lost_across_iterations (take 3 sample_answers) (drop 3 sample_answers)
    LocalAgentHandler_new (sample_peer 1) eq_refl) as H.
  cbv zeta. destruct (handle_messages_seq (stat_message <$> take 3 sample_answers) LocalAgentHandler_new).
  simpl snd. destruct (handle_messages_seq (stat_message <$> drop 3 sample_answers) _).
  apply H; [|done|done]. apply (bool_decide_unpack _). vm_compute. exact I.
Defined.

Lemma add_saved_wrap x b size :
  add_saved (wrapU 64 x) b size = wrapU 64 (x + default 0%Z b * size).
Proof.
  unfold add_saved, wrapU. destruct b as [n|]; simpl.
  - by rewrite Zplus_mod_idemp_l, Zplus_mod_idemp_r.
  - f_equal. lia.
Qed.

(** The data-saved estimate is the sum of the blocked counts weighted by
    the average sizes, on 64 bits: exact as long as no count reaches 2^42, and
    modulo 2^64 in general. *)
Lemma data_saved_estimate (v : stat -> option Z) :
  let n s := default 0%Z (v s) in
  let total := ((n malicious_blocked * 750 + n ads_blocked * 200 + n trackers_blocked * 50
                 + n adult_content_blocked * 1454) * 1024)%Z in
  stats_event v = LocalAgentStats (v bytes_received) (v bytes_sent) (v malicious_blocked)
    (v ads_blocked) (v trackers_blocked) (v adult_content_blocked) (Some (wrapU 64 total))
  /\ ((forall s, 0 <= n s < 2 ^ 42)%Z -> wrapU 64 total = total).
Proof.
  cbv zeta. split.
  - unfold stats_event, update_local_agent_stats_with_estimates. f_equal. f_equal.
    change (add_saved 0 (v malicious_blocked)) with (add_saved (wrapU 64 0) (v malicious_blocked)).
    rewrite !add_saved_wrap. f_equal.
    unfold AVG_MALICIOUS_SIZE_BYTES, AVG_AD_SIZE_BYTES, AVG_TRACKER_SIZE_BYTES,
      AVG_ADULT_CONTENT_SIZE_BYTES. lia.
  - intros H. apply wrapU_small.
    pose proof (H malicious_blocked). pose proof (H ads_blocked).
    pose proof (H trackers_blocked). pose proof (H adult_content_blocked). lia.
Qed.

Lemma data_saved_estimate_witness :
  stats_event (fun s => Some 1%Z)
  = LocalAgentStats (Some 1%Z) (Some 1%Z) (Some 1%Z) (Some 1%Z) (Some 1%Z) (Some 1%Z) (Some 2512896%Z).
Proof.
  destruct (data_saved_estimate (fun _ => Some 1%Z)) as [-> H]. rewrite H; [reflexivity|].
  intros s. simpl. lia.
Defined.

(** ** Restrictions *)

Lemma handle_message_restrictions m h ev h' :
  handle_message m h = (ev, h') -> info_restrictions (agent_info h) = [] ->
  info_restrictions (agent_info h') = [].
Proof.
  intros E H. destruct m as [v|e| |]; simpl in E; [|by simplify_eq/=..].
  destruct v; simpl in E; unfold handle_stat in E; try (by simplify_eq/=);
    try (destruct (accumulate _ _ _); by simplify_eq/=).
  unfold handle_jails in E. destruct v; [|by simplify_eq/=]. rewrite foldl_jails in E. by simplify_eq/=.
Qed.

(** The restrictions the server reports never reach the application: in
    every reachable handler the list published with the connected state is
    empty, while the handler itself does record them. *)
Lemma restrictions_not_published :
  (forall h, rtc agent_step LocalAgentHandler_new h -> info_restrictions (agent_info h) = [])
  /\ exists h, rtc agent_step LocalAgentHandler_new h /\ restrictions h = [Streaming "r"]
       /\ get_state (sample_peer 1) h = Connected (sample_peer 1) (Some AgentConnectionInfo_default).
Proof.
  split.
  - intros h Hr. remember LocalAgentHandler_new as h0 eqn:E0.
    assert (info_restrictions (agent_info h0) = []) as H0 by by subst. clear E0.
    induction Hr as [|h0 h1 h2 Hs Hr IH]; [done|]. apply IH.
    destruct Hs as [m ev h1 E|p]; [by eapply handle_message_restrictions|].
    unfold on_connected_to_peer. by case_match.
  - exists (handle_messages_seq [LocalAgentConnected;
      LaValue (RestrictionsValue (Some [PvpnStreaming "r"]))] LocalAgentHandler_new).2.
    split; [|done].
    eapply rtc_l; [exact (agent_message _ LocalAgentConnected None _ eq_refl)|]. apply rtc_once.
    exact (agent_message _ (LaValue (RestrictionsValue (Some [PvpnStreaming "r"]))) None _ eq_refl).
Qed.
