(* ===== verification/UnitTests.v ===== *)
(** * The repository's unit tests

    The tests of [src/connection/tests/], evaluated on the model: those of
    [network_recovery_handler_tests.rs] for [NetworkRecovery], of [util_tests.rs]
    for [SanitizedPeers], and of [local_agent_handler_tests.rs] for [LocalAgent].
    Each example is one test with the source's name and its assertions, in the
    source's order; a sequence of statements is the sequence of [let]s. *)

From S2P Require Import Prelude Types Net IpParse Conversions NetworkRecovery SanitizedPeers LocalAgent.

(** The conjunction of the assertions of a test. *)
Definition asserts (l : list bool) : bool := forallb id l.

(** ** Network recovery handler *)
Module NetworkRecoveryHandlerTests.
Section tests.
Local Open Scope Z_scope.

Let instant (secs : Z) : Instant := from_secs secs.
Let instant_ms (ms : Z) : Instant := ms * 1000000.
Let new_handler : NetworkRecoveryHandler := new_for_tests true (from_secs 1) (from_secs 60).
Let network_error : io_error := io_error_new NetworkUnreachable "test".
Let delay_is (d : option Duration) (t : Instant) (h : NetworkRecoveryHandler) : bool :=
  bool_decide (wakeup_delay t h = d).

Example should_notify_returns_false_before_deadline :
  let handler := on_stream_error network_error (instant 0) new_handler in
  let '(early, handler) := on_resumed (instant_ms 999) handler in
  let '(due, _) := on_resumed (instant 1) handler in
  asserts [negb early; due] = true.
Proof. vm_compute. reflexivity. Qed.

Example should_notify_clears_pending_after_true :
  let handler := on_stream_error network_error (instant 0) new_handler in
  let '(first, handler) := on_resumed (instant 1) handler in
  let '(second, _) := on_resumed (instant 10) handler in
  asserts [first; negb second] = true.
Proof. vm_compute. reflexivity. Qed.

Example should_notify_returns_false_when_network_unavailable :
  let handler := on_stream_error network_error (instant 0) new_handler in
  let handler := on_connectivity_change Down handler in
  asserts [negb (on_resumed (instant 2) handler).1] = true.
Proof. vm_compute. reflexivity. Qed.

Example wakeup_delay_returns_remaining_time :
  let handler := on_stream_error network_error (instant 1) new_handler in
  asserts [delay_is None (instant 1) new_handler;
           delay_is (Some (instant_ms 500)) (instant_ms 1500) handler] = true.
Proof. vm_compute. reflexivity. Qed.

Example wakeup_delay_returns_zero_past_deadline :
  let handler := on_stream_error network_error (instant 0) new_handler in
  asserts [delay_is (Some 0) (instant 10) handler] = true.
Proof. vm_compute. reflexivity. Qed.

Example on_successful_socket_open_cancels_pending :
  let handler := on_stream_error network_error (instant 0) new_handler in
  let opened := on_successful_socket_open handler in
  asserts [negb (delay_is None (instant 0) handler); delay_is None (instant 0) opened;
           negb (on_resumed (instant 2) opened).1] = true.
Proof. vm_compute. reflexivity. Qed.

Example on_connected_resets_state :
  let handler := on_stream_error network_error (instant 0) new_handler in
  let '(_, handler) := on_resumed (instant 1) handler in
  let handler := on_stream_error network_error (instant 1) handler in
  let connected := on_connected handler in
  let again := on_stream_error network_error (instant 0) connected in
  asserts [delay_is (Some (from_secs 2)) (instant 1) handler; delay_is None (instant 0) connected;
           delay_is (Some (from_secs 1)) (instant 0) again] = true.
Proof. vm_compute. reflexivity. Qed.

Example on_connectivity_change_resets_pending_and_backoff :
  let handler := on_stream_error network_error (instant 0) new_handler in
  let '(_, handler) := on_resumed (instant 1) handler in
  let handler := on_stream_error network_error (instant 1) handler in
  let switched := on_connectivity_change NetworkSwitch handler in
  let again := on_stream_error network_error (instant 0) switched in
  asserts [delay_is None (instant 0) switched;
           delay_is (Some (from_secs 1)) (instant 0) again] = true.
Proof. vm_compute. reflexivity. Qed.

Example on_stream_error_only_schedules_for_network_errors :
  let timed_out := on_stream_error (io_error_new TimedOut "test") (instant 0) new_handler in
  let handler := on_stream_error network_error (instant 0) timed_out in
  asserts [delay_is None (instant 0) timed_out; negb (delay_is None (instant 0) handler)] = true.
Proof. vm_compute. reflexivity. Qed.

Example on_stream_error_ignored_when_network_unavailable (android : bool) :
  let handler := on_stream_error network_error (instant 0) (NetworkRecoveryHandler_new android false) in
  asserts [delay_is None (instant 0) handler] = true.
Proof. destruct android; vm_compute; reflexivity. Qed.

Example exponential_backoff :
  let h1 := on_stream_error network_error (instant 0) new_handler in
  let '(first, h1') := on_resumed (instant 1) h1 in
  let h2 := on_stream_error network_error (instant 1) h1' in
  let '(second, h2') := on_resumed (instant 3) h2 in
  let h3 := on_stream_error network_error (instant 3) h2' in
  asserts [delay_is (Some (from_secs 1)) (instant 0) h1; first;
           delay_is (Some (from_secs 2)) (instant 1) h2; second;
           delay_is (Some (from_secs 4)) (instant 3) h3] = true.
Proof. vm_compute. reflexivity. Qed.

(** One turn of the loop of [backoff_capped_at_max]; [None] is a failed
    [unwrap]. *)
Let backoff_turn (st : option (NetworkRecoveryHandler * Z)) : option (NetworkRecoveryHandler * Z) :=
  '(handler, time) ← st;
  let handler := on_stream_error network_error (instant time) handler in
  delay ← wakeup_delay (instant time) handler;
  let time := time + delay / 1000000000 + 1 in
  Some ((on_resumed (instant time) handler).2, time).

Example backoff_capped_at_max :
  ('(handler, time) ← Nat.iter 10 backoff_turn (Some (new_handler, 0));
   wakeup_delay (instant time) (on_stream_error network_error (instant time) handler))
  = Some (from_secs 60).
Proof. vm_compute. reflexivity. Qed.

End tests.
End NetworkRecoveryHandlerTests.

(** ** Sanitized peers *)
Module UtilTests.
Section tests.
Local Open Scope Z_scope.

Let peer_with_id (ip : string) (priority : Z) (id : string) : option PeerInfo :=
  server_ip ← IpAddr_from_str ip;
  Some {| peer_id := id; server_ip := server_ip; server_public_key := {| peer_key := replicate 32 Byte.x00 |};
          udp_ports := [51820]; tcp_ports := []; tls_ports := []; priority := priority;
          peer_exit_label := None |}.

Let peer (ip : string) (priority : Z) : option PeerInfo :=
  peer_with_id ip priority ("peer-" +:+ ip +:+ "-" +:+ pretty priority).

(** The peers of a test, with the [unwrap] of their addresses, sanitized. *)
Let sanitized (peers : list (option PeerInfo)) : option (list PeerInfo) :=
  SanitizedPeers_from <$> mapM id peers.

Let shown (p : PeerInfo) : string * Z := (ip_to_string (server_ip p), priority p).

Example sanitize_empty_list : SanitizedPeers_is_empty (SanitizedPeers_from []) = true.
Proof. vm_compute. reflexivity. Qed.

Example sanitize_single_peer :
  let peers := [peer "10.0.0.1" 1] in sanitized peers = mapM id peers.
Proof. vm_compute. reflexivity. Qed.

Example sanitize_no_duplicates :
  let peers := [peer "10.0.0.1" 1; peer "10.0.0.2" 2; peer "10.0.0.3" 3] in
  sanitized peers = mapM id peers.
Proof. vm_compute. reflexivity. Qed.

Example sanitize_remove_duplicates_by_priority :
  map shown <$> sanitized [peer "10.0.0.1" 5; peer "10.0.0.2" 3; peer "10.0.0.1" 1; peer "10.0.0.3" 7]
  = Some [("10.0.0.2", 3); ("10.0.0.1", 1); ("10.0.0.3", 7)]%string.
Proof. vm_compute. reflexivity. Qed.

Example sanitize_keeps_higher_priority_peer :
  map shown <$> sanitized [peer "10.0.0.1" 5; peer "10.0.0.1" 1] = Some [("10.0.0.1", 1)]%string.
Proof. vm_compute. reflexivity. Qed.

Example sanitize_keeps_first_on_equal_priority :
  map peer_id <$> sanitized [peer_with_id "10.0.0.1" 3 "1"; peer_with_id "10.0.0.1" 3 "2"]
  = Some ["1"]%string.
Proof. vm_compute. reflexivity. Qed.

Example sanitize_ipv6_peers :
  map shown <$> sanitized [peer "::1" 2; peer "::1" 1; peer "::2" 3]
  = Some [("::1", 1); ("::2", 3)]%string.
Proof. vm_compute. reflexivity. Qed.

End tests.
End UtilTests.

(** ** Local agent handler *)
Module LocalAgentHandlerTests.
Section tests.

Let peer (ip : Z) : PeerConnectionInfo := sample_peer ip.
Let after (ms : list LocalAgentMessage) (h : LocalAgentHandler) : LocalAgentHandler :=
  (handle_messages_seq ms h).2.
Let is_connected (h : LocalAgentHandler) (p : PeerConnectionInfo) : bool :=
  match get_state p h with Connected _ _ => true | _ => false end.
Let netshield (h : LocalAgentHandler) (p : PeerConnectionInfo) : option (option NetshieldLevel) :=
  match get_state p h with
  | Connected _ (Some agent_info) => Some (netshield_level (settings agent_info))
  | _ => None
  end.

Example established_transitions_to_connected p :
  let handler := LocalAgentHandler_new in
  get_state p handler = ConnectingToLocalAgent p None
  /\ is_connected (after [LocalAgentConnected] handler) p = true.
Proof. split; reflexivity. Qed.

Example connecting_when_soft_jailed p :
  get_state p (after [LocalAgentConnected; LaValue (SettingsSoftjail (Some true))] LocalAgentHandler_new)
  = ConnectingToLocalAgent p (Some SoftJailed).
Proof. reflexivity. Qed.

Example connecting_when_hard_jailed p msg :
  let handler := after [LocalAgentConnected; LaValue (JailsValue (Some [ToHandle (PolicyViolation1 msg)]))]
                   LocalAgentHandler_new in
  get_state p handler = ConnectingToLocalAgent p (Some (HardJailed [LowPlan msg]))
  /\ is_connected (after [LaValue (JailsValue None)] handler) p = true.
Proof. split; reflexivity. Qed.

Example internal_jails_are_mapped_to_internal_variant p msg :
  get_state p (after [LocalAgentConnected;
                      LaValue (JailsValue (Some [InternallyHandled (ExpiredCertificate msg)]))]
                 LocalAgentHandler_new)
  = ConnectingToLocalAgent p (Some (HardJailed [Internal msg])).
Proof. reflexivity. Qed.

Example peer_change_resets_established_and_settings :
  let peer1 := peer 1 in
  let peer2 := peer 2 in
  let h1 := after [LocalAgentConnected;
                   LaValue (SettingsNetshieldLevel (Some PvpnAdsAndMalwareFilter))]
              (on_connected_to_peer peer1 LocalAgentHandler_new) in
  let h2 := on_connected_to_peer peer2 h1 in
  netshield h1 peer1 = Some (Some AdsAndMalwareFilter)
  /\ get_state peer2 h2 = ConnectingToLocalAgent peer2 None
  /\ netshield (after [LocalAgentConnected] h2) peer2 = Some None.
Proof. repeat split; reflexivity. Qed.

Example same_peer_reconnect_preserves_established :
  let p := peer 1 in
  let handler := after [LocalAgentConnected] (on_connected_to_peer p LocalAgentHandler_new) in
  is_connected (on_connected_to_peer p handler) p = true.
Proof. reflexivity. Qed.

Example cert_error_emits_certificate_refresh_fatal_error :
  (handle_message (LaError TooManyTriesOnCertRefresh) LocalAgentHandler_new).1
  = Some (ErrorEv CertificateRefreshFatalError).
Proof. reflexivity. Qed.

Example muon_fork_selector_needed_emits_api_session_expired :
  (handle_message MuonForkSelectorNeeded LocalAgentHandler_new).1 = Some (ErrorEv ApiSessionExpired).
Proof. reflexivity. Qed.

End tests.
End LocalAgentHandlerTests.
