(* ===== verification/Streams.v ===== *)
(** * Streams

    The traits [Stream] and [Streams] of [src/connection/streams.rs] as type
    classes, with what the connection loop relies on as law classes, and the
    Unix implementations of [Stream]: TCP and UDP sockets and the TUN devices
    of [src/connection/mio].  The operating-system end of a stream is a state
    machine given by the class [Device]. *)

From S2P Require Import Prelude Types.

(** ** The traits *)

(** [trait Stream].  Writing may loop, hence the monad. *)
Class Stream (T : Type) := {
  stream_read : list byte -> T -> (StreamResult * list byte) * T;
  stream_write : list byte -> M T StreamResult;
  stream_write_from_buffer : M T StreamResult;
  stream_set_option : SocketOption -> T -> T;
  stream_shutdown_write : T -> T;
}.

(** [trait Streams].  A stream borrowed mutably with [get_stream] is written
    back with [put_stream]. *)
Class Streams (S T : Type) := {
  get_stream : StreamId -> S -> option T;
  put_stream : StreamId -> T -> S -> S;
  open_new_tcp_stream : StreamId -> SocketAddr -> S -> io_result () * S;
  open_new_udp_stream : StreamId -> SocketAddr -> S -> io_result () * S;
  close_stream : StreamId -> S -> S;
  poll : option Duration -> S -> io_result (list PollResult) * S;
  set_poll_enable_wait_for_write : StreamId -> bool -> S -> S;
  update_tun : TunStreamInfo -> S -> io_result () * S;
  get_tun_interface_state : option InterfaceError -> S -> InterfaceState;
}.

(** What a caller of [read] relies on: the buffer keeps its size, and the
    payload announced lies inside it. *)
Definition read_fits (buf : list byte) (r : StreamResult) (buf' : list byte) : Prop :=
  length buf' = length buf
  /\ match r with StreamOk n off _ _ => off + n <= length buf | _ => True end.

Class StreamLaws (T : Type) `{Stream T} := {
  read_in_bounds buf t r buf' t' : stream_read buf t = ((r, buf'), t') -> read_fits buf r buf';
}.

(** Writing does not panic. *)
Class StreamSafe (T : Type) `{Stream T} := {
  write_no_panic data t : stream_write data t <> Panic;
  flush_no_panic t : stream_write_from_buffer t <> Panic;
}.

Class StreamsLaws (S T : Type) `{StreamIds, Streams S T} := {
  get_put id t t0 s : get_stream id s = Some t0 -> get_stream id (put_stream id t s) = Some t;
  get_put_ne id id' t s : id <> id' -> get_stream id' (put_stream id t s) = get_stream id' s;
  get_close id s : get_stream id (close_stream id s) = None;
  get_close_ne id id' s : id <> id' -> get_stream id' (close_stream id s) = get_stream id' s;
  tun_state e s :
    get_tun_interface_state e s =
    if get_stream TUN_STREAM_ID s then InterfaceUp e else InterfaceDown e;
}.

(** ** Operating-system devices *)

(** [std::io::Read]/[Write], or [recv]/[send] of a datagram socket: [dev_read]
    returns the bytes it stored in a buffer of the given size. *)
Class Device (K : Type) := {
  dev_read : nat -> K -> io_result (list byte) * K;
  dev_write : list byte -> K -> io_result nat * K;
  dev_shutdown : K -> K;
}.

(** Their documented behaviour: no more bytes than the buffer or the data
    hold, and the bytes counted are the ones the device took. *)
Class DeviceLaws (K : Type) `{Device K} := {
  accepted : K -> list byte;
  dev_read_bound n k data k' : dev_read n k = (Ok data, k') -> length data <= n;
  dev_write_ok data k n k' :
    dev_write data k = (Ok n, k') -> n <= length data /\ accepted k' = accepted k ++ take n data;
  dev_write_err data k e k' : dev_write data k = (Err e, k') -> accepted k' = accepted k;
}.

(** A device that never answers a non-empty write with zero bytes. *)
Class DeviceProgress (K : Type) `{Device K} :=
  dev_write_progress data k n k' : dev_write data k = (Ok n, k') -> data <> [] -> 0 < n.

(** [buf[..n].copy_from_slice(data)]. *)
Definition fill (buf data : list byte) : list byte := data ++ drop (length data) buf.

Lemma length_fill buf data : length data <= length buf -> length (fill buf data) = length buf.
Proof. intros. unfold fill. rewrite length_app, length_drop. lia. Qed.

Section devices.
Context {K : Type} `{Device K}.

Definition would_block (e : io_error) : bool := bool_decide (kind e = WouldBlockKind).

(** *** src/connection/mio/tcp.rs *)

Record TcpSocketStream := { tcp_sock : K; write_buffer : list (list byte) }.

Definition TcpSocketStream_new (tcp : K) : TcpSocketStream :=
  {| tcp_sock := tcp; write_buffer := [] |}.

Definition tcp_read (buf : list byte) (t : TcpSocketStream)
  : (StreamResult * list byte) * TcpSocketStream :=
  let '(ret, k) := dev_read (length buf) (tcp_sock t) in
  let t' := {| tcp_sock := k; write_buffer := write_buffer t |} in
  let pending_write := match write_buffer t with [] => PendingNo | _ => PendingYes end in
  match ret with
  | Ok data =>
      if decide (length data = 0) then ((StreamClosed, buf), t')
      else ((stream_ok (length data) WouldBlockNo pending_write, fill buf data), t')
  | Err e =>
      if would_block e then ((stream_ok 0 WouldBlockYes pending_write, buf), t')
      else ((StreamErr e, buf), t')
  end.

(** The [loop] of [write_from_buffer], with at most [fuel] iterations. *)
Fixpoint tcp_flush (fuel : nat) (bytes_written : nat) : M TcpSocketStream StreamResult :=
  fun t =>
    match write_buffer t with
    | [] => Ret (stream_ok bytes_written WouldBlockNo PendingNo, t)
    | data :: rest =>
        match fuel with
        | O => NoFuel
        | S fuel =>
            match dev_write data (tcp_sock t) with
            | (Ok count, k) =>
                tcp_flush fuel (bytes_written + count)
                  {| tcp_sock := k;
                     write_buffer := if decide (count < length data)
                                     then drop count data :: rest else rest |}
            | (Err e, k) =>
                Ret (if would_block e then stream_ok bytes_written WouldBlockYes PendingYes
                     else StreamErr e,
                     {| tcp_sock := k; write_buffer := data :: rest |})
            end
        end
    end.

Definition tcp_write_from_buffer (fuel : nat) : M TcpSocketStream StreamResult := tcp_flush fuel 0.

Definition tcp_write (fuel : nat) (data : list byte) : M TcpSocketStream StreamResult :=
  modify (fun t => {| tcp_sock := tcp_sock t; write_buffer := write_buffer t ++ [data] |}) ;;
  tcp_write_from_buffer fuel.

Definition tcp_shutdown_write (t : TcpSocketStream) : TcpSocketStream :=
  {| tcp_sock := dev_shutdown (tcp_sock t); write_buffer := write_buffer t |}.

Definition tcp_set_option (_ : SocketOption) (t : TcpSocketStream) : TcpSocketStream := t.

(** *** src/connection/mio/udp.rs *)

Record UdpSocketStream := { udp_sock : K }.

Definition udp_read (buf : list byte) (t : UdpSocketStream)
  : (StreamResult * list byte) * UdpSocketStream :=
  let '(ret, k) := dev_read (length buf) (udp_sock t) in
  match ret with
  | Ok data => ((stream_ok (length data) WouldBlockNo PendingNo, fill buf data), {| udp_sock := k |})
  | Err e =>
      ((if would_block e then stream_ok 0 WouldBlockYes PendingNo else StreamErr e, buf),
       {| udp_sock := k |})
  end.

Definition udp_write (data : list byte) : M UdpSocketStream StreamResult := fun t =>
  let '(ret, k) := dev_write data (udp_sock t) in
  Ret (match ret with
       | Ok size => stream_ok size WouldBlockNo PendingNo
       | Err e => if would_block e then stream_ok 0 WouldBlockYes PendingNo else StreamErr e
       end, {| udp_sock := k |}).

Definition udp_write_from_buffer : M UdpSocketStream StreamResult :=
  mret (stream_ok 0 WouldBlockNo PendingNo).

(** *** src/connection/mio/tun_unix.rs *)

Record TunStreamUnix := { tun_file : K }.

Definition TunStreamUnix_new (file : K) : TunStreamUnix := {| tun_file := file |}.

Definition tun_unix_read (buf : list byte) (t : TunStreamUnix)
  : (StreamResult * list byte) * TunStreamUnix :=
  let '(ret, k) := dev_read (length buf) (tun_file t) in
  match ret with
  | Ok data =>
      if decide (length data = 0)
      then ((StreamErr (io_error_new UnexpectedEof "tun read: unexpected EOF"), buf), {| tun_file := k |})
      else ((stream_ok (length data) WouldBlockNo PendingNo, fill buf data), {| tun_file := k |})
  | Err e =>
      ((if would_block e then stream_ok 0 WouldBlockYes PendingNo else StreamErr e, buf),
       {| tun_file := k |})
  end.

(** The [while bytes_written < data.len()] loop. *)
Fixpoint tun_unix_write_loop (fuel : nat) (data : list byte) (bytes_written : nat)
  : M TunStreamUnix StreamResult :=
  fun t =>
    if decide (bytes_written < length data) then
      match fuel with
      | O => NoFuel
      | S fuel =>
          match dev_write (drop bytes_written data) (tun_file t) with
          | (Ok bytes_count, k) =>
              tun_unix_write_loop fuel data (bytes_written + bytes_count) {| tun_file := k |}
          | (Err e, k) =>
              Ret (if would_block e then stream_ok bytes_written WouldBlockYes PendingNo
                   else StreamErr e, {| tun_file := k |})
          end
      end
    else Ret (stream_ok bytes_written WouldBlockNo PendingNo, t).

Definition tun_unix_write (fuel : nat) (data : list byte) : M TunStreamUnix StreamResult :=
  tun_unix_write_loop fuel data 0.

Definition tun_unix_write_from_buffer : M TunStreamUnix StreamResult :=
  mret (stream_ok 0 WouldBlockNo PendingNo).

(** *** src/connection/mio/tun_apple.rs *)

(** The address families of the platform's [libc]. *)
Variables AF_INET AF_INET6 : byte.

Definition APPLE_TUN_PACKET_HEADER_LEN : nat := 4.

Definition address_family (b : byte) : io_result byte :=
  let ip_version := Z.shiftr (byte_val b) 4 in
  if (ip_version =? 4)%Z then Ok AF_INET
  else if (ip_version =? 6)%Z then Ok AF_INET6
  else Err (io_error_new InvalidData ("Invalid IP version: " +:+ pretty ip_version)).

(** [write_buffer] is cleared before every use. *)
Record TunStreamApple := { apple_file : K; apple_write_buffer : list byte }.

Definition TunStreamApple_new (file : K) : TunStreamApple := {| apple_file := file; apple_write_buffer := [] |}.

Definition tun_apple_read (buf : list byte) (t : TunStreamApple)
  : (StreamResult * list byte) * TunStreamApple :=
  let '(rv, k) := dev_read (length buf) (apple_file t) in
  let t' := {| apple_file := k; apple_write_buffer := apple_write_buffer t |} in
  match rv with
  | Ok data =>
      if decide (APPLE_TUN_PACKET_HEADER_LEN <= length data) then
        ((StreamOk (length data - APPLE_TUN_PACKET_HEADER_LEN) APPLE_TUN_PACKET_HEADER_LEN
            WouldBlockNo PendingNo, fill buf data), t')
      else
        ((StreamErr (io_error_new InvalidData
            ("Invalid packet: expected at least " +:+ pretty APPLE_TUN_PACKET_HEADER_LEN
               +:+ " bytes, got " +:+ pretty (length data))), fill buf data), t')
  | Err e =>
      ((if would_block e then stream_ok 0 WouldBlockYes PendingNo else StreamErr e, buf), t')
  end.

Fixpoint tun_apple_write_loop (fuel : nat) (data_len bytes_written : nat)
  : M TunStreamApple StreamResult :=
  fun t =>
    if decide (bytes_written < length (apple_write_buffer t)) then
      match fuel with
      | O => NoFuel
      | S fuel =>
          let '(ret, k) := dev_write (drop bytes_written (apple_write_buffer t)) (apple_file t) in
          let t' := {| apple_file := k; apple_write_buffer := apple_write_buffer t |} in
          match ret with
          | Ok 0 =>
              Ret (StreamErr (io_error_new WriteZero "Failed to write packet to TUN device"), t')
          | Ok bytes_count => tun_apple_write_loop fuel data_len (bytes_written + bytes_count) t'
          | Err e =>
              if would_block e then
                if decide (APPLE_TUN_PACKET_HEADER_LEN <= bytes_written) then
                  Ret (stream_ok (bytes_written - APPLE_TUN_PACKET_HEADER_LEN) WouldBlockYes PendingNo, t')
                else
                  Ret (StreamErr (io_error_new OtherKind
                    ("Partial header write (" +:+ pretty bytes_written +:+ " bytes) before would-block")), t')
              else Ret (StreamErr e, t')
          end
      end
    else Ret (stream_ok data_len WouldBlockNo PendingNo, t).

Definition tun_apple_write (fuel : nat) (data : list byte) : M TunStreamApple StreamResult :=
  fun t =>
    match match head data with
          | None => Err (io_error_new InvalidData "Empty packet")
          | Some b => address_family b
          end with
    | Err e => Ret (StreamErr e, t)
    | Ok af =>
        tun_apple_write_loop fuel (length data) 0
          {| apple_file := apple_file t;
             apple_write_buffer := [Byte.x00; Byte.x00; Byte.x00; af] ++ data |}
    end.

Definition tun_apple_write_from_buffer : M TunStreamApple StreamResult :=
  mret (stream_ok 0 WouldBlockNo PendingNo).
End devices.
Arguments TcpSocketStream K : clear implicits.
Arguments UdpSocketStream K : clear implicits.
Arguments TunStreamUnix K : clear implicits.
Arguments TunStreamApple K : clear implicits.

(** ** Instances of [Stream] *)

Section instances.
Context {K : Type} `{DeviceLaws K} (fuel : nat) (AF_INET AF_INET6 : byte).

#[global] Instance TcpSocketStream_Stream : Stream (TcpSocketStream K) :=
  { stream_read := tcp_read; stream_write := tcp_write fuel;
    stream_write_from_buffer := tcp_write_from_buffer fuel;
    stream_set_option := tcp_set_option; stream_shutdown_write := tcp_shutdown_write }.

#[global] Instance UdpSocketStream_Stream : Stream (UdpSocketStream K) :=
  { stream_read := udp_read; stream_write := udp_write;
    stream_write_from_buffer := udp_write_from_buffer;
    stream_set_option _ t := t; stream_shutdown_write t := t }.

#[global] Instance TunStreamUnix_Stream : Stream (TunStreamUnix K) :=
  { stream_read := tun_unix_read; stream_write := tun_unix_write fuel;
    stream_write_from_buffer := tun_unix_write_from_buffer;
    stream_set_option _ t := t; stream_shutdown_write t := t }.

#[global] Instance TunStreamApple_Stream : Stream (TunStreamApple K) :=
  { stream_read := tun_apple_read; stream_write := tun_apple_write AF_INET AF_INET6 fuel;
    stream_write_from_buffer := tun_apple_write_from_buffer;
    stream_set_option _ t := t; stream_shutdown_write t := t }.

(** The common shape of the four [read]s. *)
Ltac read_bounds :=
  unfold tcp_read, udp_read, tun_unix_read, tun_apple_read; intros buf t r buf' t';
  destruct (dev_read (length buf) _) as [[data|e] k] eqn:E;
  [apply dev_read_bound in E|]; repeat case_match; intros; simplify_eq;
  unfold read_fits; rewrite ?length_fill by done; simpl;
  unfold APPLE_TUN_PACKET_HEADER_LEN in *; split; (done || lia).

#[global] Instance TcpSocketStream_laws : StreamLaws (TcpSocketStream K).
Proof. split. simpl. read_bounds. Qed.
#[global] Instance UdpSocketStream_laws : StreamLaws (UdpSocketStream K).
Proof. split. simpl. read_bounds. Qed.
#[global] Instance TunStreamUnix_laws : StreamLaws (TunStreamUnix K).
Proof. split. simpl. read_bounds. Qed.
#[global] Instance TunStreamApple_laws : StreamLaws (TunStreamApple K).
Proof. split. simpl. read_bounds. Qed.

Lemma tcp_flush_no_panic n bw t : tcp_flush n bw t <> Panic.
Proof.
  revert bw t. induction n as [|n IH]; intros bw t; simpl; destruct (write_buffer t); try done.
  destruct (dev_write _ _) as [[]]; [apply IH|done].
Qed.

Lemma tun_unix_loop_no_panic n data bw t : tun_unix_write_loop n data bw t <> Panic.
Proof.
  revert bw t. induction n as [|n IH]; intros bw t; simpl; case_decide; try done.
  destruct (dev_write _ _) as [[]]; [apply IH|done].
Qed.

Lemma tun_apple_loop_no_panic n len bw t : tun_apple_write_loop n len bw t <> Panic.
Proof.
  revert bw t. induction n as [|n IH]; intros bw t; simpl; case_decide; try done.
  repeat (case_match; try done); apply IH.
Qed.

#[global] Instance TcpSocketStream_safe : StreamSafe (TcpSocketStream K).
Proof. split; intros; apply tcp_flush_no_panic. Qed.
#[global] Instance UdpSocketStream_safe : StreamSafe (UdpSocketStream K).
Proof. split; [|done]. intros data t. simpl. unfold udp_write. by destruct (dev_write _ _). Qed.
#[global] Instance TunStreamUnix_safe : StreamSafe (TunStreamUnix K).
Proof. split; [|done]. intros; apply tun_unix_loop_no_panic. Qed.
#[global] Instance TunStreamApple_safe : StreamSafe (TunStreamApple K).
Proof.
  split; [|done]. intros data t. simpl. unfold tun_apple_write.
  repeat case_match; try done; apply tun_apple_loop_no_panic.
Qed.
End instances.

(** ** A scripted device

    A concrete device, driven by lists of answers: a write accepts at most the
    scripted number of bytes plus one, everything once the script is used up. *)
Record script_device := {
  sd_reads : list (io_result (list byte));
  sd_writes : list (io_result nat);
  sd_taken : list byte;
}.

Definition would_block_error : io_error := io_error_new WouldBlockKind "would block".

#[global] Instance script_device_Device : Device script_device := {
  dev_read n d :=
    match sd_reads d with
    | [] => (Err would_block_error, d)
    | r :: rs =>
        (match r with Ok data => Ok (take n data) | Err e => Err e end,
         {| sd_reads := rs; sd_writes := sd_writes d; sd_taken := sd_taken d |})
    end;
  dev_write data d :=
    match sd_writes d with
    | [] => (Ok (length data), {| sd_reads := sd_reads d; sd_writes := [];
                                  sd_taken := sd_taken d ++ data |})
    | Err e :: ws => (Err e, {| sd_reads := sd_reads d; sd_writes := ws; sd_taken := sd_taken d |})
    | Ok n :: ws =>
        (Ok (Nat.min (S n) (length data)),
         {| sd_reads := sd_reads d; sd_writes := ws;
            sd_taken := sd_taken d ++ take (Nat.min (S n) (length data)) data |})
    end;
  dev_shutdown d := d;
}.

#[global] Program Instance script_device_laws : DeviceLaws script_device := {
  accepted := sd_taken;
}.
Next Obligation.
  simpl. intros n k data k'. destruct (sd_reads k) as [|[d|e] rs]; intros; simplify_eq.
  rewrite length_take. lia.
Qed.
Next Obligation.
  simpl. intros data k n k'. destruct (sd_writes k) as [|[m|e] ws]; intros; simplify_eq/=.
  - split; [lia|]. by rewrite take_ge by lia.
  - split; [|done]. apply (Nat.le_min_r (S m)).
Qed.
Next Obligation.
  simpl. intros data k e k'. destruct (sd_writes k) as [|[m|e'] ws]; intros; by simplify_eq/=.
Qed.

#[global] Instance script_device_progress : DeviceProgress script_device.
Proof.
  intros data k n k'. simpl. destruct (sd_writes k) as [|[m|e] ws]; intros; simplify_eq/=;
    destruct data; simpl; (done || lia).
Qed.

(** ** TCP: order and completeness of the outgoing bytes *)

Section tcp_theorems.
Context {K : Type} `{DeviceLaws K}.

(** The bytes handed to the socket followed by those still buffered. *)
Definition tcp_outgoing (t : TcpSocketStream K) : list byte :=
  accepted (tcp_sock t) ++ concat (write_buffer t).

Definition tcp_work (t : TcpSocketStream K) : nat :=
  length (concat (write_buffer t)) + length (write_buffer t).

Lemma tcp_flush_outgoing fuel bw t r t' :
  tcp_flush fuel bw t = Ret (r, t') ->
  tcp_outgoing t' = tcp_outgoing t
  /\ match r with
     | StreamOk n off wb pw =>
         off = 0 /\ bw + length (accepted (tcp_sock t')) = n + length (accepted (tcp_sock t))
         /\ (pw = PendingNo <-> write_buffer t' = []) /\ (wb = WouldBlockYes <-> pw = PendingYes)
     | StreamErr e => would_block e = false /\ write_buffer t' <> []
     | StreamClosed => False
     end.
Proof.
  revert bw t. induction fuel as [|fuel IH]; intros bw [k buf]; simpl;
    destruct buf as [|data rest]; try done.
  1, 2: intros [= <- <-]; simpl; repeat split; try done; lia.
  destruct (dev_write data k) as [[count|e] k'] eqn:E.
  - intros Hf. apply IH in Hf as [-> Hr]. apply dev_write_ok in E as [Hle Hacc].
    unfold tcp_outgoing. simpl. rewrite Hacc. split.
    + rewrite <- app_assoc. f_equal. case_decide; simpl; rewrite ?app_assoc, ?take_drop; [done|].
      by rewrite take_ge by lia.
    + destruct r; try done. destruct Hr as (-> & Hn & Hrest). split; [done|]. split; [|done].
      simpl in Hn. rewrite Hacc, length_app, length_take in Hn. lia.
  - intros [= <- <-]. apply dev_write_err in E. unfold tcp_outgoing. simpl. rewrite E.
    split; [done|]. destruct (would_block e) eqn:Hw; simpl; repeat split; try done.
Qed.

Lemma tcp_flush_terminates `{!DeviceProgress K} fuel bw t :
  tcp_work t <= fuel -> exists r t', tcp_flush fuel bw t = Ret (r, t').
Proof.
  revert bw t. induction fuel as [|fuel IH]; intros bw [k buf]; unfold tcp_work; simpl;
    destruct buf as [|data rest]; simpl; try lia; eauto.
  intros Hw. destruct (dev_write data k) as [[count|e] k'] eqn:E; [|eauto].
  apply IH. unfold tcp_work. simpl. rewrite length_app in Hw.
  case_decide as Hc; simpl; rewrite ?length_app, ?length_drop; [|lia].
  assert (0 < count); [|lia].
  eapply dev_write_progress; [done|]. intros ->. simpl in Hc. lia.
Qed.

(** C18.  A TCP stream neither loses, duplicates nor reorders outgoing bytes:
    after any [write] the bytes the socket has taken, followed by the bytes
    kept in the buffer, are those before the call followed by the new data.
    The count returned is what the socket took in this call, a pending write
    is reported exactly when bytes remain, and on an error the bytes that
    were not taken stay buffered. *)
Theorem tcp_write_fifo (fuel : nat) (data : list byte) (t t' : TcpSocketStream K) (r : StreamResult) :
  tcp_write fuel data t = Ret (r, t') ->
  tcp_outgoing t' = tcp_outgoing t ++ data
  /\ match r with
     | StreamOk n off wb pw =>
         off = 0 /\ length (accepted (tcp_sock t')) = n + length (accepted (tcp_sock t))
         /\ (pw = PendingNo <-> write_buffer t' = []) /\ (wb = WouldBlockYes <-> pw = PendingYes)
     | StreamErr e => would_block e = false /\ write_buffer t' <> []
     | StreamClosed => False
     end.
Proof.
  intros Hf. apply tcp_flush_outgoing in Hf as [-> Hr]. split; [|done].
  unfold tcp_outgoing. simpl. rewrite concat_app. simpl. by rewrite app_nil_r, app_assoc.
Qed.

(** C19.  On a socket that makes progress (a non-empty write is never answered
    with zero bytes) flushing returns: the loop runs at most once per
    buffered byte and chunk. *)
Theorem tcp_write_terminates `{!DeviceProgress K} (fuel : nat) (data : list byte)
    (t : TcpSocketStream K) :
  tcp_work t + length data + 1 <= fuel ->
  exists r t', tcp_write fuel data t = Ret (r, t').
Proof.
  intros Hf. apply tcp_flush_terminates. unfold tcp_work in *. simpl.
  rewrite concat_app, !length_app. simpl. rewrite app_nil_r. lia.
Qed.
End tcp_theorems.

Definition bytes3 : list byte := [Byte.x01; Byte.x02; Byte.x03].
Definition slow_socket : script_device :=
  {| sd_reads := []; sd_writes := [Ok 0; Err would_block_error]; sd_taken := [] |}.

Lemma tcp_write_fifo_witness :
  match tcp_write 10 bytes3 (TcpSocketStream_new slow_socket) with
  | Ret (r, t') => r = stream_ok 1 WouldBlockYes PendingYes /\ tcp_outgoing t' = bytes3
                   /\ write_buffer t' = [[Byte.x02; Byte.x03]]
  | _ => False
  end.
Proof.
  destruct (tcp_write 10 bytes3 (TcpSocketStream_new slow_socket)) as [[r t']| |] eqn:E;
    [|discriminate E..].
  pose proof (proj1 (tcp_write_fifo 10 bytes3 _ _ _ E)) as Hout.
  vm_compute in E. injection E as <- <-. by repeat split.
Defined.

Lemma tcp_write_terminates_witness :
  exists r t', tcp_write 4 bytes3 (TcpSocketStream_new slow_socket) = Ret (r, t').
Proof. apply (tcp_write_terminates 4). vm_compute. lia. Defined.

(** Without progress the flush can run forever: on a socket that keeps
    answering a non-empty write with zero bytes, no number of iterations
    returns. *)
Lemma tcp_write_may_spin {K} `{Device K} (k : K) (fuel : nat) (b : byte) (data : list byte) :
  dev_write (b :: data) k = (Ok 0, k) ->
  tcp_write fuel (b :: data) (TcpSocketStream_new k) = NoFuel.
Proof.
  intros Hz. unfold tcp_write, tcp_write_from_buffer, mbind, M_bind, modify. simpl.
  generalize 0 at 1 as bw. revert Hz. induction fuel as [|fuel IH]; intros Hz bw; [done|].
  simpl. rewrite Hz. by apply IH.
Qed.

(** A socket that answers every write with zero bytes. *)
#[local] Instance stuck_device : Device () := {
  dev_read _ k := (Err would_block_error, k);
  dev_write _ k := (Ok 0, k);
  dev_shutdown k := k;
}.

Lemma tcp_write_may_spin_witness :
  tcp_write 1000 [Byte.x01] (TcpSocketStream_new ()) = NoFuel.
Proof. apply (tcp_write_may_spin () 1000 Byte.x01 []). reflexivity. Defined.

(** ** TUN devices *)

Section tun_theorems.
Context {K : Type} `{DeviceLaws K}.

Lemma tun_unix_loop_spec fuel data bw t r t' :
  bw <= length data -> tun_unix_write_loop fuel data bw t = Ret (r, t') ->
  match r with
  | StreamOk n off wb pw =>
      off = 0 /\ pw = PendingNo /\ bw <= n <= length data
      /\ accepted (tun_file t') = accepted (tun_file t) ++ take (n - bw) (drop bw data)
      /\ (wb = WouldBlockNo <-> n = length data)
  | StreamErr e => would_block e = false
  | StreamClosed => False
  end.
Proof.
  revert bw t. induction fuel as [|fuel IH]; intros bw [k] Hbw; simpl; case_decide as Hlt; try done.
  1, 3: intros [= <- <-]; simpl; rewrite Nat.sub_diag, app_nil_r; repeat split; try done; lia.
  destruct (dev_write (drop bw data) k) as [[count|e] k'] eqn:E.
  - apply dev_write_ok in E as [Hle Hacc]. rewrite length_drop in Hle.
    intros Hf. apply IH in Hf; [|lia]. destruct r; try done.
    destruct Hf as (-> & -> & Hn & Ha & Hwb). simpl in Ha. split_and!; try done; try lia.
    rewrite Ha, Hacc, <- app_assoc. f_equal.
    rewrite <- drop_drop, take_take_drop. f_equal. lia.
  - apply dev_write_err in E. intros [= <- <-]. destruct (would_block e) eqn:Hw; [|done]. simpl.
    rewrite E, Nat.sub_diag, app_nil_r. repeat split; try done; try lia.
Qed.

Lemma tun_unix_loop_terminates `{!DeviceProgress K} fuel data bw t :
  length data - bw <= fuel -> exists r t', tun_unix_write_loop fuel data bw t = Ret (r, t').
Proof.
  revert bw t. induction fuel as [|fuel IH]; intros bw [k] Hf; simpl; case_decide; eauto; [lia|].
  destruct (dev_write (drop bw data) k) as [[count|e] k'] eqn:E; [|eauto].
  apply IH. assert (0 < count); [|lia].
  eapply dev_write_progress; [done|]. intros Hd%(f_equal length). rewrite length_drop in Hd.
  simpl in Hd. lia.
Qed.

(** Writing to a Unix TUN device returns, on a device that makes
    progress, after at most one iteration per byte.  A successful write has
    handed over exactly the first [n] bytes it counts, in order; it is short
    only when the device would block; nothing is buffered. *)
Lemma tun_unix_write_prefix `{!DeviceProgress K} (fuel : nat) (data : list byte)
    (t : TunStreamUnix K) :
  length data <= fuel ->
  exists r t', tun_unix_write fuel data t = Ret (r, t')
  /\ match r with
     | StreamOk n off wb pw =>
         off = 0 /\ pw = PendingNo /\ n <= length data
         /\ accepted (tun_file t') = accepted (tun_file t) ++ take n data
         /\ (wb = WouldBlockNo <-> n = length data)
     | StreamErr e => would_block e = false
     | StreamClosed => False
     end.
Proof.
  intros Hf. destruct (tun_unix_loop_terminates fuel data 0 t) as (r & t' & E); [lia|].
  exists r, t'. split; [done|]. apply tun_unix_loop_spec in E; [|lia].
  destruct r; try done. rewrite Nat.sub_0_r, drop_0 in E. naive_solver lia.
Qed.

(** The packet a TUN device of the Apple platforms exchanges for [data]. *)
Definition apple_frame (af : byte) (data : list byte) : list byte :=
  [Byte.x00; Byte.x00; Byte.x00; af] ++ data.

Lemma tun_apple_loop_spec fuel len bw t r t' :
  bw <= length (apple_write_buffer t) ->
  length (apple_write_buffer t) = APPLE_TUN_PACKET_HEADER_LEN + len ->
  tun_apple_write_loop fuel len bw t = Ret (r, t') ->
  match r with
  | StreamOk n off wb pw =>
      off = 0 /\ pw = PendingNo /\ n <= len /\ bw <= APPLE_TUN_PACKET_HEADER_LEN + n
      /\ accepted (apple_file t')
         = accepted (apple_file t)
           ++ take (APPLE_TUN_PACKET_HEADER_LEN + n - bw) (drop bw (apple_write_buffer t))
      /\ (wb = WouldBlockNo -> n = len)
  | StreamErr e => would_block e = false
  | StreamClosed => False
  end.
Proof.
  revert bw t. induction fuel as [|fuel IH]; intros bw [k buf] Hbw Hlen; simpl in *;
    case_decide as Hlt; try done.
  1, 3: intros [= <- <-]; simpl in *; assert (bw = length buf) as -> by lia;
    rewrite drop_all, take_nil, app_nil_r; repeat split; done || lia.
  destruct (dev_write (drop bw buf) k) as [[count|e] k'] eqn:E.
  - apply dev_write_ok in E as [Hle Hacc]. rewrite length_drop in Hle.
    destruct count as [|count]; [by intros [= <- <-]|].
    intros Hf. apply IH in Hf; simpl; [|lia..]. destruct r; try done.
    destruct Hf as (-> & -> & Hn & Hb & Ha & Hwb). simpl in Ha. split_and!; try done; [lia|].
    rewrite Ha, Hacc, <- app_assoc. f_equal. rewrite <- drop_drop, take_take_drop. f_equal. lia.
  - apply dev_write_err in E. destruct (would_block e) eqn:Hw; [|by intros [= <- <-]].
    case_decide as Hh; [|by intros [= <- <-]]. intros [= <- <-]. simpl in *.
    unfold APPLE_TUN_PACKET_HEADER_LEN in *.
    replace (S (S (S (S (bw - 4)))) - bw) with 0 by lia.
    rewrite E, take_0, app_nil_r. split_and!; done || lia.
Qed.

Lemma tun_apple_loop_terminates fuel len bw t :
  length (apple_write_buffer t) - bw <= fuel ->
  exists r t', tun_apple_write_loop fuel len bw t = Ret (r, t').
Proof.
  revert bw t. induction fuel as [|fuel IH]; intros bw [k buf] Hf; simpl in *; case_decide; eauto; [lia|].
  destruct (dev_write (drop bw buf) k) as [[[|count]|e] k'] eqn:E; [eauto| |repeat case_match; eauto].
  apply IH. simpl. lia.
Qed.

(** Writing a packet to an Apple TUN device always returns: a device
    that takes no bytes is an error instead of a retry.  The packet is
    prefixed with its address family, given by the IP version in the first
    byte: after a complete write the device holds the four-byte header and
    the packet, after a short one the header and the [n] bytes counted.  An
    empty packet or one of another IP version is refused and the device is
    left alone. *)
Lemma tun_apple_write_framed (AF_INET AF_INET6 : byte) (fuel : nat) (data : list byte)
    (t : TunStreamApple K) :
  length data + APPLE_TUN_PACKET_HEADER_LEN <= fuel ->
  exists r t', tun_apple_write AF_INET AF_INET6 fuel data t = Ret (r, t')
  /\ match from_option (address_family AF_INET AF_INET6)
              (Err (io_error_new InvalidData "Empty packet")) (head data), r with
     | Ok af, StreamOk n off wb pw =>
         off = 0 /\ pw = PendingNo /\ n <= length data
         /\ accepted (apple_file t') = accepted (apple_file t) ++ apple_frame af (take n data)
         /\ (wb = WouldBlockNo -> n = length data)
     | Ok _, StreamErr e => would_block e = false
     | Err e, _ => r = StreamErr e /\ t' = t
     | _, StreamClosed => False
     end.
Proof.
  intros Hf. unfold tun_apple_write.
  replace (match head data with Some b => address_family AF_INET AF_INET6 b | None => _ end)
    with (from_option (address_family AF_INET AF_INET6)
            (Err (io_error_new InvalidData "Empty packet")) (head data)) by by destruct data.
  destruct (from_option _ _ _) as [af|e]; [|eauto].
  set (t0 := {| apple_file := _; apple_write_buffer := _ |}).
  destruct (tun_apple_loop_terminates fuel (length data) 0 t0) as (r & t' & E);
    [unfold APPLE_TUN_PACKET_HEADER_LEN in Hf; simpl; lia|].
  exists r, t'. split; [done|]. apply tun_apple_loop_spec in E; [|simpl; lia|done].
  destruct r; try done. naive_solver.
Qed.

(** Reading from an Apple TUN device undoes the framing: when the device
    delivers the frame of a packet, the bytes announced by the result are
    the packet, the header being skipped by the start offset. *)
Lemma tun_apple_read_unframes (af : byte) (data buf : list byte) (t : TunStreamApple K) (k : K) :
  dev_read (length buf) (apple_file t) = (Ok (apple_frame af data), k) ->
  exists buf' t', tun_apple_read buf t
    = ((StreamOk (length data) APPLE_TUN_PACKET_HEADER_LEN WouldBlockNo PendingNo, buf'), t')
  /\ length buf' = length buf
  /\ take (length data) (drop APPLE_TUN_PACKET_HEADER_LEN buf') = data.
Proof.
  intros E. pose proof (dev_read_bound _ _ _ _ E) as Hb. unfold tun_apple_read. rewrite E.
  rewrite decide_True by (simpl; unfold APPLE_TUN_PACKET_HEADER_LEN; lia).
  eexists _, _. split; [|split; [by apply length_fill|]].
  - repeat f_equal. simpl. unfold APPLE_TUN_PACKET_HEADER_LEN. lia.
  - unfold fill, APPLE_TUN_PACKET_HEADER_LEN, apple_frame. simpl.
    by rewrite drop_0, take_app_length.
Qed.
End tun_theorems.

Lemma tun_unix_write_prefix_witness :
  exists r t', tun_unix_write 3 bytes3 {| tun_file := slow_socket |} = Ret (r, t')
    /\ r = stream_ok 1 WouldBlockYes PendingNo.
Proof.
  destruct (tun_unix_write_prefix 3 bytes3 {| tun_file := slow_socket |}) as (r & t' & E & _);
    [vm_compute; lia|].
  exists r, t'. split; [done|]. vm_compute in E. by injection E as <- <-.
Defined.

Definition AF_INET_apple : byte := Byte.x02.
Definition AF_INET6_apple : byte := Byte.x1e.
Definition apple_tun (reads : list (io_result (list byte))) : TunStreamApple script_device :=
  {| apple_file := {| sd_reads := reads; sd_writes := [Ok 2]; sd_taken := [] |};
     apple_write_buffer := [] |}.

Lemma tun_apple_write_framed_witness :
  exists r t', tun_apple_write AF_INET_apple AF_INET6_apple 6 [Byte.x45; Byte.x07] (apple_tun [])
    = Ret (r, t') /\ accepted (apple_file t') = apple_frame AF_INET_apple [Byte.x45; Byte.x07].
Proof.
  destruct (tun_apple_write_framed AF_INET_apple AF_INET6_apple 6 [Byte.x45; Byte.x07] (apple_tun []))
    as (r & t' & E & _); [vm_compute; lia|].
  exists r, t'. split; [done|]. vm_compute in E. by injection E as <- <-.
Defined.

Lemma tun_apple_read_unframes_witness :
  exists buf' t', tun_apple_read (replicate 9 Byte.x00)
      (apple_tun [Ok (apple_frame AF_INET_apple bytes3)])
    = ((StreamOk 3 4 WouldBlockNo PendingNo, buf'), t')
    /\ length buf' = 9 /\ take 3 (drop 4 buf') = bytes3.
Proof.
  apply (tun_apple_read_unframes AF_INET_apple bytes3 (replicate 9 Byte.x00)
    (apple_tun [Ok (apple_frame AF_INET_apple bytes3)])
    (apple_file (apple_tun []))). reflexivity.
Defined.
