(* ===== verification/Pcap.v ===== *)
(** * Packet capture file

    [src/connection/pcap_stream.rs] over a model of the file system: the
    contents of files, offsets and append mode, and a script of the faults the
    system answers with. *)

From S2P Require Import Prelude Types.

(** ** Files *)

Inductive file_key :=
| KPath (path : string)
| KFd (fd : Z).

#[global] Instance file_key_eq_dec : EqDecision file_key.
Proof. solve_decision. Defined.
#[global] Instance file_key_countable : Countable file_key.
Proof.
  refine (inj_countable'
    (fun k => match k with KPath p => inl p | KFd n => inr n end)
    (fun s => match s with inl p => KPath p | inr n => KFd n end) _).
  by intros [].
Defined.

(** [w_faults] answers the fallible calls of opening, [w_writes] the calls of
    [write_all]: [Some n] fails after [n] bytes.  Exhausted scripts succeed. *)
Record World := {
  w_files : gmap file_key (list byte);
  w_fds : gmap Z (nat * bool);
  w_faults : list (option io_error);
  w_writes : list (option nat);
}.

(** An open [std::fs::File]. *)
Record File := { f_key : file_key; f_pos : nat; f_append : bool }.

Definition contents (k : file_key) (w : World) : list byte := default [] (w_files w !! k).

Definition set_contents (k : file_key) (c : list byte) (w : World) : World :=
  {| w_files := <[k := c]> (w_files w); w_fds := w_fds w; w_faults := w_faults w; w_writes := w_writes w |}.

Definition fallible {A} (op : World -> A * World) (w : World) : io_result A * World :=
  let w' := {| w_files := w_files w; w_fds := w_fds w; w_faults := tail (w_faults w); w_writes := w_writes w |} in
  match w_faults w with
  | Some e :: _ => (Err e, w')
  | _ => let '(a, w'') := op w' in (Ok a, w'')
  end.

(** [create_dir_all] of the parent directory, when the path has one. *)
Definition create_parent (path : string) : World -> io_result () * World :=
  fallible (fun w => ((), w)).

(** [File::options().create(true).write(true).append(append).open(path)]: an
    existing file keeps its contents. *)
Definition file_open (path : string) (append : bool) : World -> io_result File * World :=
  fallible (fun w => ({| f_key := KPath path; f_pos := 0; f_append := append |},
                      set_contents (KPath path) (contents (KPath path) w) w)).

Definition from_raw_fd (fd : Z) (w : World) : File :=
  let '(pos, append) := default (0, false) (w_fds w !! fd) in
  {| f_key := KFd fd; f_pos := pos; f_append := append |}.

Definition metadata_len (f : File) : World -> io_result Z * World :=
  fallible (fun w => (Z.of_nat (length (contents (f_key f) w)), w)).

(** Store [data] at offset [pos]; a gap is filled with zeros. *)
Definition write_at (pos : nat) (data c : list byte) : list byte :=
  take pos c ++ replicate (pos - length c) Byte.x00 ++ data ++ drop (pos + length data) c.

Definition write_all (data : list byte) (f : File) (w : World) : io_result () * (File * World) :=
  let c := contents (f_key f) w in
  let start := if f_append f then length c else f_pos f in
  let store d :=
    ({| f_key := f_key f; f_pos := start + length d; f_append := f_append f |},
     {| w_files := <[f_key f := write_at start d c]> (w_files w); w_fds := w_fds w;
        w_faults := w_faults w; w_writes := tail (w_writes w) |}) in
  match w_writes w with
  | Some n :: _ => (Err (io_error_new OtherKind "write failed"), store (take n data))
  | _ => (Ok (), store data)
  end.

(** ** The capture stream *)

Record PcapStream := {
  file_info : PcapFileInfo;
  file : File;
  size : Z;
  pcap_max_bytes : option Z;
  at_max_size : bool;
}.

Definition PcapStream_new (info : PcapFileInfo) (w : World) : io_result PcapStream * World :=
  let '(opened, w) :=
    match pcap_file info with
    | Path path mode =>
        let append := match mode with Append => true | Overwrite => false end in
        match create_parent path w with
        | (Err e, w) => (Err e, w)
        | (Ok _, w) => file_open path append w
        end
    | Fd fd => (Ok (from_raw_fd fd w), w)
    end in
  match opened with
  | Err e => (Err e, w)
  | Ok f =>
      match metadata_len f w with
      | (Err e, w) => (Err e, w)
      | (Ok len, w) =>
          (Ok {| file_info := info; file := f; size := len; pcap_max_bytes := max_bytes info;
                 at_max_size := false |}, w)
      end
  end.

Definition PcapStream_write (data : list byte) (p : PcapStream) (w : World) : PcapStream * World :=
  if at_max_size p then (p, w)
  else if match pcap_max_bytes p with
          | Some max_size => (max_size <? (size p +u64 Z.of_nat (length data))%int)%Z
          | None => false
          end
  then ({| file_info := file_info p; file := file p; size := size p;
           pcap_max_bytes := pcap_max_bytes p; at_max_size := true |}, w)
  else
    let '(result, (f, w)) := write_all data (file p) w in
    let size' := match result with
                 | Err _ => size p
                 | Ok _ => (size p +u64 Z.of_nat (length data))%int
                 end in
    ({| file_info := file_info p; file := f; size := size';
        pcap_max_bytes := pcap_max_bytes p; at_max_size := false |}, w).

(** A run of writes, as [handle_write] makes them. *)
Fixpoint pcap_writes (chunks : list (list byte)) (p : PcapStream) (w : World) : PcapStream * World :=
  match chunks with
  | [] => (p, w)
  | data :: chunks => let '(p, w) := PcapStream_write data p w in pcap_writes chunks p w
  end.

(** ** What ends up in the file *)

(** The specification: packets are kept whole and in order until the first one
    that does not fit below the limit. *)
Fixpoint kept_packets (limit : option Z) (used : Z) (chunks : list (list byte)) : list (list byte) :=
  match chunks with
  | [] => []
  | c :: cs =>
      let used' := (used + Z.of_nat (length c))%Z in
      if match limit with Some m => (m <? used')%Z | None => false end then []
      else c :: kept_packets limit used' cs
  end.

Lemma write_at_end (c data : list byte) : write_at (length c) data c = c ++ data.
Proof.
  unfold write_at. rewrite take_ge, Nat.sub_diag, drop_ge by lia. simpl. by rewrite app_nil_r.
Qed.

Lemma kept_packets_length limit used chunks : length (kept_packets limit used chunks) <= length chunks.
Proof.
  revert used. induction chunks as [|c cs IH]; intros used; simpl; [lia|].
  specialize (IH (used + Z.of_nat (length c))%Z). destruct limit; [destruct (_ <? _)%Z|]; simpl; lia.
Qed.

Lemma kept_packets_bound m used chunks :
  (used <= m)%Z ->
  (used + Z.of_nat (length (concat (kept_packets (Some m) used chunks))) <= m)%Z.
Proof.
  revert used. induction chunks as [|c cs IH]; intros used Hu; simpl; [lia|].
  destruct (Z.ltb_spec m (used + Z.of_nat (length c))); simpl; [lia|].
  rewrite length_app. specialize (IH (used + Z.of_nat (length c))%Z). lia.
Qed.

Lemma pcap_at_max_sticky chunks p w : at_max_size p = true -> pcap_writes chunks p w = (p, w).
Proof.
  intros H. induction chunks as [|c cs IH]; [done|]. simpl. unfold PcapStream_write. by rewrite H.
Qed.

(** What the writes leave in the file when some fail: one entry for each
    packet before the first that does not fit, with whether it was written
    whole; a failed write leaves the packet's first bytes and is not counted
    against the limit. *)
Fixpoint captured (limit : option Z) (used : Z) (faults : list (option nat)) (chunks : list (list byte))
    : list (bool * list byte) :=
  match chunks with
  | [] => []
  | c :: cs =>
      let used' := (used + Z.of_nat (length c))%Z in
      if match limit with Some m => (m <? used')%Z | None => false end then []
      else match faults with
           | Some n :: faults => (false, take n c) :: captured limit used faults cs
           | _ => (true, c) :: captured limit used' (tail faults) cs
           end
  end.

Definition whole_packets (pieces : list (bool * list byte)) : list (list byte) :=
  omap (fun '(whole, c) => if (whole : bool) then Some c else None) pieces.

(** An entry is its packet, or a beginning of it when the write failed. *)
Definition piece_of (piece : bool * list byte) (c : list byte) : Prop :=
  piece.2 `prefix_of` c /\ (piece.1 = true -> piece.2 = c).

Lemma captured_pieces limit used faults chunks :
  Forall2 piece_of (captured limit used faults chunks)
    (take (length (captured limit used faults chunks)) chunks).
Proof.
  revert used faults. induction chunks as [|c cs IH]; intros used faults; simpl; [done|].
  destruct (match limit with Some m => _ | None => _ end); [done|].
  destruct faults as [|[n|] faults]; simpl; constructor; try apply IH; split; try done.
  exists (drop n c). simpl. by rewrite take_drop.
Qed.

Lemma captured_bound m used faults chunks :
  (used + Z.of_nat (length (concat (whole_packets (captured (Some m) used faults chunks)))) <= Z.max m used)%Z.
Proof.
  revert used faults. induction chunks as [|c cs IH]; intros used faults; simpl; [lia|].
  destruct (Z.ltb_spec m (used + Z.of_nat (length c))); simpl; [lia|].
  destruct faults as [|[n|] faults]; simpl; [|apply IH|];
    rewrite length_app; [specialize (IH (used + Z.of_nat (length c))%Z [])
                        |specialize (IH (used + Z.of_nat (length c))%Z faults)]; simpl in *; lia.
Qed.

Lemma captured_whole limit used faults chunks :
  Forall (fun f => f = None) (take (length chunks) faults) ->
  captured limit used faults chunks = (pair true) <$> kept_packets limit used chunks.
Proof.
  revert used faults. induction chunks as [|c cs IH]; intros used faults; simpl; [done|].
  destruct (match limit with Some m => _ | None => _ end); [done|].
  destruct faults as [|f faults]; simpl; intros H.
  - rewrite IH; [done|]. by rewrite take_nil.
  - inversion H; subst. by rewrite IH.
Qed.

Lemma whole_packets_all l : whole_packets (pair true <$> l) = l.
Proof. induction l as [|c l IH]; [done|]. change (c :: whole_packets (pair true <$> l) = c :: l). by rewrite IH. Qed.

Lemma pcap_writes_append chunks : forall p w,
  f_append (file p) = true -> at_max_size p = false ->
  (0 <= size p)%Z -> (size p + Z.of_nat (length (concat chunks)) < 2 ^ 64)%Z ->
  let '(p', w') := pcap_writes chunks p w in
  let pieces := captured (pcap_max_bytes p) (size p) (w_writes w) chunks in
  contents (f_key (file p)) w' = contents (f_key (file p)) w ++ concat pieces.*2
  /\ at_max_size p' = negb (length pieces =? length chunks).
Proof.
  induction chunks as [|c cs IH]; intros p w Ha Hm Hs Hlt.
  { simpl. by rewrite app_nil_r. }
  simpl in Hlt |- *. rewrite length_app in Hlt.
  assert ((size p +u64 Z.of_nat (length c))%int = size p + Z.of_nat (length c))%Z as Hadd
    by (apply wrapU_small; lia).
  unfold PcapStream_write. rewrite Hm, Hadd.
  destruct (match pcap_max_bytes p with Some m => _ | None => _ end) eqn:Hfull.
  { rewrite pcap_at_max_sticky by done. simpl. by rewrite app_nil_r. }
  unfold write_all. rewrite Ha.
  destruct (w_writes w) as [|[n|] faults] eqn:Hw; rewrite write_at_end;
    set (p1 := {| file_info := _; size := _ |}); set (w1 := {| w_files := _; w_writes := _ |});
    pose proof (IH p1 w1 eq_refl eq_refl ltac:(simpl; lia) ltac:(simpl; lia)) as IH';
    destruct (pcap_writes cs p1 w1) as [p' w'];
    change (f_key (file p1)) with (f_key (file p)) in IH';
    (assert (contents (f_key (file p)) w1 = contents (f_key (file p)) w ++ _) as Hc
      by (unfold contents, w1; simpl; by rewrite lookup_insert_eq));
    cbv zeta in IH'; rewrite Hc, <- app_assoc in IH'; exact IH'.
Qed.

(** An opened stream is what the file system gave, at its current size. *)
Lemma pcap_open_path path mode info w p w' :
  pcap_file info = Path path mode -> PcapStream_new info w = (Ok p, w') ->
  f_key (file p) = KPath path /\ f_pos (file p) = 0
  /\ f_append (file p) = (match mode with Append => true | Overwrite => false end)
  /\ at_max_size p = false
  /\ pcap_max_bytes p = max_bytes info /\ w_writes w' = w_writes w
  /\ contents (KPath path) w' = contents (KPath path) w
  /\ size p = Z.of_nat (length (contents (KPath path) w)).
Proof.
  intros Hf. unfold PcapStream_new. rewrite Hf.
  unfold create_parent, file_open, metadata_len, fallible.
  repeat (case_match; simplify_eq/=); intros; simplify_eq/=;
    unfold contents; simpl; rewrite lookup_insert_eq; done.
Qed.

(** C21.  A capture opened in append mode keeps what the file held and adds
    the packets, in order, up to the first that would make the file larger
    than [max_bytes]; from then on nothing is written, and [at_max_size]
    tells exactly whether that has happened.  A packet is added whole unless
    its [write_all] fails, and then a beginning of it stays and is not
    counted: the limit bounds the old contents and the whole packets
    together.  When none of the writes fails every packet added is whole and
    the limit bounds the file itself (or the file stays as large as it was).
    The sizes are assumed to fit 64 bits. *)
Theorem pcap_append_bounded (path : string) (info : PcapFileInfo) (w w1 : World) (p : PcapStream)
    (chunks : list (list byte)) :
  pcap_file info = Path path Append ->
  PcapStream_new info w = (Ok p, w1) ->
  let old := contents (KPath path) w in
  let used := Z.of_nat (length old) in
  (Z.of_nat (length old + length (concat chunks)) < 2 ^ 64)%Z ->
  let '(p', w') := pcap_writes chunks p w1 in
  let pieces := captured (max_bytes info) used (w_writes w) chunks in
  contents (KPath path) w' = old ++ concat pieces.*2
  /\ at_max_size p' = negb (length pieces =? length chunks)
  /\ Forall2 piece_of pieces (take (length pieces) chunks)
  /\ (forall m, max_bytes info = Some m ->
       (used + Z.of_nat (length (concat (whole_packets pieces))) <= Z.max m used)%Z)
  /\ (Forall (fun f => f = None) (take (length chunks) (w_writes w)) ->
      pieces.*2 = kept_packets (max_bytes info) used chunks
      /\ forall m, max_bytes info = Some m ->
           (Z.of_nat (length (contents (KPath path) w')) <= Z.max m used)%Z).
Proof.
  intros Hf Hn old used Hlt.
  destruct (pcap_open_path _ _ _ _ _ _ Hf Hn) as (Hk & _ & Ha & Hm & Hmax & Hw1 & Hc & Hs).
  pose proof (pcap_writes_append chunks p w1 Ha Hm) as H. rewrite Hk, Hc, Hs, Hmax, Hw1 in H.
  specialize (H ltac:(lia) ltac:(unfold old in *; lia)).
  destruct (pcap_writes chunks p w1) as [p' w']. destruct H as [H1 H2]. fold old used in H1, H2.
  split; [done|]. split; [done|]. split; [apply captured_pieces|].
  assert (forall m, max_bytes info = Some m ->
    (used + Z.of_nat (length (concat (whole_packets (captured (max_bytes info) used (w_writes w) chunks))))
     <= Z.max m used)%Z) as Hb by (intros m ->; apply captured_bound).
  split; [exact Hb|]. intros Hnone. rewrite (captured_whole _ _ _ _ Hnone) in H1, Hb |- *.
  rewrite whole_packets_all in Hb. rewrite <- list_fmap_compose in H1 |- *.
  rewrite list_fmap_id in H1 |- *. split; [done|]. intros m Hmm. specialize (Hb m Hmm).
  rewrite H1, length_app. unfold used in *. lia.
Qed.

Definition faulty_world (faults : list (option nat)) (c : list byte) : World :=
  {| w_files := {[ KPath "/c.pcap" := c ]}; w_fds := ∅; w_faults := []; w_writes := faults |}.
Definition sample_world : list byte -> World := faulty_world [].
Definition sample_pcap (mode : FileWriteMode) (m : option Z) : PcapFileInfo :=
  {| pcap_file := Path "/c.pcap" mode; max_bytes := m |}.
Definition opened (info : PcapFileInfo) (w : World) : PcapStream :=
  match PcapStream_new info w with
  | (Ok p, _) => p
  | (Err _, _) => {| file_info := info; file := from_raw_fd 0 w; size := 0; pcap_max_bytes := None;
                     at_max_size := true |}
  end.

(** The second write fails after a byte, the third packet fits, the fourth
    does not; without faults the limit bounds the file. *)
Lemma pcap_append_bounded_witness :
  let info := sample_pcap Append (Some 4%Z) in
  let chunks := [[Byte.x01]; [Byte.x02; Byte.x03]; [Byte.x04; Byte.x05]; [Byte.x06]; [Byte.x07]] in
  let run w := pcap_writes chunks (opened info w) (PcapStream_new info w).2 in
  (let '(p', w') := run (faulty_world [None; Some 1] [Byte.x41]) in
   contents (KPath "/c.pcap") w' = [Byte.x41; Byte.x01; Byte.x02; Byte.x04; Byte.x05]
   /\ at_max_size p' = true)
  /\ (Z.of_nat (length (contents (KPath "/c.pcap") (run (sample_world [Byte.x41])).2)) <= 4)%Z.
Proof.
  cbv zeta. set (info := sample_pcap Append (Some 4%Z)). set (chunks := [_; _; _; _; _]).
  pose proof (fun w p w1 => pcap_append_bounded "/c.pcap" info w w1 p chunks eq_refl) as H. split.
  - specialize (H (faulty_world [None; Some 1] [Byte.x41]) (opened info (faulty_world [None; Some 1] [Byte.x41]))
      (PcapStream_new info (faulty_world [None; Some 1] [Byte.x41])).2 eq_refl eq_refl).
    destruct (pcap_writes _ _ _) as [p' w']. destruct H as (H1 & H2 & _). split; [exact H1|exact H2].
  - specialize (H (sample_world [Byte.x41]) (opened info (sample_world [Byte.x41]))
      (PcapStream_new info (sample_world [Byte.x41])).2 eq_refl eq_refl).
    destruct (pcap_writes _ _ _) as [p' w']. destruct H as (_ & _ & _ & _ & H).
    destruct (H ltac:(vm_compute; constructor)) as [_ H']. exact (H' 4%Z eq_refl).
Defined.

(** The bytes a failed write leaves are not counted, so that the file can
    outgrow the limit. *)
Example pcap_failed_write_uncounted :
  let info := sample_pcap Append (Some 2%Z) in
  let w := faulty_world [Some 1] [] in
  contents (KPath "/c.pcap")
    (pcap_writes [[Byte.x01; Byte.x02]; [Byte.x03; Byte.x04]] (opened info w) (PcapStream_new info w).2).2
  = [Byte.x01; Byte.x03; Byte.x04].
Proof. reflexivity. Qed.

(** Overwrite mode does not truncate: the packets replace the beginning of
    an existing file and the rest of its old contents stays, and the old
    length counts against [max_bytes], so that a file already at the limit
    receives no packet at all. *)
Lemma pcap_overwrite_keeps_tail (path : string) (info : PcapFileInfo) (w w1 : World) (p : PcapStream)
    (data : list byte) :
  pcap_file info = Path path Overwrite -> w_writes w = [] ->
  PcapStream_new info w = (Ok p, w1) ->
  let old := contents (KPath path) w in
  (Z.of_nat (length old + length data) < 2 ^ 64)%Z ->
  let '(p', w') := PcapStream_write data p w1 in
  contents (KPath path) w' =
    (if match max_bytes info with Some m => (m <? Z.of_nat (length old + length data))%Z | None => false end
     then old else data ++ drop (length data) old).
Proof.
  intros Hf Hw Hn old Hlt.
  destruct (pcap_open_path _ _ _ _ _ _ Hf Hn) as (Hk & Hp & Ha & Hm & Hmax & Hw1 & Hc & Hs).
  unfold PcapStream_write. rewrite Hm, Hmax, Hs. fold old.
  rewrite wrapU_small, <- Nat2Z.inj_add by lia.
  destruct (match max_bytes info with Some m => _ | None => _ end); [by rewrite Hc|].
  unfold write_all. rewrite Hw1, Hw, Hk, Ha, Hp, Hc. unfold contents. simpl.
  rewrite lookup_insert_eq. by unfold write_at.
Qed.

Lemma pcap_overwrite_keeps_tail_witness :
  let w := sample_world [Byte.x41; Byte.x42; Byte.x43] in
  contents (KPath "/c.pcap")
    (PcapStream_write [Byte.x01] (opened (sample_pcap Overwrite (Some 4%Z)) w)
       (PcapStream_new (sample_pcap Overwrite (Some 4%Z)) w).2).2 = [Byte.x01; Byte.x42; Byte.x43].
Proof.
  cbv zeta.
  pose proof (pcap_overwrite_keeps_tail "/c.pcap" (sample_pcap Overwrite (Some 4%Z))
    (sample_world [Byte.x41; Byte.x42; Byte.x43])
    (PcapStream_new (sample_pcap Overwrite (Some 4%Z)) (sample_world [Byte.x41; Byte.x42; Byte.x43])).2
    (opened (sample_pcap Overwrite (Some 4%Z)) (sample_world [Byte.x41; Byte.x42; Byte.x43]))
    [Byte.x01] eq_refl eq_refl eq_refl eq_refl) as H.
  destruct (PcapStream_write _ _ _) as [p' w']. exact H.
Defined.
