(* ===== verification/MioStreams.v ===== *)
(** * The mio implementation of the stream set

    [src/connection/mio/streams.rs]: the streams registered with a [mio]
    poll, each under a fresh token.  The poll and its registry are the [mio]
    crate's, the sockets come from a [MioSocketFactory]; both are interfaces
    here.  The file proves that the stream set implements the [Streams]
    interface and that events reach exactly the stream they belong to. *)

From S2P Require Import Prelude Types Streams.

(** ** The mio crate *)

Inductive Interest := READABLE | READABLE_WRITABLE.

#[global] Instance Interest_eq_dec : EqDecision Interest.
Proof. solve_decision. Defined.

Abbreviation Token := nat.

Record mio_event := { ev_token : Token; ev_readable : bool; ev_writable : bool; ev_error : bool }.

Class MioPoll (P T : Type) := {
  registry_register : T -> Token -> Interest -> P -> io_result () * P;
  registry_reregister : T -> Token -> Interest -> P -> io_result () * P;
  registry_deregister : T -> P -> io_result () * P;
  poll_poll : option Duration -> P -> io_result (list mio_event) * P;
}.

(** [trait MioSocketFactory]; the state is that of the operating system. *)
Class MioSocketFactory (F T : Type) := {
  new_tcp_socket : SocketAddr -> F -> io_result T * F;
  new_udp_socket : SocketAddr -> F -> io_result T * F;
}.

(** ** The stream set *)

Definition POLL_WAKER_TOKEN : Token := 0.

Section mio.
Context `{StreamIds} {P T F : Type} `{MioPoll P T, MioSocketFactory F T} (tun_new : Z -> T).

Record MioStreamInfo := {
  info_id : StreamId;
  info_stream : T;
  info_token : Token;
  info_interest : Interest;
}.

(** The buffer [events] is overwritten by every poll and not part of the state. *)
Record MioStreams := {
  streams : list MioStreamInfo;
  mio_poll : P;
  next_token : nat;
  socket_factory : F;
}.

Definition get_stream_by_id (l : list MioStreamInfo) (id : StreamId) : option MioStreamInfo :=
  find (fun s => info_id s =? id)%Z l.

Definition get_stream_by_token (l : list MioStreamInfo) (token : Token) : option MioStreamInfo :=
  find (fun s => info_token s =? token) l.

(** Assignment through the reference [get_stream_by_id_mut] returns. *)
Fixpoint update_by_id (id : StreamId) (f : MioStreamInfo -> MioStreamInfo) (l : list MioStreamInfo)
  : list MioStreamInfo :=
  match l with
  | [] => []
  | s :: l => if (info_id s =? id)%Z then f s :: l else s :: update_by_id id f l
  end.

Definition with_streams (l : list MioStreamInfo) (p : P) (m : MioStreams) : MioStreams :=
  {| streams := l; mio_poll := p; next_token := next_token m; socket_factory := socket_factory m |}.

Definition register_stream (id : StreamId) (stream : T) (interest : Interest) (m : MioStreams)
  : io_result () * MioStreams :=
  let token := next_token m in
  let '(res, p) := registry_register stream token interest (mio_poll m) in
  let m' l := {| streams := l; mio_poll := p; next_token := S token;
                 socket_factory := socket_factory m |} in
  match res with
  | Err e => (Err e, m' (streams m))
  | Ok _ => (Ok (), m' (streams m ++ [{| info_id := id; info_stream := stream;
                                         info_token := token; info_interest := interest |}]))
  end.

Definition MioStreams_new (tun : option T) (factory : F) (poll : P) : io_result MioStreams :=
  let ret := {| streams := []; mio_poll := poll; next_token := POLL_WAKER_TOKEN + 1;
                socket_factory := factory |} in
  match tun with
  | Some tun =>
      match register_stream TUN_STREAM_ID tun READABLE ret with
      | (Ok _, m) => Ok m
      | (Err e, _) => Err e
      end
  | None => Ok ret
  end.

Definition mio_get_stream (id : StreamId) (m : MioStreams) : option T :=
  info_stream <$> get_stream_by_id (streams m) id.

Definition mio_put_stream (id : StreamId) (t : T) (m : MioStreams) : MioStreams :=
  with_streams (update_by_id id (fun s =>
    {| info_id := info_id s; info_stream := t; info_token := info_token s;
       info_interest := info_interest s |}) (streams m)) (mio_poll m) m.

Definition with_factory (f : F) (m : MioStreams) : MioStreams :=
  {| streams := streams m; mio_poll := mio_poll m; next_token := next_token m; socket_factory := f |}.

Definition mio_open_new_tcp_stream (id : StreamId) (addr : SocketAddr) (m : MioStreams)
  : io_result () * MioStreams :=
  match new_tcp_socket addr (socket_factory m) with
  | (Err e, f) => (Err e, with_factory f m)
  | (Ok stream, f) => register_stream id stream READABLE_WRITABLE (with_factory f m)
  end.

Definition mio_open_new_udp_stream (id : StreamId) (addr : SocketAddr) (m : MioStreams)
  : io_result () * MioStreams :=
  match new_udp_socket addr (socket_factory m) with
  | (Err e, f) => (Err e, with_factory f m)
  | (Ok stream, f) => register_stream id stream READABLE (with_factory f m)
  end.

Definition mio_close_stream (id : StreamId) (m : MioStreams) : MioStreams :=
  let p := match get_stream_by_id (streams m) id with
           | Some s => (registry_deregister (info_stream s) (mio_poll m)).2
           | None => mio_poll m
           end in
  with_streams (retain (fun s => negb (info_id s =? id)%Z) (streams m)) p m.

(** The loop over the events of a poll. *)
Fixpoint route_events (l : list MioStreamInfo) (events : list mio_event) : list PollResult :=
  match events with
  | [] => []
  | ev :: events =>
      if ev_token ev =? POLL_WAKER_TOKEN then route_events l events
      else match get_stream_by_token l (ev_token ev) with
           | Some s => {| stream_id := info_id s; is_readable := ev_readable ev;
                          is_writable := ev_writable ev; is_error := ev_error ev |}
                       :: route_events l events
           | None => route_events l events
           end
  end.

Definition mio_poll_streams (deadline : option Duration) (m : MioStreams)
  : io_result (list PollResult) * MioStreams :=
  match poll_poll deadline (mio_poll m) with
  | (Err e, p) => (Err e, with_streams (streams m) p m)
  | (Ok events, p) => (Ok (route_events (streams m) events), with_streams (streams m) p m)
  end.

Definition mio_set_poll_enable_wait_for_write (id : StreamId) (wait_for_write : bool) (m : MioStreams)
  : MioStreams :=
  match get_stream_by_id (streams m) id with
  | Some stream =>
      let interest := if wait_for_write then READABLE_WRITABLE else READABLE in
      if decide (info_interest stream <> interest) then
        with_streams (update_by_id id (fun s =>
            {| info_id := info_id s; info_stream := info_stream s; info_token := info_token s;
               info_interest := interest |}) (streams m))
          (registry_reregister (info_stream stream) (info_token stream) interest (mio_poll m)).2 m
      else m
  | None => m
  end.

Definition mio_update_tun (tun_info : TunStreamInfo) (m : MioStreams) : io_result () * MioStreams :=
  let m := mio_close_stream TUN_STREAM_ID m in
  match match tun_info with NoTun => None | TunFd fd => Some (tun_new fd) end with
  | Some tun => register_stream TUN_STREAM_ID tun READABLE m
  | None => (Ok (), m)
  end.

Definition mio_get_tun_interface_state (last_interface_error : option InterfaceError) (m : MioStreams)
  : InterfaceState :=
  if get_stream_by_id (streams m) TUN_STREAM_ID then InterfaceUp last_interface_error
  else InterfaceDown last_interface_error.

#[global] Instance MioStreams_Streams : Streams MioStreams T := {
  get_stream := mio_get_stream;
  put_stream := mio_put_stream;
  open_new_tcp_stream := mio_open_new_tcp_stream;
  open_new_udp_stream := mio_open_new_udp_stream;
  close_stream := mio_close_stream;
  poll := mio_poll_streams;
  set_poll_enable_wait_for_write := mio_set_poll_enable_wait_for_write;
  update_tun := mio_update_tun;
  get_tun_interface_state := mio_get_tun_interface_state;
}.

(** ** Lemmas on the vector of streams *)

Section update_by_id.
Context (id : StreamId) (f : MioStreamInfo -> MioStreamInfo).
Context (f_id : forall s, info_id (f s) = info_id s).
Context (f_token : forall s, info_token (f s) = info_token s).

Lemma get_update_eq l : get_stream_by_id (update_by_id id f l) id = f <$> get_stream_by_id l id.
Proof.
  unfold get_stream_by_id, find. induction l as [|s l IH]; simpl; [done|].
  destruct (info_id s =? id)%Z eqn:E; simpl; [by rewrite f_id, E|by rewrite E].
Qed.

Lemma get_update_ne l id' :
  id <> id' -> get_stream_by_id (update_by_id id f l) id' = get_stream_by_id l id'.
Proof.
  intros Hne. unfold get_stream_by_id, find. induction l as [|s l IH]; simpl; [done|].
  destruct (Z.eqb_spec (info_id s) id) as [E|]; simpl; [|by rewrite IH].
  rewrite f_id. by rewrite (proj2 (Z.eqb_neq (info_id s) id')) by congruence.
Qed.

Lemma update_tokens l : info_token <$> update_by_id id f l = info_token <$> l.
Proof.
  induction l as [|s l IH]; simpl; [done|].
  destruct (info_id s =? id)%Z; csimpl; [by rewrite f_token|by rewrite IH].
Qed.
End update_by_id.

Lemma get_snoc l s id :
  get_stream_by_id (l ++ [s]) id =
  match get_stream_by_id l id with
  | Some x => Some x
  | None => if (info_id s =? id)%Z then Some s else None
  end.
Proof. unfold get_stream_by_id. by rewrite find_app. Qed.

Lemma get_retain_eq l id : get_stream_by_id (retain (fun s => negb (info_id s =? id)%Z) l) id = None.
Proof.
  apply find_None. intros s Hs. apply elem_of_retain in Hs as [Hn _]. by destruct (_ =? _)%Z.
Qed.

Lemma get_retain_ne l id id' :
  id <> id' ->
  get_stream_by_id (retain (fun s => negb (info_id s =? id)%Z) l) id' = get_stream_by_id l id'.
Proof.
  intros Hne. unfold get_stream_by_id, find, retain. induction l as [|s l IH]; simpl; [done|].
  destruct (Z.eqb_spec (info_id s) id) as [E|]; simpl; [|by rewrite IH].
  by rewrite (proj2 (Z.eqb_neq (info_id s) id')) by congruence.
Qed.

(** The stream set keeps what the connection loop is promised. *)
#[global] Instance MioStreams_laws : StreamsLaws MioStreams T.
Proof.
  split; simpl; unfold mio_get_stream, mio_put_stream, mio_close_stream; simpl.
  - intros id t t0 m. rewrite get_update_eq by done. by destruct (get_stream_by_id _ _).
  - intros id id' t m Hne. by rewrite get_update_ne by done.
  - intros id m. by rewrite get_retain_eq.
  - intros id id' m Hne. by rewrite get_retain_ne.
  - intros e m. unfold mio_get_tun_interface_state. by destruct (get_stream_by_id _ _).
Qed.

(** ** Tokens *)

(** A call on the stream set. *)
Inductive mio_step : MioStreams -> MioStreams -> Prop :=
| step_put id t m : mio_step m (mio_put_stream id t m)
| step_tcp id addr m r m' : mio_open_new_tcp_stream id addr m = (r, m') -> mio_step m m'
| step_udp id addr m r m' : mio_open_new_udp_stream id addr m = (r, m') -> mio_step m m'
| step_close id m : mio_step m (mio_close_stream id m)
| step_poll d m r m' : mio_poll_streams d m = (r, m') -> mio_step m m'
| step_interest id b m : mio_step m (mio_set_poll_enable_wait_for_write id b m)
| step_tun i m r m' : mio_update_tun i m = (r, m') -> mio_step m m'.

Definition tokens (m : MioStreams) : list Token := info_token <$> streams m.

(** Tokens are distinct, never the waker's, and below the next one. *)
Definition tokens_wf (m : MioStreams) : Prop :=
  NoDup (tokens m) /\ (forall t, t ∈ tokens m -> POLL_WAKER_TOKEN < t < next_token m)
  /\ POLL_WAKER_TOKEN < next_token m.

(** What every call does to the tokens: some are dropped, the next one may be used. *)
Definition tokens_step (m m' : MioStreams) : Prop :=
  (next_token m' = next_token m /\ sublist (tokens m') (tokens m))
  \/ (next_token m' = S (next_token m) /\ sublist (tokens m') (tokens m ++ [next_token m])).

Lemma register_tokens id t i m r m' :
  register_stream id t i m = (r, m') ->
  next_token m' = S (next_token m) /\ sublist (tokens m') (tokens m ++ [next_token m]).
Proof.
  unfold register_stream. destruct (registry_register _ _ _ _) as [[|e] p]; intros; simplify_eq/=.
  - split; [done|]. unfold tokens. simpl. by rewrite fmap_app.
  - split; [done|]. by apply sublist_inserts_r.
Qed.

Lemma close_tokens id m : sublist (tokens (mio_close_stream id m)) (tokens m).
Proof. apply fmap_sublist. apply retain_sublist. Qed.

Lemma mio_step_tokens m m' : mio_step m m' -> tokens_step m m'.
Proof.
  intros Hs. destruct Hs as [id t m|id a m r m' E|id a m r m' E|id m|d m r m' E|id b m|i m r m' E].
  - left. unfold tokens. simpl. by rewrite update_tokens.
  - unfold mio_open_new_tcp_stream in E. destruct (new_tcp_socket _ _) as [[t|e] f].
    + right. by apply register_tokens in E.
    + left. by simplify_eq/=.
  - unfold mio_open_new_udp_stream in E. destruct (new_udp_socket _ _) as [[t|e] f].
    + right. by apply register_tokens in E.
    + left. by simplify_eq/=.
  - left. split; [done|]. apply close_tokens.
  - left. unfold mio_poll_streams in E. destruct (poll_poll _ _) as [[|] p]; by simplify_eq/=.
  - left. unfold mio_set_poll_enable_wait_for_write. case_match; [case_decide|]; try done.
    unfold tokens. simpl. by rewrite update_tokens.
  - unfold mio_update_tun in E. destruct i; simplify_eq/=.
    + left. split; [done|]. apply close_tokens.
    + right. apply register_tokens in E as [Hn Hs]. split; [done|].
      etrans; [done|]. apply sublist_app; [apply close_tokens|done].
Qed.

Lemma tokens_step_wf m m' : tokens_step m m' -> tokens_wf m -> tokens_wf m'.
Proof.
  intros [[Hn Hs]|[Hn Hs]] (Hnd & Hb & Hpos); split_and!.
  - by eapply sublist_NoDup.
  - intros t Ht. rewrite Hn. apply Hb. by eapply elem_of_sublist.
  - lia.
  - eapply sublist_NoDup; [|done]. apply NoDup_app. split_and!; [done| |apply NoDup_singleton].
    intros t Ht. apply Hb in Ht. rewrite list_elem_of_singleton. lia.
  - intros t Ht. eapply elem_of_sublist in Ht; [|done].
    apply elem_of_app in Ht as [Ht|Ht]; [apply Hb in Ht; lia|].
    apply list_elem_of_singleton in Ht. lia.
  - lia.
Qed.

Definition mio_reachable (m : MioStreams) : Prop :=
  exists tun factory p m0, MioStreams_new tun factory p = Ok m0 /\ rtc mio_step m0 m.

Lemma mio_reachable_wf m : mio_reachable m -> tokens_wf m.
Proof.
  intros (tun & f & p & m0 & Hn & Hr).
  assert (tokens_wf m0) as Hwf0.
  { set (m1 := {| streams := []; mio_poll := p; next_token := POLL_WAKER_TOKEN + 1;
                  socket_factory := f |}).
    assert (tokens_wf m1) by (split_and!; [apply NoDup_nil_2|set_solver|simpl; unfold POLL_WAKER_TOKEN; lia]).
    unfold MioStreams_new in Hn. fold m1 in Hn. destruct tun as [t|]; [|by simplify_eq].
    destruct (register_stream _ _ _ m1) as [[|e] m2] eqn:E; simplify_eq.
    eapply tokens_step_wf; [|done]. right. by eapply register_tokens. }
  clear Hn. induction Hr as [|m1 m2 m3 Hs _ IH]; [done|].
  apply IH. eapply tokens_step_wf; [|done]. by apply mio_step_tokens.
Qed.

Lemma get_by_token m s :
  tokens_wf m -> s ∈ streams m -> get_stream_by_token (streams m) (info_token s) = Some s.
Proof.
  intros (Hnd & _ & _) Hs. unfold tokens in Hnd. revert Hnd Hs.
  unfold get_stream_by_token, find. generalize (streams m) as l.
  induction l as [|x l IH]; csimpl; intros Hnd Hs; [set_solver|].
  apply NoDup_cons in Hnd as [Hx Hnd]. apply elem_of_cons in Hs as [<-|Hs].
  - by rewrite Nat.eqb_refl.
  - rewrite (proj2 (Nat.eqb_neq (info_token x) (info_token s))); [by apply IH|].
    intros E. apply Hx. rewrite E. by apply list_elem_of_fmap_2.
Qed.

(** The result an event gives for a stream. *)
Definition event_result (s : MioStreamInfo) (ev : mio_event) : PollResult :=
  {| stream_id := info_id s; is_readable := ev_readable ev; is_writable := ev_writable ev;
     is_error := ev_error ev |}.

Lemma elem_of_route m r evs :
  tokens_wf m ->
  r ∈ route_events (streams m) evs <->
  exists ev s, ev ∈ evs /\ s ∈ streams m /\ info_token s = ev_token ev /\ r = event_result s ev.
Proof.
  intros Hwf. induction evs as [|ev evs IH]; simpl; [set_solver|].
  destruct (Nat.eqb_spec (ev_token ev) POLL_WAKER_TOKEN) as [E|E].
  - rewrite IH. split; [set_solver|]. intros (ev' & s & Hev & Hs & Ht & ->).
    apply elem_of_cons in Hev as [->|Hev]; [|set_solver].
    destruct Hwf as (_ & Hb & _). specialize (Hb (info_token s)).
    rewrite Ht, E in Hb. unfold tokens in Hb. destruct Hb as [Hlt _]; [|lia].
    rewrite <- E, <- Ht. by apply list_elem_of_fmap_2.
  - destruct (get_stream_by_token _ _) as [s|] eqn:Hg.
    + pose proof Hg as [Hs Ht%Nat.eqb_eq]%find_Some. rewrite elem_of_cons, IH. split.
      * intros [->|(ev' & s' & ? & ?)]; [by exists ev, s; set_solver|set_solver].
      * intros (ev' & s' & Hev & Hs' & Ht' & ->). apply elem_of_cons in Hev as [->|Hev].
        -- left. rewrite <- Ht', (get_by_token _ s') in Hg by done. by simplify_eq.
        -- right. set_solver.
    + rewrite IH. split; [set_solver|]. intros (ev' & s' & Hev & Hs' & Ht' & ->).
      apply elem_of_cons in Hev as [->|Hev]; [|set_solver].
      by rewrite <- Ht', (get_by_token _ s') in Hg.
Qed.

(** In every reachable stream set, a poll reports exactly the events of the
    registered streams: an event gives a result for the one stream that holds
    its token, with the event's flags, and the waker's event and events of
    unknown tokens give none. *)
Lemma mio_poll_routes (m m' : MioStreams) (deadline : option Duration) (rs : list PollResult) :
  mio_reachable m -> mio_poll_streams deadline m = (Ok rs, m') ->
  exists evs p, poll_poll deadline (mio_poll m) = (Ok evs, p)
  /\ forall r, r ∈ rs <->
       exists ev s, ev ∈ evs /\ s ∈ streams m /\ info_token s = ev_token ev /\ r = event_result s ev.
Proof.
  intros Hr. unfold mio_poll_streams. destruct (poll_poll deadline (mio_poll m)) as [[evs|e] p] eqn:E;
    intros; simplify_eq. exists evs, p. split; [done|].
  intros r. apply elem_of_route. by apply mio_reachable_wf.
Qed.

Lemma retired_stays t m m' :
  rtc mio_step m m' -> t < next_token m -> t ∉ tokens m -> t ∉ tokens m'.
Proof.
  induction 1 as [|m1 m2 m3 Hs%mio_step_tokens _ IH]; [done|]. intros Hlt Hni.
  apply IH; destruct Hs as [[Hn Hs]|[Hn Hs]]; try lia.
  - intros Ht. by eapply Hni, elem_of_sublist.
  - intros Ht. eapply elem_of_sublist in Ht; [|done]. apply elem_of_app in Ht as [Ht|Ht]; [done|].
    apply list_elem_of_singleton in Ht. lia.
Qed.

(** C20.  Tokens are never reused: once a stream has been closed, an event
    still queued for it is reported for no stream, whatever is opened
    afterwards, under the same identifier or another. *)
Theorem mio_no_stale_events (m m' : MioStreams) (s : MioStreamInfo) (ev : mio_event) :
  mio_reachable m -> s ∈ streams m -> ev_token ev = info_token s ->
  rtc mio_step (mio_close_stream (info_id s) m) m' ->
  route_events (streams m') [ev] = [].
Proof.
  intros Hr Hs Ht Hst. pose proof (mio_reachable_wf _ Hr) as Hwf. simpl.
  case_match; [done|]. destruct (get_stream_by_token _ _) as [s'|] eqn:Hg; [|done].
  apply find_Some in Hg as [Hs' E%Nat.eqb_eq]. exfalso.
  eapply (retired_stays (info_token s)); [done| | |].
  - simpl. apply Hwf. by apply list_elem_of_fmap_2.
  - unfold tokens. simpl. intros (x & Hx & Hin)%list_elem_of_fmap.
    apply elem_of_retain in Hin as [Hn Hin].
    pose proof (get_by_token _ _ Hwf Hs) as G1. rewrite Hx, (get_by_token _ x) in G1 by done.
    simplify_eq. by rewrite Z.eqb_refl in Hn.
  - rewrite <- Ht, <- E. by apply list_elem_of_fmap_2.
Qed.

(** Replacing the TUN device always closes the old one first.  The
    interface is up afterwards exactly when a device was given and its
    registration succeeded; after an error it is down.  No other stream is
    affected. *)
Lemma mio_update_tun_spec (i : TunStreamInfo) (m : MioStreams) (e : option InterfaceError) :
  let '(r, m') := mio_update_tun i m in
  mio_get_tun_interface_state e m' =
    (match i, r with
     | TunFd _, Ok _ => InterfaceUp e
     | _, _ => InterfaceDown e
     end)
  /\ mio_get_stream TUN_STREAM_ID m' =
      (match i, r with TunFd fd, Ok _ => Some (tun_new fd) | _, _ => None end)
  /\ forall id, id <> TUN_STREAM_ID -> mio_get_stream id m' = mio_get_stream id m.
Proof.
  unfold mio_update_tun, mio_get_tun_interface_state, mio_get_stream. destruct i as [|fd]; simpl.
  - rewrite get_retain_eq. split_and!; try done. intros id Hne. by rewrite get_retain_ne.
  - unfold register_stream. simpl.
    destruct (registry_register _ _ _ _) as [[u|er] p]; simpl; [|rewrite get_retain_eq; split_and!; try done;
      intros id Hne; by rewrite get_retain_ne].
    rewrite !get_snoc, get_retain_eq. simpl. rewrite Z.eqb_refl. split_and!; try done.
    intros id Hne. rewrite get_snoc, get_retain_ne by done. simpl.
    rewrite (proj2 (Z.eqb_neq TUN_STREAM_ID id)) by done. by destruct (get_stream_by_id _ _).
Qed.

(** A write interest is registered at most once per change, even when
    the registration fails: the stream set records the interest before it
    asks the poll, so repeating the request does nothing. *)
Lemma mio_interest_not_retried (id : StreamId) (b : bool) (m : MioStreams) :
  let m1 := mio_set_poll_enable_wait_for_write id b m in
  mio_set_poll_enable_wait_for_write id b m1 = m1.
Proof.
  cbv zeta. unfold mio_set_poll_enable_wait_for_write.
  destruct (get_stream_by_id (streams m) id) as [s|] eqn:E; [|by rewrite E].
  case_decide as Hd; [|by rewrite E; case_decide].
  simpl. rewrite get_update_eq by done. rewrite E. simpl. case_decide; [naive_solver|done].
Qed.
End mio.

(** ** A concrete poll *)

Record fake_poll := { fake_events : list mio_event }.

#[global] Instance fake_poll_MioPoll {T} : MioPoll fake_poll T := {
  registry_register _ _ _ p := (Ok (), p);
  registry_reregister _ _ _ p := (Ok (), p);
  registry_deregister _ p := (Ok (), p);
  poll_poll _ p := (Ok (fake_events p), {| fake_events := [] |});
}.

#[local] Instance fake_factory : MioSocketFactory () nat := {
  new_tcp_socket _ f := (Ok 7, f);
  new_udp_socket _ f := (Ok 8, f);
}.

Definition sample_ids : StreamIds.
Proof.
  refine {| TUN_STREAM_ID := 0; PCAP_STREAM_ID := -1; PRIVKEY_STREAM_ID := -2; CERT_STREAM_ID := -3;
            MUON_AUTH_STREAM_ID := -4 |}.
  by apply (bool_decide_unpack _).
Defined.

Definition sample_event (t : Token) : mio_event :=
  {| ev_token := t; ev_readable := true; ev_writable := false; ev_error := false |}.
Definition sample_addr : SocketAddr := {| sa_ip := V4 1; sa_port := 443 |}.

Definition sample_mio : @MioStreams fake_poll nat () :=
  {| streams := [{| info_id := 0; info_stream := 1; info_token := 1; info_interest := READABLE |}];
     mio_poll := {| fake_events := [sample_event 0; sample_event 1; sample_event 9] |};
     next_token := 2; socket_factory := () |}.

Lemma sample_mio_reachable : mio_reachable (H := sample_ids) (fun _ => 0) sample_mio.
Proof.
  exists (Some 1), (), (mio_poll sample_mio), sample_mio. split; [reflexivity|]. apply rtc_refl.
Defined.

Lemma mio_no_stale_events_witness :
  route_events (streams (mio_open_new_udp_stream 0 sample_addr (mio_close_stream 0 sample_mio)).2)
    [sample_event 1] = [].
Proof.
  apply (mio_no_stale_events (H := sample_ids) (fun _ => 0) sample_mio _
    {| info_id := 0; info_stream := 1; info_token := 1; info_interest := READABLE |}).
  - exact sample_mio_reachable.
  - left.
  - reflexivity.
  - apply rtc_once. eapply step_udp with (id := 0%Z) (addr := sample_addr). reflexivity.
Defined.
