(* ===== verification/SocketFactory.v ===== *)
(** * Creation of sockets on Unix

    [src/connection/mio/socket_factory_unix.rs]: the sequence of system calls
    that sets up a socket, with the callback that lets the platform protect
    the descriptor before any traffic.  The operating system answers each
    call; a log records the calls made. *)

From S2P Require Import Prelude Types Streams MioStreams.

Definition UDP_SEND_BUFFER_SIZE : Z := 3 * 1024 * 1024.
Definition UDP_RECV_BUFFER_SIZE : Z := 512 * 1024.
Definition TCP_SEND_BUFFER_SIZE : Z := 512 * 1024.
Definition TCP_RECV_BUFFER_SIZE : Z := 512 * 1024.

Inductive SockType := STREAM | DGRAM.

Inductive sys_call :=
| SysSocket (v6 : bool) (ty : SockType)
| SysSetNonblocking (fd : Z)
| SysSetSendBuffer (fd size : Z)
| SysSetRecvBuffer (fd size : Z)
| SysFdAvailable (fd : Z)
| SysBind (fd : Z) (addr : SocketAddr)
| SysConnect (fd : Z) (addr : SocketAddr)
| SysLocalAddr (fd : Z).

(** The operating system: [SysSocket] answers with the descriptor. *)
Class OperatingSystem (O : Type) := sys_answer : sys_call -> O -> io_result Z * O.

(** [Box<dyn MioStream>]. *)
Inductive MioStream (K : Type) :=
| MioTcp (t : TcpSocketStream K)
| MioUdp (t : UdpSocketStream K)
| MioTun (t : TunStreamUnix K)
| MioTunApple (t : TunStreamApple K).
Arguments MioTcp {K} t.
Arguments MioUdp {K} t.
Arguments MioTun {K} t.
Arguments MioTunApple {K} t.

(** [libc::AF_INET] and [libc::AF_INET6] of the Apple platforms. *)
Class AddressFamilies := { af_inet : byte; af_inet6 : byte }.

(** [TunStreamUnixType::new]: the TUN stream of the platform on an open file. *)
Definition TunStreamUnixType_new {K} (apple : bool) (file : K) : MioStream K :=
  if apple then MioTunApple (TunStreamApple_new file) else MioTun (TunStreamUnix_new file).

(** Apply an operation to the stream inside the box. *)
Definition box_result {T T' A} (box : T -> T') (r : outcome (A * T)) : outcome (A * T') :=
  match r with
  | Ret (a, t) => Ret (a, box t)
  | Panic => Panic
  | NoFuel => NoFuel
  end.

Section box.
Context {K : Type} `{Device K} {af : AddressFamilies} (fuel : nat).

(** The bound on the loops of a write of [data]: [fuel] iterations more than are
    needed on a device that makes progress. *)
Definition write_bound (data : list byte) (s : MioStream K) : nat :=
  fuel + match s with
         | MioTcp t => tcp_work t + length data + 1
         | _ => APPLE_TUN_PACKET_HEADER_LEN + length data
         end.

#[global] Instance MioStream_Stream : Stream (MioStream K) := {
  stream_read buf s :=
    match s with
    | MioTcp t => let '(r, t) := tcp_read buf t in (r, MioTcp t)
    | MioUdp t => let '(r, t) := udp_read buf t in (r, MioUdp t)
    | MioTun t => let '(r, t) := tun_unix_read buf t in (r, MioTun t)
    | MioTunApple t => let '(r, t) := tun_apple_read buf t in (r, MioTunApple t)
    end;
  stream_write data s :=
    match s with
    | MioTcp t => box_result MioTcp (tcp_write (write_bound data s) data t)
    | MioUdp t => box_result MioUdp (udp_write data t)
    | MioTun t => box_result MioTun (tun_unix_write (write_bound data s) data t)
    | MioTunApple t => box_result MioTunApple (tun_apple_write af_inet af_inet6 (write_bound data s) data t)
    end;
  stream_write_from_buffer s :=
    match s with
    | MioTcp t => box_result MioTcp (tcp_write_from_buffer (write_bound [] s) t)
    | MioUdp t => box_result MioUdp (udp_write_from_buffer t)
    | MioTun t => box_result MioTun (tun_unix_write_from_buffer t)
    | MioTunApple t => box_result MioTunApple (tun_apple_write_from_buffer t)
    end;
  stream_set_option _ s := s;
  stream_shutdown_write s :=
    match s with MioTcp t => MioTcp (tcp_shutdown_write t) | _ => s end;
}.

#[global] Instance MioStream_laws `{!DeviceLaws K} : StreamLaws (MioStream K).
Proof.
  split. intros buf [t|t|t|t] r buf' t'; simpl.
  - destruct (tcp_read buf t) as [[r0 b0] t0] eqn:E. intros; simplify_eq.
    exact (read_in_bounds (StreamLaws := TcpSocketStream_laws fuel) _ _ _ _ _ E).
  - destruct (udp_read buf t) as [[r0 b0] t0] eqn:E. intros; simplify_eq.
    exact (read_in_bounds _ _ _ _ _ E).
  - destruct (tun_unix_read buf t) as [[r0 b0] t0] eqn:E. intros; simplify_eq.
    exact (read_in_bounds (StreamLaws := TunStreamUnix_laws fuel) _ _ _ _ _ E).
  - destruct (tun_apple_read buf t) as [[r0 b0] t0] eqn:E. intros; simplify_eq.
    exact (read_in_bounds (StreamLaws := TunStreamApple_laws fuel af_inet af_inet6) _ _ _ _ _ E).
Qed.

Lemma box_no_panic {S S' A} (box : S -> S') (r : outcome (A * S)) : r <> Panic -> box_result box r <> Panic.
Proof. by destruct r as [[]| |]. Qed.

#[global] Instance MioStream_safe : StreamSafe (MioStream K).
Proof.
  split.
  - intros data [t|t|t|t]; apply box_no_panic; [apply tcp_flush_no_panic| |apply tun_unix_loop_no_panic|].
    + unfold udp_write. by destruct (dev_write _ _).
    + unfold tun_apple_write. repeat case_match; try done; apply tun_apple_loop_no_panic.
  - intros [t|t|t|t]; apply box_no_panic; [apply tcp_flush_no_panic|done..].
Qed.
End box.

Section factory.
Context {O K : Type} `{OperatingSystem O} (EINPROGRESS : Z) (socket_of : Z -> K).

(** Whether the platform gave an [on_socket_fd_available_callback], the
    operating system, and the calls made so far. *)
Record SocketFactoryUnix := { has_callback : bool; os : O; calls : list sys_call }.

(** Computations that stop at the first error, as with [?]. *)
Definition SysM (A : Type) : Type := SocketFactoryUnix -> io_result A * SocketFactoryUnix.

#[local] Instance SysM_ret : MRet SysM := fun A a f => (Ok a, f).
#[local] Instance SysM_bind : MBind SysM := fun A B k m f =>
  match m f with
  | (Ok a, f') => k a f'
  | (Err e, f') => (Err e, f')
  end.

Definition sys (c : sys_call) : SysM Z := fun f =>
  let '(r, o) := sys_answer c (os f) in
  (r, {| has_callback := has_callback f; os := o; calls := calls f ++ [c] |}).

Definition notify_fd (fd : Z) : SysM () := fun f =>
  (Ok (), if has_callback f
          then {| has_callback := true; os := os f; calls := calls f ++ [SysFdAvailable fd] |}
          else f).

(** [if let Err(e) = connect_res && e is not EINPROGRESS { return Err(e) }]. *)
Definition in_progress_ok (m : SysM Z) : SysM () := fun f =>
  match m f with
  | (Err e, f') => if decide (raw_os_error e = Some EINPROGRESS) then (Ok (), f') else (Err e, f')
  | (Ok _, f') => (Ok (), f')
  end.

Definition is_v6 (addr : SocketAddr) : bool := match sa_ip addr with V4 _ => false | V6 _ => true end.

(** 0.0.0.0:0 or [::]:0. *)
Definition bind_addr (addr : SocketAddr) : SocketAddr :=
  {| sa_ip := match sa_ip addr with V4 _ => V4 0 | V6 _ => V6 0 end; sa_port := 0 |}.

Definition unix_new_tcp_socket (addr : SocketAddr) : SysM (MioStream K) :=
  sock ← sys (SysSocket (is_v6 addr) STREAM);
  sys (SysSetNonblocking sock) ;;
  sys (SysSetSendBuffer sock TCP_SEND_BUFFER_SIZE) ;;
  sys (SysSetRecvBuffer sock TCP_RECV_BUFFER_SIZE) ;;
  notify_fd sock ;;
  in_progress_ok (sys (SysConnect sock addr)) ;;
  mret (MioTcp (TcpSocketStream_new (socket_of sock))).

(** [UdpSocketStream::new]: the local address is only logged, but has to be had. *)
Definition UdpSocketStream_new (sock : Z) : SysM (UdpSocketStream K) :=
  sys (SysLocalAddr sock) ;;
  mret {| udp_sock := socket_of sock |}.

Definition unix_new_udp_socket (addr : SocketAddr) : SysM (MioStream K) :=
  sock ← sys (SysSocket (is_v6 addr) DGRAM);
  sys (SysSetSendBuffer sock UDP_SEND_BUFFER_SIZE) ;;
  sys (SysSetRecvBuffer sock UDP_RECV_BUFFER_SIZE) ;;
  notify_fd sock ;;
  sys (SysBind sock (bind_addr addr)) ;;
  sys (SysSetNonblocking sock) ;;
  sys (SysConnect sock addr) ;;
  t ← UdpSocketStream_new sock;
  mret (MioUdp t).

#[global] Instance SocketFactoryUnix_factory : MioSocketFactory SocketFactoryUnix (MioStream K) := {
  new_tcp_socket := unix_new_tcp_socket;
  new_udp_socket := unix_new_udp_socket;
}.

(** ** The order of the calls *)

Definition tcp_calls (cb : bool) (addr : SocketAddr) (fd : Z) : list sys_call :=
  [SysSocket (is_v6 addr) STREAM; SysSetNonblocking fd; SysSetSendBuffer fd TCP_SEND_BUFFER_SIZE;
   SysSetRecvBuffer fd TCP_RECV_BUFFER_SIZE]
  ++ (if cb then [SysFdAvailable fd] else []) ++ [SysConnect fd addr].

Definition udp_calls (cb : bool) (addr : SocketAddr) (fd : Z) : list sys_call :=
  [SysSocket (is_v6 addr) DGRAM; SysSetSendBuffer fd UDP_SEND_BUFFER_SIZE;
   SysSetRecvBuffer fd UDP_RECV_BUFFER_SIZE]
  ++ (if cb then [SysFdAvailable fd] else [])
  ++ [SysBind fd (bind_addr addr); SysSetNonblocking fd; SysConnect fd addr; SysLocalAddr fd].

(** [m] logs a prefix of [l], all of it when it succeeds. *)
Definition follows {A} (m : SysM A) (cb : bool) (l : list sys_call) (ok : A -> Prop) : Prop :=
  forall f, has_callback f = cb ->
    let '(r, f') := m f in
    has_callback f' = cb
    /\ exists l1 l2, l = l1 ++ l2 /\ calls f' = calls f ++ l1
       /\ match r with Ok a => l2 = [] /\ ok a | Err _ => True end.

Lemma follows_ret {A} (a : A) cb (ok : A -> Prop) : ok a -> follows (mret a) cb [] ok.
Proof. intros Ha f Hf. simpl. split; [done|]. exists [], []. rewrite (app_nil_r (calls f)). done. Qed.

Lemma follows_bind {A B} (m : SysM A) (k : A -> SysM B) cb l1 l2 ok1 ok2 :
  follows m cb l1 ok1 -> (forall a, ok1 a -> follows (k a) cb l2 ok2) ->
  follows (mbind k m) cb (l1 ++ l2) ok2.
Proof.
  intros Hm Hk f Hf. unfold mbind, SysM_bind. specialize (Hm f Hf).
  destruct (m f) as [[a|e] f1]; destruct Hm as (Hf1 & x1 & x2 & -> & Hc & Hr).
  - destruct Hr as [-> Ha]. specialize (Hk a Ha f1 Hf1). destruct (k a f1) as [r f2].
    destruct Hk as (Hf2 & y1 & y2 & -> & Hc2 & Hr2). split; [done|].
    exists (x1 ++ y1), y2. rewrite app_nil_r, app_assoc. split; [done|]. split; [|done].
    by rewrite Hc2, Hc, app_assoc.
  - split; [done|]. exists x1, (x2 ++ l2). by rewrite app_assoc.
Qed.

Lemma follows_sys c cb : follows (sys c) cb [c] (fun _ => True).
Proof.
  intros f Hf. unfold sys. destruct (sys_answer c (os f)) as [r o]. simpl.
  split; [done|]. exists [c], []. by destruct r.
Qed.

Lemma follows_notify fd cb :
  follows (notify_fd fd) cb (if cb then [SysFdAvailable fd] else []) (fun _ => True).
Proof.
  intros f Hf. unfold notify_fd. rewrite Hf. destruct cb; simpl; split; try done.
  - by exists [SysFdAvailable fd], [].
  - exists [], []. by rewrite (app_nil_r (calls f)).
Qed.

Lemma follows_in_progress m cb l :
  follows m cb l (fun _ => True) ->
  (forall f, exists c, calls (m f).2 = calls f ++ [c]) -> length l = 1 ->
  follows (in_progress_ok m) cb l (fun _ => True).
Proof.
  intros Hm Hone Hl f Hf. specialize (Hm f Hf). destruct (Hone f) as [c Hc].
  unfold in_progress_ok. destruct (m f) as [[a|e] f1]; destruct Hm as (Hf1 & x1 & x2 & -> & Hx & Hr).
  - split; [done|]. by exists x1, x2.
  - simpl in Hc. rewrite Hx in Hc. apply app_inv_head in Hc as ->. rewrite length_app in Hl.
    destruct x2; [|simpl in Hl; lia]. case_decide; (split; [done|]); by exists [c], [].
Qed.

Ltac follow :=
  repeat first
    [ apply follows_ret; done
    | eapply (follows_bind _ _ _ [_]); [apply follows_sys|intros ? _]
    | eapply follows_bind; [apply follows_notify|intros ? _]
    | eapply (follows_bind _ _ _ [_]);
        [apply follows_in_progress; [apply follows_sys| |done]|intros ? _] ].

(** Everything after the descriptor is known. *)
Lemma follows_tcp_rest cb addr fd :
  follows (sys (SysSetNonblocking fd) ;; sys (SysSetSendBuffer fd TCP_SEND_BUFFER_SIZE) ;;
           sys (SysSetRecvBuffer fd TCP_RECV_BUFFER_SIZE) ;; notify_fd fd ;;
           in_progress_ok (sys (SysConnect fd addr)) ;;
           mret (MioTcp (TcpSocketStream_new (socket_of fd)))) cb
    (tail (tcp_calls cb addr fd)) (fun s => s = MioTcp (TcpSocketStream_new (socket_of fd))).
Proof.
  unfold tcp_calls. simpl.
  follow. intros f. unfold sys. destruct (sys_answer _ _). by eexists.
Qed.

Lemma follows_udp_rest cb addr fd :
  follows (sys (SysSetSendBuffer fd UDP_SEND_BUFFER_SIZE) ;;
           sys (SysSetRecvBuffer fd UDP_RECV_BUFFER_SIZE) ;; notify_fd fd ;;
           sys (SysBind fd (bind_addr addr)) ;; sys (SysSetNonblocking fd) ;;
           sys (SysConnect fd addr) ;;
           (t ← UdpSocketStream_new fd; mret (MioUdp t))) cb
    (tail (udp_calls cb addr fd)) (fun s => s = MioUdp {| udp_sock := socket_of fd |}).
Proof.
  unfold udp_calls. simpl. follow.
  eapply (follows_bind _ _ _ [SysLocalAddr fd] [] (fun t => t = {| udp_sock := socket_of fd |})).
  - unfold UdpSocketStream_new. follow.
  - intros t ->. follow.
Qed.

Lemma socket_then_rest {A} c (k : Z -> SysM A) (l : Z -> list sys_call) (ok : Z -> A -> Prop) f :
  (forall fd, follows (k fd) (has_callback f) (l fd) (ok fd)) ->
  let '(r, f') := (sys c ≫= k) f in
  exists fd done, calls f' = calls f ++ done /\ done `prefix_of` c :: l fd
    /\ match r with Ok a => done = c :: l fd /\ ok fd a | Err _ => True end.
Proof.
  intros Hk. pose proof (follows_sys c (has_callback f) f eq_refl) as Hs.
  unfold mbind, SysM_bind. destruct (sys c f) as [[fd|e] f1].
  - destruct Hs as (Hf1 & x1 & x2 & Hx & Hc & -> & _). rewrite app_nil_r in Hx. subst x1.
    specialize (Hk fd f1 Hf1). destruct (k fd f1) as [r f2].
    destruct Hk as (_ & y1 & y2 & Hy & Hc2 & Hr). exists fd, (c :: y1). split.
    + by rewrite Hc2, Hc, <- app_assoc.
    + rewrite Hy. split; [by exists y2|]. destruct r; [|done]. destruct Hr as [-> Hr].
      by rewrite app_nil_r.
  - destruct Hs as (_ & x1 & x2 & Hx & Hc & _). exists 0%Z, x1. split; [done|].
    split; [|done]. exists (x2 ++ l 0%Z). by rewrite app_assoc, <- Hx.
Qed.

(** Sockets are set up in a fixed order: whatever the system answers, the
    calls made are an initial part of the sequence that ends with [connect],
    all of it when a socket is returned.  When the platform registered a
    callback, the descriptor is handed to it after the socket options are
    set and before [bind] and [connect], so no packet leaves an unprotected
    socket. *)
Lemma socket_setup_order (addr : SocketAddr) (f : SocketFactoryUnix) :
  (let '(r, f') := unix_new_tcp_socket addr f in
   exists fd done, calls f' = calls f ++ done
     /\ done `prefix_of` tcp_calls (has_callback f) addr fd
     /\ match r with
        | Ok s => done = tcp_calls (has_callback f) addr fd
                  /\ s = MioTcp (TcpSocketStream_new (socket_of fd))
        | Err _ => True
        end)
  /\ (let '(r, f') := unix_new_udp_socket addr f in
      exists fd done, calls f' = calls f ++ done
        /\ done `prefix_of` udp_calls (has_callback f) addr fd
        /\ match r with
           | Ok s => done = udp_calls (has_callback f) addr fd
                     /\ s = MioUdp {| udp_sock := socket_of fd |}
           | Err _ => True
           end).
Proof.
  split.
  - exact (socket_then_rest (SysSocket (is_v6 addr) STREAM) _ _ _ f
             (follows_tcp_rest (has_callback f) addr)).
  - exact (socket_then_rest (SysSocket (is_v6 addr) DGRAM) _ _ _ f
             (follows_udp_rest (has_callback f) addr)).
Qed.
End factory.
