(* ===== verification/PvpnClient.v ===== *)
(** * The VPN client behind its interface

    [src/connection/pvpn_client.rs]: the trait [PvpnClient] the connection
    loop is written against, and its implementation over the [pvpnclient]
    library.  The library is an interface here: each of its calls returns a
    value together with what the caller has to do next. *)

From S2P Require Import Prelude Types Conversions.

(** ** The trait *)

(** A call that takes the client and returns it, possibly with a value.
    [monotonic_now] reads a clock, which advances; [set_current_time] reads the
    system's time too, which panics where the call answers [None]. *)
Class PvpnClient (C : Type) := {
  set_current_time : C -> option ((Instant * Instant) * C);
  need_pull : C -> bool;
  peer_add : Peer -> C -> C;
  peer_remove : PeerAddr -> C -> C;
  pull : C -> option Action * C;
  push : Action -> C -> C;
  push_error : StreamId -> ErrorKind -> C -> C;
  get_tunnel_info : C -> option TunnelInfo * C;
  wakeup_deadline : C -> option Duration;
  notify_network_change : C -> C;
  notify_network_down : C -> C;
  get_stats : C -> option TunnelStats * C;
  monotonic_now : C -> Instant * C;
  set_packet_capture_enabled : bool -> C -> Z * C;
  set_settings : Settings -> C -> C;
  pull_local_agent : C -> option LocalAgentMessage * C;
  push_local_agent : LocalAgentAction -> C -> C;
}.

(** The calls that neither push an action nor configure peers. *)
Inductive plain_step {C} `{PvpnClient C} : C -> C -> Prop :=
| cs_time c t c' : set_current_time c = Some (t, c') -> plain_step c c'
| cs_pull c : plain_step c (pull c).2
| cs_push_error id k c : plain_step c (push_error id k c)
| cs_tunnel_info c : plain_step c (get_tunnel_info c).2
| cs_network_change c : plain_step c (notify_network_change c)
| cs_network_down c : plain_step c (notify_network_down c)
| cs_stats c : plain_step c (get_stats c).2
| cs_now c : plain_step c (monotonic_now c).2
| cs_capture b c : plain_step c (set_packet_capture_enabled b c).2
| cs_settings st c : plain_step c (set_settings st c)
| cs_pull_agent c : plain_step c (pull_local_agent c).2
| cs_push_agent a c : plain_step c (push_local_agent a c).

(** The calls that do not configure peers. *)
Inductive client_step {C} `{PvpnClient C} : C -> C -> Prop :=
| cs_plain c c' : plain_step c c' -> client_step c c'
| cs_push a c : client_step c (push a c).

(** What the loop relies on about peers: they are keyed by address, adding
    replaces, and no other call changes them. *)
Class PvpnClientPeers (C : Type) `{PvpnClient C} := {
  peer_map : C -> gmap PeerAddr Peer;
  peer_map_add p c : peer_map (peer_add p c) = <[p_addr p := p]> (peer_map c);
  peer_map_remove a c : peer_map (peer_remove a c) = delete a (peer_map c);
  peer_map_step c c' : client_step c c' -> peer_map c' = peer_map c;
}.

(** Every call of the trait. *)
Inductive any_client_step {C} `{PvpnClient C} : C -> C -> Prop :=
| acs_step c c' : client_step c c' -> any_client_step c c'
| acs_add p c : any_client_step c (peer_add p c)
| acs_remove a c : any_client_step c (peer_remove a c).

(** ** Clocks

    A clock is read through a shared reference; each reading moves it on.  A
    monotonic clock always has an answer; reading the system's time may panic,
    which is [None]. *)
Class InstantFactory (K : Type) := instant_factory_now : K -> Instant * K.
Class Clock (K : Type) := clock_now : K -> option (Instant * K).

(** Some reading of the clock, after others, panics. *)
Definition clock_read {K} `{Clock K} (k k' : K) : Prop := exists t, clock_now k = Some (t, k').
Definition clock_fails {K} `{Clock K} (k : K) : Prop := exists k', rtc clock_read k k' /\ clock_now k' = None.

(** The time cannot be told after some calls on the client. *)
Definition time_fails {C} `{PvpnClient C} (c : C) : Prop :=
  exists c', rtc any_client_step c c' /\ set_current_time c' = None.

Lemma clock_fails_reads {K} `{Clock K} (k k' : K) : rtc clock_read k k' -> clock_fails k' -> clock_fails k.
Proof. intros Hr (k1 & Hs & E). exists k1. split; [by etrans|done]. Qed.

Lemma clock_fails_now {K} `{Clock K} (k : K) : clock_now k = None -> clock_fails k.
Proof. intros E. by exists k. Qed.

Lemma time_fails_calls {C} `{PvpnClient C} (c c' : C) : rtc any_client_step c c' -> time_fails c' -> time_fails c.
Proof. intros Hr (c1 & Hs & E). exists c1. split; [by etrans|done]. Qed.

Lemma time_fails_now {C} `{PvpnClient C} (c : C) : set_current_time c = None -> time_fails c.
Proof. intros E. by exists c. Qed.

(** ** The library *)

Inductive Task := NeedPull | OtherTask.

Record PvpnReturn (A : Type) := { value : A; task : Task; ret_deadline : option Duration }.
Arguments value {A} _.
Arguments task {A} _.
Arguments ret_deadline {A} _.

Class PvpnLibrary (L : Type) := {
  lib_set_time : Instant -> Instant -> L -> PvpnReturn () * L;
  lib_add_peer : Peer -> L -> PvpnReturn () * L;
  lib_remove_peer : PeerAddr -> L -> PvpnReturn () * L;
  lib_pull : L -> PvpnReturn (option Action) * L;
  lib_pull_local_agent : L -> option LocalAgentMessage * L;
  lib_push_local_agent : LocalAgentAction -> L -> PvpnReturn () * L;
  lib_push : Action -> L -> PvpnReturn (result () string) * L;
  lib_notify_network_change : L -> PvpnReturn () * L;
  lib_tunnel_info : L -> PvpnReturn (option TunnelInfo) * L;
  lib_tunnel_stats : L -> PvpnReturn (option TunnelStats) * L;
  lib_set_settings : Settings -> L -> PvpnReturn () * L;
  lib_capture_packet : L -> PvpnReturn Z * L;
  lib_stop_capture_packet : L -> PvpnReturn Z * L;
}.

(** ** The implementation *)

Section impl.
Context {L KM KR : Type} `{PvpnLibrary L} {clock_m : InstantFactory KM} {clock_r : Clock KR}.

Record PvpnClientImpl := {
  c : L;
  c_need_pull : bool;
  c_wakeup_deadline : option Duration;
  monotonic_factory : KM;
  realtime_factory : KR;
}.

(** [handle_result], storing the library's new state as well. *)
Definition handle_result {A} (result : PvpnReturn A) (l : L) (s : PvpnClientImpl) : PvpnClientImpl :=
  {| c := l;
     c_need_pull := match task result with NeedPull => true | OtherTask => false end;
     c_wakeup_deadline := ret_deadline result;
     monotonic_factory := monotonic_factory s;
     realtime_factory := realtime_factory s |}.

(** [let result = self.c.op(..); self.handle_result(&result)]. *)
Definition call {A} (op : L -> PvpnReturn A * L) (s : PvpnClientImpl) : A * PvpnClientImpl :=
  let '(result, l) := op (c s) in (value result, handle_result result l s).

Definition with_clocks (km : KM) (kr : KR) (s : PvpnClientImpl) : PvpnClientImpl :=
  {| c := c s; c_need_pull := c_need_pull s; c_wakeup_deadline := c_wakeup_deadline s;
     monotonic_factory := km; realtime_factory := kr |}.

(** [realtime_factory.now()] panics before the epoch. *)
Definition impl_set_current_time (s : PvpnClientImpl) : option ((Instant * Instant) * PvpnClientImpl) :=
  let '(monotonic_now, km) := instant_factory_now (monotonic_factory s) in
  '(realtime_now, kr) ← clock_now (realtime_factory s);
  let '(_, s) := call (lib_set_time monotonic_now realtime_now) (with_clocks km kr s) in
  Some ((monotonic_now, realtime_now), s).

Definition impl_push (action : Action) (s : PvpnClientImpl) : PvpnClientImpl :=
  (call (lib_push action) s).2.

Definition impl_push_error (id : StreamId) (error_kind : ErrorKind) (s : PvpnClientImpl)
  : PvpnClientImpl :=
  impl_push (Action_error id (error_kind_to_socket_err error_kind)) s.

Definition impl_monotonic_now (s : PvpnClientImpl) : Instant * PvpnClientImpl :=
  let '(now, km) := instant_factory_now (monotonic_factory s) in (now, with_clocks km (realtime_factory s) s).

Definition impl_pull_local_agent (s : PvpnClientImpl) : option LocalAgentMessage * PvpnClientImpl :=
  let '(m, l) := lib_pull_local_agent (c s) in
  (m, {| c := l; c_need_pull := c_need_pull s; c_wakeup_deadline := c_wakeup_deadline s;
         monotonic_factory := monotonic_factory s; realtime_factory := realtime_factory s |}).

Definition impl_set_packet_capture_enabled (enabled : bool) (s : PvpnClientImpl) : Z * PvpnClientImpl :=
  if enabled then call lib_capture_packet s else call lib_stop_capture_packet s.

#[global] Instance PvpnClientImpl_PvpnClient : PvpnClient PvpnClientImpl := {
  set_current_time := impl_set_current_time;
  need_pull := c_need_pull;
  peer_add p s := (call (lib_add_peer p) s).2;
  peer_remove a s := (call (lib_remove_peer a) s).2;
  pull s := call lib_pull s;
  push := impl_push;
  push_error := impl_push_error;
  get_tunnel_info s := call lib_tunnel_info s;
  wakeup_deadline := c_wakeup_deadline;
  notify_network_change s := (call lib_notify_network_change s).2;
  notify_network_down s := s;
  get_stats s := call lib_tunnel_stats s;
  monotonic_now := impl_monotonic_now;
  set_packet_capture_enabled := impl_set_packet_capture_enabled;
  set_settings st s := (call (lib_set_settings st) s).2;
  pull_local_agent := impl_pull_local_agent;
  push_local_agent a s := (call (lib_push_local_agent a) s).2;
}.

(** [PvpnClientImpl::new]: [build] stands for the library's builder, with or
    without a local agent, and [muon_app] for [muon::App::new]. *)
Section new.
Context {Key Cert Auth App Seed : Type}.
Variable muon_app : string -> string -> result App string.
Variable build_local_agent :
  Seed -> Instant -> Instant -> option Key -> option Cert -> App -> option Auth -> L.
Variable build_no_local_agent : Seed -> Instant -> Instant -> list byte -> L.

Definition PvpnClientImpl_new (monotonic : KM) (realtime : KR) (mode : PvpnClientMode Key Cert Auth)
    (seed : Seed) : outcome (io_result PvpnClientImpl) :=
  let '(mono_now, monotonic) := instant_factory_now monotonic in
  match clock_now realtime with
  | None => Panic
  | Some (real_now, realtime) =>
      let ret client := {| c := client; c_need_pull := true; c_wakeup_deadline := None;
                           monotonic_factory := monotonic; realtime_factory := realtime |} in
      match mode with
      | ModeLocalAgent app_version user_agent private_key certificate auth =>
          match muon_app app_version user_agent with
          | Err e => Ret (Err (io_error_new OtherKind e))
          | Ok app => Ret (Ok (ret (build_local_agent seed mono_now real_now private_key certificate app auth)))
          end
      | ModeNoLocalAgent wg_private_key =>
          Ret (Ok (ret (build_no_local_agent seed mono_now real_now wg_private_key)))
      end
  end.
End new.
End impl.
Arguments PvpnClientImpl L KM KR : clear implicits.

(** The client's time cannot be told only because its realtime clock panics. *)
Section impl_time.
Context {L KM KR : Type} `{PvpnLibrary L} {clock_m : InstantFactory KM} {clock_r : Clock KR}.
Abbreviation impl := (PvpnClientImpl L KM KR).

Lemma set_time_call (s s' : impl) t :
  set_current_time s = Some (t, s') ->
  exists m r km kr, s' = (call (lib_set_time m r) (with_clocks km kr s)).2.
Proof.
  simpl. unfold impl_set_current_time. destruct (instant_factory_now _) as [m km].
  destruct (clock_now _) as [[r kr]|]; simpl; [|done]. destruct (call _ _) as [u s1] eqn:E. intros [= <- <-].
  exists m, r, km, kr. by rewrite E.
Qed.

Lemma call_realtime {A} (op : L -> PvpnReturn A * L) (s : impl) :
  realtime_factory (call op s).2 = realtime_factory s.
Proof. unfold call. by destruct (op (c s)). Qed.

(** A call of the trait reads the realtime clock, or leaves it alone. *)
Lemma client_step_realtime (s s' : impl) :
  any_client_step s s' -> rtc clock_read (realtime_factory s) (realtime_factory s').
Proof.
  intros [s1 s2 [s3 s4 Hs|]| |]; simpl; unfold impl_push; rewrite ?call_realtime; try done.
  destruct Hs as [c0 t c1 E|c0|c0|c0|c0|c0|c0|c0|b c0|c0|c0|c0]; simpl; unfold impl_push_error, impl_push;
    rewrite ?call_realtime; try done.
  - simpl in E. unfold impl_set_current_time in E. destruct (instant_factory_now _) as [m km].
    destruct (clock_now (realtime_factory c0)) as [[r kr]|] eqn:Er; simpl in E; [|done].
    destruct (call _ _) as [u s5] eqn:Ec. injection E as _ <-. apply rtc_once. exists r.
    pose proof (call_realtime (lib_set_time m r) (with_clocks km kr c0)) as Hc. rewrite Ec in Hc.
    simpl in Hc. by rewrite Hc.
  - unfold impl_monotonic_now. by destruct (instant_factory_now _).
  - unfold impl_set_packet_capture_enabled. destruct b; by rewrite call_realtime.
  - unfold impl_pull_local_agent. by destruct (lib_pull_local_agent _).
Qed.

Lemma impl_time_fails (s : impl) : time_fails s -> clock_fails (realtime_factory s).
Proof.
  intros (s' & Hr & E). exists (realtime_factory s'). split.
  - clear E. induction Hr as [|x y z Hs _ IH]; [done|]. etrans; [by apply client_step_realtime|exact IH].
  - simpl in E. unfold impl_set_current_time in E. destruct (instant_factory_now _) as [m km].
    destruct (clock_now (realtime_factory s')) as [[r kr]|]; [|done]. simpl in E. by destruct (call _ _).
Qed.
End impl_time.

(** ** A library that remembers its answers *)

Definition answer : Type := Task * option Duration.

Definition log_call {L A} (op : L -> PvpnReturn A * L) (s : L * list answer)
  : PvpnReturn A * (L * list answer) :=
  let '(r, l) := op s.1 in (r, (l, s.2 ++ [(task r, ret_deadline r)])).

#[global] Instance logged_library {L} `{PvpnLibrary L} : PvpnLibrary (L * list answer) := {
  lib_set_time m r := log_call (lib_set_time m r);
  lib_add_peer p := log_call (lib_add_peer p);
  lib_remove_peer a := log_call (lib_remove_peer a);
  lib_pull := log_call lib_pull;
  lib_pull_local_agent s := let '(m, l) := lib_pull_local_agent s.1 in (m, (l, s.2));
  lib_push_local_agent a := log_call (lib_push_local_agent a);
  lib_push a := log_call (lib_push a);
  lib_notify_network_change := log_call lib_notify_network_change;
  lib_tunnel_info := log_call lib_tunnel_info;
  lib_tunnel_stats := log_call lib_tunnel_stats;
  lib_set_settings st := log_call (lib_set_settings st);
  lib_capture_packet := log_call lib_capture_packet;
  lib_stop_capture_packet := log_call lib_stop_capture_packet;
}.

Section flags.
Context {L KM KR : Type} `{PvpnLibrary L} {clock_m : InstantFactory KM} {clock_r : Clock KR}.

(** The cached flags are those of the library's last answer. *)
Definition flags_current (s : PvpnClientImpl (L * list answer) KM KR) : Prop :=
  match last (c s).2 with
  | Some (t, d) => need_pull s = (match t with NeedPull => true | OtherTask => false end)
                   /\ wakeup_deadline s = d
  | None => need_pull s = true /\ wakeup_deadline s = None
  end.

Lemma flags_call {A} (op : L -> PvpnReturn A * L) (s : PvpnClientImpl (L * list answer) KM KR) :
  flags_current (call (log_call op) s).2.
Proof.
  unfold call, log_call, flags_current. destruct (op (c s).1) as [r l]. simpl.
  by rewrite last_snoc.
Qed.

Lemma flags_step s s' : any_client_step s s' -> flags_current s -> flags_current s'.
Proof.
  intros [s1 s2 [s3 s4 Hs|]| |]; intros Hf; [|simpl; apply flags_call..].
  destruct Hs as [c0 t c1 E|c0|c0|c0|c0|c0|c0|c0|b c0|c0|c0|c0]; simpl; try apply flags_call; try done.
  - apply set_time_call in E as (m & r & km & kr & ->). apply flags_call.
  - by unfold impl_monotonic_now; destruct (instant_factory_now _).
  - unfold impl_set_packet_capture_enabled. destruct b; apply flags_call.
  - unfold impl_pull_local_agent. destruct (lib_pull_local_agent (c c0)) as [m l] eqn:E.
    simpl in E. destruct (lib_pull_local_agent (c c0).1). by simplify_eq/=.
Qed.

Context {Key Cert Auth App Seed : Type} (muon_app : string -> string -> result App string).
Context (build_la : Seed -> Instant -> Instant -> option Key -> option Cert -> App -> option Auth -> L).
Context (build_no : Seed -> Instant -> Instant -> list byte -> L).

(** A client built over a library that has not been called yet. *)
Definition new_logged (km : KM) (kr : KR) (mode : PvpnClientMode Key Cert Auth) (seed : Seed)
  : outcome (io_result (PvpnClientImpl (L * list answer) KM KR)) :=
  PvpnClientImpl_new muon_app (fun sd m r k c ap au => (build_la sd m r k c ap au, []))
    (fun sd m r k => (build_no sd m r k, [])) km kr mode seed.

(** The client the loop talks to always tells the truth about the
    library: after any sequence of calls, whether to pull and when to wake
    up are those of the library's most recent answer; before any answer the
    client asks to be pulled and sets no deadline. *)
Lemma client_flags_follow_library (km : KM) (kr : KR) (mode : PvpnClientMode Key Cert Auth)
    (seed : Seed) (s0 s : PvpnClientImpl (L * list answer) KM KR) :
  new_logged km kr mode seed = Ret (Ok s0) -> rtc any_client_step s0 s -> flags_current s.
Proof.
  intros Hn Hr. assert (flags_current s0) as H0.
  { unfold new_logged, PvpnClientImpl_new in Hn. repeat (case_match; simplify_eq/=); done. }
  clear Hn. induction Hr as [|s1 s2 s3 Hs _ IH]; [done|]. apply IH. by eapply flags_step.
Qed.
End flags.

(** ** Peers *)

Inductive lib_step {L} `{PvpnLibrary L} : L -> L -> Prop :=
| ls_time m r l : lib_step l (lib_set_time m r l).2
| ls_pull l : lib_step l (lib_pull l).2
| ls_pull_agent l : lib_step l (lib_pull_local_agent l).2
| ls_push_agent a l : lib_step l (lib_push_local_agent a l).2
| ls_push a l : lib_step l (lib_push a l).2
| ls_network l : lib_step l (lib_notify_network_change l).2
| ls_info l : lib_step l (lib_tunnel_info l).2
| ls_stats l : lib_step l (lib_tunnel_stats l).2
| ls_settings st l : lib_step l (lib_set_settings st l).2
| ls_capture l : lib_step l (lib_capture_packet l).2
| ls_stop_capture l : lib_step l (lib_stop_capture_packet l).2.

(** The library's documentation of its peer set. *)
Class PvpnLibraryPeers (L : Type) `{PvpnLibrary L} := {
  lib_peers : L -> gmap PeerAddr Peer;
  lib_peers_add p l : lib_peers (lib_add_peer p l).2 = <[p_addr p := p]> (lib_peers l);
  lib_peers_remove a l : lib_peers (lib_remove_peer a l).2 = delete a (lib_peers l);
  lib_peers_step l l' : lib_step l l' -> lib_peers l' = lib_peers l;
}.

Section impl_peers.
Context {L KM KR : Type} `{PvpnLibraryPeers L} {clock_m : InstantFactory KM} {clock_r : Clock KR}.

Lemma call_c {A} (op : L -> PvpnReturn A * L) (s : PvpnClientImpl L KM KR) :
  c (call op s).2 = (op (c s)).2.
Proof. unfold call. by destruct (op (c s)). Qed.

(** A call of the client is a call of the library, or none. *)
Lemma client_step_lib (s s' : PvpnClientImpl L KM KR) :
  client_step s s' -> lib_step (c s) (c s') \/ c s' = c s.
Proof.
  intros [s1 s2 [c0 t c1 E| | | | | | | | | | |]|]; simpl; unfold impl_push_error, impl_push; rewrite ?call_c;
    try (left; constructor); try by right.
  - apply set_time_call in E as (m & r & km & kr & ->). rewrite call_c. left. constructor.
  - right. unfold impl_monotonic_now. by destruct (instant_factory_now _).
  - left. unfold impl_set_packet_capture_enabled. destruct b; rewrite call_c; constructor.
  - left. unfold impl_pull_local_agent. pose proof (ls_pull_agent (c c0)).
    by destruct (lib_pull_local_agent (c c0)).
Qed.

#[global] Program Instance PvpnClientImpl_peers : PvpnClientPeers (PvpnClientImpl L KM KR) := {
  peer_map s := lib_peers (c s);
}.
Next Obligation. intros p s. simpl. rewrite call_c. apply lib_peers_add. Qed.
Next Obligation. intros a s. simpl. rewrite call_c. apply lib_peers_remove. Qed.
Next Obligation. intros s s' [Hs| ->]%client_step_lib; [by apply lib_peers_step|done]. Qed.
End impl_peers.

(** ** A scripted library

    Concrete, for evaluation: actions to be pulled and local-agent messages are
    queues, what is pushed is recorded, and the tunnel is in a fixed state. *)
Record script_lib := {
  sl_actions : list Action;
  sl_messages : list LocalAgentMessage;
  sl_info : option TunnelInfo;
  sl_peers : gmap PeerAddr Peer;
  sl_pushed : list Action;
}.

Definition sl_answer {A} (v : A) (l : script_lib) : PvpnReturn A * script_lib :=
  ({| value := v; task := match sl_actions l with [] => OtherTask | _ => NeedPull end;
      ret_deadline := Some (from_secs 1) |}, l).

Definition sl_with_peers (m : gmap PeerAddr Peer) (l : script_lib) : script_lib :=
  {| sl_actions := sl_actions l; sl_messages := sl_messages l; sl_info := sl_info l; sl_peers := m;
     sl_pushed := sl_pushed l |}.

#[global] Instance script_lib_library : PvpnLibrary script_lib := {
  lib_set_time _ _ := sl_answer ();
  lib_add_peer p l := sl_answer () (sl_with_peers (<[p_addr p := p]> (sl_peers l)) l);
  lib_remove_peer a l := sl_answer () (sl_with_peers (delete a (sl_peers l)) l);
  lib_pull l := sl_answer (head (sl_actions l))
    {| sl_actions := tail (sl_actions l); sl_messages := sl_messages l; sl_info := sl_info l;
       sl_peers := sl_peers l; sl_pushed := sl_pushed l |};
  lib_pull_local_agent l := (head (sl_messages l),
    {| sl_actions := sl_actions l; sl_messages := tail (sl_messages l); sl_info := sl_info l;
       sl_peers := sl_peers l; sl_pushed := sl_pushed l |});
  lib_push_local_agent _ := sl_answer ();
  lib_push a l := sl_answer (Ok ())
    {| sl_actions := sl_actions l; sl_messages := sl_messages l; sl_info := sl_info l;
       sl_peers := sl_peers l; sl_pushed := sl_pushed l ++ [a] |};
  lib_notify_network_change := sl_answer ();
  lib_tunnel_info l := sl_answer (sl_info l) l;
  lib_tunnel_stats := sl_answer None;
  lib_set_settings _ := sl_answer ();
  lib_capture_packet := sl_answer 1%Z;
  lib_stop_capture_packet := sl_answer 1%Z;
}.

#[global] Program Instance script_lib_peers : PvpnLibraryPeers script_lib := { lib_peers := sl_peers }.
Next Obligation. done. Qed.
Next Obligation. done. Qed.
Next Obligation. by intros l l' []. Qed.

(** Clocks that advance by a millisecond at each reading; the system's panics
    before the epoch. *)
#[global] Instance tick_factory : InstantFactory Z := fun t => (t, (t + 1000000)%Z).
#[global] Instance tick_clock : Clock Z := fun t =>
  if (t <? 0)%Z then None else Some (t, (t + 1000000)%Z).

Lemma tick_never_fails (t : Z) : (0 <= t)%Z -> ~ clock_fails t.
Proof.
  intros Ht (k & Hr & E). assert (0 <= k)%Z as Hk.
  { eapply (rtc_invariant clock_read (fun t => (0 <= t)%Z)); [|exact Hr|exact Ht].
    intros a b [x Ex] Ha. unfold clock_now, tick_clock in Ex. destruct (a <? 0)%Z; [done|]. injection Ex as _ <-. lia. }
  unfold clock_now, tick_clock in E. by destruct (Z.ltb_spec k 0); [lia|].
Qed.

Definition script_lib_new : script_lib :=
  {| sl_actions := []; sl_messages := []; sl_info := Some TunnelDisconnected; sl_peers := ∅;
     sl_pushed := [] |}.

Definition script_new (kr : Z) : outcome (io_result (PvpnClientImpl (script_lib * list answer) Z Z)) :=
  new_logged (Key := ()) (Cert := ()) (Auth := ()) (Seed := ()) (App := ())
    (fun _ _ => Ok ()) (fun _ _ _ _ _ _ _ => script_lib_new) (fun _ _ _ _ => script_lib_new)
    0%Z kr (ModeNoLocalAgent []) ().

Lemma client_flags_follow_library_witness :
  exists s0, script_new 5 = Ret (Ok s0)
    /\ wakeup_deadline (push (Action_close 3) s0) = Some (from_secs 1)
    /\ flags_current (push (Action_close 3) s0).
Proof.
  eexists. split; [reflexivity|]. split; [reflexivity|].
  eapply (client_flags_follow_library (Key := ()) (Cert := ()) (Auth := ()) (Seed := ()) (App := ())
    (fun _ _ => Ok ()) (fun _ _ _ _ _ _ _ => script_lib_new) (fun _ _ _ _ => script_lib_new)
    0%Z 5%Z (ModeNoLocalAgent []) ()); [reflexivity|].
  apply rtc_once, acs_step, cs_push.
Defined.
