(* ===== verification/PeerSync.v ===== *)
(** * Peers of the connection and of the client

    The peer set the client is to have for a list of peers, and the effect of
    the removals and additions [update_peers] makes. *)

From S2P Require Import Prelude Types SanitizedPeers Conversions PvpnClient.

(** The client's peers for a sanitized list. *)
Definition peers_map (l : list PeerInfo) : gmap PeerAddr Peer :=
  list_to_map ((fun p => (addr p, as_peer p)) <$> l).

(** No two peers of the list share a server address. *)
Definition unique_ips (l : list PeerInfo) : Prop := NoDup (server_ip <$> l).

Lemma as_peer_addr p : p_addr (as_peer p) = addr p.
Proof. done. Qed.

Lemma unique_addrs l : unique_ips l -> NoDup ((fun p => (addr p, as_peer p)) <$> l).*1.
Proof.
  unfold unique_ips. intros H. induction l as [|p l IH]; csimpl; [apply NoDup_nil_2|].
  csimpl in H. apply NoDup_cons in H as [Hp Hl]. apply NoDup_cons. split; [|by apply IH].
  rewrite <- list_fmap_compose. intros (q & Hq & Hin)%list_elem_of_fmap. simpl in Hq.
  apply Hp. apply addr_inj in Hq. rewrite Hq. by apply list_elem_of_fmap_2.
Qed.

Lemma lookup_peers_map l a x :
  unique_ips l -> peers_map l !! a = Some x <-> exists p, p ∈ l /\ addr p = a /\ as_peer p = x.
Proof.
  intros Hl. unfold peers_map. rewrite <- elem_of_list_to_map by by apply unique_addrs.
  rewrite list_elem_of_fmap. split; [intros (p & ? & ?)|intros (p & ? & ? & ?)]; exists p; by simplify_eq.
Qed.

Lemma unique_same l p q : unique_ips l -> p ∈ l -> q ∈ l -> addr p = addr q -> p = q.
Proof.
  unfold unique_ips. intros Hl Hp Hq Ha%addr_inj.
  apply list_elem_of_lookup in Hp as [i Hi]. apply list_elem_of_lookup in Hq as [j Hj].
  assert (i = j) as ->; [|congruence].
  eapply NoDup_lookup; [done| |]; rewrite list_lookup_fmap; [by rewrite Hi|rewrite Hj; simpl; by rewrite Ha].
Qed.

Section sync.
Context {C : Type} `{PvpnClientPeers C}.

Definition remove_peers (keep : list PeerInfo) (l : list PeerInfo) (c : C) : C :=
  foldl (fun c p => if SanitizedPeers_contains keep p then c else peer_remove (addr p) c) c l.

Definition add_peers (have : list PeerInfo) (l : list PeerInfo) (c : C) : C :=
  foldl (fun c p => if SanitizedPeers_contains have p then c else peer_add (as_peer p) c) c l.

Lemma contains_spec l p : SanitizedPeers_contains l p = true <-> p ∈ l.
Proof. apply bool_decide_eq_true. Qed.

Lemma lookup_remove_peers keep l c a x :
  peer_map (remove_peers keep l c) !! a = Some x <->
  peer_map c !! a = Some x /\ forall p, p ∈ l -> addr p = a -> p ∈ keep.
Proof.
  revert c. induction l as [|p l IH]; intros c; simpl; [set_solver|].
  unfold remove_peers in *. simpl. rewrite IH.
  destruct (SanitizedPeers_contains keep p) eqn:E.
  - apply contains_spec in E. split; [|set_solver]. intros [Hx Hl]. split; [done|].
    intros q [->|Hq]%elem_of_cons; [done|]. by apply Hl.
  - assert (p ∉ keep) by (rewrite <- contains_spec; congruence).
    rewrite peer_map_remove, lookup_delete_Some. split.
    + intros [[Hne Hx] Hl]. split; [done|]. intros q [->|Hq]%elem_of_cons Ha; [done|by apply Hl].
    + intros [Hx Hl]. split; [|set_solver]. split; [|done]. intros Ha. by apply Hl in Ha; [|set_solver].
Qed.

Lemma lookup_add_peers have l c a x :
  unique_ips l ->
  peer_map (add_peers have l c) !! a = Some x <->
  (exists p, p ∈ l /\ p ∉ have /\ addr p = a /\ as_peer p = x)
  \/ (peer_map c !! a = Some x /\ forall p, p ∈ l -> addr p = a -> p ∈ have).
Proof.
  unfold unique_ips. intros Hu. revert c Hu.
  induction l as [|p l IH]; intros c Hu; simpl; [set_solver|].
  csimpl in Hu. apply NoDup_cons in Hu as [Hp Hu].
  unfold add_peers in *. simpl. rewrite IH by done.
  assert (forall q, q ∈ l -> addr q <> addr p) as Hne.
  { intros q Hq Ha%addr_inj. apply Hp. rewrite <- Ha. by apply list_elem_of_fmap_2. }
  destruct (SanitizedPeers_contains have p) eqn:E.
  - apply contains_spec in E. set_solver.
  - assert (p ∉ have) by (rewrite <- contains_spec; congruence).
    rewrite peer_map_add, lookup_insert_Some, as_peer_addr. set_solver.
Qed.

(** Removing what is gone and adding what is new gives the new peer set. *)
Lemma sync_peers old new c :
  unique_ips old -> unique_ips new -> peer_map c = peers_map old ->
  peer_map (add_peers old new (remove_peers new old c)) = peers_map new.
Proof.
  intros Ho Hn Hc. apply map_eq. intros a. apply option_eq. intros x.
  rewrite lookup_add_peers, lookup_remove_peers, Hc, !lookup_peers_map by done. split.
  - intros [(p & Hp & _ & Ha & Hx)|[[(p & Hp & Ha & Hx) Hrm] Hadd]]; [by exists p|].
    exists p. split; [|done]. by apply Hrm.
  - intros (p & Hp & Ha & Hx). destruct (decide (p ∈ old)) as [Hin|Hin]; [|left; by exists p].
    right. split; [split; [by exists p|]|]; intros q Hq Haq;
      [assert (q = p) as ->|assert (q = p) as ->]; try done.
    + apply (unique_same old); congruence.
    + apply (unique_same new); congruence.
Qed.

(** Adding every peer of a list to a client without peers. *)
Lemma add_all_peers l c :
  unique_ips l -> peer_map c = ∅ -> peer_map (add_peers [] l c) = peers_map l.
Proof.
  intros Hl Hc. apply map_eq. intros a. apply option_eq. intros x.
  rewrite lookup_add_peers, Hc, lookup_peers_map by done. set_solver.
Qed.
End sync.
