(* ===== verification/Connection.v ===== *)
(** * The connection loop

    [src/connection/pvpn_connection.rs]: the state of a connection and every
    method of it, written against the interfaces of the client, the streams
    and the clock.  Callbacks to the application and writes to its cache are
    the entries of an output trace.  The messages of other threads are the
    answers [try_recv] gives, in order, so that a schedule of arrivals is a
    list; loops whose length the outside world decides take fuel. *)

From S2P Require Import Prelude Types Net NetworkRecovery SanitizedPeers Conversions LocalAgent.
From S2P Require Import Streams Pcap PvpnClient.

(** What the loop hands to the application. *)
Inductive Output :=
| StateChanged (s : VpnState)
| EventEmitted (e : Event)
| CachePut (key : CacheKey) (data : list byte).

Definition STREAM_BUFFER_SIZE : nat := Z.to_nat 65536.
#[global] Opaque STREAM_BUFFER_SIZE.

Definition STATS_SELECTORS : list LocalAgentSelector :=
  [SelStatsBytesSent; SelStatsBytesReceived; SelStatsNetshieldBlockCountAds;
   SelStatsNetshieldBlockCountMalicious; SelStatsNetshieldBlockCountTracking;
   SelStatsNetshieldBlockCountAdult].

(** ** Helpers that do not touch the state *)

Definition to_tun_error (res : StreamResult) : option InterfaceError :=
  match res with
  | StreamOk _ _ _ _ => None
  | StreamErr e => Some (IoError (message e))
  | StreamClosed => Some (IoError "Stream closed")
  end.

Definition get_peer_id (peer : Peer) (peer_addr : SocketAddr) : string :=
  match p_tag peer with Some tag => tag | None => ip_to_string (sa_ip peer_addr) end.

Definition get_peer_connection_info (peer : Peer) (peer_addr : SocketAddr) (protocol : VpnProtocol)
  : PeerConnectionInfo :=
  {| conn_peer_id := get_peer_id peer peer_addr;
     entry_ip := sa_ip peer_addr;
     protocol := Protocol_from protocol;
     port := sa_port peer_addr |}.

Definition network_unavailable_state (tunnel_info : option TunnelInfo) : ConnectionState :=
  let peers :=
    match tunnel_info with
    | Some (TunnelConnected protocol peer peer_addr _) => [get_peer_connection_info peer peer_addr protocol]
    | Some (TunnelConnecting protocol peer peer_addr) => [get_peer_connection_info peer peer_addr protocol]
    | _ => []
    end in
  Connecting peers [WaitingForNetwork].

Section connection.
Context `{ids : StreamIds} {C Ss T CK : Type}.
Context `{pvpn : PvpnClient C, strs : Streams Ss T, str : Stream T, ck : Clock CK}.

(** ** State *)

Record PvpnConnection := {
  client : C;
  conn_streams : Ss;
  out : list Output;
  message_receiver : list (option PvpnMessage);
  connection_state : ConnectionState;
  peers : list PeerInfo;
  stream_read_buffer : list byte;
  should_stop : bool;
  current_tun_error : option InterfaceError;
  network_recovery_handler : NetworkRecoveryHandler;
  pcap_stream : option PcapStream;
  world : World;
  local_agent_settings : option LocalAgentSettings;
  local_agent_handler : option LocalAgentHandler;
  realtime_clock : CK;
}.

Definition set_client (x : C) (s : PvpnConnection) : PvpnConnection :=
  {| client := x; conn_streams := conn_streams s; out := out s;
     message_receiver := message_receiver s; connection_state := connection_state s;
     peers := peers s; stream_read_buffer := stream_read_buffer s;
     should_stop := should_stop s; current_tun_error := current_tun_error s;
     network_recovery_handler := network_recovery_handler s; pcap_stream := pcap_stream s;
     world := world s; local_agent_settings := local_agent_settings s;
     local_agent_handler := local_agent_handler s; realtime_clock := realtime_clock s |}.
Definition set_streams (x : Ss) (s : PvpnConnection) : PvpnConnection :=
  {| client := client s; conn_streams := x; out := out s;
     message_receiver := message_receiver s; connection_state := connection_state s;
     peers := peers s; stream_read_buffer := stream_read_buffer s;
     should_stop := should_stop s; current_tun_error := current_tun_error s;
     network_recovery_handler := network_recovery_handler s; pcap_stream := pcap_stream s;
     world := world s; local_agent_settings := local_agent_settings s;
     local_agent_handler := local_agent_handler s; realtime_clock := realtime_clock s |}.
Definition set_out (x : list Output) (s : PvpnConnection) : PvpnConnection :=
  {| client := client s; conn_streams := conn_streams s; out := x;
     message_receiver := message_receiver s; connection_state := connection_state s;
     peers := peers s; stream_read_buffer := stream_read_buffer s;
     should_stop := should_stop s; current_tun_error := current_tun_error s;
     network_recovery_handler := network_recovery_handler s; pcap_stream := pcap_stream s;
     world := world s; local_agent_settings := local_agent_settings s;
     local_agent_handler := local_agent_handler s; realtime_clock := realtime_clock s |}.
Definition set_receiver (x : list (option PvpnMessage)) (s : PvpnConnection) : PvpnConnection :=
  {| client := client s; conn_streams := conn_streams s; out := out s; message_receiver := x;
     connection_state := connection_state s; peers := peers s;
     stream_read_buffer := stream_read_buffer s; should_stop := should_stop s;
     current_tun_error := current_tun_error s;
     network_recovery_handler := network_recovery_handler s; pcap_stream := pcap_stream s;
     world := world s; local_agent_settings := local_agent_settings s;
     local_agent_handler := local_agent_handler s; realtime_clock := realtime_clock s |}.
Definition set_connection_state (x : ConnectionState) (s : PvpnConnection) : PvpnConnection :=
  {| client := client s; conn_streams := conn_streams s; out := out s;
     message_receiver := message_receiver s; connection_state := x; peers := peers s;
     stream_read_buffer := stream_read_buffer s; should_stop := should_stop s;
     current_tun_error := current_tun_error s;
     network_recovery_handler := network_recovery_handler s; pcap_stream := pcap_stream s;
     world := world s; local_agent_settings := local_agent_settings s;
     local_agent_handler := local_agent_handler s; realtime_clock := realtime_clock s |}.
Definition set_peers (x : list PeerInfo) (s : PvpnConnection) : PvpnConnection :=
  {| client := client s; conn_streams := conn_streams s; out := out s;
     message_receiver := message_receiver s; connection_state := connection_state s;
     peers := x; stream_read_buffer := stream_read_buffer s; should_stop := should_stop s;
     current_tun_error := current_tun_error s;
     network_recovery_handler := network_recovery_handler s; pcap_stream := pcap_stream s;
     world := world s; local_agent_settings := local_agent_settings s;
     local_agent_handler := local_agent_handler s; realtime_clock := realtime_clock s |}.
Definition set_read_buffer (x : list byte) (s : PvpnConnection) : PvpnConnection :=
  {| client := client s; conn_streams := conn_streams s; out := out s;
     message_receiver := message_receiver s; connection_state := connection_state s;
     peers := peers s; stream_read_buffer := x; should_stop := should_stop s;
     current_tun_error := current_tun_error s;
     network_recovery_handler := network_recovery_handler s; pcap_stream := pcap_stream s;
     world := world s; local_agent_settings := local_agent_settings s;
     local_agent_handler := local_agent_handler s; realtime_clock := realtime_clock s |}.
Definition set_should_stop (x : bool) (s : PvpnConnection) : PvpnConnection :=
  {| client := client s; conn_streams := conn_streams s; out := out s;
     message_receiver := message_receiver s; connection_state := connection_state s;
     peers := peers s; stream_read_buffer := stream_read_buffer s; should_stop := x;
     current_tun_error := current_tun_error s;
     network_recovery_handler := network_recovery_handler s; pcap_stream := pcap_stream s;
     world := world s; local_agent_settings := local_agent_settings s;
     local_agent_handler := local_agent_handler s; realtime_clock := realtime_clock s |}.
Definition set_tun_error (x : option InterfaceError) (s : PvpnConnection) : PvpnConnection :=
  {| client := client s; conn_streams := conn_streams s; out := out s;
     message_receiver := message_receiver s; connection_state := connection_state s;
     peers := peers s; stream_read_buffer := stream_read_buffer s;
     should_stop := should_stop s; current_tun_error := x;
     network_recovery_handler := network_recovery_handler s; pcap_stream := pcap_stream s;
     world := world s; local_agent_settings := local_agent_settings s;
     local_agent_handler := local_agent_handler s; realtime_clock := realtime_clock s |}.
Definition set_recovery (x : NetworkRecoveryHandler) (s : PvpnConnection) : PvpnConnection :=
  {| client := client s; conn_streams := conn_streams s; out := out s;
     message_receiver := message_receiver s; connection_state := connection_state s;
     peers := peers s; stream_read_buffer := stream_read_buffer s;
     should_stop := should_stop s; current_tun_error := current_tun_error s;
     network_recovery_handler := x; pcap_stream := pcap_stream s; world := world s;
     local_agent_settings := local_agent_settings s;
     local_agent_handler := local_agent_handler s; realtime_clock := realtime_clock s |}.
Definition set_pcap (x : option PcapStream) (s : PvpnConnection) : PvpnConnection :=
  {| client := client s; conn_streams := conn_streams s; out := out s;
     message_receiver := message_receiver s; connection_state := connection_state s;
     peers := peers s; stream_read_buffer := stream_read_buffer s;
     should_stop := should_stop s; current_tun_error := current_tun_error s;
     network_recovery_handler := network_recovery_handler s; pcap_stream := x;
     world := world s; local_agent_settings := local_agent_settings s;
     local_agent_handler := local_agent_handler s; realtime_clock := realtime_clock s |}.
Definition set_world (x : World) (s : PvpnConnection) : PvpnConnection :=
  {| client := client s; conn_streams := conn_streams s; out := out s;
     message_receiver := message_receiver s; connection_state := connection_state s;
     peers := peers s; stream_read_buffer := stream_read_buffer s;
     should_stop := should_stop s; current_tun_error := current_tun_error s;
     network_recovery_handler := network_recovery_handler s; pcap_stream := pcap_stream s;
     world := x; local_agent_settings := local_agent_settings s;
     local_agent_handler := local_agent_handler s; realtime_clock := realtime_clock s |}.
Definition set_agent_settings (x : option LocalAgentSettings) (s : PvpnConnection) : PvpnConnection :=
  {| client := client s; conn_streams := conn_streams s; out := out s;
     message_receiver := message_receiver s; connection_state := connection_state s;
     peers := peers s; stream_read_buffer := stream_read_buffer s;
     should_stop := should_stop s; current_tun_error := current_tun_error s;
     network_recovery_handler := network_recovery_handler s; pcap_stream := pcap_stream s;
     world := world s; local_agent_settings := x; local_agent_handler := local_agent_handler s;
     realtime_clock := realtime_clock s |}.
Definition set_agent (x : option LocalAgentHandler) (s : PvpnConnection) : PvpnConnection :=
  {| client := client s; conn_streams := conn_streams s; out := out s;
     message_receiver := message_receiver s; connection_state := connection_state s;
     peers := peers s; stream_read_buffer := stream_read_buffer s;
     should_stop := should_stop s; current_tun_error := current_tun_error s;
     network_recovery_handler := network_recovery_handler s; pcap_stream := pcap_stream s;
     world := world s; local_agent_settings := local_agent_settings s;
     local_agent_handler := x; realtime_clock := realtime_clock s |}.
Definition set_clock (x : CK) (s : PvpnConnection) : PvpnConnection :=
  {| client := client s; conn_streams := conn_streams s; out := out s;
     message_receiver := message_receiver s; connection_state := connection_state s;
     peers := peers s; stream_read_buffer := stream_read_buffer s;
     should_stop := should_stop s; current_tun_error := current_tun_error s;
     network_recovery_handler := network_recovery_handler s; pcap_stream := pcap_stream s;
     world := world s; local_agent_settings := local_agent_settings s;
     local_agent_handler := local_agent_handler s; realtime_clock := x |}.

Abbreviation Conn := (M PvpnConnection).

Definition client_do (f : C -> C) : Conn () := modify (fun s => set_client (f (client s)) s).
Definition client_get {A} (f : C -> A * C) : Conn A := liftS client set_client f.
(** A call that may panic. *)
Definition client_try {A} (f : C -> option (A * C)) : Conn A := liftO client set_client f.
Definition streams_do (f : Ss -> Ss) : Conn () := modify (fun s => set_streams (f (conn_streams s)) s).
Definition streams_get {A} (f : Ss -> A * Ss) : Conn A := liftS conn_streams set_streams f.
Definition recovery_do (f : NetworkRecoveryHandler -> NetworkRecoveryHandler) : Conn () :=
  modify (fun s => set_recovery (f (network_recovery_handler s)) s).

(** Append to the output trace. *)
Definition output (o : Output) : Conn () := modify (fun s => set_out (out s ++ [o]) s).

(** Use the stream [get_stream] lends, [None] when there is none. *)
Definition with_stream {A} (id : StreamId) (op : M T A) : Conn (option A) := fun s =>
  match get_stream id (conn_streams s) with
  | None => Ret (None, s)
  | Some t =>
      match op t with
      | Ret (a, t') => Ret (Some a, set_streams (put_stream id t' (conn_streams s)) s)
      | Panic => Panic
      | NoFuel => NoFuel
      end
  end.

(** ** State reports and events *)

Definition set_state (state : ConnectionState) : Conn () :=
  s ← get id;
  when (bool_decide (state <> connection_state s))
    (modify (set_connection_state state) ;;
     output (StateChanged
       {| interface_state := get_tun_interface_state (current_tun_error s) (conn_streams s);
          vpn_connection_state := state |})).

Definition emit_event (event : Event) : Conn () := output (EventEmitted event).

Definition get_peer_connection_state (tunnel_info : option TunnelInfo) : Conn ConnectionState :=
  h ← get network_recovery_handler;
  if negb (is_network_available h) then mret (network_unavailable_state tunnel_info)
  else
    match tunnel_info with
    | Some (TunnelConnected protocol peer peer_addr _) =>
        let info := get_peer_connection_info peer peer_addr protocol in
        agent ← get local_agent_handler;
        match agent with
        | Some handler =>
            modify (set_agent (Some (on_connected_to_peer info handler))) ;;
            mret (get_state info (on_connected_to_peer info handler))
        | None => mret (Connected info None)
        end
    | Some (TunnelConnecting protocol peer peer_addr) =>
        mret (Connecting [get_peer_connection_info peer peer_addr protocol] [])
    | Some TunnelDisconnected =>
        ps ← get peers;
        mret (if negb (SanitizedPeers_is_empty ps) then Connecting [] [] else Disconnected None)
    | None => mret (Disconnected None)
    end.

Definition update_state : Conn () :=
  info ← client_get get_tunnel_info;
  state ← get_peer_connection_state info;
  set_state state ;;
  current ← get connection_state;
  match current with
  | Connected _ _ => recovery_do on_connected
  | _ => mret ()
  end.

(** ** Packet capture *)

Definition start_packet_capture (file_info : PcapFileInfo) : Conn () :=
  res ← liftS world set_world (PcapStream_new file_info);
  match res with
  | Ok stream =>
      modify (set_pcap (Some stream)) ;;
      client_get (set_packet_capture_enabled true) ;;
      emit_event (PacketCaptureStarted file_info)
  | Err _ => mret ()
  end.

Definition stop_packet_capture (reason : PcapFileInfo -> CaptureStopReason) : Conn () :=
  client_get (set_packet_capture_enabled false) ;;
  p ← get pcap_stream;
  match p with
  | Some stream =>
      modify (set_pcap None) ;;
      emit_event (PacketCaptureStopped (reason (file_info stream)))
  | None => emit_event (PacketCaptureStopped AlreadyStopped)
  end.

(** ** Errors and network changes *)

Definition handle_stream_error (id : StreamId) (err : io_error) : Conn () :=
  when (TUN_STREAM_ID <? id)%Z
    (now ← client_get monotonic_now;
     recovery_do (on_stream_error err now) ;;
     client_do (push_error id (kind err))).

Definition conn_on_connectivity_change (event : ConnectivityEvent) (tunnel_info : option TunnelInfo)
  : Conn () :=
  recovery_do (on_connectivity_change event) ;;
  h ← get network_recovery_handler;
  if is_network_available h then client_do notify_network_change
  else client_do notify_network_down ;; set_state (network_unavailable_state tunnel_info).

(** ** Writing *)

Definition handle_stream_write_result (id : StreamId) (res : StreamResult) : Conn () :=
  when (id =? TUN_STREAM_ID)%Z (modify (set_tun_error (to_tun_error res))) ;;
  match res with
  | StreamOk _ _ _ pending_write =>
      streams_do (set_poll_enable_wait_for_write id (bool_decide (pending_write = PendingYes))) ;;
      when (bool_decide (pending_write = PendingNo) && (TUN_STREAM_ID <? id)%Z)
        (client_do (push (Action_done id)))
  | StreamErr e => handle_stream_error id e
  | StreamClosed => client_do (push (Action_close id))
  end.

(** [stream.write(&data)] on the capture stream. *)
Definition pcap_write (data : list byte) (stream : PcapStream) : Conn PcapStream := fun s =>
  let '(stream', w) := PcapStream_write data stream (world s) in
  Ret (stream', set_pcap (Some stream') (set_world w s)).

Definition handle_write (id : StreamId) (data : list byte) : Conn () :=
  if (id =? PCAP_STREAM_ID)%Z then
    p ← get pcap_stream;
    match p with
    | Some stream =>
        stream' ← pcap_write data stream;
        when (at_max_size stream') (stop_packet_capture MaxSizeReached)
    | None => mret ()
    end
  else if (id =? PRIVKEY_STREAM_ID)%Z then output (CachePut PrivateKey data)
  else if (id =? CERT_STREAM_ID)%Z then output (CachePut Certificate data)
  else if (id =? MUON_AUTH_STREAM_ID)%Z then output (CachePut ApiSession data)
  else
    res ← with_stream id (stream_write data);
    match res with
    | Some write_result => handle_stream_write_result id write_result
    | None => mret ()
    end.

Definition handle_open (id : StreamId) (open_stream : OpenStream) : Conn () :=
  let is_udp := bool_decide (os_kind open_stream = UdpStream) in
  open_result ← streams_get (if is_udp then open_new_udp_stream id (os_addr open_stream)
                             else open_new_tcp_stream id (os_addr open_stream));
  match open_result with
  | Ok _ =>
      recovery_do on_successful_socket_open ;;
      when (negb is_udp) (streams_do (set_poll_enable_wait_for_write id true))
  | Err e => handle_stream_error id e
  end.

(** ** Pulling from the client *)

(** The body of the pull loop.  The assertion on unexpected actions is a
    debug assertion. *)
Definition handle_action (id : StreamId) (k : ActionKind) : Conn () :=
  match k with
  | ActOpen open_stream first_write =>
      handle_open id open_stream ;;
      match first_write with
      | Some data => handle_write id data
      | None => mret ()
      end
  | ActWrite data => handle_write id data
  | ActSet socket_option =>
      with_stream id (modify (stream_set_option socket_option)) ;; mret ()
  | ActClose => streams_do (close_stream id)
  | ActShutdown => with_stream id (modify stream_shutdown_write) ;; mret ()
  | ActRead _ | ActError _ | ActDone => mret ()
  end.

Definition pull_once : Conn () :=
  action ← client_get pull;
  match action with
  | Some a => handle_action (act_stream a) (act_kind a)
  | None => mret ()
  end.

(** The body of the loop over the local agent's messages. *)
Definition handle_agent_message (m : LocalAgentMessage) : Conn () :=
  agent ← get local_agent_handler;
  match agent with
  | Some handler =>
      let '(event, handler') := handle_message m handler in
      modify (set_agent (Some handler')) ;;
      match event with Some event => emit_event event | None => mret () end
  | None => mret ()
  end.

(** [while let Some(m) = pull_local_agent() { .. }]. *)
Fixpoint pull_agent_messages (fuel : nat) : Conn () :=
  msg ← client_get pull_local_agent;
  match msg with
  | None => mret ()
  | Some m =>
      match fuel with
      | O => no_fuel
      | S fuel => handle_agent_message m ;; pull_agent_messages fuel
      end
  end.

Definition pull_from_client (fuel : nat) : Conn () :=
  whileM fuel (fun s => need_pull (client s)) pull_once ;;
  agent ← get local_agent_handler;
  match agent with
  | Some _ => pull_agent_messages fuel
  | None => mret ()
  end.

(** ** Reading *)

(** [stream.read(&mut self.stream_read_buffer[..])]. *)
Definition read_stream (id : StreamId) : Conn (option StreamResult) := fun s =>
  match get_stream id (conn_streams s) with
  | None => Ret (None, s)
  | Some t =>
      let '((r, buf), t') := stream_read (stream_read_buffer s) t in
      Ret (Some r, set_read_buffer buf (set_streams (put_stream id t' (conn_streams s)) s))
  end.

(** [self.stream_read_buffer[off..off + n].to_vec()], which panics out of range. *)
Definition buffer_slice (off n : nat) : Conn (list byte) := fun s =>
  if decide (off + n <= length (stream_read_buffer s))
  then Ret (take n (drop off (stream_read_buffer s)), s)
  else Panic.

(** One stream of a read pass; whether to read it again. *)
Definition read_one (fuel : nat) (id : StreamId) : Conn bool :=
  read_result ← read_stream id;
  match read_result with
  | None => mret false
  | Some res =>
      when (id =? TUN_STREAM_ID)%Z (modify (set_tun_error (to_tun_error res))) ;;
      match res with
      | StreamOk bytes_read start_offset would_block _ =>
          h ← get network_recovery_handler;
          when ((0 <? bytes_read) && is_network_available h)
            (data ← buffer_slice start_offset bytes_read;
             client_do (push (Action_read id data)) ;;
             pull_from_client fuel) ;;
          mret (bool_decide (would_block = WouldBlockNo) && (0 <? bytes_read))
      | StreamErr e => handle_stream_error id e ;; mret false
      | StreamClosed => client_do (push (Action_close id)) ;; mret false
      end
  end.

(** The [for] over the stream ids; the ids still to be read. *)
Fixpoint read_pass (fuel : nat) (stream_ids : list StreamId) : Conn (list StreamId) :=
  match stream_ids with
  | [] => mret []
  | id :: rest =>
      again ← read_one fuel id;
      next ← read_pass fuel rest;
      mret (if again : bool then id :: next else next)
  end.

(** The outer [while], with at most [n] passes. *)
Fixpoint read_from_streams (fuel n : nat) (stream_ids : list StreamId) : Conn () :=
  match stream_ids with
  | [] => mret ()
  | _ =>
      match n with
      | O => no_fuel
      | S n => next ← read_pass fuel stream_ids; read_from_streams fuel n next
      end
  end.

(** ** Polling *)

Definition handle_poll_result (res : PollResult) : Conn () :=
  when (is_writable res)
    (r ← with_stream (stream_id res) stream_write_from_buffer;
     match r with
     | Some write_result => handle_stream_write_result (stream_id res) write_result
     | None => mret ()
     end).

Definition handle_poll_results (fuel : nat) (results : list PollResult) : Conn () :=
  forM results handle_poll_result ;;
  read_from_streams fuel fuel (stream_id <$> retain is_readable results).

(** The clock is only read when a retry is scheduled. *)
Definition poll_deadline : Conn (option Duration) :=
  pvpn_delay ← get (fun s => wakeup_deadline (client s));
  h ← get network_recovery_handler;
  now ← (if network_available h && bool_decide (is_Some (send_delayed_network_change_at h))
         then client_get monotonic_now else mret 0%Z);
  mret (match wakeup_delay now h with
        | Some network_handler_delay =>
            match pvpn_delay with
            | None => Some network_handler_delay
            | Some pvpn_delay => Some (Z.min pvpn_delay network_handler_delay)
            end
        | None => pvpn_delay
        end).

Definition poll_from_streams (fuel : nat) : Conn () :=
  deadline ← poll_deadline;
  poll_results ← streams_get (poll deadline);
  times ← client_try set_current_time;
  notify ← liftS network_recovery_handler set_recovery (on_resumed times.1);
  when notify (client_do notify_network_change) ;;
  match poll_results with
  | Ok poll_results => handle_poll_results fuel poll_results
  | Err _ => mret ()
  end.

(** ** Messages *)

Definition update_local_agent_settings (settings : LocalAgentSettings) : Conn () :=
  current ← get local_agent_settings;
  match current with
  | Some current_settings =>
      when (bool_decide (current_settings <> settings))
        (modify (set_agent_settings (Some settings)) ;;
         client_do (set_settings (pvpn_settings (SessionSettings_from settings))))
  | None => mret ()
  end.

Definition update_peers (new_peers : list PeerInfo) : Conn () :=
  old_peers ← get peers;
  if bool_decide (old_peers = new_peers) then mret ()
  else
    forM old_peers (fun old_peer =>
      when (negb (SanitizedPeers_contains new_peers old_peer)) (client_do (peer_remove (addr old_peer)))) ;;
    forM new_peers (fun new_peer =>
      when (negb (SanitizedPeers_contains old_peers new_peer)) (client_do (peer_add (as_peer new_peer)))) ;;
    modify (set_peers new_peers).

Definition conn_update_tun (tun_info : TunStreamInfo) : Conn () :=
  res ← streams_get (update_tun tun_info);
  match res with
  | Err _ => mret ()
  | Ok _ => modify (set_tun_error None)
  end.

Definition if_some {A} (o : option A) (body : A -> Conn ()) : Conn () :=
  match o with Some a => body a | None => mret () end.

(** One message other than [Disconnect]. *)
Definition handle_pvpn_message (m : PvpnMessage) : Conn () :=
  match m with
  | Disconnect => mret ()
  | ConnectivityChange event =>
      tunnel_info ← client_get get_tunnel_info;
      conn_on_connectivity_change event tunnel_info
  | StartPacketCapture file_info => start_packet_capture file_info
  | StopPacketCapture => stop_packet_capture Request
  | RequestStats =>
      stats ← client_get get_stats;
      if_some stats (fun stats =>
        now ← liftO realtime_clock set_clock clock_now;
        emit_event (Event_from_tunnel_stats stats (wrapS 64 (as_millis now))))
  | Update update =>
      if_some (upd_peers update) (fun ps => update_peers (SanitizedPeers_from ps)) ;;
      if_some (upd_settings update) update_local_agent_settings ;;
      if_some (upd_tun update) conn_update_tun
  | ProvideApiForkSelector info =>
      client_do (push_local_agent (ProvideAuthForkSelector (selector info) (MuonCookies_from (cookies info))))
  | RequestLocalAgentStats =>
      forM STATS_SELECTORS (fun sel => client_do (push_local_agent (GetValue sel)))
  end.

(** [try_recv]: an empty schedule means no message for good. *)
Definition try_recv : Conn (option PvpnMessage) := fun s =>
  match message_receiver s with
  | [] => Ret (None, s)
  | m :: rest => Ret (m, set_receiver rest s)
  end.

(** [while let Ok(m) = try_recv() { .. }]: the schedule bounds the iterations. *)
Fixpoint message_loop (n : nat) : Conn () :=
  m ← try_recv;
  match m with
  | None => mret ()
  | Some Disconnect => modify (set_should_stop true)
  | Some m =>
      handle_pvpn_message m ;;
      match n with
      | O => no_fuel
      | S n => message_loop n
      end
  end.

Definition handle_messages : Conn bool :=
  n ← get (fun s => length (message_receiver s));
  message_loop n ;;
  stop ← get should_stop;
  mret (negb stop).

(** ** The loop *)

Definition on_connection_loop_end : Conn () :=
  p ← get pcap_stream;
  if_some p (fun _ => stop_packet_capture CaptureDisconnected) ;;
  state ← get connection_state;
  match state with
  | Disconnected _ => mret ()
  | _ => set_state (Disconnected None)
  end.

Definition iteration (fuel : nat) : Conn () :=
  client_try set_current_time ;;
  pull_from_client fuel ;;
  update_state ;;
  poll_from_streams fuel.

(** At most [n] iterations. *)
Fixpoint run (fuel n : nat) : Conn () :=
  continue ← handle_messages;
  if continue : bool then
    match n with
    | O => no_fuel
    | S n => iteration fuel ;; run fuel n
    end
  else on_connection_loop_end.

(** ** Start *)

(** The part of [new] that follows the construction of the record. *)
Definition new_body (pcap_file_info : option PcapFileInfo) (settings : option LocalAgentSettings)
  : Conn () :=
  ps ← get peers;
  forM ps (fun p => client_do (peer_add (as_peer p))) ;;
  h ← get network_recovery_handler;
  when (negb (is_network_available h))
    (client_do notify_network_down ;; set_state (Connecting [] [WaitingForNetwork])) ;;
  if_some pcap_file_info start_packet_capture ;;
  if_some settings (fun st =>
    forM local_agent_selectors_to_watch (fun sel => client_do (push_local_agent (Watch sel))) ;;
    client_do (set_settings (pvpn_settings (SessionSettings_from st)))).

Definition initial (android : bool) (cl : C) (ss : Ss) (w : World)
    (receiver : list (option PvpnMessage)) (network_available : bool) (ps : list PeerInfo) (clock : CK)
    (settings : option LocalAgentSettings) : PvpnConnection :=
  {| client := cl; conn_streams := ss; out := []; message_receiver := receiver;
     connection_state := Disconnected None; peers := SanitizedPeers_from ps;
     stream_read_buffer := replicate STREAM_BUFFER_SIZE Byte.x00; should_stop := false;
     current_tun_error := None;
     network_recovery_handler := NetworkRecoveryHandler_new android network_available;
     pcap_stream := None; world := w; local_agent_settings := settings;
     local_agent_handler := match settings with None => None | Some _ => Some LocalAgentHandler_new end;
     realtime_clock := clock |}.

(** What [create_pvpn_dependencies] provides. *)
Record PvpnDependencies := {
  config : InitialConnectionConfig;
  dep_streams : Ss;
  dep_client : C;
  dep_clock : CK;
}.

(** The connection thread, with what [create_pvpn_dependencies] answers: nothing
    happens when a dependency cannot be built. *)
Definition start_pvpn_connection (android : bool) (fuel n : nat) (w : World)
    (dependencies : io_result PvpnDependencies) (receiver : list (option PvpnMessage))
  : option (outcome (() * PvpnConnection)) :=
  match dependencies with
  | Ok deps =>
      let settings := match cfg_connection_mode (config deps) with
                      | NoLocalAgent _ => None
                      | LocalAgent _ _ st => Some st
                      end in
      Some ((new_body (cfg_pcap_file (config deps)) settings ;; run fuel n)
        (initial android (dep_client deps) (dep_streams deps) w receiver
           (cfg_network_available (config deps)) (cfg_peers (config deps)) (dep_clock deps) settings))
  | Err _ => None
  end.
End connection.
Arguments PvpnConnection C Ss CK : clear implicits.
