(* ===== verification/ConnectionSteps.v ===== *)
(** * The connection as a transition system

    The steps a connection can take, with the conditions under which it takes
    them, and the proof that every method of the loop only takes such steps.
    [io_step] holds the steps of pulling, polling, reading, writing and
    reporting; [msg_step] adds those that handle messages, and [conn_step] the
    reception of messages and the end of the loop. *)

From S2P Require Import Prelude Types NetworkRecovery SanitizedPeers Conversions LocalAgent.
From S2P Require Import Streams Pcap PvpnClient PeerSync Connection.

Section steps.
Context `{ids : StreamIds} {C Ss T CK : Type}.
Context `{pvpn : PvpnClient C, strs : Streams Ss T, str : Stream T, ck : Clock CK}.

Abbreviation conn := (PvpnConnection C Ss CK).

(** ** Steps *)

Definition net_up (s : conn) : bool := is_network_available (network_recovery_handler s).

Definition waiting_for_network (st : ConnectionState) : Prop :=
  exists ps, st = Connecting ps [WaitingForNetwork].

(** The state fits the mode: agent information goes with a local agent. *)
Definition state_fits_mode (agent : bool) (st : ConnectionState) : Prop :=
  match st with
  | Connected _ info => bool_decide (is_Some info) = agent
  | ConnectingToLocalAgent _ _ => agent = true
  | _ => True
  end.

Definition has_agent (s : conn) : bool := bool_decide (is_Some (local_agent_handler s)).

(** The states [update_state] may report. *)
Definition state_allowed (s : conn) (st : ConnectionState) : Prop :=
  (if net_up s then forall ps wr, st = Connecting ps wr -> wr = [] else waiting_for_network st)
  /\ state_fits_mode (has_agent s) st.

(** A new state is stored and reported with the interface state. *)
Definition report (st : ConnectionState) (s : conn) : conn :=
  set_out (out s ++ [StateChanged
    {| interface_state := get_tun_interface_state (current_tun_error s) (conn_streams s);
       vpn_connection_state := st |}]) (set_connection_state st s).

Definition maybe_report (st : ConnectionState) (s : conn) : conn :=
  if bool_decide (st <> connection_state s) then report st s else s.

Definition emitted (e : Event) (s : conn) : conn := set_out (out s ++ [EventEmitted e]) s.

Definition capture_event (e : Event) : Prop :=
  match e with PacketCaptureStarted _ | PacketCaptureStopped _ => True | _ => False end.

Definition is_read (a : Action) : bool := match act_kind a with ActRead _ => true | _ => false end.

(** Calls on the recovery handler other than the system's notifications. *)
Definition internal_op (op : recovery_op) : Prop :=
  match op with OpConnectivity _ => False | _ => True end.

Definition capture_off (s : conn) : conn :=
  set_client (set_packet_capture_enabled false (client s)).2 s.

Inductive io_step : conn -> conn -> Prop :=
| io_client s c' : plain_step (client s) c' -> io_step s (set_client c' s)
| io_push s a : (is_read a = true -> net_up s = true) -> io_step s (set_client (push a (client s)) s)
| io_streams s ss : io_step s (set_streams ss s)
| io_buffer s buf : length buf = length (stream_read_buffer s) -> io_step s (set_read_buffer buf s)
| io_tun_error s e : io_step s (set_tun_error e s)
| io_recovery s op b h :
    internal_op op -> recovery_apply op (network_recovery_handler s) = (b, h) ->
    io_step s (set_recovery h s)
| io_cache s k d : io_step s (set_out (out s ++ [CachePut k d]) s)
| io_agent s h h' :
    local_agent_handler s = Some h -> agent_step h h' -> io_step s (set_agent (Some h') s)
| io_event s e : ~ capture_event e -> io_step s (emitted e s)
| io_pcap_write s p data p' w :
    pcap_stream s = Some p -> PcapStream_write data p (world s) = (p', w) ->
    at_max_size p' = false -> io_step s (set_pcap (Some p') (set_world w s))
| io_pcap_full s p data p' w :
    pcap_stream s = Some p -> PcapStream_write data p (world s) = (p', w) ->
    at_max_size p' = true ->
    io_step s (emitted (PacketCaptureStopped (MaxSizeReached (file_info p')))
                 (set_pcap None (capture_off (set_world w s))))
| io_state s st :
    state_allowed s st -> st <> connection_state s -> io_step s (report st s).

Inductive msg_step : conn -> conn -> Prop :=
| st_io s s' : io_step s s' -> msg_step s s'
| st_up s ev :
    let s1 := set_recovery (on_connectivity_change ev (network_recovery_handler s)) s in
    net_up s1 = true -> msg_step s (set_client (notify_network_change (client s)) s1)
| st_down s ev info :
    let s1 := set_recovery (on_connectivity_change ev (network_recovery_handler s)) s in
    net_up s1 = false ->
    msg_step s (maybe_report (network_unavailable_state info)
                   (set_client (notify_network_down (client s)) s1))
| st_capture_failed s info e w :
    PcapStream_new info (world s) = (Err e, w) -> msg_step s (set_world w s)
| st_capture_start s info p w :
    PcapStream_new info (world s) = (Ok p, w) ->
    msg_step s (emitted (PacketCaptureStarted info)
      (set_client (set_packet_capture_enabled true (client s)).2
        (set_pcap (Some p) (set_world w s))))
| st_capture_stop s p r :
    r = Request \/ r = CaptureDisconnected -> pcap_stream s = Some p ->
    msg_step s (emitted (PacketCaptureStopped (r (file_info p))) (set_pcap None (capture_off s)))
| st_capture_stopped s :
    pcap_stream s = None -> msg_step s (emitted (PacketCaptureStopped AlreadyStopped) (capture_off s))
| st_peers s new :
    unique_ips new ->
    msg_step s (set_peers new
      (set_client (add_peers (peers s) new (remove_peers new (peers s) (client s))) s))
| st_settings s st old :
    local_agent_settings s = Some old -> msg_step s (set_agent_settings (Some st) s)
| st_clock s k : clock_read (realtime_clock s) k -> msg_step s (set_clock k s).

Inductive conn_step : conn -> conn -> Prop :=
| st_msg s s' : msg_step s s' -> conn_step s s'
| st_receive s l : conn_step s (set_receiver l s)
| st_stop s : conn_step s (set_should_stop true s)
| st_end s :
    should_stop s = true -> pcap_stream s = None -> connection_state s <> Disconnected None ->
    conn_step s (report (Disconnected None) s).

(** ** Every method takes such steps *)

#[local] Hint Constructors io_step msg_step conn_step plain_step agent_step : protun.
#[local] Hint Extern 1 (is_read _ = false) => reflexivity : protun.
#[local] Hint Extern 1 (~ capture_event _) => exact id : protun.

(** Unfold a computation that starts by reading the state. *)
Lemma tracks_get_bind {A B} R (f : conn -> A) (k : A -> M conn B) :
  (forall s b s', k (f s) s = Ret (b, s') -> rtc R s s') -> tracks R (mbind k (get f)).
Proof. intros Hk s b s'. apply Hk. Qed.

Lemma tracks_client_get {A} (f : C -> A * C) :
  (forall c, plain_step c (f c).2) -> tracks io_step (client_get f).
Proof.
  intros Hf. apply tracks_lift. intros s a c' E. specialize (Hf (client s)). rewrite E in Hf.
  by apply io_client.
Qed.

Lemma tracks_client_try {A} (f : C -> option (A * C)) :
  (forall c a c', f c = Some (a, c') -> plain_step c c') -> tracks io_step (client_try f).
Proof. intros Hf. apply tracks_lift_partial. intros s a c' E. apply io_client. by eapply Hf. Qed.

Lemma tracks_set_time : tracks io_step (client_try set_current_time).
Proof. apply tracks_client_try. intros c t c'. apply cs_time. Qed.

Lemma tracks_client_do (f : C -> C) : (forall c, plain_step c (f c)) -> tracks io_step (client_do f).
Proof. intros Hf. apply tracks_step. intros s. by apply io_client. Qed.

Lemma tracks_push a : is_read a = false -> tracks io_step (client_do (push a)).
Proof. intros Ha. apply tracks_step. intros s. apply io_push. congruence. Qed.

Lemma tracks_streams_do f : tracks io_step (streams_do f).
Proof. apply tracks_step. intros s. apply io_streams. Qed.

Lemma tracks_streams_get {A} (f : Ss -> A * Ss) : tracks io_step (streams_get f).
Proof. apply tracks_lift. intros. apply io_streams. Qed.

Lemma tracks_tun_error e : tracks io_step (modify (set_tun_error e)).
Proof. apply tracks_step. intros s. apply io_tun_error. Qed.

Lemma tracks_recovery_do op f :
  internal_op op -> (forall h, recovery_apply op h = (false, f h)) -> tracks io_step (recovery_do f).
Proof. intros Hi Hf. apply tracks_step. intros s. by eapply io_recovery. Qed.

Lemma tracks_cache k d : tracks io_step (output (CachePut k d)).
Proof. apply tracks_step. intros s. apply io_cache. Qed.

Lemma tracks_event e : ~ capture_event e -> tracks io_step (emit_event e).
Proof. intros He. apply tracks_step. intros s. by apply io_event. Qed.

Lemma tracks_with_stream {A} id (op : M T A) : tracks io_step (with_stream id op).
Proof.
  intros s a s'. unfold with_stream. destruct (get_stream id (conn_streams s)); [|by intros [= <- <-]].
  destruct (op t) as [[a' t']| |]; [|done..]. intros [= <- <-]. apply rtc_once, io_streams.
Qed.

#[local] Hint Resolve tracks_client_get tracks_set_time tracks_client_do tracks_push tracks_streams_do
  tracks_streams_get tracks_tun_error tracks_cache tracks_event tracks_with_stream : protun.

Lemma tracks_handle_stream_error id e : tracks io_step (handle_stream_error id e).
Proof.
  unfold handle_stream_error. track.
  by eapply (tracks_recovery_do (OpStreamError e _)); [|intro; reflexivity].
Qed.
#[local] Hint Resolve tracks_handle_stream_error : protun.

Lemma tracks_write_result id res : tracks io_step (handle_stream_write_result id res).
Proof. unfold handle_stream_write_result. track. Qed.
#[local] Hint Resolve tracks_write_result : protun.

Lemma tracks_handle_open id o : tracks io_step (handle_open id o).
Proof. unfold handle_open. track. by apply (tracks_recovery_do OpSocketOpen). Qed.
#[local] Hint Resolve tracks_handle_open : protun.


Lemma client_get_eq {A} (f : C -> A * C) (s : conn) :
  client_get f s = Ret ((f (client s)).1, set_client (f (client s)).2 s).
Proof. unfold client_get, liftS. by destruct (f (client s)). Qed.

(** What stopping a capture does, with and without one running. *)
Definition capture_stopped (r : PcapFileInfo -> CaptureStopReason) (s : conn) : conn :=
  match pcap_stream s with
  | Some p => emitted (PacketCaptureStopped (r (file_info p))) (set_pcap None (capture_off s))
  | None => emitted (PacketCaptureStopped AlreadyStopped) (capture_off s)
  end.

Lemma stop_packet_capture_eq r (s : conn) : stop_packet_capture r s = Ret ((), capture_stopped r s).
Proof.
  unfold stop_packet_capture, mbind, M_bind. rewrite client_get_eq. unfold capture_stopped. simpl.
  by destruct (pcap_stream s).
Qed.

Lemma tracks_handle_write id data : tracks io_step (handle_write id data).
Proof.
  unfold handle_write. destruct (id =? PCAP_STREAM_ID)%Z; [|track].
  apply tracks_get_bind. intros s b s'. destruct (pcap_stream s) as [p|] eqn:Hp; [|by intros [= <- <-]].
  unfold mbind, M_bind, pcap_write. destruct (PcapStream_write data p (world s)) as [p' w] eqn:E.
  destruct (at_max_size p') eqn:Hm; simpl; rewrite ?stop_packet_capture_eq; intros [= <- <-]; apply rtc_once.
  - by apply (io_pcap_full s p data p' w).
  - by apply (io_pcap_write s p data p' w).
Qed.
#[local] Hint Resolve tracks_handle_write : protun.

Lemma tracks_handle_action id k : tracks io_step (handle_action id k).
Proof. unfold handle_action. track. Qed.
#[local] Hint Resolve tracks_handle_action : protun.

Lemma tracks_pull_once : tracks io_step pull_once.
Proof. unfold pull_once. track. Qed.
#[local] Hint Resolve tracks_pull_once : protun.

Lemma handle_message_event m h ev h' :
  handle_message m h = (Some ev, h') -> ~ capture_event ev.
Proof.
  destruct m as [v|e| |]; simpl; [|intros E; simplify_eq..]; try exact id;
    [|unfold handle_error, policy_refused in *; repeat (case_match; simplify_eq); exact id].
  assert (forall st v, (handle_stat st v h).1 = Some ev -> ~ capture_event ev) as Hst.
  { intros st x. unfold handle_stat, accumulate, emit_event_when_full.
    repeat (case_match; simplify_eq/=); intros; simplify_eq/=; exact id. }
  destruct v; simpl; intros E; simplify_eq; try (eapply Hst; by rewrite E).
  unfold handle_jails in E. by case_match; simplify_eq.
Qed.

Lemma tracks_agent_message m : tracks io_step (handle_agent_message m).
Proof.
  apply tracks_get_bind. intros s b s'. destruct (local_agent_handler s) as [h|] eqn:Hh; [|by intros [= <- <-]].
  destruct (handle_message m h) as [ev h'] eqn:E. intros Hm.
  eapply rtc_l; [by apply (io_agent s h h'); [|eapply agent_message]|].
  destruct ev as [ev|]; [|by injection Hm as <- <-].
  eapply tracks_event; [by eapply handle_message_event|exact Hm].
Qed.

#[local] Hint Resolve tracks_agent_message : protun.

Lemma tracks_agent_messages n : tracks io_step (pull_agent_messages n).
Proof.
  induction n as [|n IH]; simpl; (apply tracks_bind; [track|intros [m|]; track]).
Qed.
#[local] Hint Resolve tracks_agent_messages : protun.

Lemma tracks_pull_from_client n : tracks io_step (pull_from_client n).
Proof. unfold pull_from_client. track. Qed.
#[local] Hint Resolve tracks_pull_from_client : protun.

Context {str_laws : StreamLaws T}.

Lemma tracks_read_stream id : tracks io_step (read_stream id).
Proof.
  intros s a s'. unfold read_stream. destruct (get_stream id (conn_streams s)) as [t|]; [|by intros [= <- <-]].
  destruct (stream_read (stream_read_buffer s) t) as [[r buf] t'] eqn:E. intros [= <- <-].
  eapply rtc_l; [apply (io_streams s)|]. apply rtc_once, io_buffer.
  apply read_in_bounds in E as [Hl _]. exact Hl.
Qed.

Lemma tracks_slice off n : tracks io_step (buffer_slice off n : M conn _).
Proof. intros s a s'. unfold buffer_slice. case_decide; [|done]. by intros [= <- <-]. Qed.
#[local] Hint Resolve tracks_read_stream tracks_slice : protun.

(** Reading pushes data only while the network is available. *)
Lemma tracks_push_read fuel id off n (b : bool) (s : conn) u s' :
  (b = true -> net_up s = true) ->
  when b (data ← buffer_slice off n;
          client_do (push (Action_read id data)) ;; pull_from_client fuel) s = Ret (u, s') ->
  rtc io_step s s'.
Proof.
  intros Hb. destruct b; [|by intros [= <- <-]]. simpl. unfold mbind, M_bind, buffer_slice.
  case_decide; [|done]. simpl. intros Hp.
  eapply rtc_l; [|by eapply tracks_pull_from_client; exact Hp].
  apply io_push. intros _. by apply Hb.
Qed.

Lemma tracks_read_one fuel id : tracks io_step (read_one fuel id).
Proof.
  unfold read_one. apply tracks_bind; [track|intros [res|]; [|track]].
  apply tracks_bind; [track|intros _]. destruct res; [|track..].
  apply tracks_get_bind. intros s b s' Hs. unfold mbind, M_bind in Hs.
  destruct (when _ _ s) as [[u s1]| |] eqn:E; [|done..]. injection Hs as <- <-.
  eapply tracks_push_read; [|exact E]. intros [_ ?]%andb_true_iff. done.
Qed.
#[local] Hint Resolve tracks_read_one : protun.

Lemma tracks_read_pass fuel l : tracks io_step (read_pass fuel l).
Proof. induction l; simpl; track. Qed.
#[local] Hint Resolve tracks_read_pass : protun.

Lemma tracks_read_from_streams fuel n l : tracks io_step (read_from_streams fuel n l).
Proof. revert l. induction n; intros [|id l]; simpl; track. Qed.
#[local] Hint Resolve tracks_read_from_streams : protun.

Lemma tracks_handle_poll_results fuel l : tracks io_step (handle_poll_results fuel l).
Proof. unfold handle_poll_results, handle_poll_result. track. Qed.
#[local] Hint Resolve tracks_handle_poll_results : protun.

Lemma tracks_poll_deadline : tracks io_step poll_deadline.
Proof. unfold poll_deadline. track. Qed.
#[local] Hint Resolve tracks_poll_deadline : protun.

Lemma tracks_on_resumed now :
  tracks io_step (liftS network_recovery_handler set_recovery (on_resumed now)).
Proof. apply tracks_lift. intros s b h E. by apply (io_recovery s (OpResumed now) b). Qed.
#[local] Hint Resolve tracks_on_resumed : protun.

Lemma tracks_poll_from_streams fuel : tracks io_step (poll_from_streams fuel).
Proof. unfold poll_from_streams. track. Qed.
#[local] Hint Resolve tracks_poll_from_streams : protun.

(** ** Reporting *)

Lemma set_state_eq st (s : conn) : set_state st s = Ret ((), maybe_report st s).
Proof.
  unfold set_state, maybe_report, mbind, M_bind. simpl. by destruct (bool_decide _).
Qed.

Lemma maybe_report_steps st s : state_allowed s st -> rtc io_step s (maybe_report st s).
Proof.
  intros Ha. unfold maybe_report. case_bool_decide; [|done]. by apply rtc_once, io_state.
Qed.

Lemma get_state_fits info h :
  state_fits_mode true (get_state info h) /\ forall ps wr, get_state info h <> Connecting ps wr.
Proof. unfold get_state. by repeat case_match. Qed.

(** The state computed is allowed where it is reported. *)
Lemma peer_connection_state_spec info (s s' : conn) st :
  get_peer_connection_state info s = Ret (st, s') -> rtc io_step s s' /\ state_allowed s' st.
Proof.
  unfold get_peer_connection_state, mbind, M_bind. simpl. unfold state_allowed.
  change (is_network_available (network_recovery_handler s)) with (net_up s).
  destruct (net_up s) eqn:Hn; simpl.
  - destruct info as [[pr pe ad si|pr pe ad|]|].
    + destruct (local_agent_handler s) as [h|] eqn:Hh; intros [= <- <-].
      * split; [apply rtc_once; by apply (io_agent s h); [|constructor]|].
        unfold net_up in *. simpl. rewrite Hn. unfold has_agent. simpl.
        destruct (get_state_fits (get_peer_connection_info pe ad pr)
          (on_connected_to_peer (get_peer_connection_info pe ad pr) h)) as [Hf Hc].
        split; [|done]. intros ps wr E. by apply Hc in E.
      * split; [done|]. rewrite Hn. split; [done|]. unfold has_agent. simpl. by rewrite Hh.
    + intros [= <- <-]. split; [done|]. rewrite Hn. split; [|done]. by intros ps wr [= _ <-].
    + intros [= <- <-]. split; [done|]. rewrite Hn.
      destruct (SanitizedPeers_is_empty _); simpl; (split; [|done]); [done|]. by intros ps wr [= _ <-].
    + intros [= <- <-]. split; [done|]. by rewrite Hn.
  - intros [= <- <-]. split; [done|]. rewrite Hn. split; [|done]. eexists. reflexivity.
Qed.

Lemma tracks_update_state : tracks io_step update_state.
Proof.
  unfold update_state. apply tracks_bind; [track|]. intros info s b s'.
  intros (st & s1 & E & Hs)%bind_inv. apply peer_connection_state_spec in E as [Hr Ha].
  rewrite (bind_eq _ _ _ _ _ (set_state_eq st s1)) in Hs.
  etrans; [done|]. etrans; [by apply maybe_report_steps|].
  revert Hs. generalize (maybe_report st s1) as s2. intros s2. unfold mbind, M_bind. simpl.
  destruct (connection_state s2); try by intros [= <- <-].
  apply (tracks_recovery_do OpConnected); [done|reflexivity].
Qed.
#[local] Hint Resolve tracks_update_state : protun.

Lemma tracks_iteration fuel : tracks io_step (iteration fuel).
Proof. unfold iteration. track. Qed.

(** ** Messages *)

Lemma tracks_io {A} (m : M conn A) : tracks io_step m -> tracks msg_step m.
Proof. apply tracks_mono. apply st_io. Qed.

Lemma tracks_msg {A} (m : M conn A) : tracks msg_step m -> tracks conn_step m.
Proof. apply tracks_mono. apply st_msg. Qed.

Ltac io := apply tracks_io; track.

Lemma conn_connectivity_eq ev info (s : conn) :
  conn_on_connectivity_change ev info s =
  let s1 := set_recovery (on_connectivity_change ev (network_recovery_handler s)) s in
  Ret ((), if net_up s1 then set_client (notify_network_change (client s)) s1
           else maybe_report (network_unavailable_state info)
                  (set_client (notify_network_down (client s)) s1)).
Proof.
  unfold conn_on_connectivity_change. rewrite (bind_eq _ _ _ () _ eq_refl), (bind_eq _ _ _ _ _ eq_refl).
  cbv zeta. unfold net_up. simpl. destruct (is_network_available _); [done|].
  rewrite (bind_eq _ _ _ () _ eq_refl). apply set_state_eq.
Qed.

Lemma tracks_connectivity ev info : tracks msg_step (conn_on_connectivity_change ev info).
Proof.
  intros s a s'. rewrite conn_connectivity_eq. cbv zeta.
  destruct (net_up _) eqn:E; intros [= <- <-]; apply rtc_once; [by apply st_up|by apply st_down].
Qed.

Lemma tracks_start_capture info : tracks msg_step (start_packet_capture info).
Proof.
  intros s a s'. unfold start_packet_capture. intros (r & s1 & E1 & E2)%bind_inv.
  unfold liftS in E1. destruct (PcapStream_new info (world s)) as [r' w] eqn:E. injection E1 as <- <-.
  destruct r' as [p|e].
  - rewrite (bind_eq _ _ _ () _ eq_refl), (bind_eq _ _ _ _ _ (client_get_eq _ _)) in E2.
    injection E2 as <- <-. apply rtc_once. by apply (st_capture_start s info p w).
  - injection E2 as <- <-. apply rtc_once. by apply (st_capture_failed s info e w).
Qed.

Lemma tracks_stop_capture r :
  r = Request \/ r = CaptureDisconnected -> tracks msg_step (stop_packet_capture r).
Proof.
  intros Hr s a s'. rewrite stop_packet_capture_eq. unfold capture_stopped.
  destruct (pcap_stream s) as [p|] eqn:Hp; intros [= <- <-]; apply rtc_once;
    [by apply st_capture_stop|by apply st_capture_stopped].
Qed.

(** A loop over peers of calls on the client. *)
Lemma forM_client {A} (l : list A) (b : A -> bool) (f : A -> C -> C) (s : conn) :
  forM l (fun x => when (negb (b x)) (client_do (f x))) s
  = Ret ((), set_client (foldl (fun c x => if b x then c else f x c) (client s) l) s).
Proof.
  revert s. induction l as [|x l IH]; intros s; simpl; [by destruct s|].
  rewrite (bind_eq _ _ _ () (if b x then s else set_client (f x (client s)) s)) by by destruct (b x).
  rewrite IH. by destruct (b x).
Qed.

Lemma update_peers_eq new (s : conn) :
  update_peers new s =
  Ret ((), if bool_decide (peers s = new) then s
           else set_peers new
             (set_client (add_peers (peers s) new (remove_peers new (peers s) (client s))) s)).
Proof.
  unfold update_peers. rewrite (bind_eq _ _ _ _ _ eq_refl). case_bool_decide; [done|].
  rewrite (bind_eq _ _ _ _ _ (forM_client _ _ _ _)), (bind_eq _ _ _ _ _ (forM_client _ _ _ _)). done.
Qed.

Lemma tracks_update_peers l : tracks msg_step (update_peers (SanitizedPeers_from l)).
Proof.
  intros s a s'. rewrite update_peers_eq. intros [= <- <-]. case_bool_decide; [done|].
  apply rtc_once, st_peers. apply sanitized_ips_NoDup.
Qed.

Lemma tracks_agent_settings st : tracks msg_step (update_local_agent_settings st).
Proof.
  apply tracks_get_bind. intros s b s'. destruct (local_agent_settings s) as [old|] eqn:E; [|by intros [= <- <-]].
  case_bool_decide; [|by intros [= <- <-]]. intros [= <- <-].
  eapply rtc_l; [by eapply (st_settings s st)|]. apply rtc_once, st_io.
  apply (io_client (set_agent_settings (Some st) s)). constructor.
Qed.

Lemma tracks_update_tun i : tracks msg_step (conn_update_tun i).
Proof. unfold conn_update_tun. io. Qed.

Lemma tracks_clock : tracks msg_step (liftO realtime_clock set_clock clock_now).
Proof. apply tracks_lift_partial. intros s t k E. apply st_clock. by exists t. Qed.

#[local] Hint Resolve tracks_connectivity tracks_start_capture tracks_update_peers
  tracks_agent_settings tracks_update_tun tracks_clock : protun.
#[local] Hint Extern 1 (tracks msg_step (client_get _)) => io : protun.
#[local] Hint Extern 1 (tracks msg_step (client_do _)) => io : protun.
#[local] Hint Extern 1 (tracks msg_step (emit_event _)) => io : protun.

Lemma tracks_pvpn_message m : tracks msg_step (handle_pvpn_message m).
Proof.
  destruct m; unfold handle_pvpn_message, if_some; track. apply tracks_stop_capture. by left.
Qed.

Lemma tracks_any_message m : tracks conn_step (handle_pvpn_message m).
Proof. apply tracks_msg, tracks_pvpn_message. Qed.

Lemma tracks_try_recv : tracks conn_step try_recv.
Proof.
  intros s a s'. unfold try_recv. destruct (message_receiver s) as [|m rest]; intros [= <- <-]; [done|].
  apply rtc_once, st_receive.
Qed.

Lemma tracks_should_stop : tracks conn_step (modify (set_should_stop true)).
Proof. apply tracks_step. intros s. apply st_stop. Qed.
#[local] Hint Resolve tracks_any_message tracks_try_recv tracks_should_stop : protun.

Lemma tracks_message_loop n : tracks conn_step (message_loop n).
Proof. induction n; simpl; track. Qed.
#[local] Hint Resolve tracks_message_loop : protun.

Lemma tracks_handle_messages : tracks conn_step handle_messages.
Proof. unfold handle_messages. track. Qed.

(** ** The loop *)

Lemma handle_messages_stop (s s' : conn) b :
  handle_messages s = Ret (b, s') -> should_stop s' = negb b.
Proof.
  unfold handle_messages. rewrite (bind_eq _ _ _ _ _ eq_refl).
  intros (u & s1 & _ & E)%bind_inv. injection E as <- <-. by destruct (should_stop s1).
Qed.

(** The last methods' effect: the capture is closed, then the state. *)
Definition loop_ended (s : conn) : conn :=
  let s1 := match pcap_stream s with Some _ => capture_stopped CaptureDisconnected s | None => s end in
  match connection_state s1 with
  | Disconnected _ => s1
  | _ => report (Disconnected None) s1
  end.

Lemma loop_end_eq (s : conn) : on_connection_loop_end s = Ret ((), loop_ended s).
Proof.
  unfold on_connection_loop_end, loop_ended. rewrite (bind_eq _ _ _ _ _ eq_refl). cbv zeta.
  rewrite (bind_eq _ _ _ () (match pcap_stream s with
    | Some _ => capture_stopped CaptureDisconnected s | None => s end))
    by (destruct (pcap_stream s); [apply stop_packet_capture_eq|done]).
  rewrite (bind_eq _ _ _ _ _ eq_refl).
  set (s1 := match pcap_stream s with Some _ => _ | None => s end).
  destruct (connection_state s1) eqn:E; try done; rewrite set_state_eq; unfold maybe_report;
    rewrite bool_decide_eq_true_2 by (rewrite E; done); done.
Qed.

Lemma loop_ended_steps (s : conn) : should_stop s = true -> rtc conn_step s (loop_ended s).
Proof.
  intros Hstop. unfold loop_ended. cbv zeta.
  set (s1 := match pcap_stream s with Some _ => _ | None => s end).
  assert (rtc conn_step s s1 /\ should_stop s1 = true /\ pcap_stream s1 = None) as (Hr & Hs1 & Hp1).
  { unfold s1, capture_stopped. destruct (pcap_stream s) as [p|] eqn:Hp; [|done]. split; [|done].
    apply rtc_once, st_msg, st_capture_stop; [by right|done]. }
  destruct (connection_state s1) eqn:E; [done|..]; (etrans; [done|]); apply rtc_once, st_end;
    (done || by rewrite E).
Qed.

Lemma tracks_run fuel n : tracks conn_step (run fuel n).
Proof.
  induction n as [|n IH]; intros s a s'; simpl; intros (b & s1 & E1 & E2)%bind_inv;
    pose proof (tracks_handle_messages _ _ _ E1) as Hm; (etrans; [exact Hm|]).
  all: destruct b; [|apply handle_messages_stop in E1; rewrite loop_end_eq in E2;
    injection E2 as <- <-; by apply loop_ended_steps].
  - done.
  - revert E2. apply tracks_bind; [apply tracks_msg, tracks_io, tracks_iteration|intros _; exact IH].
Qed.

(** ** The steps are calls on the client and readings of the clock *)

Lemma remove_peers_calls new l (x : C) : rtc any_client_step x (remove_peers new l x).
Proof.
  revert x. induction l as [|p l IH]; intros x; [done|]. simpl. etrans; [|apply IH].
  case_match; [done|apply rtc_once, acs_remove].
Qed.

Lemma add_peers_calls old l (x : C) : rtc any_client_step x (add_peers old l x).
Proof.
  revert x. induction l as [|p l IH]; intros x; [done|]. simpl. etrans; [|apply IH].
  case_match; [done|apply rtc_once, acs_add].
Qed.

Lemma maybe_report_client st (s : conn) : client (maybe_report st s) = client s.
Proof. unfold maybe_report. by case_bool_decide. Qed.

Lemma conn_step_calls (s s' : conn) : conn_step s s' -> rtc any_client_step (client s) (client s').
Proof.
  assert (Hp : forall a b : C, plain_step a b -> rtc any_client_step a b) by (intros; by apply rtc_once, acs_step, cs_plain).
  assert (Hio : forall a b : conn, io_step a b -> rtc any_client_step (client a) (client b)).
  { intros a b []; try done; simpl; [by apply Hp|by apply rtc_once, acs_step, cs_push|apply Hp, cs_capture]. }
  intros [x y Hm| | |]; try done. destruct Hm; try done; rewrite ?maybe_report_client; simpl; auto.
  all: try (apply Hp; constructor).
  etrans; [apply remove_peers_calls|apply add_peers_calls].
Qed.

Lemma conn_steps_calls (s s' : conn) : rtc conn_step s s' -> rtc any_client_step (client s) (client s').
Proof. induction 1 as [|x y z Hs%conn_step_calls _ IH]; [done|]. by etrans. Qed.

(** The time cannot be told now, or at some later reading. *)
Definition time_panics (s : conn) : Prop := clock_fails (realtime_clock s) \/ time_fails (client s).

Lemma maybe_report_clock st (s : conn) : realtime_clock (maybe_report st s) = realtime_clock s.
Proof. unfold maybe_report. by case_bool_decide. Qed.

Lemma io_step_clock (s s' : conn) : io_step s s' -> realtime_clock s' = realtime_clock s.
Proof. by intros []. Qed.

Lemma conn_step_clock (s s' : conn) : conn_step s s' -> rtc clock_read (realtime_clock s) (realtime_clock s').
Proof.
  intros [x y Hm| | |]; try done. destruct Hm as [a b Hs| | | | | | | | |]; try done.
  - by rewrite (io_step_clock a b).
  - by rewrite maybe_report_clock.
  - by apply rtc_once.
Qed.

Lemma tracks_clock_fails {A} (m : M conn A) s a s' :
  tracks conn_step m -> m s = Ret (a, s') -> clock_fails (realtime_clock s') -> clock_fails (realtime_clock s).
Proof.
  intros Hm E. apply (rtc_backward conn_step (fun s => clock_fails (realtime_clock s))); [|by eapply Hm].
  intros x y Hs%conn_step_clock. by apply clock_fails_reads.
Qed.

Lemma conn_step_panics (s s' : conn) : conn_step s s' -> time_panics s' -> time_panics s.
Proof.
  intros Hs [Hf|Hf]; [left|right; by eapply time_fails_calls; [apply conn_step_calls|]].
  eapply clock_fails_reads; [by apply conn_step_clock|exact Hf].
Qed.

Lemma conn_steps_panics (s s' : conn) : rtc conn_step s s' -> time_panics s' -> time_panics s.
Proof. apply rtc_backward. intros a b. apply conn_step_panics. Qed.
End steps.

#[export] Hint Constructors plain_step : protun.
#[export] Hint Extern 1 (is_read _ = false) => reflexivity : protun.
#[export] Hint Extern 1 (~ capture_event _) => exact id : protun.
#[export] Hint Resolve tracks_client_get tracks_set_time tracks_client_do tracks_push tracks_streams_do
  tracks_streams_get tracks_tun_error tracks_cache tracks_event tracks_with_stream
  tracks_handle_stream_error tracks_write_result tracks_handle_open tracks_handle_write
  tracks_handle_action tracks_pull_once tracks_agent_message tracks_agent_messages
  tracks_pull_from_client tracks_read_stream tracks_slice tracks_read_one tracks_read_pass
  tracks_read_from_streams tracks_handle_poll_results tracks_poll_deadline tracks_on_resumed
  tracks_poll_from_streams tracks_update_state tracks_iteration : protun.
#[export] Hint Resolve tracks_connectivity tracks_start_capture tracks_update_peers
  tracks_agent_settings tracks_update_tun tracks_clock tracks_pvpn_message tracks_any_message tracks_try_recv
  tracks_should_stop tracks_message_loop tracks_handle_messages tracks_run : protun.
#[export] Hint Extern 1 (tracks msg_step (client_get _)) => apply tracks_io; track : protun.
#[export] Hint Extern 1 (tracks msg_step (client_do _)) => apply tracks_io; track : protun.
