(* ===== verification/ConnectionInvariants.v ===== *)
(** * Invariants of the connection

    What the application observes of a connection, as properties of the output
    trace, and the invariants that tie the trace to the state.  Each is shown
    to be kept by every step of [ConnectionSteps.v]. *)

From S2P Require Import Prelude Types NetworkRecovery SanitizedPeers Conversions LocalAgent.
From S2P Require Import Streams Pcap PvpnClient PeerSync Connection ConnectionSteps.

(** ** Observations *)

Definition reported_state (o : Output) : option ConnectionState :=
  match o with StateChanged v => Some (vpn_connection_state v) | _ => None end.

(** The connection states reported, in order. *)
Definition reported (l : list Output) : list ConnectionState := omap reported_state l.

(** Every entry differs from the one before it, the first from [d]. *)
Fixpoint changes (d : ConnectionState) (l : list ConnectionState) : Prop :=
  match l with
  | [] => True
  | x :: l => x <> d /\ changes x l
  end.

(** The application's view of packet capture: a capture runs on a file from
    its start to a stop that names the file; a stop with no capture running
    says so. *)
Definition capture_next (st : option PcapFileInfo) (o : Output) : option (option PcapFileInfo) :=
  match o with
  | EventEmitted (PacketCaptureStarted i) => Some (Some i)
  | EventEmitted (PacketCaptureStopped r) =>
      match r, st with
      | AlreadyStopped, None => Some None
      | Request f, Some i | MaxSizeReached f, Some i | CaptureDisconnected f, Some i =>
          if decide (f = i) then Some None else None
      | _, _ => None
      end
  | _ => Some st
  end.

Fixpoint capture_run (st : option PcapFileInfo) (l : list Output) : option (option PcapFileInfo) :=
  match l with
  | [] => Some st
  | o :: l => capture_next st o ≫= fun st' => capture_run st' l
  end.

Lemma changes_snoc d l x : changes d (l ++ [x]) <-> changes d l /\ x <> default d (last l).
Proof.
  revert d. induction l as [|y l IH]; intros d; simpl; [naive_solver|].
  rewrite IH. destruct l as [|z l]; simpl; [naive_solver|].
  assert (forall d', default d' (last (z :: l)) = default d (last (z :: l))) as Hd.
  { intros d'. destruct (last (z :: l)) eqn:E; [done|]. by apply last_None in E. }
  rewrite (Hd y). naive_solver.
Qed.

Lemma capture_run_snoc st l o : capture_run st (l ++ [o]) = capture_run st l ≫= fun st' => capture_next st' o.
Proof.
  revert st. induction l as [|x l IH]; intros st; simpl; [by destruct (capture_next st o)|].
  destruct (capture_next st x) as [st'|]; simpl; [apply IH|done].
Qed.

(** ** Trace and state *)

(** The trace [l] leads to the state [st] with the capture [cap] running. *)
Record trace_ok (l : list Output) (st : ConnectionState) (cap : option PcapFileInfo) : Prop := {
  to_changes : changes (Disconnected None) (reported l);
  to_last : default (Disconnected None) (last (reported l)) = st;
  to_capture : capture_run None l = Some cap;
}.

Lemma reported_snoc l o :
  reported (l ++ [o]) = match reported_state o with Some st => reported l ++ [st] | None => reported l end.
Proof.
  unfold reported. rewrite omap_app. simpl. destruct (reported_state o); simpl; [done|by rewrite app_nil_r].
Qed.

Lemma trace_ok_other l st cap cap' o :
  trace_ok l st cap -> reported_state o = None -> capture_next cap o = Some cap' ->
  trace_ok (l ++ [o]) st cap'.
Proof.
  intros [Hc Hl Hr] Ho Hn. split; rewrite ?reported_snoc, ?Ho, ?capture_run_snoc, ?Hr; done.
Qed.

Lemma trace_ok_report l st cap v :
  trace_ok l st cap -> vpn_connection_state v <> st ->
  trace_ok (l ++ [StateChanged v]) (vpn_connection_state v) cap.
Proof.
  intros [Hc Hl Hr] Ho. split; rewrite ?reported_snoc, ?capture_run_snoc, ?Hr; simpl; [|by rewrite last_snoc|done].
  apply changes_snoc. split; [done|]. by rewrite Hl.
Qed.

Section invariants.
Context `{ids : StreamIds} {C Ss T CK : Type}.
Context `{pvpn : PvpnClient C, strs : Streams Ss T, str : Stream T, ck : Clock CK}.

Abbreviation conn := (PvpnConnection C Ss CK).

Record conn_inv (s : conn) : Prop := {
  ci_trace : trace_ok (out s) (connection_state s) (file_info <$> pcap_stream s);
  ci_max : forall p, pcap_stream s = Some p -> at_max_size p = false;
  ci_mode : state_fits_mode (has_agent s) (connection_state s);
  ci_settings : bool_decide (is_Some (local_agent_settings s)) = has_agent s;
  ci_buffer : length (stream_read_buffer s) = STREAM_BUFFER_SIZE;
  ci_recovery : recovery_wf (network_recovery_handler s);
}.

Lemma pcap_new_spec info w p w' :
  PcapStream_new info w = (Ok p, w') -> file_info p = info /\ at_max_size p = false.
Proof. unfold PcapStream_new. repeat (case_match; simplify_eq/=); intros; by simplify_eq/=. Qed.

Lemma pcap_write_info data p w p' w' : PcapStream_write data p w = (p', w') -> file_info p' = file_info p.
Proof. unfold PcapStream_write. repeat (case_match; simplify_eq/=); intros; by simplify_eq/=. Qed.

Lemma non_capture_next cap e : ~ capture_event e -> capture_next cap (EventEmitted e) = Some cap.
Proof. destruct e; simpl; (done || by intros []). Qed.

(** Reporting a state that fits the mode. *)
Lemma inv_report st s :
  conn_inv s -> st <> connection_state s -> state_fits_mode (has_agent s) st -> conn_inv (report st s).
Proof. intros [] Hne Hm. split; try done. by apply (trace_ok_report _ (connection_state s)). Qed.

Lemma inv_maybe_report st s :
  conn_inv s -> state_fits_mode (has_agent s) st -> conn_inv (maybe_report st s).
Proof. intros. unfold maybe_report. case_bool_decide; [by apply inv_report|done]. Qed.

(** Emitting an event that leads to the capture now running. *)
Lemma inv_capture (s s' : conn) e :
  conn_inv s -> out s' = out s -> connection_state s' = connection_state s ->
  local_agent_handler s' = local_agent_handler s -> local_agent_settings s' = local_agent_settings s ->
  stream_read_buffer s' = stream_read_buffer s ->
  network_recovery_handler s' = network_recovery_handler s ->
  (forall p, pcap_stream s' = Some p -> at_max_size p = false) ->
  capture_next (file_info <$> pcap_stream s) (EventEmitted e) = Some (file_info <$> pcap_stream s') ->
  conn_inv (emitted e s').
Proof.
  intros [Ht Hm Hmd Hs Hb Hr] Ho Hc Ha Hset Hbuf Hrec Hmax Hn.
  split; unfold has_agent in *; simpl; rewrite ?Ho, ?Hc, ?Ha, ?Hset, ?Hbuf, ?Hrec; try done.
  by eapply trace_ok_other.
Qed.

Lemma io_step_inv (s s' : conn) : io_step s s' -> conn_inv s -> conn_inv s'.
Proof.
  intros Hs Hi. destruct Hs as [s c' _|s a _|s ss|s buf Hl|s e|s op b h _ E|s k d|s h h' Hh _|s e He
    |s p data p' w Hp E Hm|s p data p' w Hp E Hm|s st Ha Hne].
  1-3,5: by destruct Hi.
  - destruct Hi. split; try done. simpl. congruence.
  - destruct Hi. split; try done. simpl. by eapply recovery_apply_wf.
  - destruct Hi. split; try done. simpl. by eapply trace_ok_other.
  - destruct Hi as [Ht Hm Hmd Hst Hb Hr]. unfold has_agent in *. rewrite Hh in *. by split.
  - eapply inv_capture; try done; [by destruct Hi|]. by apply non_capture_next.
  - destruct Hi as [Ht]. split; try done; simpl; [|by intros q [= <-]].
    rewrite (pcap_write_info _ _ _ _ _ E). by rewrite Hp in Ht.
  - eapply (inv_capture s); try done. simpl. rewrite Hp. simpl.
    by rewrite (pcap_write_info _ _ _ _ _ E), decide_True.
  - apply inv_report; try done. apply Ha.
Qed.

Lemma msg_step_inv (s s' : conn) : msg_step s s' -> conn_inv s -> conn_inv s'.
Proof.
  intros Hs Hi. destruct Hs as [s s' Hs|s ev s1 Hn|s ev info s1 Hn|s info e w E|s info p w E
    |s p r Hr Hp|s Hp|s new Hu|s st old Ho|s k].
  - by eapply io_step_inv.
  - destruct Hi. split; try done. simpl.
    by apply (recovery_apply_wf (OpConnectivity ev) (network_recovery_handler s) false).
  - apply inv_maybe_report; [|done]. destruct Hi. split; try done. simpl.
    by apply (recovery_apply_wf (OpConnectivity ev) (network_recovery_handler s) false).
  - by destruct Hi.
  - apply pcap_new_spec in E as [Ef Em]. eapply (inv_capture s); try done; simpl.
    + by intros q [= <-].
    + by rewrite Ef.
  - eapply (inv_capture s); try done. simpl. rewrite Hp. simpl.
    destruct Hr as [-> | ->]; by rewrite decide_True.
  - eapply (inv_capture s); try done; [by destruct Hi|]. simpl. by rewrite Hp.
  - by destruct Hi.
  - destruct Hi as [Ht Hm Hmd Hst Hb Hr]. rewrite Ho in Hst. by split.
  - by destruct Hi.
Qed.

Lemma conn_step_inv (s s' : conn) : conn_step s s' -> conn_inv s -> conn_inv s'.
Proof.
  intros Hs Hi. destruct Hs as [s s' Hs|s l|s|s Hstop Hp Hne].
  - by eapply msg_step_inv.
  - by destruct Hi.
  - by destruct Hi.
  - by apply inv_report.
Qed.

(** ** The mode *)

(** Every state ever reported fits the mode the connection was created in. *)
Definition mode_inv (agent : bool) (s : conn) : Prop :=
  has_agent s = agent /\ Forall (state_fits_mode agent) (reported (out s)).

Lemma mode_output b (s s' : conn) o :
  mode_inv b s -> has_agent s' = has_agent s -> out s' = out s ++ [o] ->
  (forall st, reported_state o = Some st -> state_fits_mode b st) -> mode_inv b s'.
Proof.
  intros [Ha Hf] Ha' Ho Hst. split; [congruence|]. rewrite Ho, reported_snoc.
  destruct (reported_state o); [|done]. apply Forall_app. split; [done|]. by apply Forall_singleton, Hst.
Qed.

Lemma mode_report b (s : conn) st : mode_inv b s -> state_fits_mode b st -> mode_inv b (report st s).
Proof. intros Hi Hst. eapply (mode_output _ s); try done. by intros ? [= <-]. Qed.

Lemma io_step_mode b (s s' : conn) : io_step s s' -> mode_inv b s -> mode_inv b s'.
Proof.
  intros Hs Hi. destruct Hs as [s c' _|s a _|s ss|s buf Hl|s e|s op b' h _ E|s k d|s h h' Hh _|s e He
    |s p data p' w Hp E Hm|s p data p' w Hp E Hm|s st Ha Hne]; try exact Hi.
  - by eapply (mode_output _ s).
  - destruct Hi as [Ha Hf]. split; [|done]. unfold has_agent in *. by rewrite Hh in Ha.
  - by eapply (mode_output _ s).
  - by eapply (mode_output _ s).
  - apply mode_report; [done|]. destruct Hi as [<- _]. apply Ha.
Qed.

Lemma conn_step_mode b (s s' : conn) : conn_step s s' -> mode_inv b s -> mode_inv b s'.
Proof.
  intros Hs Hi. destruct Hs as [s s' Hs|s l|s|s Hstop Hp Hne]; try exact Hi; [|by apply mode_report].
  destruct Hs as [s s' Hs|s ev s1 Hn|s ev info s1 Hn|s info e w E|s info p w E
    |s p r Hr Hp|s Hp|s new Hu|s st old Ho'|s k]; try exact Hi.
  - by eapply io_step_mode.
  - unfold maybe_report. case_bool_decide; [by apply mode_report|exact Hi].
  - by eapply (mode_output _ s).
  - by eapply (mode_output _ s).
  - by eapply (mode_output _ s).
Qed.

(** ** The network *)

(** While the system reports no network, the application has been told that
    the connection waits for it; only the end of the loop overrides that. *)
Definition offline_inv (s : conn) : Prop :=
  net_up s = false ->
  waiting_for_network (connection_state s)
  \/ (should_stop s = true /\ connection_state s = Disconnected None).

Lemma internal_op_network op h b h' :
  internal_op op -> recovery_apply op h = (b, h') -> network_available h' = network_available h.
Proof. intros Hi E. destruct op; try done; recovery_cases; done. Qed.

Lemma io_step_net (s s' : conn) : io_step s s' -> net_up s' = net_up s.
Proof. intros []; try done. unfold net_up. simpl. by eapply internal_op_network. Qed.

Lemma io_step_offline (s s' : conn) : io_step s s' -> offline_inv s -> offline_inv s'.
Proof.
  intros Hs Ho Hn. rewrite (io_step_net _ _ Hs) in Hn. specialize (Ho Hn).
  destruct Hs as [| | | | | | | | | | |s st Ha Hne]; try done.
  left. unfold state_allowed in Ha. rewrite Hn in Ha. apply Ha.
Qed.

Lemma msg_step_offline (s s' : conn) : msg_step s s' -> offline_inv s -> offline_inv s'.
Proof.
  intros Hs Ho. destruct Hs as [s s' Hs|s ev s1 Hn|s ev info s1 Hn|s info e w E|s info p w E
    |s p r Hr Hp|s Hp|s new Hu|s st old Ho'|s k]; try done.
  - by eapply io_step_offline.
  - intros Hf. unfold net_up in *. simpl in *. congruence.
  - intros _. left. unfold maybe_report. case_bool_decide as Hd; simpl; [by eexists|].
    simpl in Hd. rewrite <- Hd. by eexists.
Qed.

Lemma conn_step_offline (s s' : conn) : conn_step s s' -> offline_inv s -> offline_inv s'.
Proof.
  intros Hs Hi. destruct Hs as [s s' Hs|s l|s|s Hstop Hp Hne]; try done.
  - by eapply msg_step_offline.
  - intros Hn. destruct (Hi Hn) as [|[_ ?]]; [by left|by right].
  - intros Hn. by right.
Qed.

(** ** Peers *)

Context `{!PvpnClientPeers C}.

(** The client has exactly the connection's peers. *)
Definition sync_inv (s : conn) : Prop :=
  unique_ips (peers s) /\ peer_map (client s) = peers_map (peers s).

Lemma plain_peer_map (c c' : C) : plain_step c c' -> peer_map c' = peer_map c.
Proof. intros. apply peer_map_step. by apply cs_plain. Qed.

Lemma io_step_sync (s s' : conn) : io_step s s' -> sync_inv s -> sync_inv s'.
Proof.
  intros Hs [Hu Hm]. destruct Hs; try done; split; try done; simpl in *; rewrite <- Hm.
  - by apply plain_peer_map.
  - apply peer_map_step, cs_push.
  - apply plain_peer_map, cs_capture.
Qed.

Lemma msg_step_sync (s s' : conn) : msg_step s s' -> sync_inv s -> sync_inv s'.
Proof.
  intros Hs Hi. destruct Hs as [s s' Hs|s ev s1 Hn|s ev info s1 Hn|s info e w E|s info p w E
    |s p r Hr Hp|s Hp|s new Hu|s st old Ho'|s k]; try done.
  - by eapply io_step_sync.
  - destruct Hi. split; try done. simpl. by rewrite (plain_peer_map _ _ (cs_network_change _)).
  - destruct Hi. unfold maybe_report. case_bool_decide; split; try done; simpl;
      by rewrite (plain_peer_map _ _ (cs_network_down _)).
  - destruct Hi. split; try done. simpl. by rewrite (plain_peer_map _ _ (cs_capture true _)).
  - destruct Hi. split; try done. simpl. by rewrite (plain_peer_map _ _ (cs_capture false _)).
  - destruct Hi. split; try done. simpl. by rewrite (plain_peer_map _ _ (cs_capture false _)).
  - destruct Hi. split; try done. simpl. by apply sync_peers.
Qed.

Lemma conn_step_sync (s s' : conn) : conn_step s s' -> sync_inv s -> sync_inv s'.
Proof.
  intros Hs Hi. destruct Hs as [s s' Hs|s l|s|s Hstop Hp Hne]; try done.
  - by eapply msg_step_sync.
Qed.
End invariants.
