(* ===== verification/ConnectionTheorems.v ===== *)
(** * Correctness of the connection loop

    The theorems on [PvpnConnection]: what the application sees over the life
    of a connection, that a disconnect request ends it, that data is not sent
    while offline, and that no read goes out of bounds. *)

From S2P Require Import Prelude Types NetworkRecovery SanitizedPeers Conversions LocalAgent.
From S2P Require Import Streams Pcap PvpnClient PeerSync Connection ConnectionSteps ConnectionInvariants.

Section theorems.
Context `{ids : StreamIds} {C Ss T CK : Type}.
Context `{pvpn : PvpnClient C, strs : Streams Ss T, str : Stream T, ck : Clock CK}.
Context {str_laws : StreamLaws T}.

Abbreviation conn := (PvpnConnection C Ss CK).

(** ** Construction *)

(** [PvpnConnection::new]. *)
Definition connection_new (android : bool) (cl : C) (ss : Ss) (w : World)
    (receiver : list (option PvpnMessage)) (net : bool) (ps : list PeerInfo)
    (pcap : option PcapFileInfo) (clock : CK) (settings : option LocalAgentSettings)
  : outcome (() * conn) :=
  new_body pcap settings (initial android cl ss w receiver net ps clock settings).

Lemma forM_client_all {A} (l : list A) (f : A -> C -> C) (s : conn) :
  forM l (fun x => client_do (f x)) s = Ret ((), set_client (foldl (fun c x => f x c) (client s) l) s).
Proof.
  revert s. induction l as [|x l IH]; intros s; simpl; [by destruct s|].
  rewrite (bind_eq _ _ _ () _ eq_refl). by rewrite IH.
Qed.

Lemma add_peers_nil (l : list PeerInfo) (c : C) :
  foldl (fun c p => peer_add (as_peer p) c) c l = add_peers [] l c.
Proof. done. Qed.

(** The connection when the peers are added and the network state reported. *)
Definition announced (s0 : conn) : conn :=
  let s1 := set_client (add_peers [] (peers s0) (client s0)) s0 in
  if net_up s1 then s1
  else maybe_report (Connecting [] [WaitingForNetwork]) (set_client (notify_network_down (client s1)) s1).

Lemma new_body_announced pcap settings (s0 : conn) :
  new_body pcap settings s0 =
  (if_some pcap start_packet_capture ;;
   if_some settings (fun st =>
     forM local_agent_selectors_to_watch (fun sel => client_do (push_local_agent (Watch sel))) ;;
     client_do (set_settings (pvpn_settings (SessionSettings_from st))))) (announced s0).
Proof.
  unfold new_body. rewrite (bind_eq _ _ _ _ _ eq_refl), (bind_eq _ _ _ _ _ (forM_client_all _ _ _)).
  rewrite (bind_eq _ _ _ _ _ eq_refl), add_peers_nil.
  rewrite (bind_eq _ _ _ () (announced s0)); [done|].
  unfold announced, net_up. cbv zeta. simpl. destruct (is_network_available _); simpl; [done|].
  rewrite (bind_eq _ _ _ () _ eq_refl). apply set_state_eq.
Qed.

Lemma new_body_steps pcap settings (s0 s : conn) u :
  new_body pcap settings s0 = Ret (u, s) -> rtc msg_step (announced s0) s.
Proof.
  rewrite new_body_announced.
  match goal with |- ?m _ = _ -> _ => enough (tracks msg_step m) as Hm by apply Hm end.
  unfold if_some. track.
Qed.

Lemma initial_inv android cl ss w receiver net ps clock settings :
  conn_inv (set_client (add_peers [] (SanitizedPeers_from ps) cl)
              (initial android cl ss w receiver net ps clock settings) : conn).
Proof.
  split.
  - by split.
  - done.
  - done.
  - unfold has_agent. simpl. by destruct settings.
  - apply length_replicate.
  - apply recovery_new_wf.
Qed.

Lemma announced_inv android cl ss w receiver net ps clock settings :
  let s : conn := announced (initial android cl ss w receiver net ps clock settings) in
  conn_inv s /\ offline_inv s.
Proof.
  pose proof (initial_inv android cl ss w receiver net ps clock settings) as Hi.
  unfold announced. cbv zeta. simpl. destruct net; unfold net_up; simpl.
  - split; [done|]. intros Hn. discriminate Hn.
  - split.
    + apply inv_maybe_report; [|done]. destruct Hi. by split.
    + intros _. left. unfold maybe_report. simpl. eexists. reflexivity.
Qed.

Lemma new_inv android cl ss w receiver net ps pcap clock settings u s :
  connection_new android cl ss w receiver net ps pcap clock settings = Ret (u, s) ->
  conn_inv s /\ offline_inv s.
Proof.
  intros Hs%new_body_steps.
  destruct (announced_inv android cl ss w receiver net ps clock settings) as [Hi Ho].
  split; eapply rtc_invariant; try exact Hs; eauto using msg_step_inv, msg_step_offline.
Qed.

(** Creating a connection makes calls on its client. *)
Lemma new_calls android cl ss w receiver net ps pcap clock settings u s :
  connection_new android cl ss w receiver net ps pcap clock settings = Ret (u, s) ->
  rtc any_client_step cl (client s).
Proof.
  intros Hn%new_body_steps.
  assert (rtc conn_step (announced (initial android cl ss w receiver net ps clock settings)) s) as Hn'%conn_steps_calls
    by (eapply (rtc_subrel _ conn_step); [intros ???; by apply st_msg|exact Hn]).
  etrans; [|exact Hn']. unfold announced. etrans; [apply (add_peers_calls [] (SanitizedPeers_from ps))|].
  case_match; [done|]. rewrite maybe_report_client. simpl. apply rtc_once, acs_step, cs_plain, cs_network_down.
Qed.

Lemma new_panics android cl ss w receiver net ps pcap clock settings u s :
  connection_new android cl ss w receiver net ps pcap clock settings = Ret (u, s) ->
  time_panics s -> clock_fails clock \/ time_fails cl.
Proof.
  intros Hn [Hf|Hf]; [left|right; by eapply time_fails_calls; [eapply new_calls|]].
  apply new_body_steps in Hn.
  assert (clock_fails (realtime_clock (announced (initial android cl ss w receiver net ps clock settings) : conn))) as Hf'.
  { eapply (rtc_backward msg_step (fun s => clock_fails (realtime_clock s))); [|exact Hn|exact Hf].
    intros x y Hs%st_msg%conn_step_clock. by apply clock_fails_reads. }
  revert Hf'. unfold announced. case_match; [done|]. by rewrite maybe_report_clock.
Qed.

(** ** The states of the loop *)

(** [s'] is the connection at the top of a later iteration of [run]. *)
Inductive loop_reaches (fuel : nat) : conn -> conn -> Prop :=
| lr_here s : loop_reaches fuel s s
| lr_next s s1 s2 s3 :
    handle_messages s = Ret (true, s1) -> iteration fuel s1 = Ret ((), s2) ->
    loop_reaches fuel s2 s3 -> loop_reaches fuel s s3.

Lemma loop_reaches_steps fuel s s' : loop_reaches fuel s s' -> rtc conn_step s s'.
Proof.
  induction 1 as [|s s1 s2 s3 Hm Hi _ IH]; [done|].
  etrans; [by eapply tracks_handle_messages|]. etrans; [|exact IH].
  by eapply tracks_msg; [apply tracks_io, tracks_iteration|].
Qed.

Lemma io_should_stop (s s' : conn) : rtc io_step s s' -> should_stop s' = should_stop s.
Proof. induction 1 as [|x y z Hs _ IH]; [done|]. rewrite IH. by destruct Hs. Qed.

Lemma loop_reaches_not_stopped fuel s s' :
  loop_reaches fuel s s' -> should_stop s = false -> should_stop s' = false.
Proof.
  induction 1 as [|s s1 s2 s3 Hm Hi _ IH]; [done|]. intros _. apply IH.
  rewrite (io_should_stop s1 s2); [|by eapply tracks_iteration].
  by apply handle_messages_stop in Hm.
Qed.

(** Handling a message changes neither the queue nor the stop flag. *)
Lemma msg_step_inbox (s s' : conn) :
  rtc msg_step s s' ->
  message_receiver s' = message_receiver s /\ should_stop s' = should_stop s.
Proof.
  induction 1 as [|x y z Hs _ [IHm IHs]]; [done|]. rewrite IHm, IHs.
  destruct Hs as [? ? []| | | | | | | | |]; try done. unfold maybe_report. by case_bool_decide.
Qed.

Lemma new_inbox android cl ss w receiver net ps pcap clock settings u s :
  connection_new android cl ss w receiver net ps pcap clock settings = Ret (u, s) ->
  message_receiver s = receiver /\ should_stop s = false.
Proof.
  intros Hs%new_body_steps. destruct (msg_step_inbox _ _ Hs) as [-> ->].
  unfold announced, maybe_report. repeat case_match; done.
Qed.

(** What holds at the top of every iteration. *)
Lemma loop_invariants fuel android cl ss w receiver net ps pcap clock settings u s0 s :
  connection_new android cl ss w receiver net ps pcap clock settings = Ret (u, s0) ->
  loop_reaches fuel s0 s ->
  conn_inv s /\ offline_inv s /\ should_stop s = false.
Proof.
  intros Hn Hr. destruct (new_inv _ _ _ _ _ _ _ _ _ _ _ _ Hn) as [Hi Ho].
  pose proof (loop_reaches_steps _ _ _ Hr) as Hs. split_and!.
  - eapply rtc_invariant; try exact Hs; eauto using conn_step_inv.
  - eapply rtc_invariant; try exact Hs; eauto using conn_step_offline.
  - eapply loop_reaches_not_stopped; [done|]. by eapply new_inbox.
Qed.

(** ** The end of the loop *)

Lemma run_inv fuel n (s s' : conn) u :
  run fuel n s = Ret (u, s') -> exists s1, should_stop s1 = true /\ s' = loop_ended s1.
Proof.
  revert s. induction n as [|n IH]; intros s; simpl; intros (b & s1 & E1 & E2)%bind_inv;
    (destruct b; [|apply handle_messages_stop in E1; rewrite loop_end_eq in E2;
      injection E2 as <- <-; by exists s1]).
  - done.
  - apply bind_inv in E2 as (u' & s2 & _ & E2). by eapply IH.
Qed.

Lemma loop_ended_spec (s : conn) :
  should_stop s = true ->
  pcap_stream (loop_ended s) = None /\ should_stop (loop_ended s) = true
  /\ exists e, connection_state (loop_ended s) = Disconnected e.
Proof.
  intros Hs. unfold loop_ended. cbv zeta.
  set (s1 := match pcap_stream s with Some _ => _ | None => s end).
  assert (pcap_stream s1 = None /\ should_stop s1 = true) as [Hp Hs1].
  { unfold s1, capture_stopped. by destruct (pcap_stream s) eqn:Hp. }
  destruct (connection_state s1) eqn:E; split_and!; try done; by eexists.
Qed.

(** ** What the application sees *)

(** C1.  The application always knows the connection's state: at the top of
    every iteration the last state reported is the connection's state, no
    state is reported twice in a row, and before anything is reported the
    connection is disconnected. *)
Theorem states_reported (fuel : nat) (android : bool) (cl : C) (ss : Ss) (w : World)
    (receiver : list (option PvpnMessage)) (net : bool) (ps : list PeerInfo)
    (pcap : option PcapFileInfo) (clock : CK) (settings : option LocalAgentSettings) (s0 s : conn) :
  connection_new android cl ss w receiver net ps pcap clock settings = Ret ((), s0) ->
  loop_reaches fuel s0 s ->
  default (Disconnected None) (last (reported (out s))) = connection_state s
  /\ changes (Disconnected None) (reported (out s)).
Proof.
  intros Hn Hr. destruct (loop_invariants _ _ _ _ _ _ _ _ _ _ _ _ _ _ Hn Hr) as ([[]] & _). done.
Qed.

(** C2.  Packet capture follows its life cycle: the events of starting and
    stopping a capture are those of one capture at a time, each stop naming
    the file of the last start and [AlreadyStopped] being answered only when
    none runs; the connection holds a capture stream exactly while the
    events say that one runs, on the same file, and never one that has
    reached its size limit. *)
Theorem capture_lifecycle (fuel : nat) (android : bool) (cl : C) (ss : Ss) (w : World)
    (receiver : list (option PvpnMessage)) (net : bool) (ps : list PeerInfo)
    (pcap : option PcapFileInfo) (clock : CK) (settings : option LocalAgentSettings) (s0 s : conn) :
  connection_new android cl ss w receiver net ps pcap clock settings = Ret ((), s0) ->
  loop_reaches fuel s0 s ->
  capture_run None (out s) = Some (file_info <$> pcap_stream s)
  /\ forall p, pcap_stream s = Some p -> at_max_size p = false.
Proof.
  intros Hn Hr. destruct (loop_invariants _ _ _ _ _ _ _ _ _ _ _ _ _ _ Hn Hr) as ([[]] & _). done.
Qed.

(** C6.  While the system reports no network, the connection is connecting
    and waits for the network, and the application has been told so: at the
    top of every iteration, from the very first. *)
Theorem offline_reported (fuel : nat) (android : bool) (cl : C) (ss : Ss) (w : World)
    (receiver : list (option PvpnMessage)) (net : bool) (ps : list PeerInfo)
    (pcap : option PcapFileInfo) (clock : CK) (settings : option LocalAgentSettings) (s0 s : conn) :
  connection_new android cl ss w receiver net ps pcap clock settings = Ret ((), s0) ->
  loop_reaches fuel s0 s -> net_up s = false ->
  exists peers, connection_state s = Connecting peers [WaitingForNetwork]
    /\ last (reported (out s)) = Some (Connecting peers [WaitingForNetwork]).
Proof.
  intros Hn Hr Hd. destruct (loop_invariants _ _ _ _ _ _ _ _ _ _ _ _ _ _ Hn Hr) as ([[_ Hl _]] & Ho & Hs).
  destruct (Ho Hd) as [[l E]|[Hf _]]; [|congruence]. exists l. split; [done|].
  rewrite E in Hl. by destruct (last (reported (out s))); simplify_eq/=.
Qed.

(** C10.  Agent information and agent states appear exactly in local-agent
    mode: every state ever reported fits the mode the connection was created
    in, that is, connected comes with agent information exactly when local
    agent settings were given, and connecting to the agent is reported only
    then. *)
Theorem agent_mode_respected (fuel : nat) (android : bool) (cl : C) (ss : Ss) (w : World)
    (receiver : list (option PvpnMessage)) (net : bool) (ps : list PeerInfo)
    (pcap : option PcapFileInfo) (clock : CK) (settings : option LocalAgentSettings) (s0 s : conn) :
  connection_new android cl ss w receiver net ps pcap clock settings = Ret ((), s0) ->
  loop_reaches fuel s0 s ->
  Forall (state_fits_mode (bool_decide (is_Some settings))) (reported (out s)).
Proof.
  intros Hn%new_body_steps Hr%loop_reaches_steps.
  assert (mode_inv (bool_decide (is_Some settings)) s) as [_ Hf]; [|done].
  eapply rtc_invariant; [by intros a b; apply conn_step_mode|exact Hr|].
  eapply rtc_invariant; [by intros a b Hs; apply conn_step_mode, st_msg|exact Hn|].
  assert (mode_inv (bool_decide (is_Some settings))
    (initial android cl ss w receiver net ps clock settings : conn)) as Hi.
  { split; [|done]. unfold has_agent. simpl. by destruct settings. }
  unfold announced, maybe_report. repeat case_match; try exact Hi. by apply mode_report.
Qed.

(** C8.  However the loop ends, it ends disconnected and cleaned up: when
    [run] returns, the stop was requested, the connection is disconnected and
    the application has been told, no capture is left open, and the events
    show it closed. *)
Theorem run_ends_disconnected (fuel n : nat) (android : bool) (cl : C) (ss : Ss) (w : World)
    (receiver : list (option PvpnMessage)) (net : bool) (ps : list PeerInfo)
    (pcap : option PcapFileInfo) (clock : CK) (settings : option LocalAgentSettings) (s0 s : conn) :
  connection_new android cl ss w receiver net ps pcap clock settings = Ret ((), s0) ->
  run fuel n s0 = Ret ((), s) ->
  should_stop s = true /\ pcap_stream s = None
  /\ (exists e, connection_state s = Disconnected e
       /\ default (Disconnected None) (last (reported (out s))) = Disconnected e)
  /\ capture_run None (out s) = Some None.
Proof.
  intros Hn Hrun. destruct (new_inv _ _ _ _ _ _ _ _ _ _ _ _ Hn) as [Hi _].
  assert (conn_inv s) as [[_ Hl Hc] _ _ _ _ _].
  { eapply rtc_invariant; [exact conn_step_inv|by eapply tracks_run|exact Hi]. }
  apply run_inv in Hrun as (s1 & Hs1 & ->). destruct (loop_ended_spec s1 Hs1) as (Hp & Hst & e & He).
  rewrite Hp in Hc. split_and!; try done. exists e. split; [done|]. by rewrite Hl.
Qed.

(** ** Messages *)

Lemma returns_client_get {A} (f : C -> A * C) : returns (client_get f : M conn A).
Proof. apply returns_lift. Qed.
Lemma returns_client_do (f : C -> C) : returns (client_do f : M conn ()).
Proof. apply returns_modify. Qed.
Lemma returns_streams_get {A} (f : Ss -> A * Ss) : returns (streams_get f : M conn A).
Proof. apply returns_lift. Qed.
Lemma returns_set_state st : returns (set_state st : M conn ()).
Proof. intros s. eexists _, _. apply set_state_eq. Qed.
Lemma returns_start_capture i : returns (start_packet_capture i : M conn ()).
Proof. unfold start_packet_capture, emit_event, output, client_get. solve_returns. Qed.
Lemma returns_stop_capture r : returns (stop_packet_capture r : M conn ()).
Proof. intros s. eexists _, _. apply stop_packet_capture_eq. Qed.
Lemma returns_update_peers l : returns (update_peers l : M conn ()).
Proof. intros s. eexists _, _. apply update_peers_eq. Qed.
Lemma returns_connectivity ev i : returns (conn_on_connectivity_change ev i : M conn ()).
Proof. intros s. eexists _, _. apply conn_connectivity_eq. Qed.
#[local] Hint Resolve returns_client_get returns_client_do returns_streams_get returns_set_state
  returns_start_capture returns_stop_capture returns_update_peers returns_connectivity : protun.

(** Handling a message returns, unless it asks for statistics and the time of
    day cannot be told. *)
Lemma message_fate m (s : conn) :
  (exists s', handle_pvpn_message m s = Ret ((), s'))
  \/ (m = RequestStats /\ handle_pvpn_message m s = Panic /\ clock_now (realtime_clock s) = None).
Proof.
  assert (m = RequestStats \/ m <> RequestStats) as [->|Hm] by (destruct m; auto; by right).
  - simpl. rewrite (bind_eq _ _ _ _ _ (client_get_eq _ _)). destruct (get_stats (client s)).1 as [st|]; [|left; by eexists].
    simpl. unfold mbind, M_bind, liftO. simpl. destruct (clock_now (realtime_clock s)) as [[t k]|]; [left; by eexists|by right].
  - left. assert (returns (handle_pvpn_message m : M conn ())) as Hr;
      [|destruct (Hr s) as ([] & s' & E); by exists s'].
    destruct m; try done; unfold handle_pvpn_message, if_some, emit_event, output, update_local_agent_settings,
      conn_update_tun; solve_returns.
Qed.

(** The schedule left when the messages up to a pause or a disconnect
    request have been taken, and whether the latter was found. *)
Fixpoint after_messages (l : list (option PvpnMessage)) : bool * list (option PvpnMessage) :=
  match l with
  | [] => (false, [])
  | None :: l => (false, l)
  | Some Disconnect :: l => (true, l)
  | Some _ :: l => after_messages l
  end.

(** Whether statistics are asked for among the messages taken. *)
Fixpoint asks_stats (l : list (option PvpnMessage)) : bool :=
  match l with
  | [] | None :: _ | Some Disconnect :: _ => false
  | Some RequestStats :: _ => true
  | Some _ :: l => asks_stats l
  end.

Lemma asked_before_disconnect ms rest :
  asks_stats ((Some <$> ms) ++ Some Disconnect :: rest) = true -> RequestStats ∈ ms.
Proof.
  induction ms as [|m ms IH]; [done|]. csimpl. destruct m; try done; intros Ha; try (right; by apply IH). left.
Qed.

Lemma message_inbox m (s s' : conn) u :
  handle_pvpn_message m s = Ret (u, s') ->
  message_receiver s' = message_receiver s /\ should_stop s' = should_stop s.
Proof. intros E. apply msg_step_inbox. by eapply tracks_pvpn_message. Qed.

Lemma message_loop_spec n (s : conn) :
  length (message_receiver s) <= n ->
  (message_loop n s = Panic /\ asks_stats (message_receiver s) = true /\ clock_fails (realtime_clock s))
  \/ exists s', message_loop n s = Ret ((), s')
    /\ message_receiver s' = (after_messages (message_receiver s)).2
    /\ should_stop s' = (after_messages (message_receiver s)).1 || should_stop s.
Proof.
  revert s. induction n as [|n IH]; intros s Hn; simpl;
    destruct (message_receiver s) as [|m rest] eqn:Em; simpl in Hn; try lia.
  1, 2: right; exists s; unfold mbind, M_bind, try_recv; by rewrite Em.
  rewrite (bind_eq _ _ _ m (set_receiver rest s)) by (unfold try_recv; by rewrite Em).
  destruct m as [m|]; [|right; by eexists].
  assert (m = Disconnect \/ m <> Disconnect) as [->|Hm] by (destruct m; auto; by right); [right; by eexists|].
  assert (after_messages (Some m :: rest) = after_messages rest) as -> by by destruct m.
  assert (forall k, match m with Disconnect => modify (set_should_stop true) | _ => k end = k :> M conn ()) as ->
    by (intros; by destruct m).
  destruct (message_fate m (set_receiver rest s)) as [(s1 & E1)|(-> & E1 & Ef)].
  2: { left. split; [unfold mbind, M_bind; by rewrite E1|]. split; [done|by apply clock_fails_now]. }
  destruct (message_inbox _ _ _ _ E1) as [Hr Hs]. simpl in Hr, Hs. rewrite (bind_eq _ _ _ _ _ E1).
  destruct (IH s1) as [(E2 & Ha & Hf)|(s2 & E2 & Hr2 & Hs2)]; [rewrite Hr; lia|left|right].
  - split; [done|]. split; [rewrite Hr in Ha; by destruct m|]. by apply (tracks_clock_fails _ _ _ _ (tracks_any_message m) E1).
  - exists s2. by rewrite Hr2, Hs2, Hr, Hs.
Qed.

(** Handling messages does not depend on how many arrive: it takes the messages
    in order up to the first moment the queue is empty, or to the first
    disconnect request, which leaves later messages unread.  The loop is told to
    stop exactly when a disconnect request was taken now or before.  It panics
    only where the clock does. *)
Lemma handle_messages_total (s : conn) :
  (handle_messages s = Panic /\ asks_stats (message_receiver s) = true /\ clock_fails (realtime_clock s))
  \/ exists s', handle_messages s = Ret (negb (should_stop s'), s')
    /\ message_receiver s' = (after_messages (message_receiver s)).2
    /\ should_stop s' = (after_messages (message_receiver s)).1 || should_stop s.
Proof.
  unfold handle_messages. rewrite (bind_eq _ _ _ _ _ eq_refl).
  destruct (message_loop_spec (length (message_receiver s)) s) as [(E & Ha & Hf)|(s' & E & Hr & Hs)]; [done|left|right].
  - split; [|done]. unfold mbind, M_bind. by rewrite E.
  - exists s'. by rewrite (bind_eq _ _ _ _ _ E).
Qed.

Lemma after_disconnect ms rest :
  Disconnect ∉ ms -> after_messages ((Some <$> ms) ++ Some Disconnect :: rest) = (true, rest).
Proof.
  induction ms as [|m ms IH]; [done|]. intros Hd. csimpl.
  assert (m <> Disconnect) by set_solver. rewrite <- IH by set_solver. by destruct m.
Qed.

(** C3.  A disconnect request is honoured at once: when it is in the queue,
    the loop handles the messages sent before it, does not enter another
    iteration, and returns, disconnected and with the capture closed, for
    any fuel at all; messages sent after it are not read.  The one exception is
    a panic on the way, of the time of day in answer to a request for
    statistics. *)
Theorem disconnect_ends_loop (fuel n : nat) (s : conn) (ms : list PvpnMessage)
    (rest : list (option PvpnMessage)) :
  message_receiver s = (Some <$> ms) ++ Some Disconnect :: rest -> Disconnect ∉ ms ->
  (exists s', run fuel n s = Ret ((), s') /\ message_receiver s' = rest
     /\ pcap_stream s' = None /\ exists e, connection_state s' = Disconnected e)
  \/ (RequestStats ∈ ms /\ run fuel n s = Panic /\ clock_fails (realtime_clock s)).
Proof.
  intros Hm Hd. destruct (handle_messages_total s) as [(E & Ha & Hf)|(s1 & E & Hr & Hs)].
  - right. split; [rewrite Hm in Ha; by eapply asked_before_disconnect|].
    split; [|done]. by destruct n; simpl; unfold mbind, M_bind; rewrite E.
  - left. rewrite Hm, after_disconnect in Hr, Hs by done. simpl in Hr, Hs.
    exists (loop_ended s1). destruct (loop_ended_spec s1 Hs) as (Hp & _ & He). rewrite Hs in E.
    split; [|split; [|done]].
    + destruct n; simpl; rewrite (bind_eq _ _ _ _ _ E); apply loop_end_eq.
    + rewrite <- Hr. unfold loop_ended, capture_stopped, report. repeat case_match; done.
Qed.

(** ** Offline *)

(** A call on the client that hands it no data read from a stream. *)
Definition quiet_step (c c' : C) : Prop :=
  plain_step c c' \/ exists a, is_read a = false /\ c' = push a c.

Lemma io_steps_quiet (s s' : conn) :
  rtc io_step s s' -> net_up s = false -> rtc quiet_step (client s) (client s').
Proof.
  induction 1 as [|x y z Hs _ IH]; [done|]. intros Hn.
  assert (rtc quiet_step (client x) (client y)) as Hq.
  { destruct Hs as [s c' Hp|s a Ha|s ss|s buf Hl|s e|s op b h _ E|s k d|s h h' Hh _|s e He
      |s p data p' w Hp E Hm|s p data p' w Hp E Hm|s st Ha Hne]; try done; apply rtc_once.
    - by left.
    - right. exists a. split; [|done]. destruct (is_read a); [|done]. by rewrite Ha in Hn.
    - left. apply cs_capture. }
  etrans; [exact Hq|]. apply IH. by rewrite (io_step_net _ _ Hs).
Qed.

(** Without a network, what is read from the streams is dropped: in a
    whole iteration of the loop, polling and reading included, no data is
    handed to the client while the system reports no network. *)
Lemma offline_reads_dropped (fuel : nat) (s s' : conn) :
  net_up s = false -> iteration fuel s = Ret ((), s') ->
  rtc quiet_step (client s) (client s') /\ net_up s' = false.
Proof.
  intros Hn E. apply tracks_iteration in E. split; [by apply io_steps_quiet|].
  eapply (rtc_invariant io_step (fun s => net_up s = false)); [|exact E|done].
  intros a b Hs Ha. by rewrite (io_step_net _ _ Hs).
Qed.

(** ** Sleeping *)

(** The loop never sleeps past a deadline: computing the poll deadline
    always succeeds, and it is the earlier of the client's deadline and of
    the scheduled retry, counted from the clock reading made for it; without
    either, the poll may wait for ever. *)
Lemma poll_deadline_earliest (s : conn) :
  let retry := (network_available (network_recovery_handler s),
                send_delayed_network_change_at (network_recovery_handler s)) in
  exists d s', poll_deadline s = Ret (d, s')
  /\ d = match wakeup_deadline (client s), retry with
         | Some x, (true, Some t) => Some (Z.min x (Z.max 0 (t - (monotonic_now (client s)).1)))
         | Some x, _ => Some x
         | None, (true, Some t) => Some (Z.max 0 (t - (monotonic_now (client s)).1))
         | None, _ => None
         end.
Proof.
  cbv zeta. unfold poll_deadline, wakeup_delay.
  rewrite (bind_eq _ _ _ _ _ eq_refl), (bind_eq _ _ _ _ _ eq_refl).
  set (h := network_recovery_handler s).
  assert (forall now t, (if (now <? t)%Z then (t - now)%Z else 0%Z) = Z.max 0 (t - now)) as Hmax.
  { intros now t. destruct (Z.ltb_spec now t); lia. }
  destruct (network_available h), (send_delayed_network_change_at h) as [t|]; simpl;
    rewrite ?(bind_eq _ _ _ _ _ (client_get_eq _ _)), ?(bind_eq _ _ _ _ _ eq_refl);
    (eexists _, _; split; [reflexivity|]); rewrite ?Hmax; by destruct (wakeup_deadline (client s)).
Qed.
End theorems.

(** ** Peers *)

Section peers.
Context `{ids : StreamIds} {C Ss T CK : Type}.
Context `{pvpn : PvpnClient C, strs : Streams Ss T, str : Stream T, ck : Clock CK}.
Context {str_laws : StreamLaws T} `{!PvpnClientPeers C}.

Abbreviation conn := (PvpnConnection C Ss CK).

(** C5.  The client and the connection agree on the peers: at the top of every
    iteration, whatever updates have been received, the client has exactly
    the sanitized peers of the connection, one per server address. *)
Theorem peers_in_sync (fuel : nat) (android : bool) (cl : C) (ss : Ss) (w : World)
    (receiver : list (option PvpnMessage)) (net : bool) (ps : list PeerInfo)
    (pcap : option PcapFileInfo) (clock : CK) (settings : option LocalAgentSettings) (s0 s : conn) :
  peer_map cl = ∅ ->
  connection_new android cl ss w receiver net ps pcap clock settings = Ret ((), s0) ->
  loop_reaches fuel s0 s ->
  peer_map (client s) = peers_map (peers s) /\ unique_ips (peers s).
Proof.
  intros He Hn%new_body_steps Hr%loop_reaches_steps.
  assert (sync_inv s) as [Hu Hm]; [|done].
  eapply rtc_invariant; [exact conn_step_sync|exact Hr|].
  eapply rtc_invariant; [exact msg_step_sync|exact Hn|].
  unfold announced, maybe_report. repeat case_match; split; try apply sanitized_ips_NoDup; simpl;
    rewrite ?(plain_peer_map _ _ (cs_network_down _)); simpl; (apply add_all_peers; [apply sanitized_ips_NoDup|done]).
Qed.
End peers.
