(* ===== verification/ConnectionSafety.v ===== *)
(** * The loop panics only with its clock, and fuel only bounds it

    A run of the loop panics only when the system's time cannot be told: no
    other operation does, the slice of the read buffer included.  A run that
    returns gives the same result under any larger bound. *)

From S2P Require Import Prelude Types NetworkRecovery SanitizedPeers Conversions LocalAgent.
From S2P Require Import Streams Pcap PvpnClient PeerSync Connection ConnectionSteps ConnectionInvariants.
From S2P Require Import ConnectionTheorems.

Section safety.
Context `{ids : StreamIds} {C Ss T CK : Type}.
Context `{pvpn : PvpnClient C, strs : Streams Ss T, str : Stream T, ck : Clock CK}.
Context {str_laws : StreamLaws T} {str_safe : StreamSafe T}.

Abbreviation conn := (PvpnConnection C Ss CK).

(** From a state that satisfies the invariant, only the clock panics. *)
Abbreviation ok := (safe (time_panics : conn -> Prop) (@conn_inv C Ss CK)).

Lemma io_step_panics (s s' : conn) : io_step s s' -> time_panics s' -> time_panics s.
Proof. intros Hs. by apply conn_step_panics, st_msg, st_io. Qed.


Lemma ok_bind {A B} (m : M conn A) (k : A -> M conn B) :
  tracks io_step m -> ok m -> (forall a, ok (k a)) -> ok (m ≫= k).
Proof. apply safe_bind; [apply io_step_inv|apply io_step_panics]. Qed.

Lemma ok_when b (m : M conn ()) : ok m -> ok (when b m).
Proof. intros Hm. by destruct b. Qed.

Lemma ok_forM {A} (l : list A) (body : A -> M conn ()) :
  (forall x, tracks io_step (body x)) -> (forall x, ok (body x)) -> ok (forM l body).
Proof. intros Ht Hb. induction l; simpl; [done|]. by apply ok_bind. Qed.

Ltac ok1 :=
  match goal with
  | |- safe _ _ (mbind _ _) => apply ok_bind; [solve [track]| |intro]
  | |- safe _ _ (when _ _) => apply ok_when
  | |- safe _ _ (forM _ _) => apply ok_forM; [solve [intro; track]|intros ?]
  | |- safe _ _ (if ?b then _ else _) => destruct b
  | |- safe _ _ (match ?x with _ => _ end) => destruct x
  | |- safe _ _ _ => solve [apply safe_returns; solve_returns]
  end.
Ltac solve_ok := repeat first [assumption | progress eauto with protun nocore | ok1].

#[local] Hint Resolve returns_client_get returns_client_do returns_streams_get returns_set_state
  returns_stop_capture : protun.

Lemma returns_streams_do f : returns (streams_do f : M conn ()).
Proof. apply returns_modify. Qed.
Lemma returns_recovery_do f : returns (recovery_do f : M conn ()).
Proof. apply returns_modify. Qed.
Lemma returns_output o : returns (output o : M conn ()).
Proof. apply returns_modify. Qed.
Lemma returns_emit e : returns (emit_event e : M conn ()).
Proof. apply returns_modify. Qed.
#[local] Hint Resolve returns_streams_do returns_recovery_do returns_output returns_emit : protun.

Lemma returns_stream_error id e : returns (handle_stream_error id e : M conn ()).
Proof. unfold handle_stream_error. solve_returns. Qed.
#[local] Hint Resolve returns_stream_error : protun.

Lemma returns_write_result id r : returns (handle_stream_write_result id r : M conn ()).
Proof. unfold handle_stream_write_result. solve_returns. Qed.
Lemma returns_handle_open id o : returns (handle_open id o : M conn ()).
Proof. unfold handle_open. solve_returns. Qed.
Lemma returns_agent_message m : returns (handle_agent_message m : M conn ()).
Proof. unfold handle_agent_message. solve_returns. Qed.
Lemma returns_update_state : returns (update_state : M conn ()).
Proof. unfold update_state, get_peer_connection_state. solve_returns. Qed.
Lemma returns_poll_deadline : returns (poll_deadline : M conn _).
Proof. unfold poll_deadline. solve_returns. Qed.
Lemma returns_read_stream id : returns (read_stream id : M conn _).
Proof. intros s. unfold read_stream. repeat case_match; by eexists _, _. Qed.
#[local] Hint Resolve returns_write_result returns_handle_open returns_agent_message
  returns_update_state returns_poll_deadline returns_read_stream : protun.

Lemma ok_with_stream {A} id (op : M T A) : (forall t, op t <> Panic) -> ok (with_stream id op).
Proof.
  intros Hop s _. unfold with_stream. destruct (get_stream id (conn_streams s)) as [t|]; [|done].
  specialize (Hop t). by destruct (op t) as [[]| |].
Qed.

Lemma ok_set_time : ok (client_try set_current_time).
Proof. apply safe_lift_partial. intros s E. right. by apply time_fails_now. Qed.
#[local] Hint Resolve ok_set_time : protun.

Lemma ok_handle_write id data : ok (handle_write id data).
Proof.
  unfold handle_write. destruct (id =? PCAP_STREAM_ID)%Z.
  - apply safe_returns. apply returns_bind; [apply returns_get|]. intros [p|]; [|apply returns_ret].
    apply returns_bind; [|intros p'; solve_returns].
    intros s. unfold pcap_write. destruct (PcapStream_write data p (world s)). by eexists _, _.
  - repeat (case_match; [solve_ok|]). apply ok_bind; [track| |intros ?; solve_ok].
    apply ok_with_stream. apply write_no_panic.
Qed.
#[local] Hint Resolve ok_handle_write : protun.

Lemma ok_handle_action id k : ok (handle_action id k).
Proof. unfold handle_action. destruct k; solve_ok; by apply ok_with_stream. Qed.
#[local] Hint Resolve ok_handle_action : protun.

Lemma ok_pull_once : ok pull_once.
Proof. unfold pull_once. solve_ok. Qed.

Lemma ok_agent_messages n : ok (pull_agent_messages n).
Proof.
  induction n as [|n IH]; simpl; solve_ok. by intros s _.
Qed.
#[local] Hint Resolve ok_agent_messages : protun.

Lemma ok_pull_from_client n : ok (pull_from_client n).
Proof.
  unfold pull_from_client. apply ok_bind; [track| |intros ?; solve_ok].
  apply (safe_whileM _ _ io_step); [apply io_step_inv|apply io_step_panics|track|apply ok_pull_once].
Qed.
#[local] Hint Resolve ok_pull_from_client : protun.

(** The slice announced by a read lies in the buffer. *)
Lemma read_stream_bounds id (s s' : conn) n off wb pw :
  read_stream id s = Ret (Some (StreamOk n off wb pw), s') ->
  off + n <= length (stream_read_buffer s').
Proof.
  unfold read_stream. destruct (get_stream id (conn_streams s)) as [t|]; [|done].
  destruct (stream_read (stream_read_buffer s) t) as [[r buf] t'] eqn:E. intros [= -> <-].
  apply read_in_bounds in E as [Hl Hb]. simpl. by rewrite Hl.
Qed.

Lemma push_panics a (s : conn) : time_panics (set_client (push a (client s)) s) -> time_panics s.
Proof.
  intros [Hf|Hf]; [by left|right]. eapply time_fails_calls; [|exact Hf]. apply rtc_once, acs_step, cs_push.
Qed.

(** Data read is pushed from within the buffer. *)
Lemma ok_push_read fuel id off n (s : conn) :
  conn_inv s -> off + n <= length (stream_read_buffer s) ->
  (data ← buffer_slice off n; client_do (push (Action_read id data)) ;; pull_from_client fuel) s = Panic ->
  time_panics s.
Proof.
  intros Hs Hb. unfold mbind at 1, M_bind at 1, buffer_slice. rewrite decide_True by done.
  rewrite (bind_eq _ _ _ _ _ eq_refl). intros Hp. eapply push_panics, ok_pull_from_client; [|exact Hp].
  destruct Hs. by split.
Qed.

Lemma ok_read_one fuel id : ok (read_one fuel id).
Proof.
  intros s Hs. unfold read_one. destruct (returns_read_stream id s) as (r & s1 & E1).
  rewrite (bind_eq _ _ _ _ _ E1).
  assert (conn_inv s1) as Hs1 by (eapply tracks_invariant; [apply io_step_inv|apply tracks_read_stream|exact Hs|exact E1]).
  intros E. apply (rtc_backward io_step time_panics s s1 io_step_panics); [by eapply tracks_read_stream|].
  destruct r as [res|]; [|done].
  set (s2 := if (id =? TUN_STREAM_ID)%Z then set_tun_error (to_tun_error res) s1 else s1).
  rewrite (bind_eq _ _ _ () s2) in E by (unfold s2; by destruct (id =? TUN_STREAM_ID)%Z).
  assert (conn_inv s2) as Hs2 by (clear E; unfold s2; case_match; [destruct Hs1; by split|done]).
  assert (time_panics s2 -> time_panics s1) as Hp
    by (clear E; unfold s2; case_match; intros Hp; exact Hp). apply Hp.
  destruct res as [n off wb pw|e|]; [| |done].
  2: { destruct (returns_stream_error id e s2) as (u & s3 & E3). by rewrite (bind_eq _ _ _ _ _ E3) in E. }
  apply read_stream_bounds in E1.
  assert (stream_read_buffer s2 = stream_read_buffer s1) as Hb by (unfold s2; by case_match).
  rewrite (bind_eq _ _ _ _ _ eq_refl) in E. apply bind_panic in E as [E|(u & s3 & _ & E)]; [|done].
  destruct ((0 <? n) && _); [|done]. eapply ok_push_read; [exact Hs2|by rewrite Hb|exact E].
Qed.
#[local] Hint Resolve ok_read_one : protun.

Lemma ok_read_pass fuel l : ok (read_pass fuel l).
Proof. induction l; simpl; solve_ok. Qed.
#[local] Hint Resolve ok_read_pass : protun.

Lemma ok_read_from_streams fuel n l : ok (read_from_streams fuel n l).
Proof. revert l. induction n; intros [|id l]; simpl; solve_ok. by intros s _. Qed.
#[local] Hint Resolve ok_read_from_streams : protun.

Lemma ok_handle_poll_results fuel l : ok (handle_poll_results fuel l).
Proof.
  unfold handle_poll_results. apply ok_bind; [unfold handle_poll_result; track| |intros ?; solve_ok].
  apply ok_forM; intros r; unfold handle_poll_result; [track|].
  apply ok_when, ok_bind; [track|apply ok_with_stream, flush_no_panic|intros ?; solve_ok].
Qed.
#[local] Hint Resolve ok_handle_poll_results : protun.

Lemma ok_iteration fuel : ok (iteration fuel).
Proof. unfold iteration, poll_from_streams. solve_ok. Qed.

Lemma ok_handle_messages : ok handle_messages.
Proof. intros s _ E. destruct (handle_messages_total s) as [(_ & _ & Hf)|(s' & E' & _)]; [by left|congruence]. Qed.

Lemma safe_conn_bind {A B} (m : M conn A) (k : A -> M conn B) :
  tracks conn_step m -> ok m -> (forall a, ok (k a)) -> ok (m ≫= k).
Proof. apply safe_bind; [apply conn_step_inv|apply conn_step_panics]. Qed.

Lemma run_safe fuel n : ok (run fuel n).
Proof.
  induction n as [|n IH]; simpl; (apply safe_conn_bind; [track|apply ok_handle_messages|intros []]);
    try (intros s _; by rewrite ?loop_end_eq).
  apply safe_conn_bind; [apply tracks_msg, tracks_io, tracks_iteration|apply ok_iteration|intros _; exact IH].
Qed.

#[local] Hint Resolve returns_start_capture : protun.

Lemma returns_new_body pcap settings : returns (new_body pcap settings : M conn ()).
Proof. unfold new_body, if_some. solve_returns. Qed.

Lemma new_run_safe fuel n android cl ss w receiver net ps pcap clock settings :
  exists s0 : conn,
    connection_new android cl ss w receiver net ps pcap clock settings = Ret ((), s0)
    /\ (run fuel n s0 = Panic -> clock_fails clock \/ time_fails cl).
Proof.
  destruct (returns_new_body pcap settings (initial android cl ss w receiver net ps clock settings))
    as ([] & s0 & E). exists s0. split; [exact E|]. intros Hp. eapply new_panics; [exact E|].
  destruct (new_inv _ _ _ _ _ _ _ _ _ _ _ _ E) as [Hi _]. by eapply run_safe.
Qed.

(** C4.  The loop panics only with its clock: a connection can always be created,
    and from there no sequence of messages, poll results, reads and writes makes
    [run] panic, unless some reading of the system's time does, the connection's
    own or the client's; in particular the slice taken from the read buffer is
    always in range.  While the clocks have an answer the loop never panics. *)
Theorem run_never_panics (fuel n : nat) (android : bool) (cl : C) (ss : Ss) (w : World)
    (receiver : list (option PvpnMessage)) (net : bool) (ps : list PeerInfo)
    (pcap : option PcapFileInfo) (clock : CK) (settings : option LocalAgentSettings) :
  exists s0 : conn,
    connection_new android cl ss w receiver net ps pcap clock settings = Ret ((), s0)
    /\ (run fuel n s0 = Panic -> clock_fails clock \/ time_fails cl).
Proof. apply new_run_safe. Qed.

(** ** Fuel *)

Lemma whileM_approx n m cond (body : M conn ()) :
  n <= m -> approximates (whileM n cond body) (whileM m cond body).
Proof. intros Hnm s o Ho. by apply whileM_mono. Qed.

Lemma agent_messages_approx n m :
  n <= m -> approximates (pull_agent_messages n : M conn ()) (pull_agent_messages m).
Proof.
  revert m. induction n as [|n IH]; intros [|m] Hnm; simpl; try lia; approx. apply IH. lia.
Qed.

Lemma pull_from_client_approx n m :
  n <= m -> approximates (pull_from_client n : M conn ()) (pull_from_client m).
Proof.
  intros Hnm. unfold pull_from_client. apply approximates_bind; [by apply whileM_approx|intros _].
  approx. by apply agent_messages_approx.
Qed.

Lemma read_one_approx n m id : n <= m -> approximates (read_one n id : M conn bool) (read_one m id).
Proof. intros Hnm. unfold read_one. approx. by apply pull_from_client_approx. Qed.

Lemma read_pass_approx n m l : n <= m -> approximates (read_pass n l : M conn _) (read_pass m l).
Proof. intros Hnm. induction l; simpl; approx. by apply read_one_approx. Qed.

Lemma read_from_streams_approx n m n' m' l :
  n <= m -> n' <= m' -> approximates (read_from_streams n n' l : M conn ()) (read_from_streams m m' l).
Proof.
  intros Hnm. revert m' l. induction n' as [|n' IH]; intros [|m'] l Hnm'; simpl; destruct l; try lia; approx.
  - by apply read_pass_approx.
  - apply IH. lia.
Qed.

Lemma iteration_approx n m : n <= m -> approximates (iteration n : M conn ()) (iteration m).
Proof.
  intros Hnm. unfold iteration, poll_from_streams, handle_poll_results. approx.
  - by apply pull_from_client_approx.
  - by apply read_from_streams_approx.
Qed.

Lemma run_approx fuel fuel' n n' :
  fuel <= fuel' -> n <= n' -> approximates (run fuel n : M conn ()) (run fuel' n').
Proof.
  intros Hf. revert n'. induction n as [|n IH]; intros [|n'] Hn; simpl; try lia; approx.
  - by apply iteration_approx.
  - apply IH. lia.
Qed.

(** The bounds on the loops are only bounds: a run of the loop that
    returns within some numbers of iterations returns the same connection
    under any larger ones. *)
Lemma run_fuel_irrelevant (fuel fuel' n n' : nat) (s s' : conn) :
  fuel <= fuel' -> n <= n' -> run fuel n s = Ret ((), s') -> run fuel' n' s = Ret ((), s').
Proof. intros Hf Hn. by apply run_approx. Qed.
End safety.
