(* ===== verification/Mailbox.v ===== *)
(** * The loop and its queue

    The loop of [Connection.v] looks at the queue of messages only through
    [try_recv]: every other operation gives the same result whatever the queue
    holds, and leaves it alone.  The messages a run answers can therefore be
    supplied one at a time, which is how the other threads supply them. *)

From S2P Require Import Prelude Types NetworkRecovery SanitizedPeers Conversions LocalAgent.
From S2P Require Import Streams Pcap PvpnClient PeerSync Connection ConnectionSteps ConnectionInvariants.
From S2P Require Import ConnectionTheorems ConnectionSafety.

(** ** Computations that commute with a change of the state *)

Section commutes.
Context {St : Type} (f : St -> St).

Definition outcome_map {A} (o : outcome (A * St)) : outcome (A * St) :=
  match o with Ret (a, s) => Ret (a, f s) | Panic => Panic | NoFuel => NoFuel end.

Definition commutes {A} (m : M St A) : Prop := forall s, m (f s) = outcome_map (m s).

Lemma commutes_ret {A} (a : A) : commutes (mret a).
Proof. done. Qed.
Lemma commutes_panic {A} : commutes (panic : M St A).
Proof. done. Qed.
Lemma commutes_no_fuel {A} : commutes (no_fuel : M St A).
Proof. done. Qed.
Lemma commutes_get {A} (g : St -> A) : (forall s, g (f s) = g s) -> commutes (get g).
Proof. intros Hg s. unfold get. simpl. by rewrite Hg. Qed.
Lemma commutes_modify (g : St -> St) : (forall s, g (f s) = f (g s)) -> commutes (modify g).
Proof. intros Hg s. unfold modify. simpl. by rewrite Hg. Qed.
Lemma commutes_lift {F A} gt st (op : F -> A * F) :
  (forall s, gt (f s) = gt s) -> (forall x s, st x (f s) = f (st x s)) -> commutes (liftS gt st op).
Proof. intros Hg Hs s. unfold liftS. rewrite Hg. destruct (op (gt s)). simpl. by rewrite Hs. Qed.
Lemma commutes_lift_partial {F A} gt st (op : F -> option (A * F)) :
  (forall s, gt (f s) = gt s) -> (forall x s, st x (f s) = f (st x s)) -> commutes (liftO gt st op).
Proof. intros Hg Hs s. unfold liftO. rewrite Hg. destruct (op (gt s)) as [[a x]|]; [|done]. simpl. by rewrite Hs. Qed.
Lemma commutes_bind {A B} (m : M St A) (k : A -> M St B) :
  commutes m -> (forall a, commutes (k a)) -> commutes (m ≫= k).
Proof.
  intros Hm Hk s. unfold mbind, M_bind. rewrite Hm. destruct (m s) as [[a s1]| |]; simpl; [|done..]. apply Hk.
Qed.
Lemma commutes_when b m : commutes m -> commutes (when b m).
Proof. by destruct b. Qed.
Lemma commutes_forM {A} (l : list A) body : (forall x, commutes (body x)) -> commutes (forM l body).
Proof. intros H. induction l; [done|]. by apply commutes_bind. Qed.
Lemma commutes_whileM n cond body :
  (forall s, cond (f s) = cond s) -> commutes body -> commutes (whileM n cond body).
Proof.
  intros Hc Hb. induction n as [|n IH]; intros s; simpl; rewrite Hc; destruct (cond s); try done.
  by apply (commutes_bind body (fun _ => whileM n cond body)).
Qed.
End commutes.

Ltac commutes1 :=
  match goal with
  | |- commutes _ (mbind _ _) => apply commutes_bind; [|intro]
  | |- commutes _ (mret _) => apply commutes_ret
  | |- commutes _ no_fuel => apply commutes_no_fuel
  | |- commutes _ (get _) => apply commutes_get; intros; reflexivity
  | |- commutes _ (modify _) => apply commutes_modify; intros; reflexivity
  | |- commutes _ (liftS _ _ _) => apply commutes_lift; intros; reflexivity
  | |- commutes _ (liftO _ _ _) => apply commutes_lift_partial; intros; reflexivity
  | |- commutes _ (when _ _) => apply commutes_when
  | |- commutes _ (forM _ _) => apply commutes_forM; intro
  | |- commutes _ (whileM _ _ _) => apply commutes_whileM; [intros; reflexivity|]
  | |- commutes _ (if ?b then _ else _) => destruct b
  | |- commutes _ (match ?x with _ => _ end) => destruct x
  end.
Ltac solve_commutes := repeat first [assumption | progress eauto with protun nocore | commutes1].

Section queue.
Context `{ids : StreamIds} {C Ss T CK : Type}.
Context `{pvpn : PvpnClient C, strs : Streams Ss T, str : Stream T, ck : Clock CK}.

Abbreviation conn := (PvpnConnection C Ss CK).

(** The computation neither looks at the queue nor changes it. *)
Definition blind {A} (m : M conn A) : Prop := forall l, commutes (set_receiver l) m.

Lemma blind_result {A} (m : M conn A) l s a s' :
  blind m -> m s = Ret (a, s') -> m (set_receiver l s) = Ret (a, set_receiver l s').
Proof. intros Hb E. by rewrite (Hb l s), E. Qed.

Lemma blind_receiver {A} (m : M conn A) s a s' : blind m -> m s = Ret (a, s') -> message_receiver s' = message_receiver s.
Proof.
  intros Hb E. pose proof (blind_result m (message_receiver s) s a s' Hb E) as E'.
  assert (set_receiver (message_receiver s) s = s) as Hs by by destruct s.
  rewrite Hs, E in E'. injection E' as ->. done.
Qed.

Lemma blind_output l o : commutes (set_receiver l) (output o : M conn ()).
Proof. by apply commutes_modify. Qed.
Lemma blind_event l e : commutes (set_receiver l) (emit_event e : M conn ()).
Proof. apply blind_output. Qed.
Lemma blind_client_do l g : commutes (set_receiver l) (client_do g : M conn ()).
Proof. by apply commutes_modify. Qed.
Lemma blind_client_get {A} l (g : C -> A * C) : commutes (set_receiver l) (client_get g : M conn A).
Proof. by apply commutes_lift. Qed.
Lemma blind_client_try {A} l (g : C -> option (A * C)) : commutes (set_receiver l) (client_try g : M conn A).
Proof. by apply commutes_lift_partial. Qed.
Lemma blind_streams_do l g : commutes (set_receiver l) (streams_do g : M conn ()).
Proof. by apply commutes_modify. Qed.
Lemma blind_streams_get {A} l (g : Ss -> A * Ss) : commutes (set_receiver l) (streams_get g : M conn A).
Proof. by apply commutes_lift. Qed.
Lemma blind_recovery l g : commutes (set_receiver l) (recovery_do g : M conn ()).
Proof. by apply commutes_modify. Qed.
Lemma blind_set_state l st : commutes (set_receiver l) (set_state st : M conn ()).
Proof.
  intros s. rewrite !set_state_eq. simpl. unfold maybe_report, report. simpl. by case_bool_decide.
Qed.
Lemma blind_with_stream {A} l id (op : M T A) : commutes (set_receiver l) (with_stream id op : M conn _).
Proof.
  intros s. unfold with_stream. simpl. destruct (get_stream id (conn_streams s)) as [t|]; [|done].
  by destruct (op t) as [[a t']| |].
Qed.
Lemma blind_read_stream l id : commutes (set_receiver l) (read_stream id : M conn _).
Proof.
  intros s. unfold read_stream. simpl. destruct (get_stream id (conn_streams s)) as [t|]; [|done].
  by destruct (stream_read (stream_read_buffer s) t) as [[r buf] t'].
Qed.
Lemma blind_slice l off n : commutes (set_receiver l) (buffer_slice off n : M conn _).
Proof. intros s. unfold buffer_slice. simpl. by case_decide. Qed.
Lemma blind_pcap_write l d p : commutes (set_receiver l) (pcap_write d p : M conn _).
Proof. intros s. unfold pcap_write. simpl. by destruct (PcapStream_write d p (world s)). Qed.
#[local] Hint Resolve blind_output blind_event blind_client_do blind_client_get blind_client_try blind_streams_do
  blind_streams_get blind_recovery blind_set_state blind_with_stream blind_read_stream blind_slice blind_pcap_write : protun.

Lemma blind_stop_capture l r : commutes (set_receiver l) (stop_packet_capture r : M conn ()).
Proof. unfold stop_packet_capture. solve_commutes. Qed.
Lemma blind_start_capture l i : commutes (set_receiver l) (start_packet_capture i : M conn ()).
Proof. unfold start_packet_capture. solve_commutes. Qed.
Lemma blind_stream_error l id e : commutes (set_receiver l) (handle_stream_error id e : M conn ()).
Proof. unfold handle_stream_error. solve_commutes. Qed.
#[local] Hint Resolve blind_stop_capture blind_start_capture blind_stream_error : protun.

Lemma blind_write_result l id r : commutes (set_receiver l) (handle_stream_write_result id r : M conn ()).
Proof. unfold handle_stream_write_result. solve_commutes. Qed.
Lemma blind_handle_open l id o : commutes (set_receiver l) (handle_open id o : M conn ()).
Proof. unfold handle_open. solve_commutes. Qed.
#[local] Hint Resolve blind_write_result blind_handle_open : protun.

Lemma blind_handle_write l id d : commutes (set_receiver l) (handle_write id d : M conn ()).
Proof. unfold handle_write. solve_commutes. Qed.
#[local] Hint Resolve blind_handle_write : protun.

Lemma blind_pull l n : commutes (set_receiver l) (pull_from_client n : M conn ()).
Proof.
  unfold pull_from_client, pull_once, handle_action. solve_commutes.
  induction n; simpl; unfold handle_agent_message; solve_commutes.
Qed.
#[local] Hint Resolve blind_pull : protun.

Lemma blind_read_one l fuel id : commutes (set_receiver l) (read_one fuel id : M conn _).
Proof. unfold read_one. solve_commutes. Qed.
#[local] Hint Resolve blind_read_one : protun.

Lemma blind_read_pass l fuel sids : commutes (set_receiver l) (read_pass fuel sids : M conn _).
Proof. induction sids; simpl; solve_commutes. Qed.
#[local] Hint Resolve blind_read_pass : protun.

Lemma blind_read_from l fuel n sids : commutes (set_receiver l) (read_from_streams fuel n sids : M conn ()).
Proof. revert sids. induction n; intros [|i sids]; simpl; solve_commutes. Qed.
#[local] Hint Resolve blind_read_from : protun.

Lemma blind_update_state l : commutes (set_receiver l) (update_state : M conn ()).
Proof. unfold update_state, get_peer_connection_state. solve_commutes. Qed.
#[local] Hint Resolve blind_update_state : protun.

Lemma blind_iteration fuel : blind (iteration fuel).
Proof.
  intros l. unfold iteration, poll_from_streams, poll_deadline, handle_poll_results, handle_poll_result.
  solve_commutes.
Qed.

Lemma blind_message m : blind (handle_pvpn_message m).
Proof.
  intros l. destruct m; unfold handle_pvpn_message, conn_on_connectivity_change, if_some, update_peers,
    update_local_agent_settings, conn_update_tun; solve_commutes.
Qed.

Lemma blind_loop_end : blind on_connection_loop_end.
Proof. intros l. unfold on_connection_loop_end, if_some. solve_commutes. Qed.

Lemma blind_new_body pcap settings : blind (new_body pcap settings).
Proof. intros l. unfold new_body, if_some. solve_commutes. Qed.
End queue.
