(* ===== verification/StreamCalls.v ===== *)
(** * The calls the connection loop makes on its stream set

    The loop of [Connection.v] touches the stream set only through the [Streams]
    interface, and the streams only through [Stream]: from one state of the loop
    to a later one, the stream set goes through calls of those interfaces.  An
    invariant that every call keeps therefore holds of the stream set throughout
    the life of a connection, which is how the stream sets of the two platforms
    are composed with the loop. *)

From S2P Require Import Prelude Types NetworkRecovery SanitizedPeers Conversions LocalAgent.
From S2P Require Import Streams Pcap MioStreams PvpnClient PeerSync Connection ConnectionSteps ConnectionInvariants.
From S2P Require Import ConnectionTheorems ConnectionSafety.

(** One call on a stream. *)
Inductive stream_call {T} `{Stream T} : T -> T -> Prop :=
| sc_read buf t r t' : stream_read buf t = (r, t') -> stream_call t t'
| sc_write data t r t' : stream_write data t = Ret (r, t') -> stream_call t t'
| sc_flush t r t' : stream_write_from_buffer t = Ret (r, t') -> stream_call t t'
| sc_option o t : stream_call t (stream_set_option o t)
| sc_shutdown t : stream_call t (stream_shutdown_write t).

(** One call on the set while actions are carried out and streams are read, a call
    on a borrowed stream included. *)
Inductive io_call {Ss T} `{Streams Ss T} `{Stream T} : Ss -> Ss -> Prop :=
| ss_stream id t t' ss :
    get_stream id ss = Some t -> stream_call t t' -> io_call ss (put_stream id t' ss)
| ss_tcp id a ss r ss' : open_new_tcp_stream id a ss = (r, ss') -> io_call ss ss'
| ss_udp id a ss r ss' : open_new_udp_stream id a ss = (r, ss') -> io_call ss ss'
| ss_close id ss : io_call ss (close_stream id ss)
| ss_wait_write id b ss : io_call ss (set_poll_enable_wait_for_write id b ss).

(** Any call on the set. *)
Inductive streams_call {Ss T} `{Streams Ss T} `{Stream T} : Ss -> Ss -> Prop :=
| ss_io ss ss' : io_call ss ss' -> streams_call ss ss'
| ss_poll d ss r ss' : poll d ss = (r, ss') -> streams_call ss ss'
| ss_tun i ss r ss' : update_tun i ss = (r, ss') -> streams_call ss ss'.

Section calls.
Context `{ids : StreamIds} {C Ss T CK : Type}.
Context `{pvpn : PvpnClient C, strs : Streams Ss T, str : Stream T, ck : Clock CK}.

Abbreviation conn := (PvpnConnection C Ss CK).

(** Any relation on the set that has the calls of input and output. *)
Context (R : relation Ss) (R_io : forall ss ss', io_call ss ss' -> R ss ss').

(** A step of the connection leaves the set alone or is one call on it. *)
Definition set_step (s s' : conn) : Prop :=
  conn_streams s' = conn_streams s \/ R (conn_streams s) (conn_streams s').

Lemma set_steps_calls (s s' : conn) : rtc set_step s s' -> rtc R (conn_streams s) (conn_streams s').
Proof. induction 1 as [|x y z [->|Hc] _ IH]; [done|done|]. by eapply rtc_l. Qed.

(** ** Steps that leave the set alone *)

Lemma keeps_modify (f : conn -> conn) :
  (forall s, conn_streams (f s) = conn_streams s) -> tracks set_step (modify f).
Proof. intros Hf. apply tracks_step. intros s. by left. Qed.

Lemma keeps_lift {F A} gt st (op : F -> A * F) :
  (forall f s, conn_streams (st f s) = conn_streams s) -> tracks set_step (liftS gt st op : M conn A).
Proof. intros Hf. apply tracks_lift. intros s a f _. by left. Qed.

Lemma keeps_lift_partial {F A} gt st (op : F -> option (A * F)) :
  (forall f s, conn_streams (st f s) = conn_streams s) -> tracks set_step (liftO gt st op : M conn A).
Proof. intros Hf. apply tracks_lift_partial. intros s a f _. by left. Qed.

#[local] Hint Extern 2 (tracks set_step (modify _)) => (apply keeps_modify; intros; reflexivity) : protun.
#[local] Hint Extern 2 (tracks set_step (liftS _ _ _)) => (apply keeps_lift; intros; reflexivity) : protun.
#[local] Hint Extern 2 (tracks set_step (liftO _ _ _)) => (apply keeps_lift_partial; intros; reflexivity) : protun.
#[local] Hint Extern 2 (tracks set_step (client_try _)) => (apply keeps_lift_partial; intros; reflexivity) : protun.
#[local] Hint Extern 2 (tracks set_step (client_do _)) => (apply keeps_modify; intros; reflexivity) : protun.
#[local] Hint Extern 2 (tracks set_step (client_get _)) => (apply keeps_lift; intros; reflexivity) : protun.
#[local] Hint Extern 2 (tracks set_step (recovery_do _)) => (apply keeps_modify; intros; reflexivity) : protun.
#[local] Hint Extern 2 (tracks set_step (output _)) => (apply keeps_modify; intros; reflexivity) : protun.
#[local] Hint Extern 2 (tracks set_step (emit_event _)) => (apply keeps_modify; intros; reflexivity) : protun.

(** ** Calls *)

Lemma calls_with_stream {A} id (op : M T A) :
  (forall t a t', op t = Ret (a, t') -> stream_call t t') -> tracks set_step (with_stream id op : M conn _).
Proof.
  intros Hop s a s'. unfold with_stream. destruct (get_stream id (conn_streams s)) as [t|] eqn:Hg; [|by intros [= <- <-]].
  destruct (op t) as [[b t']| |] eqn:E; intros; simplify_eq. apply rtc_once. right. simpl. apply R_io.
  eapply ss_stream; [exact Hg|by eapply Hop].
Qed.

Lemma calls_read_stream id : tracks set_step (read_stream id : M conn _).
Proof.
  intros s a s'. unfold read_stream. destruct (get_stream id (conn_streams s)) as [t|] eqn:Hg; [|by intros [= <- <-]].
  destruct (stream_read _ t) as [[r buf] t'] eqn:E. intros [= <- <-]. apply rtc_once. right. simpl. apply R_io.
  eapply ss_stream; [exact Hg|by eapply sc_read].
Qed.

Lemma calls_wait_write id b : tracks set_step (streams_do (set_poll_enable_wait_for_write id b) : M conn _).
Proof. apply tracks_step. intros s. right. apply R_io, ss_wait_write. Qed.

Lemma calls_close id : tracks set_step (streams_do (close_stream id) : M conn _).
Proof. apply tracks_step. intros s. right. apply R_io, ss_close. Qed.

Lemma calls_get {A} (op : Ss -> A * Ss) :
  (forall ss a ss', op ss = (a, ss') -> R ss ss') -> tracks set_step (streams_get op : M conn _).
Proof. intros Hop. apply tracks_lift. intros s a f E. right. by eapply Hop. Qed.

Lemma calls_buffer_slice off n : tracks set_step (buffer_slice off n : M conn _).
Proof. intros s a s'. unfold buffer_slice. case_decide; intros; by simplify_eq. Qed.

Lemma calls_pcap_write data p : tracks set_step (pcap_write data p : M conn _).
Proof.
  intros s a s'. unfold pcap_write. destruct (PcapStream_write _ _ _). intros [= <- <-].
  apply rtc_once. by left.
Qed.

Lemma calls_try_recv : tracks set_step (try_recv : M conn _).
Proof.
  intros s a s'. unfold try_recv. destruct (message_receiver s); intros [= <- <-]; [done|].
  apply rtc_once. by left.
Qed.
#[local] Hint Resolve calls_read_stream calls_wait_write calls_close calls_buffer_slice calls_pcap_write calls_try_recv : protun.

(** ** The methods *)

Lemma calls_set_state st : tracks set_step (set_state st : M conn _).
Proof. unfold set_state. track. Qed.
Lemma calls_stream_error id e : tracks set_step (handle_stream_error id e : M conn _).
Proof. unfold handle_stream_error. track. Qed.
Lemma calls_stop_capture r : tracks set_step (stop_packet_capture r : M conn _).
Proof. unfold stop_packet_capture. track. Qed.
Lemma calls_start_capture i : tracks set_step (start_packet_capture i : M conn _).
Proof. unfold start_packet_capture. track. Qed.
#[local] Hint Resolve calls_set_state calls_stream_error calls_stop_capture calls_start_capture : protun.

Lemma calls_write_result id r : tracks set_step (handle_stream_write_result id r : M conn _).
Proof. unfold handle_stream_write_result. track. Qed.
#[local] Hint Resolve calls_write_result : protun.

Lemma calls_handle_write id data : tracks set_step (handle_write id data : M conn _).
Proof. unfold handle_write. track. apply calls_with_stream. intros t a t' E. by eapply sc_write. Qed.
#[local] Hint Resolve calls_handle_write : protun.

Lemma calls_handle_open id o : tracks set_step (handle_open id o : M conn _).
Proof. unfold handle_open. track. apply calls_get. intros ss a ss' E. apply R_io. revert E. case_match; eauto using ss_udp, ss_tcp. Qed.
#[local] Hint Resolve calls_handle_open : protun.

Lemma calls_handle_action id k : tracks set_step (handle_action id k : M conn _).
Proof. unfold handle_action. track; apply calls_with_stream; intros t a t' [= <- <-]; constructor. Qed.
#[local] Hint Resolve calls_handle_action : protun.

Lemma calls_agent_messages n : tracks set_step (pull_agent_messages n : M conn _).
Proof. induction n; simpl; unfold handle_agent_message; track. Qed.
#[local] Hint Resolve calls_agent_messages : protun.

Lemma calls_pull n : tracks set_step (pull_from_client n : M conn _).
Proof. unfold pull_from_client, pull_once. track. Qed.
#[local] Hint Resolve calls_pull : protun.

Lemma calls_read_one fuel id : tracks set_step (read_one fuel id : M conn _).
Proof. unfold read_one. track. Qed.
#[local] Hint Resolve calls_read_one : protun.

Lemma calls_read_pass fuel l : tracks set_step (read_pass fuel l : M conn _).
Proof. induction l; simpl; track. Qed.
#[local] Hint Resolve calls_read_pass : protun.

Lemma calls_read_from fuel n l : tracks set_step (read_from_streams fuel n l : M conn _).
Proof. revert l. induction n; intros [|id l]; simpl; track. Qed.
#[local] Hint Resolve calls_read_from : protun.

Lemma calls_poll_results fuel l : tracks set_step (handle_poll_results fuel l : M conn _).
Proof.
  unfold handle_poll_results, handle_poll_result. track. apply calls_with_stream.
  intros t r t' E. by eapply sc_flush.
Qed.
#[local] Hint Resolve calls_poll_results : protun.


(** ** The rest of an iteration, and messages *)

Context (R_poll : forall d ss r ss', poll d ss = (r, ss') -> R ss ss').

Lemma calls_poll fuel : tracks set_step (poll_from_streams fuel : M conn _).
Proof.
  unfold poll_from_streams, poll_deadline. track. apply calls_get. intros ss r ss' E. by eapply R_poll.
Qed.
#[local] Hint Resolve calls_poll : protun.

Lemma calls_iteration fuel : tracks set_step (iteration fuel : M conn _).
Proof. unfold iteration, update_state, get_peer_connection_state. track. Qed.

Context (R_tun : forall i ss r ss', update_tun i ss = (r, ss') -> R ss ss').

Lemma calls_message m : tracks set_step (handle_pvpn_message m : M conn _).
Proof.
  destruct m; unfold handle_pvpn_message, if_some, conn_on_connectivity_change, update_peers,
    update_local_agent_settings, conn_update_tun; track.
  apply calls_get. intros ss r ss' E. by eapply R_tun.
Qed.
#[local] Hint Resolve calls_message : protun.

Lemma calls_message_loop n : tracks set_step (message_loop n : M conn _).
Proof. induction n; simpl; track. Qed.
#[local] Hint Resolve calls_message_loop : protun.

Lemma calls_handle_messages : tracks set_step (handle_messages : M conn _).
Proof. unfold handle_messages. track. Qed.

Lemma calls_new_body pcap settings : tracks set_step (new_body pcap settings : M conn _).
Proof. unfold new_body, if_some. track. Qed.

End calls.

Section loop_calls.
Context `{ids : StreamIds} {C Ss T CK : Type}.
Context `{pvpn : PvpnClient C, strs : Streams Ss T, str : Stream T, ck : Clock CK}.

Abbreviation conn := (PvpnConnection C Ss CK).
Abbreviation call := (@streams_call Ss T _ _).

(** The set a new connection starts with is the one it is given. *)
Lemma calls_new android cl ss w receiver net ps pcap clock settings u (s : conn) :
  connection_new android cl ss w receiver net ps pcap clock settings = Ret (u, s) ->
  rtc call ss (conn_streams s).
Proof.
  unfold connection_new. intros E.
  apply (calls_new_body call) in E. by apply set_steps_calls in E.
Qed.

Lemma calls_loop fuel (s s' : conn) : loop_reaches fuel s s' -> rtc call (conn_streams s) (conn_streams s').
Proof.
  induction 1 as [|s s1 s2 s3 Hm Hi _ IH]; [done|]. etrans; [|exact IH].
  apply (calls_handle_messages call ss_tun) in Hm. apply (calls_iteration call ss_io ss_poll) in Hi.
  by apply set_steps_calls; etrans.
Qed.

(** An invariant of the calls holds of the stream set at the top of every
    iteration of every connection. *)
Lemma loop_set_invariant (P : Ss -> Prop) fuel android cl ss w receiver net ps pcap clock settings u (s0 s : conn) :
  (forall a b, call a b -> P a -> P b) -> P ss ->
  connection_new android cl ss w receiver net ps pcap clock settings = Ret (u, s0) ->
  loop_reaches fuel s0 s -> P (conn_streams s).
Proof.
  intros HP Hss Hn%calls_new Hr%calls_loop. eapply rtc_invariant; [exact HP|etrans; [exact Hn|exact Hr]|exact Hss].
Qed.
End loop_calls.

(** ** The loop over the mio stream set *)

Section mio_loop.
Context `{ids : StreamIds} {C CK P T F : Type} `{pvpn : PvpnClient C, ck : Clock CK}.
Context `{str : Stream T, mp : MioPoll P T, sf : MioSocketFactory F T} (tun_new : Z -> T).

#[local] Instance mio_loop_streams : Streams (@MioStreams P T F) T := MioStreams_Streams tun_new.
Abbreviation conn := (PvpnConnection C (@MioStreams P T F) CK).

Lemma streams_call_mio (m m' : @MioStreams P T F) : streams_call m m' -> mio_step tun_new m m'.
Proof.
  destruct 1 as [m m' [id t t' ? _ _|id a ? r ? E|id a ? r ? E|id ?|id b ?]|d m r m' E|i m r m' E].
  - apply step_put.
  - eapply step_tcp. exact E.
  - eapply step_udp. exact E.
  - apply step_close.
  - apply step_interest.
  - eapply step_poll. exact E.
  - eapply step_tun. exact E.
Qed.

(** C24.  A connection over the mio streams: at the top of every iteration of
    its loop, whatever was opened, closed and replaced before, a poll reports
    exactly the events of the registered streams, each for the one stream that
    holds its token, and never the waker's. *)
Theorem mio_connection_routes (fuel : nat) (tun : option T) (factory : F) (p : P) (m0 : MioStreams)
    (android : bool) (cl : C) (w : World) (receiver : list (option PvpnMessage)) (net : bool)
    (ps : list PeerInfo) (pcap : option PcapFileInfo) (clock : CK) (settings : option LocalAgentSettings)
    (s0 s : conn) (deadline : option Duration) (rs : list PollResult) (m' : MioStreams) :
  MioStreams_new tun factory p = Ok m0 ->
  connection_new android cl m0 w receiver net ps pcap clock settings = Ret ((), s0) ->
  loop_reaches fuel s0 s ->
  mio_poll_streams deadline (conn_streams s) = (Ok rs, m') ->
  exists evs p', poll_poll deadline (mio_poll (conn_streams s)) = (Ok evs, p')
  /\ forall r, r ∈ rs <->
       exists ev i, ev ∈ evs /\ i ∈ streams (conn_streams s) /\ info_token i = ev_token ev
                    /\ ev_token ev <> POLL_WAKER_TOKEN /\ r = event_result i ev.
Proof.
  intros Hm Hn Hr Hp.
  assert (Hreach : mio_reachable tun_new (conn_streams s)).
  { eapply (loop_set_invariant (mio_reachable tun_new)); [|by exists tun, factory, p, m0|exact Hn|exact Hr].
    intros a b Hc%streams_call_mio (tun' & f' & p' & a0 & Ha & Hs). exists tun', f', p', a0. split; [done|].
    by eapply rtc_r. }
  destruct (mio_poll_routes tun_new _ _ _ _ Hreach Hp) as (evs & p' & E & Hevs). exists evs, p'. split; [done|].
  intros r. rewrite Hevs. split; intros (ev & i & He & Hi & Ht & Hx); exists ev, i; [|naive_solver].
  split_and!; try done. rewrite <- Ht. apply mio_reachable_wf in Hreach as (_ & Hb & _).
  apply Nat.neq_sym, Nat.lt_neq, (Hb (info_token i)). by apply list_elem_of_fmap_2.
Qed.
End mio_loop.
