(* ===== verification/Clocks.v ===== *)
(** * The clocks

    [src/connection/time.rs]: the two clocks a connection gives to the VPN
    client, over the clocks of the standard library.  Composed with the client
    and the loop, the times the library is told never go back. *)

From stdpp Require Import sorting.
From S2P Require Import Prelude Types SanitizedPeers Conversions Streams MioStreams PvpnClient PeerSync Connection ConnectionSteps.
From S2P Require Import ConnectionInvariants ConnectionTheorems.

Local Open Scope Z_scope.

(** ** The system's clocks *)

(** [std::time::Instant::now] and [std::time::SystemTime::now], in nanoseconds,
    the latter relative to the Unix epoch and possibly before it. *)
Class InstantSource (O : Type) := instant_now : O -> Z * O.
Class SystemTimeSource (O : Type) := system_time_now : O -> Z * O.

(** [Instant] is documented to be monotonic. *)
Class InstantLaws (O : Type) `{InstantSource O} := {
  last_instant : O -> Z;
  instant_monotonic o t o' : instant_now o = (t, o') -> last_instant o <= t /\ last_instant o' = t;
}.

Section clocks.
Context {O : Type} `{InstantSource O}.

Record ClientMonotonicFactory := { initial_instant : Z; mono_source : O }.

Definition ClientMonotonicFactory_new (o : O) : ClientMonotonicFactory :=
  let '(t, o) := instant_now o in {| initial_instant := t; mono_source := o |}.

(** [elapsed] saturates at zero. *)
Definition monotonic_factory_now (k : ClientMonotonicFactory) : Instant * ClientMonotonicFactory :=
  let '(t, o) := instant_now (mono_source k) in
  (Z.max 0 (t - initial_instant k), {| initial_instant := initial_instant k; mono_source := o |}).

#[global] Instance ClientMonotonicFactory_factory : InstantFactory ClientMonotonicFactory := monotonic_factory_now.
End clocks.
Arguments ClientMonotonicFactory O : clear implicits.

Section realtime.
Context {O : Type} `{SystemTimeSource O}.

Record ClientRealtimeFactory := { real_source : O }.

Definition ClientRealtimeFactory_new (o : O) : ClientRealtimeFactory := {| real_source := o |}.

(** [duration_since(UNIX_EPOCH).expect(..)]: a panic before the epoch. *)
Definition realtime_factory_now (k : ClientRealtimeFactory) : option (Instant * ClientRealtimeFactory) :=
  let '(t, o) := system_time_now (real_source k) in
  if t <? 0 then None else Some (t, {| real_source := o |}).

#[global] Instance ClientRealtimeFactory_clock : Clock ClientRealtimeFactory := realtime_factory_now.

(** The system's clock is set before the epoch now, or at some later reading. *)
Definition time_read (o o' : O) : Prop := exists t, system_time_now o = (t, o').
Definition before_epoch (o : O) : Prop := exists o', rtc time_read o o' /\ (system_time_now o').1 < 0.

Lemma realtime_read (k k' : ClientRealtimeFactory) : clock_read k k' -> time_read (real_source k) (real_source k').
Proof.
  intros [t E]. unfold clock_now, ClientRealtimeFactory_clock, realtime_factory_now in E. unfold time_read.
  destruct (system_time_now _) as [t' o]. destruct (t' <? 0); [done|]. injection E as <- <-. by exists t'.
Qed.

Lemma realtime_panics (k : ClientRealtimeFactory) : clock_now k = None <-> (system_time_now (real_source k)).1 < 0.
Proof.
  unfold clock_now, ClientRealtimeFactory_clock, realtime_factory_now. destruct (system_time_now _) as [t o]. simpl.
  destruct (Z.ltb_spec t 0); split; (done || lia).
Qed.

(** The realtime clock panics exactly before the epoch. *)
Lemma realtime_fails (k : ClientRealtimeFactory) : clock_fails k <-> before_epoch (real_source k).
Proof.
  split.
  - intros (k' & Hr & E%realtime_panics). exists (real_source k'). split; [|done].
    clear E. induction Hr as [|x y z Hs%realtime_read _ IH]; [done|by eapply rtc_l].
  - intros (o & Hr & Ho). remember (real_source k) as o0 eqn:E. revert k E.
    induction Hr as [o|o1 o2 o3 [t Hs] _ IH]; intros k ->; [by apply clock_fails_now, realtime_panics|].
    destruct (clock_now k) as [[t' k']|] eqn:Ek; [|by apply clock_fails_now].
    apply (clock_fails_reads k k'); [apply rtc_once; by exists t'|]. apply IH; [done|].
    apply (ex_intro (fun t => clock_now k = Some (t, k'))), realtime_read in Ek as [t2 Ek]. congruence.
Qed.
End realtime.
Arguments ClientRealtimeFactory O : clear implicits.

(** ** A library that remembers the times it is told *)

Record Timed (L : Type) := { timed_lib : L; told : list Instant }.
Arguments timed_lib {L} _.
Arguments told {L} _.

Definition timed_call {L A} (op : L -> A * L) (s : Timed L) : A * Timed L :=
  let '(r, l) := op (timed_lib s) in (r, {| timed_lib := l; told := told s |}).

#[global] Instance Timed_library {L} `{PvpnLibrary L} : PvpnLibrary (Timed L) := {
  lib_set_time m r s :=
    let '(x, l) := lib_set_time m r (timed_lib s) in (x, {| timed_lib := l; told := told s ++ [m] |});
  lib_add_peer p := timed_call (lib_add_peer p);
  lib_remove_peer a := timed_call (lib_remove_peer a);
  lib_pull := timed_call lib_pull;
  lib_pull_local_agent := timed_call lib_pull_local_agent;
  lib_push_local_agent a := timed_call (lib_push_local_agent a);
  lib_push a := timed_call (lib_push a);
  lib_notify_network_change := timed_call lib_notify_network_change;
  lib_tunnel_info := timed_call lib_tunnel_info;
  lib_tunnel_stats := timed_call lib_tunnel_stats;
  lib_set_settings st := timed_call (lib_set_settings st);
  lib_capture_packet := timed_call lib_capture_packet;
  lib_stop_capture_packet := timed_call lib_stop_capture_packet;
}.

(** ** Invariants of the client's calls *)

Section client_calls.
Context `{ids : StreamIds} {C Ss T CK : Type}.
Context `{pvpn : PvpnClient C, strs : Streams Ss T, str : Stream T, ck : Clock CK} `{!StreamLaws T}.
Abbreviation conn := (PvpnConnection C Ss CK).

(** An invariant of the calls holds of the client at the top of every iteration
    of every connection. *)
Lemma loop_client_invariant (P : C -> Prop) fuel android cl ss w receiver net ps pcap clock settings u (s0 s : conn) :
  (forall a b, any_client_step a b -> P a -> P b) -> P cl ->
  connection_new android cl ss w receiver net ps pcap clock settings = Ret (u, s0) ->
  loop_reaches fuel s0 s -> P (client s).
Proof.
  intros HP Hcl Hn%new_calls Hr%loop_reaches_steps%conn_steps_calls.
  eapply rtc_invariant; [exact HP|etrans; [exact Hn|exact Hr]|exact Hcl].
Qed.
End client_calls.

(** ** Time does not go back *)

Section monotone.
Context {O L KR : Type} `{PvpnLibrary L} `{InstantLaws O} {clock_r : Clock KR}.
Abbreviation KM := (ClientMonotonicFactory O).
Abbreviation Client := (PvpnClientImpl (Timed L) KM KR).

(** The last reading of the clock. *)
Definition last_reading (k : KM) : Z := Z.max 0 (last_instant (mono_source k) - initial_instant k).

Definition in_order (s : Client) : Prop :=
  StronglySorted Z.le (told (c s)) /\ Forall (fun t => 0 <= t <= last_reading (monotonic_factory s)) (told (c s)).

Lemma reading_advances (k : KM) : (instant_factory_now k).1 = last_reading (instant_factory_now k).2 /\ last_reading k <= (instant_factory_now k).1.
Proof.
  unfold instant_factory_now, ClientMonotonicFactory_factory, monotonic_factory_now, last_reading.
  destruct (instant_now (mono_source k)) as [t o] eqn:E. apply instant_monotonic in E as [Hle Heq]. simpl.
  rewrite Heq. lia.
Qed.

(** The library is told nothing new, and the clock may have moved on. *)
Lemma in_order_weaken (s s' : Client) :
  told (c s') = told (c s) -> last_reading (monotonic_factory s) <= last_reading (monotonic_factory s') ->
  in_order s -> in_order s'.
Proof.
  intros E Hle [Hs Hf]. unfold in_order. rewrite E. split; [done|].
  eapply Forall_impl; [exact Hf|]. simpl. lia.
Qed.

Lemma in_order_call {A} (op : L -> PvpnReturn A * L) (s : Client) : in_order s -> in_order (call (timed_call op) s).2.
Proof. apply in_order_weaken; unfold call, timed_call; by destruct (op _). Qed.

Lemma in_order_now (s : Client) : in_order s -> in_order (impl_monotonic_now s).2.
Proof.
  destruct (reading_advances (monotonic_factory s)) as [E Hle]. unfold impl_monotonic_now.
  destruct (instant_factory_now (monotonic_factory s)) as [t k]. simpl in *. subst t. by apply in_order_weaken.
Qed.

Lemma in_order_time (s s' : Client) ts : impl_set_current_time s = Some (ts, s') -> in_order s -> in_order s'.
Proof.
  intros Et [Hs Hf]. destruct (reading_advances (monotonic_factory s)) as [E Hle]. unfold impl_set_current_time in Et.
  destruct (instant_factory_now (monotonic_factory s)) as [t k]. simpl in *.
  destruct (clock_now (realtime_factory s)) as [[r kr]|]; [|done]. simpl in Et. unfold call in Et. simpl in Et.
  destruct (lib_set_time t r _) as [x l]. injection Et as _ <-. split; simpl.
  - apply StronglySorted_app_2; [|done|by repeat constructor].
    intros a b Ha ->%list_elem_of_singleton. rewrite Forall_forall in Hf. specialize (Hf a Ha). simpl in Hf. lia.
  - apply Forall_app. split; [|repeat constructor; unfold last_reading in *; lia].
    eapply Forall_impl; [exact Hf|]. simpl. lia.
Qed.

Lemma in_order_step (s s' : Client) : any_client_step s s' -> in_order s -> in_order s'.
Proof.
  intros [s1 s2 [s3 s4 Hs|]| |]; intros Ho; [|by apply (in_order_call _ _ Ho)..].
  destruct Hs as [c0 t c1 E|c0|c0|c0|c0|c0|c0|c0|b c0|c0|c0|c0]; simpl; try by apply in_order_call.
  - by apply (in_order_time _ _ _ E).
  - done.
  - by apply in_order_now.
  - destruct b; by apply in_order_call.
  - revert Ho. apply in_order_weaken; unfold impl_pull_local_agent; simpl; unfold timed_call;
      by destruct (lib_pull_local_agent _).
Qed.

Context {Key Cert Auth App Seed : Type} (muon_app : string -> string -> result App string).
Context (build_la : Seed -> Instant -> Instant -> option Key -> option Cert -> App -> option Auth -> L).
Context (build_no : Seed -> Instant -> Instant -> list byte -> L).
Context `{ids : StreamIds} {Ss T CK : Type} `{strs : Streams Ss T, str : Stream T, ck : Clock CK} `{!StreamLaws T}.

(** A client whose library has been told the time of its creation only. *)
Definition new_timed (o : O) (kr : KR) (mode : PvpnClientMode Key Cert Auth) (seed : Seed) : outcome (io_result Client) :=
  PvpnClientImpl_new muon_app (fun sd m r k c ap au => {| timed_lib := build_la sd m r k c ap au; told := [m] |})
    (fun sd m r k => {| timed_lib := build_no sd m r k; told := [m] |}) (ClientMonotonicFactory_new o) kr mode seed.

Lemma new_in_order o kr mode seed cl : new_timed o kr mode seed = Ret (Ok cl) -> in_order cl.
Proof.
  unfold new_timed, PvpnClientImpl_new. set (k0 := ClientMonotonicFactory_new o).
  destruct (reading_advances k0) as [E Hle]. destruct (instant_factory_now k0) as [t k]. simpl in E, Hle.
  assert (0 <= t) by (subst t; unfold last_reading; lia).
  intros Hn. unfold in_order. repeat (case_match; simplify_eq/=); (split; repeat constructor; lia).
Qed.

End monotone.
