(* ===== verification/DataPath.v ===== *)
(** * The data path of the connection loop

    What the loop of [Connection.v] carries between the VPN client and the
    streams.  The loop is run over a client and a stream set that keep a log of
    the traffic at their interfaces and otherwise behave as the ones they wrap;
    an iteration is then a sequence of steps that move one packet each. *)

From S2P Require Import Prelude Types NetworkRecovery SanitizedPeers Conversions LocalAgent.
From S2P Require Import Streams Pcap MioStreams PvpnClient PeerSync Connection ConnectionSteps ConnectionInvariants.
From S2P Require Import ConnectionTheorems Mailbox.

(** ** Logs at the interfaces *)

(** A client with the actions it gave and those it was given. *)
Record Wire (C : Type) := { wire : C; pulled : list Action; pushed : list Action }.
Arguments wire {C} _.
Arguments pulled {C} _.
Arguments pushed {C} _.

Definition on_wire {C} (f : C -> C) (x : Wire C) : Wire C :=
  {| wire := f (wire x); pulled := pulled x; pushed := pushed x |}.
Definition from_wire {C A} (f : C -> A * C) (x : Wire C) : A * Wire C :=
  let '(a, y) := f (wire x) in (a, {| wire := y; pulled := pulled x; pushed := pushed x |}).

#[global] Instance Wire_client {C} `{PvpnClient C} : PvpnClient (Wire C) := {
  set_current_time x :=
    '(t, y) ← set_current_time (wire x); Some (t, {| wire := y; pulled := pulled x; pushed := pushed x |});
  need_pull x := need_pull (wire x);
  peer_add p := on_wire (peer_add p);
  peer_remove a := on_wire (peer_remove a);
  pull x :=
    let '(a, y) := pull (wire x) in
    (a, {| wire := y; pulled := pulled x ++ option_list a; pushed := pushed x |});
  push a x := {| wire := push a (wire x); pulled := pulled x; pushed := pushed x ++ [a] |};
  push_error id k := on_wire (push_error id k);
  get_tunnel_info := from_wire get_tunnel_info;
  wakeup_deadline x := wakeup_deadline (wire x);
  notify_network_change := on_wire notify_network_change;
  notify_network_down := on_wire notify_network_down;
  get_stats := from_wire get_stats;
  monotonic_now := from_wire monotonic_now;
  set_packet_capture_enabled b := from_wire (set_packet_capture_enabled b);
  set_settings st := on_wire (set_settings st);
  pull_local_agent := from_wire pull_local_agent;
  push_local_agent a := on_wire (push_local_agent a);
}.

(** A stream with the payloads read from it and the data given to it. *)
Record Tap (T : Type) := { tap : T; tap_read : list (list byte); tap_written : list (list byte) }.
Arguments tap {T} _.
Arguments tap_read {T} _.
Arguments tap_written {T} _.

(** What a read announces, if anything. *)
Definition payload (r : StreamResult) (buf : list byte) : list (list byte) :=
  match r with
  | StreamOk n off _ _ => if 0 <? n then [take n (drop off buf)] else []
  | _ => []
  end.

Definition on_tap {T A} (f : M T A) : M (Tap T) A := fun t =>
  match f (tap t) with
  | Ret (a, t') => Ret (a, {| tap := t'; tap_read := tap_read t; tap_written := tap_written t |})
  | Panic => Panic
  | NoFuel => NoFuel
  end.

#[global] Instance Tap_stream {T} `{Stream T} : Stream (Tap T) := {
  stream_read buf t :=
    let '((r, buf'), t') := stream_read buf (tap t) in
    ((r, buf'), {| tap := t'; tap_read := tap_read t ++ payload r buf'; tap_written := tap_written t |});
  stream_write data t :=
    on_tap (stream_write data)
      {| tap := tap t; tap_read := tap_read t; tap_written := tap_written t ++ [data] |};
  stream_write_from_buffer := on_tap stream_write_from_buffer;
  stream_set_option o t :=
    {| tap := stream_set_option o (tap t); tap_read := tap_read t; tap_written := tap_written t |};
  stream_shutdown_write t :=
    {| tap := stream_shutdown_write (tap t); tap_read := tap_read t; tap_written := tap_written t |};
}.

#[global] Instance Tap_laws {T} `{StreamLaws T} : StreamLaws (Tap T).
Proof.
  split. intros buf t r buf' t'. simpl. destruct (stream_read buf (tap t)) as [[r0 b0] t0] eqn:E.
  intros [= <- <- <-]. by eapply read_in_bounds.
Qed.

(** A stream set with the log of all its streams, in order. *)
Record Taps (Ss : Type) := {
  taps : Ss;
  reads : list (StreamId * list byte);
  writes : list (StreamId * list byte);
}.
Arguments taps {Ss} _.
Arguments reads {Ss} _.
Arguments writes {Ss} _.

Definition on_taps {Ss} (f : Ss -> Ss) (x : Taps Ss) : Taps Ss :=
  {| taps := f (taps x); reads := reads x; writes := writes x |}.
Definition from_taps {Ss A} (f : Ss -> A * Ss) (x : Taps Ss) : A * Taps Ss :=
  let '(a, y) := f (taps x) in (a, {| taps := y; reads := reads x; writes := writes x |}).

#[global] Instance Taps_streams {Ss T} `{Streams Ss T} : Streams (Taps Ss) (Tap T) := {
  get_stream id x := (fun t => {| tap := t; tap_read := []; tap_written := [] |}) <$> get_stream id (taps x);
  put_stream id t x :=
    {| taps := put_stream id (tap t) (taps x);
       reads := reads x ++ ((id,.) <$> tap_read t); writes := writes x ++ ((id,.) <$> tap_written t) |};
  open_new_tcp_stream id a := from_taps (open_new_tcp_stream id a);
  open_new_udp_stream id a := from_taps (open_new_udp_stream id a);
  close_stream id := on_taps (close_stream id);
  poll d := from_taps (poll d);
  set_poll_enable_wait_for_write id b := on_taps (set_poll_enable_wait_for_write id b);
  update_tun i := from_taps (update_tun i);
  get_tun_interface_state e x := get_tun_interface_state e (taps x);
}.

(** ** One packet at a time *)

Section data.
Context `{ids : StreamIds} {C Ss T CK : Type}.
Context `{pvpn : PvpnClient C, strs : Streams Ss T, str : Stream T, ck : Clock CK}.

Abbreviation conn := (PvpnConnection (Wire C) (Taps Ss) CK).

(** The secrets handed to the application's cache. *)
Definition cached (l : list Output) : list (CacheKey * list byte) :=
  omap (fun o => match o with CachePut k d => Some (k, d) | _ => None end) l.

Record traffic := {
  t_reads : list (StreamId * list byte);
  t_writes : list (StreamId * list byte);
  t_pulled : list Action;
  t_pushes : list Action;
  t_cached : list (CacheKey * list byte);
  t_up : bool;
}.

Definition traffic_of (s : conn) : traffic :=
  {| t_reads := reads (conn_streams s); t_writes := writes (conn_streams s); t_pulled := pulled (client s);
     t_pushes := retain is_read (pushed (client s)); t_cached := cached (out s); t_up := net_up s |}.

(** A payload was read from a stream: it is pushed to the client, or dropped
    while there is no network. *)
Definition with_read (id : StreamId) (d : list byte) (t : traffic) : traffic :=
  {| t_reads := t_reads t ++ [(id, d)]; t_writes := t_writes t; t_pulled := t_pulled t;
     t_pushes := t_pushes t ++ (if t_up t then [Action_read id d] else []); t_cached := t_cached t; t_up := t_up t |}.

(** The data an action carries. *)
Definition outgoing (a : Action) : option (list byte) :=
  match act_kind a with
  | ActWrite d => Some d
  | ActOpen _ first_write => first_write
  | _ => None
  end.

Inductive destination := ToCapture | ToCache (k : CacheKey) | ToStream.

Definition destination_of (id : StreamId) : destination :=
  if (id =? PCAP_STREAM_ID)%Z then ToCapture
  else if (id =? PRIVKEY_STREAM_ID)%Z then ToCache PrivateKey
  else if (id =? CERT_STREAM_ID)%Z then ToCache Certificate
  else if (id =? MUON_AUTH_STREAM_ID)%Z then ToCache ApiSession
  else ToStream.

Definition stream_payload (a : Action) : option (StreamId * list byte) :=
  match destination_of (act_stream a), outgoing a with
  | ToStream, Some d => Some (act_stream a, d)
  | _, _ => None
  end.

Definition cache_payload (a : Action) : option (CacheKey * list byte) :=
  match destination_of (act_stream a), outgoing a with
  | ToCache k, Some d => Some (k, d)
  | _, _ => None
  end.

(** The stream set in which the stream of an action is looked up. *)
Definition set_at_write (a : Action) (ss : Ss) : Ss :=
  match act_kind a with
  | ActOpen o _ =>
      let id := act_stream a in
      let is_udp := bool_decide (os_kind o = UdpStream) in
      let '(r, ss) := if is_udp then open_new_udp_stream id (os_addr o) ss else open_new_tcp_stream id (os_addr o) ss in
      if is_ok r && negb is_udp then set_poll_enable_wait_for_write id true ss else ss
  | _ => ss
  end.

Definition present (a : Action) (ss : Ss) : bool :=
  match get_stream (act_stream a) (set_at_write a ss) with Some _ => true | None => false end.

(** An action was pulled: its data goes to where its stream says, and is lost
    when that stream does not exist. *)
Definition with_pull (a : Action) (here : bool) (t : traffic) : traffic :=
  {| t_reads := t_reads t;
     t_writes := t_writes t ++ (if here then option_list (stream_payload a) else []);
     t_pulled := t_pulled t ++ [a]; t_pushes := t_pushes t;
     t_cached := t_cached t ++ option_list (cache_payload a); t_up := t_up t |}.

Inductive data_step : conn -> conn -> Prop :=
| ds_quiet s s' : traffic_of s' = traffic_of s -> data_step s s'
| ds_read s s' id d : traffic_of s' = with_read id d (traffic_of s) -> data_step s s'
| ds_pull s s' a :
    traffic_of s' = with_pull a (present a (taps (conn_streams s))) (traffic_of s) -> data_step s s'.

(** ** Steps without traffic *)

Definition quiet (s s' : conn) : Prop := traffic_of s' = traffic_of s.

Lemma quiet_steps (s s' : conn) : rtc quiet s s' -> traffic_of s' = traffic_of s.
Proof. unfold quiet. induction 1; congruence. Qed.

Lemma quiet_data {A} (m : M conn A) : tracks quiet m -> tracks data_step m.
Proof. apply tracks_mono. apply ds_quiet. Qed.

Lemma quiet_result {A} (m : M conn A) s a s' : tracks quiet m -> m s = Ret (a, s') -> traffic_of s' = traffic_of s.
Proof. intros Hm E. eapply quiet_steps, Hm, E. Qed.

Lemma quiet_modify (f : conn -> conn) : (forall s, traffic_of (f s) = traffic_of s) -> tracks quiet (modify f).
Proof. intros Hf. apply tracks_step. exact Hf. Qed.

Lemma quiet_lift {F A} gt st (op : F -> A * F) :
  (forall f s, traffic_of (st f s) = traffic_of s) -> tracks quiet (liftS gt st op : M conn A).
Proof. intros Hf. apply tracks_lift. intros s a f _. apply Hf. Qed.

Lemma quiet_lift_partial {F A} gt st (op : F -> option (A * F)) :
  (forall f s, traffic_of (st f s) = traffic_of s) -> tracks quiet (liftO gt st op : M conn A).
Proof. intros Hf. apply tracks_lift_partial. intros s a f _. apply Hf. Qed.

Lemma cached_snoc l o : cached (l ++ [o]) = cached l ++ cached [o].
Proof. apply omap_app. Qed.

Lemma quiet_output o : cached [o] = [] -> tracks quiet (output o : M conn _).
Proof.
  intros Ho. apply quiet_modify. intros s. unfold traffic_of. simpl. by rewrite cached_snoc, Ho, app_nil_r.
Qed.

Lemma quiet_on_wire (f : C -> C) : tracks quiet (client_do (on_wire f) : M conn _).
Proof. by apply quiet_modify. Qed.

Lemma quiet_from_wire {A} (f : C -> A * C) : tracks quiet (client_get (from_wire f) : M conn _).
Proof. apply tracks_lift. intros s a x. unfold from_wire. destruct (f _). by intros [= <- <-]. Qed.

Lemma quiet_set_time : tracks quiet (client_try set_current_time : M conn _).
Proof.
  apply tracks_lift_partial. intros s a x. simpl. destruct (set_current_time _) as [[t y]|]; [|done]. by intros [= <- <-].
Qed.

Lemma quiet_push a : is_read a = false -> tracks quiet (client_do (push a) : M conn _).
Proof.
  intros Ha. apply quiet_modify. intros s. unfold traffic_of. simpl. f_equal.
  unfold retain. rewrite List.filter_app. simpl. by rewrite Ha, app_nil_r.
Qed.

Lemma quiet_on_taps (f : Ss -> Ss) : tracks quiet (streams_do (on_taps f) : M conn _).
Proof. by apply quiet_modify. Qed.

Lemma quiet_from_taps {A} (f : Ss -> A * Ss) : tracks quiet (streams_get (from_taps f) : M conn _).
Proof. apply tracks_lift. intros s a x. unfold from_taps. destruct (f _). by intros [= <- <-]. Qed.

Lemma quiet_recovery f :
  (forall h, network_available (f h) = network_available h) -> tracks quiet (recovery_do f : M conn _).
Proof.
  intros Hf. apply quiet_modify. intros s. unfold traffic_of, net_up, is_network_available. simpl. by rewrite Hf.
Qed.

(** A call on a stream that neither reads nor takes new data. *)
Lemma quiet_with_stream {A} id (op : M (Tap T) A) :
  (forall t a t', op t = Ret (a, t') -> tap_read t' = tap_read t /\ tap_written t' = tap_written t) ->
  tracks quiet (with_stream id op : M conn _).
Proof.
  intros Hop s a s'. unfold with_stream. destruct (get_stream id (conn_streams s)) as [t|] eqn:Hg; [|by intros [= <- <-]].
  destruct (op t) as [[b t']| |] eqn:E; intros; simplify_eq. apply Hop in E as [Er Ew]. apply rtc_once.
  simpl in Hg. destruct (get_stream id (taps _)); simplify_eq/=. unfold quiet, traffic_of. simpl.
  by rewrite Er, Ew, !app_nil_r.
Qed.

#[local] Hint Extern 2 (tracks quiet (modify _)) => (apply quiet_modify; intros; reflexivity) : protun.
#[local] Hint Extern 2 (tracks quiet (liftS _ _ _)) => (apply quiet_lift; intros; reflexivity) : protun.
#[local] Hint Extern 1 (tracks quiet (client_do (push _))) => (apply quiet_push; reflexivity) : protun.
#[local] Hint Extern 2 (tracks quiet (client_do _)) => apply quiet_on_wire : protun.
#[local] Hint Extern 2 (tracks quiet (client_get _)) => apply quiet_from_wire : protun.
#[local] Hint Resolve quiet_set_time : protun.
#[local] Hint Extern 2 (tracks quiet (liftO _ _ _)) => (apply quiet_lift_partial; intros; reflexivity) : protun.
#[local] Hint Extern 2 (tracks quiet (streams_do _)) => apply quiet_on_taps : protun.
#[local] Hint Extern 2 (tracks quiet (streams_get _)) => apply quiet_from_taps : protun.
#[local] Hint Extern 2 (tracks quiet (output _)) => (apply quiet_output; reflexivity) : protun.
#[local] Hint Extern 2 (tracks quiet (emit_event _)) => (apply quiet_output; reflexivity) : protun.

Lemma quiet_set_state st : tracks quiet (set_state st : M conn _).
Proof. unfold set_state. track. Qed.

Lemma on_stream_error_net err now h : network_available (on_stream_error err now h) = network_available h.
Proof. unfold on_stream_error. by repeat case_match. Qed.

Lemma quiet_stream_error id e : tracks quiet (handle_stream_error id e : M conn _).
Proof. unfold handle_stream_error. track. apply quiet_recovery. apply on_stream_error_net. Qed.

Lemma quiet_stop_capture r : tracks quiet (stop_packet_capture r : M conn _).
Proof. unfold stop_packet_capture. track. Qed.
#[local] Hint Resolve quiet_set_state quiet_stream_error quiet_stop_capture : protun.

Lemma quiet_write_result id r : tracks quiet (handle_stream_write_result id r : M conn _).
Proof. unfold handle_stream_write_result. track. Qed.

Lemma quiet_handle_open id o : tracks quiet (handle_open id o : M conn _).
Proof.
  unfold handle_open. track.
  - case_match; apply quiet_from_taps.
  - by apply quiet_recovery.
Qed.
#[local] Hint Resolve quiet_write_result quiet_handle_open : protun.

(** ** Writing *)

(** The traffic of some data for a stream, looked up in [ss]. *)
Definition with_out (id : StreamId) (d : list byte) (here : bool) (t : traffic) : traffic :=
  {| t_reads := t_reads t;
     t_writes := t_writes t ++ match destination_of id with ToStream => if here then [(id, d)] else [] | _ => [] end;
     t_pulled := t_pulled t; t_pushes := t_pushes t;
     t_cached := t_cached t ++ match destination_of id with ToCache k => [(k, d)] | _ => [] end; t_up := t_up t |}.

Definition here (id : StreamId) (ss : Ss) : bool := match get_stream id ss with Some _ => true | None => false end.

Lemma with_out_none id d b (t : traffic) : destination_of id = ToCapture \/ (destination_of id = ToStream /\ b = false) ->
  with_out id d b t = t.
Proof. destruct t. unfold with_out. simpl. intros [-> | [-> ->]]; by rewrite !app_nil_r. Qed.

(** A write that reaches its stream. *)
Lemma stream_written id d (s : conn) r s' :
  with_stream id (stream_write d) s = Ret (r, s') ->
  traffic_of s' = {| t_reads := reads (conn_streams s);
                     t_writes := writes (conn_streams s) ++ (if here id (taps (conn_streams s)) then [(id, d)] else []);
                     t_pulled := pulled (client s); t_pushes := retain is_read (pushed (client s));
                     t_cached := cached (out s); t_up := net_up s |}
  /\ (r = None <-> here id (taps (conn_streams s)) = false).
Proof.
  unfold with_stream, here. simpl. destruct (get_stream id (taps (conn_streams s))) as [t|]; simpl.
  - unfold on_tap. simpl. destruct (stream_write d t) as [[x t']| |]; [|done..]. intros [= <- <-].
    unfold traffic_of. simpl. by rewrite app_nil_r.
  - intros [= <- <-]. unfold traffic_of. by rewrite app_nil_r.
Qed.

Lemma handle_write_traffic id d (s : conn) u s' :
  handle_write id d s = Ret (u, s') ->
  traffic_of s' = with_out id d (here id (taps (conn_streams s))) (traffic_of s).
Proof.
  unfold handle_write. set (b := here id _). destruct (id =? PCAP_STREAM_ID)%Z eqn:E1.
  { intros E. rewrite with_out_none by (left; unfold destination_of; by rewrite E1).
    eapply (quiet_result _ _ _ _ _ E). Unshelve. track.
    intros x y z. unfold pcap_write. destruct (PcapStream_write _ _ _). intros [= <- <-]. by apply rtc_once. }
  assert (Hcache : forall k, destination_of id = ToCache k -> output (CachePut k d) s = Ret (u, s') ->
            traffic_of s' = with_out id d b (traffic_of s)).
  { intros k Hk [= <- <-]. unfold with_out, traffic_of. rewrite Hk. simpl. by rewrite cached_snoc, app_nil_r. }
  destruct (id =? PRIVKEY_STREAM_ID)%Z eqn:E2; [apply Hcache; unfold destination_of; by rewrite E1, E2|].
  destruct (id =? CERT_STREAM_ID)%Z eqn:E3; [apply Hcache; unfold destination_of; by rewrite E1, E2, E3|].
  destruct (id =? MUON_AUTH_STREAM_ID)%Z eqn:E4; [apply Hcache; unfold destination_of; by rewrite E1, E2, E3, E4|].
  assert (Hd : destination_of id = ToStream) by (unfold destination_of; by rewrite E1, E2, E3, E4).
  unfold mbind, M_bind. destruct (with_stream id (stream_write d) s) as [[r s1]| |] eqn:Ew; [|done..].
  apply stream_written in Ew as [Ht _]. intros E.
  assert (traffic_of s' = traffic_of s1) as ->.
  { destruct r as [res|]; [|by injection E as _ <-]. eapply quiet_result; [|exact E]. apply quiet_write_result. }
  rewrite Ht. unfold with_out, traffic_of. rewrite Hd. simpl. by rewrite app_nil_r.
Qed.

(** Opening leaves the stream set that the first write finds. *)
Lemma handle_open_set id o fw (s : conn) u s' :
  handle_open id o s = Ret (u, s') ->
  taps (conn_streams s') = set_at_write {| act_stream := id; act_kind := ActOpen o fw |} (taps (conn_streams s)).
Proof.
  unfold handle_open, set_at_write, mbind, M_bind, streams_get, liftS. simpl. set (is_udp := bool_decide _).
  destruct is_udp; simpl; unfold from_taps;
    [destruct (open_new_udp_stream id _ _) as [[v|e] ss]|destruct (open_new_tcp_stream id _ _) as [[v|e] ss]];
    simpl; try by intros [= <- <-].
  all: unfold handle_stream_error; destruct (TUN_STREAM_ID <? id)%Z; simpl; [|by intros [= <- <-]].
  all: unfold mbind, M_bind, client_get, liftS; simpl; unfold from_wire; simpl; destruct (monotonic_now _); simpl;
    by intros [= <- <-].
Qed.

Lemma handle_action_traffic a (s : conn) u s' :
  handle_action (act_stream a) (act_kind a) s = Ret (u, s') ->
  traffic_of s' = match outgoing a with
                  | Some d => with_out (act_stream a) d (present a (taps (conn_streams s))) (traffic_of s)
                  | None => traffic_of s
                  end.
Proof.
  unfold handle_action, outgoing. destruct a as [id k]; simpl. destruct k as [o fw|d|so| | |d|err|]; simpl.
  - unfold mbind, M_bind. destruct (handle_open id o s) as [[v s1]| |] eqn:Eo; [|done..].
    pose proof (handle_open_set id o fw _ _ _ Eo) as Hset.
    apply (quiet_result _ _ _ _ (quiet_handle_open id o)) in Eo. destruct fw as [d|]; [|by intros [= _ <-]].
    intros E%handle_write_traffic. rewrite E, Eo, Hset. done.
  - apply handle_write_traffic.
  - intros E. eapply quiet_result; [|exact E]. track. apply quiet_with_stream. by intros t a t' [= <- <-].
  - intros E. eapply quiet_result; [|exact E]. track.
  - intros E. eapply quiet_result; [|exact E]. track. apply quiet_with_stream. by intros t a t' [= <- <-].
  - by intros [= _ <-].
  - by intros [= _ <-].
  - by intros [= _ <-].
Qed.

Lemma with_pull_out a b (t : traffic) :
  with_pull a b t =
  let t := {| t_reads := t_reads t; t_writes := t_writes t; t_pulled := t_pulled t ++ [a]; t_pushes := t_pushes t;
              t_cached := t_cached t; t_up := t_up t |} in
  match outgoing a with Some d => with_out (act_stream a) d b t | None => t end.
Proof.
  unfold with_pull, with_out, stream_payload, cache_payload. destruct t. simpl.
  destruct (outgoing a) as [d|], (destination_of (act_stream a)), b; simpl; by rewrite ?app_nil_r.
Qed.

(** One action pulled: its data goes where its stream says. *)
Lemma pull_once_traffic (s : conn) u s' :
  pull_once s = Ret (u, s') ->
  traffic_of s' = match (pull (wire (client s))).1 with
                  | Some a => with_pull a (present a (taps (conn_streams s))) (traffic_of s)
                  | None => traffic_of s
                  end.
Proof.
  unfold pull_once, mbind, M_bind, client_get, liftS. simpl. destruct (pull (wire (client s))) as [[a|] y]; simpl.
  - intros E%handle_action_traffic. rewrite E. simpl. by rewrite with_pull_out.
  - intros [= _ <-]. unfold traffic_of. simpl. by rewrite app_nil_r.
Qed.

Lemma data_pull_once : tracks data_step (pull_once : M conn _).
Proof.
  intros s u s' E%pull_once_traffic. apply rtc_once.
  destruct (pull (wire (client s))).1; [by eapply ds_pull|by apply ds_quiet].
Qed.

Lemma quiet_agent_messages n : tracks quiet (pull_agent_messages n : M conn _).
Proof. induction n; simpl; unfold handle_agent_message; track. Qed.

Lemma data_pull n : tracks data_step (pull_from_client n : M conn _).
Proof.
  unfold pull_from_client. apply tracks_bind; [apply tracks_whileM, data_pull_once|]. intros _.
  apply quiet_data. apply tracks_bind; [track|]. intros [h|]; [apply quiet_agent_messages|track].
Qed.

(** ** Reading *)

Lemma stream_was_read id (s : conn) r s' :
  read_stream id s = Ret (r, s') ->
  client s' = client s /\ out s' = out s /\ network_recovery_handler s' = network_recovery_handler s
  /\ writes (conn_streams s') = writes (conn_streams s)
  /\ reads (conn_streams s') = reads (conn_streams s)
       ++ ((id,.) <$> match r with Some res => payload res (stream_read_buffer s') | None => [] end).
Proof.
  unfold read_stream. simpl. destruct (get_stream id (taps (conn_streams s))) as [t|]; simpl.
  - destruct (stream_read (stream_read_buffer s) t) as [[res buf] t']. intros [= <- <-]. simpl. by rewrite app_nil_r.
  - intros [= <- <-]. by rewrite app_nil_r.
Qed.

(** The state after the read and the note on the TUN device. *)
Lemma when_tun_error id res (s1 : conn) :
  exists s2 : conn, when (id =? TUN_STREAM_ID)%Z (modify (set_tun_error (to_tun_error res))) s1 = Ret ((), s2)
    /\ traffic_of s2 = traffic_of s1 /\ stream_read_buffer s2 = stream_read_buffer s1
    /\ network_recovery_handler s2 = network_recovery_handler s1.
Proof. destruct (id =? TUN_STREAM_ID)%Z; eexists; (split; [reflexivity|done]). Qed.

Lemma data_read_one fuel id : tracks data_step (read_one fuel id : M conn _).
Proof.
  intros s b s'. unfold read_one. unfold mbind at 1, M_bind at 1.
  destruct (read_stream id s) as [[r s1]| |] eqn:Er; [|done..].
  apply stream_was_read in Er as (Hc & Ho & Hh & Hw & Hr).
  assert (Hq : forall s2 : conn, traffic_of s2 = traffic_of s1 ->
            traffic_of s2 = {| t_reads := reads (conn_streams s1); t_writes := writes (conn_streams s);
              t_pulled := pulled (client s); t_pushes := retain is_read (pushed (client s));
              t_cached := cached (out s); t_up := net_up s |}).
  { intros s2 ->. unfold traffic_of, net_up. by rewrite Hc, Ho, Hh, Hw. }
  destruct r as [res|]; [|intros [= _ <-]; apply rtc_once, ds_quiet; rewrite (Hq s1 eq_refl), Hr; simpl; by rewrite app_nil_r].
  unfold mbind at 1, M_bind at 1. destruct (when_tun_error id res s1) as (s2 & -> & Ht2 & Hb2 & Hh2).
  specialize (Hq s2 Ht2). destruct res as [n off wb pw|e|]; simpl in Hr.
  - destruct (0 <? n) eqn:En; simpl in Hr.
    2: { simpl. rewrite app_nil_r in Hr. rewrite Hr in Hq. unfold mbind, M_bind. simpl. intros [= _ <-].
         by apply rtc_once, ds_quiet. }
    set (d := take n (drop off (stream_read_buffer s1))) in *.
    unfold mbind at 1, M_bind at 1. cbn [get]. unfold mbind at 1, M_bind at 1. simpl.
    destruct (is_network_available (network_recovery_handler s2)) eqn:Eu; simpl.
    + unfold mbind at 1, M_bind at 1, buffer_slice. case_decide; [|done]. rewrite Hb2. fold d.
      unfold mbind at 1, M_bind at 1, client_do, modify.
      set (s3 := set_client _ s2). destruct (pull_from_client fuel s3) as [[[] s4]| |] eqn:Ep; [|done..].
      apply data_pull in Ep. intros [= _ <-]. eapply rtc_l; [|exact Ep]. apply (ds_read _ _ id d).
      assert (Hup : net_up s = true) by (unfold net_up; by rewrite <- Hh, <- Hh2).
      unfold with_read, traffic_of in *. injection Hq as E1 E2 E3 E4 E5 E6. unfold net_up in *. simpl in *.
      rewrite Hup. unfold retain in *. rewrite List.filter_app, E4. simpl. f_equal; congruence.
    + intros [= _ <-]. apply rtc_once, (ds_read _ _ id d). rewrite Hq, Hr.
      assert (Hup : net_up s = false) by (unfold net_up; by rewrite <- Hh, <- Hh2).
      unfold with_read, traffic_of. simpl. by rewrite Hup, app_nil_r.
  - rewrite app_nil_r in Hr. rewrite Hr in Hq. intros E. apply rtc_once, ds_quiet. etrans; [|exact Hq].
    eapply quiet_result; [|exact E]. track.
  - rewrite app_nil_r in Hr. rewrite Hr in Hq. intros E. apply rtc_once, ds_quiet. etrans; [|exact Hq].
    eapply quiet_result; [|exact E]. track.
Qed.
#[local] Hint Resolve data_read_one data_pull : protun.

Lemma data_read_pass fuel l : tracks data_step (read_pass fuel l : M conn _).
Proof. induction l; simpl; track. Qed.
#[local] Hint Resolve data_read_pass : protun.

Lemma data_read_from fuel n l : tracks data_step (read_from_streams fuel n l : M conn _).
Proof. revert l. induction n; intros [|id l]; simpl; track. Qed.
#[local] Hint Resolve data_read_from : protun.

Lemma data_poll_results fuel l : tracks data_step (handle_poll_results fuel l : M conn _).
Proof.
  unfold handle_poll_results, handle_poll_result. apply tracks_bind; [|intros _; apply data_read_from].
  apply quiet_data. track. apply quiet_with_stream. intros t r t'. simpl. unfold on_tap.
  destruct (stream_write_from_buffer (tap t)) as [[y t0]| |]; intros; by simplify_eq/=.
Qed.
#[local] Hint Resolve data_poll_results : protun.

Lemma on_resumed_net now h : network_available (on_resumed now h).2 = network_available h.
Proof. unfold on_resumed. by repeat case_match. Qed.

Lemma data_poll fuel : tracks data_step (poll_from_streams fuel : M conn _).
Proof.
  unfold poll_from_streams, poll_deadline.
  repeat first [apply data_poll_results | apply tracks_bind; [|intro] | case_match]; try (apply quiet_data; track).
  apply tracks_lift. intros s b h E. unfold quiet, traffic_of, net_up, is_network_available. simpl.
  pose proof (on_resumed_net a1.1 (network_recovery_handler s)) as Hn. rewrite E in Hn. simpl in Hn. by rewrite Hn.
Qed.

Lemma data_iteration fuel : tracks data_step (iteration fuel : M conn _).
Proof.
  unfold iteration. apply tracks_bind; [apply quiet_data; track|]. intros _.
  apply tracks_bind; [track|]. intros _. apply tracks_bind; [|intros _; apply data_poll].
  apply quiet_data. unfold update_state, get_peer_connection_state. track. by apply quiet_recovery.
Qed.

(** ** What an iteration carries *)

(** The traffic after the payloads [rl] were read and the actions [al] pulled,
    each with whether its stream existed. *)
Definition carried (rl : list (StreamId * list byte)) (al : list (Action * bool)) (t : traffic) : traffic :=
  {| t_reads := t_reads t ++ rl;
     t_writes := t_writes t ++ omap (fun e => if e.2 : bool then stream_payload e.1 else None) al;
     t_pulled := t_pulled t ++ al.*1;
     t_pushes := t_pushes t ++ (if t_up t then (fun r => Action_read r.1 r.2) <$> rl else []);
     t_cached := t_cached t ++ omap cache_payload al.*1;
     t_up := t_up t |}.

Lemma data_steps_carried (s s' : conn) :
  rtc data_step s s' -> exists rl al, traffic_of s' = carried rl al (traffic_of s).
Proof.
  induction 1 as [s|s s1 s2 Hs _ (rl & al & IH)].
  - exists [], []. unfold carried. destruct (traffic_of s) as [r w p u c up]. simpl. rewrite !app_nil_r.
    destruct up; by rewrite ?app_nil_r.
  - rewrite IH. destruct Hs as [s s1 ->|s s1 id d ->|s s1 a ->].
    + by exists rl, al.
    + exists ((id, d) :: rl), al. unfold carried, with_read. destruct (traffic_of s) as [r w p u c up]. simpl.
      destruct up; by rewrite <- ?app_assoc.
    + exists rl, ((a, present a (taps (conn_streams s))) :: al). unfold carried, with_pull.
      destruct (traffic_of s) as [r w p u c up]. simpl. rewrite <- !app_assoc. simpl. f_equal.
      * destruct (present a _); [|done]. by destruct (stream_payload a).
      * by destruct (cache_payload a).
Qed.

Lemma iteration_carried fuel (s : conn) u s' :
  iteration fuel s = Ret (u, s') -> exists rl al, traffic_of s' = carried rl al (traffic_of s).
Proof. intros E%data_iteration. by apply data_steps_carried. Qed.

Lemma delivered_sublist (al : list (Action * bool)) :
  sublist (omap (fun e => if e.2 : bool then stream_payload e.1 else None) al) (omap stream_payload al.*1).
Proof.
  induction al as [|[a b] al IH]; [done|]. csimpl. destruct b; destruct (stream_payload a); try done.
  - by apply sublist_skip.
  - by apply sublist_cons.
Qed.

(** ** Over a whole run *)

Lemma quiet_start_capture i : tracks quiet (start_packet_capture i : M conn _).
Proof. unfold start_packet_capture. track. Qed.
#[local] Hint Resolve quiet_start_capture : protun.

Lemma quiet_message m : (forall ev, m <> ConnectivityChange ev) -> tracks quiet (handle_pvpn_message m : M conn _).
Proof.
  intros Hm. destruct m; simpl; try by destruct (Hm event). all: unfold if_some, update_peers, update_local_agent_settings,
    conn_update_tun; track.
Qed.

(** The same traffic, with the network in the state [b]. *)
Definition with_up (b : bool) (t : traffic) : traffic :=
  {| t_reads := t_reads t; t_writes := t_writes t; t_pulled := t_pulled t; t_pushes := t_pushes t;
     t_cached := t_cached t; t_up := b |}.

Lemma message_traffic m (s : conn) u s' :
  handle_pvpn_message m s = Ret (u, s') ->
  traffic_of s' = with_up (net_up s') (traffic_of s)
  /\ (m <> ConnectivityChange Down -> net_up s = true -> net_up s' = true).
Proof.
  destruct (match m with ConnectivityChange _ => true | _ => false end) eqn:Em.
  - destruct m as [|ev| | | | | |]; try done. simpl. unfold mbind at 1, M_bind at 1. simpl.
    unfold client_get, liftS. simpl. destruct (from_wire get_tunnel_info (client s)) as [info x] eqn:Ew.
    rewrite conn_connectivity_eq. unfold from_wire in Ew. destruct (get_tunnel_info (wire (client s))). injection Ew as <- <-.
    intros [= _ <-]. unfold maybe_report, report, traffic_of, net_up. simpl. split.
    + repeat (case_match || case_bool_decide); simpl; rewrite ?cached_snoc; simpl; by rewrite ?app_nil_r.
    + intros Hd. destruct ev; [| |]; simpl; repeat (case_match || case_bool_decide); simpl in *; congruence || done.
  - intros E. assert (traffic_of s' = traffic_of s) as Ht.
    { eapply quiet_result; [|exact E]. apply quiet_message. intros ev ->. discriminate Em. }
    assert (net_up s' = net_up s) as -> by (injection Ht; auto). split; [|done]. rewrite Ht. by destruct (traffic_of s) eqn:E'; unfold traffic_of in E'; simplify_eq.
Qed.

(** No message of the schedule reports that the network is gone. *)
Definition stays_up (l : list (option PvpnMessage)) : Prop := Some (ConnectivityChange Down) ∉ l.

Lemma with_up_id (s : conn) : with_up (net_up s) (traffic_of s) = traffic_of s.
Proof. done. Qed.

Lemma message_loop_traffic n (s : conn) u s' :
  message_loop n s = Ret (u, s') ->
  traffic_of s' = with_up (net_up s') (traffic_of s)
  /\ (stays_up (message_receiver s) -> stays_up (message_receiver s') /\ (net_up s = true -> net_up s' = true)).
Proof.
  revert s. induction n as [|n IH]; intros s; simpl; unfold mbind at 1, M_bind at 1, try_recv at 1;
    destruct (message_receiver s) as [|m rest] eqn:Em; try by (intros [= _ <-]; rewrite Em).
  all: assert (stays_up (m :: rest) -> stays_up rest) as Hrest by (unfold stays_up; set_solver).
  all: destruct m as [m|]; [|intros [= _ <-]; by split; [|intros H; split; [by apply Hrest|]]].
  all: assert (m = Disconnect \/ m <> Disconnect) as [->|Hm] by (destruct m; auto);
    [intros [= _ <-]; by split; [|intros H; split; [by apply Hrest|]]|].
  - intros E. exfalso. assert ((handle_pvpn_message m ;; no_fuel) (set_receiver rest s) = Ret (u, s')) as E'
      by (destruct m; done). apply bind_inv in E' as (? & ? & _ & E'). discriminate E'.
  - intros E. assert ((handle_pvpn_message m ;; message_loop n) (set_receiver rest s) = Ret (u, s')) as E'
      by (destruct m; done). clear E. apply bind_inv in E' as (v & s1 & E1 & E2).
    pose proof (message_inbox _ _ _ _ E1) as [Hr _]. apply message_traffic in E1 as [Ht1 Hu1].
    destruct (IH s1 E2) as [Ht2 Hu2]. rewrite Ht2, Ht1. split; [done|]. intros Hs. rewrite Hr in Hu2.
    destruct (Hu2 (Hrest Hs)) as [Hs2 Hu]. split; [done|]. intros Hup. apply Hu, Hu1; [|done].
    intros ->. apply Hs. set_solver.
Qed.

Lemma handle_messages_traffic (s : conn) b s' :
  handle_messages s = Ret (b, s') ->
  traffic_of s' = with_up (net_up s') (traffic_of s)
  /\ (stays_up (message_receiver s) -> stays_up (message_receiver s') /\ (net_up s = true -> net_up s' = true)).
Proof.
  unfold handle_messages. rewrite (bind_eq _ _ _ _ _ eq_refl). intros (u & s1 & E & E2)%bind_inv.
  injection E2 as _ <-. by eapply message_loop_traffic.
Qed.

Lemma quiet_loop_end : tracks quiet (on_connection_loop_end : M conn _).
Proof. unfold on_connection_loop_end, if_some. track. Qed.

(** The traffic of a run: all of it as over an iteration, the pushes as long as
    the network is not reported gone. *)
Lemma run_carried fuel n (s : conn) u s' :
  run fuel n s = Ret (u, s') ->
  exists rl al, let t := carried rl al (traffic_of s) in let t' := traffic_of s' in
    t_reads t' = t_reads t /\ t_writes t' = t_writes t /\ t_pulled t' = t_pulled t /\ t_cached t' = t_cached t
    /\ (net_up s = true -> stays_up (message_receiver s) -> t_pushes t' = t_pushes t).
Proof.
  revert s. induction n as [|n IH]; intros s; cbn [run]; intros (b & s1 & E1 & E2)%bind_inv;
    apply handle_messages_traffic in E1 as [Ht1 Hu1]; (destruct b; [|
      apply (quiet_result _ _ _ _ quiet_loop_end) in E2; exists [], []; cbv zeta; rewrite E2, Ht1; unfold carried; cbn;
      rewrite !app_nil_r; split_and!; try done; by destruct (net_up s); rewrite ?app_nil_r]); [done|].
  apply bind_inv in E2 as (v & s2 & Ei & Er).
  pose proof (blind_receiver _ _ _ _ (blind_iteration fuel) Ei) as Hr2.
  apply iteration_carried in Ei as (rl1 & al1 & Ei). apply IH in Er as (rl2 & al2 & H1 & H2 & H3 & H4 & H5).
  exists (rl1 ++ rl2), (al1 ++ al2). rewrite Ei, Ht1 in H1, H2, H3, H4, H5. unfold carried in *. cbn in *.
  rewrite <- !app_assoc in H1, H2, H3, H4. rewrite fmap_app, !omap_app. split_and!; try done. intros Hup Hs.
  destruct (Hu1 Hs) as [Hs1 Hup1]. specialize (Hup1 Hup). rewrite Hup, fmap_app.
  assert (net_up s2 = true) as Hup2 by (assert (net_up s2 = net_up s1) as -> by (injection Ei; auto); done).
  rewrite H5 by (rewrite ?Hr2; done). by rewrite Hup1, <- app_assoc.
Qed.

(** C7.  From the network to the client: the payloads an iteration reads from its
    streams are pushed to the client, all of them, once each, in the order in
    which they were read and for the stream they came from; while there is no
    network none of them is.  The same holds of a whole run in which the network
    is there and never reported gone: nothing that is read is lost. *)
Theorem reads_delivered (fuel n : nat) (s s' : conn) :
  (iteration fuel s = Ret ((), s') ->
   exists l, reads (conn_streams s') = reads (conn_streams s) ++ l
     /\ retain is_read (pushed (client s'))
        = retain is_read (pushed (client s)) ++ (if net_up s then (fun r => Action_read r.1 r.2) <$> l else [])
     /\ net_up s' = net_up s)
  /\ (run fuel n s = Ret ((), s') -> net_up s = true -> stays_up (message_receiver s) ->
   exists l, reads (conn_streams s') = reads (conn_streams s) ++ l
     /\ retain is_read (pushed (client s'))
        = retain is_read (pushed (client s)) ++ ((fun r => Action_read r.1 r.2) <$> l)).
Proof.
  split.
  - intros (rl & al & E)%iteration_carried. exists rl. unfold traffic_of, carried in E. simpl in E.
    injection E as -> _ _ -> _ ->. done.
  - intros (rl & al & H1 & _ & _ & _ & H5)%run_carried Hup Hs. exists rl. split; [exact H1|].
    specialize (H5 Hup Hs). cbn in H5. by rewrite Hup in H5.
Qed.

(** C11.  From the client to the network: the data of an action that is pulled
    goes to the stream it names, if the stream exists once the action's own
    opening is done, or to the application's cache when it is a secret, and
    nowhere else.  Over a whole run every secret reaches the cache, in order, and
    the streams are given data of the pulled actions only, each at most once and
    in order. *)
Theorem writes_delivered (fuel n : nat) (s s' : conn) :
  (pull_once s = Ret ((), s') ->
     let l := option_list (pull (wire (client s))).1 in
     pulled (client s') = pulled (client s) ++ l
     /\ writes (conn_streams s') = writes (conn_streams s)
          ++ omap (fun a => if present a (taps (conn_streams s)) then stream_payload a else None) l
     /\ cached (out s') = cached (out s) ++ omap cache_payload l)
  /\ (iteration fuel s = Ret ((), s') \/ run fuel n s = Ret ((), s') ->
     exists l w, pulled (client s') = pulled (client s) ++ l
     /\ cached (out s') = cached (out s) ++ omap cache_payload l
     /\ writes (conn_streams s') = writes (conn_streams s) ++ w /\ sublist w (omap stream_payload l)).
Proof.
  split.
  - intros E%pull_once_traffic. destruct (pull (wire (client s))) as [[a|] y]; unfold traffic_of, with_pull in E; simpl in *.
    + injection E as _ -> -> _ -> _. destruct (present a _), (stream_payload a), (cache_payload a); by rewrite ?app_nil_r.
    + injection E as _ -> -> _ -> _. by rewrite !app_nil_r.
  - intros E. assert (exists rl al, let t := carried rl al (traffic_of s) in let t' := traffic_of s' in
      t_writes t' = t_writes t /\ t_pulled t' = t_pulled t /\ t_cached t' = t_cached t) as (rl & al & Hw & Hp & Hc).
    { destruct E as [(rl & al & ->)%iteration_carried|(rl & al & _ & Hw & Hp & Hc & _)%run_carried]; by exists rl, al. }
    eexists _, _. split_and!; [exact Hp|exact Hc|exact Hw|apply delivered_sublist].
Qed.
End data.
