(* ===== verification/Api.v ===== *)
(** * The application's handle and the logger

    [Connection] of [src/api/connection.rs] with [start_pvpn_connection]'s
    sender: every method is a message put in the loop's queue.  And
    [src/api/logger.rs], the process-wide logger that is initialized once. *)

From S2P Require Import Prelude Types.

(** ** The handle *)

(** The channel to the connection thread, seen from the application. *)
Record Handle := {
  mailbox : list PvpnMessage;
  receiver_alive : bool;
  wakes : nat;
  join_handle : bool;
}.

(** [connect_internal]: the handle as it is once the thread has tried to build its
    dependencies, which drops the receiver when it cannot.  What happens before
    that, and while calls and the thread interleave, is in [Threads.v]. *)
Definition connect_internal (dependencies_built : bool) : Handle :=
  {| mailbox := []; receiver_alive := dependencies_built; wakes := 0; join_handle := true |}.

(** The sender of [start_pvpn_connection]: [send(message).unwrap()], then the waker. *)
Definition send_pvpn_message (m : PvpnMessage) : M Handle () :=
  alive ← get receiver_alive;
  if alive : bool then
    modify (fun h => {| mailbox := mailbox h ++ [m]; receiver_alive := receiver_alive h;
                        wakes := S (wakes h); join_handle := join_handle h |})
  else panic.

Definition ConfigUpdate_is_empty (u : ConfigUpdate) : bool :=
  if upd_peers u then false
  else if upd_settings u then false
  else if upd_tun u then false
  else true.

Definition api_update (u : ConfigUpdate) : M Handle () := send_pvpn_message (Update u).

Definition api_update_peers (ps : list PeerInfo) : M Handle () :=
  api_update {| upd_peers := Some ps; upd_settings := None; upd_tun := None |}.

Definition api_update_local_agent_settings (st : LocalAgentSettings) : M Handle () :=
  api_update {| upd_peers := None; upd_settings := Some st; upd_tun := None |}.

Definition api_update_unix_tun (tun : TunStreamInfo) : M Handle () :=
  api_update {| upd_peers := None; upd_settings := None; upd_tun := Some tun |}.

Definition api_on_connectivity_change (ev : ConnectivityEvent) : M Handle () :=
  send_pvpn_message (ConnectivityChange ev).

Definition api_disconnect : M Handle () := send_pvpn_message Disconnect.

(** The join handle is taken, so that only the first call waits. *)
Definition api_disconnect_and_wait : M Handle bool :=
  api_disconnect ;;
  joined ← get join_handle;
  modify (fun h => {| mailbox := mailbox h; receiver_alive := receiver_alive h; wakes := wakes h;
                      join_handle := false |}) ;;
  mret joined.

Definition api_start_packet_capture (f : PcapFileInfo) : M Handle () :=
  send_pvpn_message (StartPacketCapture f).
Definition api_stop_packet_capture : M Handle () := send_pvpn_message StopPacketCapture.
Definition api_request_stats : M Handle () := send_pvpn_message RequestStats.
Definition api_request_local_agent_stats : M Handle () := send_pvpn_message RequestLocalAgentStats.
Definition api_provide_api_fork_selector (i : ForkSelectorInfo) : M Handle () :=
  send_pvpn_message (ProvideApiForkSelector i).

(** A call of the application. *)
Inductive api_call :=
| CallUpdate (u : ConfigUpdate)
| CallUpdatePeers (ps : list PeerInfo)
| CallUpdateSettings (st : LocalAgentSettings)
| CallUpdateTun (tun : TunStreamInfo)
| CallConnectivity (ev : ConnectivityEvent)
| CallDisconnect
| CallDisconnectAndWait
| CallStartCapture (f : PcapFileInfo)
| CallStopCapture
| CallStats
| CallAgentStats
| CallForkSelector (i : ForkSelectorInfo).

Definition api_run (call : api_call) : M Handle () :=
  match call with
  | CallUpdate u => api_update u
  | CallUpdatePeers ps => api_update_peers ps
  | CallUpdateSettings st => api_update_local_agent_settings st
  | CallUpdateTun tun => api_update_unix_tun tun
  | CallConnectivity ev => api_on_connectivity_change ev
  | CallDisconnect => api_disconnect
  | CallDisconnectAndWait => api_disconnect_and_wait ;; mret ()
  | CallStartCapture f => api_start_packet_capture f
  | CallStopCapture => api_stop_packet_capture
  | CallStats => api_request_stats
  | CallAgentStats => api_request_local_agent_stats
  | CallForkSelector i => api_provide_api_fork_selector i
  end.

Lemma send_alive m h :
  send_pvpn_message m h =
  if receiver_alive h then
    Ret ((), {| mailbox := mailbox h ++ [m]; receiver_alive := receiver_alive h;
                wakes := S (wakes h); join_handle := join_handle h |})
  else Panic.
Proof.
  unfold send_pvpn_message, mbind, M_bind, get, modify. destruct (receiver_alive h) eqn:E; by rewrite ?E.
Qed.

(** What a call leaves behind, in one place for all of them. *)
Lemma api_run_spec call h :
  if receiver_alive h then
    exists m h', api_run call h = Ret ((), h') /\ mailbox h' = mailbox h ++ [m]
      /\ wakes h' = S (wakes h) /\ receiver_alive h' = true
      /\ (m = Disconnect <-> call = CallDisconnect \/ call = CallDisconnectAndWait)
      /\ (forall u, m = Update u -> ConfigUpdate_is_empty u = true -> call = CallUpdate u)
  else api_run call h = Panic.
Proof.
  destruct (receiver_alive h) eqn:Ha; destruct call; unfold api_run, api_disconnect_and_wait,
    api_update_peers, api_update_local_agent_settings, api_update_unix_tun, api_on_connectivity_change,
    api_disconnect, api_start_packet_capture, api_stop_packet_capture, api_request_stats,
    api_request_local_agent_stats, api_provide_api_fork_selector, api_update, mbind, M_bind;
    rewrite ?send_alive, ?Ha; try done; (eexists _, _; split; [reflexivity|]); simpl;
    split_and!; try done; naive_solver.
Qed.

(** The handle's methods and the loop's queue: while the connection thread
    lives, every call queues exactly one message behind the earlier ones and
    wakes the poll once, and only the two disconnecting methods queue a
    disconnect request.  Once the thread has ended, be it after a disconnect
    or because its dependencies could not be built, which is reported to
    nobody, every call panics. *)
Lemma api_calls_queue_or_panic (call : api_call) (h : Handle) :
  (receiver_alive h = true ->
   exists m h', api_run call h = Ret ((), h') /\ mailbox h' = mailbox h ++ [m]
     /\ wakes h' = S (wakes h)
     /\ (m = Disconnect <-> call = CallDisconnect \/ call = CallDisconnectAndWait))
  /\ (receiver_alive h = false -> api_run call h = Panic)
  /\ api_run call (connect_internal false) = Panic.
Proof.
  pose proof (api_run_spec call h) as Hs. pose proof (api_run_spec call (connect_internal false)) as Hf.
  split_and!; [|by intros Ha; rewrite Ha in Hs|exact Hf].
  intros Ha. rewrite Ha in Hs. destruct Hs as (m & h' & E & Hm & Hw & _ & Hd & _).
  by exists m, h'.
Qed.

Lemma api_calls_queue_or_panic_witness :
  exists m h', api_run CallDisconnect (connect_internal true) = Ret ((), h') /\ mailbox h' = [m].
Proof.
  destruct (api_calls_queue_or_panic CallDisconnect (connect_internal true)) as [H _].
  destruct (H eq_refl) as (m & h' & E & Hm & _). exists m, h'. split; [exact E|exact Hm].
Defined.

(** ** The logger *)

Inductive LogLevel := LogTrace | LogDebug | LogInfo | LogWarn | LogError.

(** [log::Level], from the most to the least severe. *)
Inductive Level := LevelError | LevelWarn | LevelInfo | LevelDebug | LevelTrace.

Definition LogLevel_from (l : Level) : LogLevel :=
  match l with
  | LevelTrace => LogTrace | LevelDebug => LogDebug | LevelInfo => LogInfo
  | LevelWarn => LogWarn | LevelError => LogError
  end.

Definition LogLevel_into (l : LogLevel) : Level :=
  match l with
  | LogTrace => LevelTrace | LogDebug => LevelDebug | LogInfo => LevelInfo
  | LogWarn => LevelWarn | LogError => LevelError
  end.

Definition level_rank (l : Level) : nat :=
  match l with LevelError => 1 | LevelWarn => 2 | LevelInfo => 3 | LevelDebug => 4 | LevelTrace => 5 end.

Inductive once_state := Incomplete | Complete | Poisoned.

(** The statics of the logger and of the [log] crate.  A client's logger is
    identified by a number, and [delivered] is what the loggers received;
    [other_logger] tells whether the process had installed one of its own. *)
Record LogState := {
  init_once : once_state;
  client_logger : option nat;
  max_log_level : Level;
  log_installed : bool;
  other_logger : bool;
  level_filter : nat;
  delivered : list (nat * LogLevel * string);
}.

Definition LogState_new (other : bool) : LogState :=
  {| init_once := Incomplete; client_logger := None; max_log_level := LevelInfo; log_installed := false;
     other_logger := other; level_filter := 0; delivered := [] |}.

(** A log macro: the level filter of the [log] crate, then [ProTunLogger::log]. *)
Definition log_record (level : Level) (module_path args : string) (s : LogState) : LogState :=
  if (level_rank level <=? level_filter s) && log_installed s then
    match client_logger s with
    | Some id =>
        {| init_once := init_once s; client_logger := client_logger s; max_log_level := max_log_level s;
           log_installed := log_installed s; other_logger := other_logger s;
           level_filter := level_filter s;
           delivered := delivered s ++ [(id, LogLevel_from level, module_path +:+ ": " +:+ args)] |}
    | None => s
    end
  else s.

(** [ProTunLogger::enabled]. *)
Definition logger_enabled (level : Level) (s : LogState) : bool :=
  level_rank level <=? level_rank (max_log_level s).

(** [init_logger]: [set_logger(..).unwrap()] panics when the process has a
    logger, which poisons the [Once]; the level and the client's logger are
    then already set. *)
Definition init_logger (level : LogLevel) (logger : nat) : M LogState () := fun s =>
  match init_once s with
  | Poisoned => Panic
  | Complete => Ret ((), log_record LevelWarn "protun::api::logger"
                           "init_logger: Already initialized. Ignoring." s)
  | Incomplete =>
      if other_logger s then Panic
      else Ret ((), {| init_once := Complete; client_logger := Some logger;
                       max_log_level := LogLevel_into level; log_installed := true;
                       other_logger := other_logger s;
                       level_filter := level_rank (LogLevel_into level); delivered := delivered s |})
  end.

Inductive log_step : LogState -> LogState -> Prop :=
| log_init level logger s s' : init_logger level logger s = Ret ((), s') -> log_step s s'
| log_write level path args s : log_step s (log_record level path args s).

Lemma log_record_config level path args s :
  let s' := log_record level path args s in
  init_once s' = init_once s /\ client_logger s' = client_logger s
  /\ max_log_level s' = max_log_level s /\ level_filter s' = level_filter s
  /\ log_installed s' = log_installed s.
Proof. unfold log_record. cbv zeta. by repeat case_match. Qed.

Definition logger_set (level : LogLevel) (logger : nat) (s : LogState) : Prop :=
  init_once s = Complete /\ client_logger s = Some logger /\ max_log_level s = LogLevel_into level
  /\ level_filter s = level_rank (LogLevel_into level) /\ log_installed s = true.

Lemma logger_set_step level logger s s' : log_step s s' -> logger_set level logger s -> logger_set level logger s'.
Proof.
  intros [l g x x' E|l p a x] Hs; unfold logger_set in *.
  - unfold init_logger in E. destruct Hs as (Ho & Hs). rewrite Ho in E. injection E as <-.
    destruct (log_record_config LevelWarn "protun::api::logger"
      "init_logger: Already initialized. Ignoring." x) as (-> & -> & -> & -> & ->). done.
  - destruct (log_record_config l p a x) as (-> & -> & -> & -> & ->). done.
Qed.

(** The first initialization of the logger wins: whatever is logged or
    initialized afterwards, records go to the first client's logger, those
    and only those at least as severe as its level, with the level unchanged
    by the conversions. *)
Lemma logger_first_wins (level : LogLevel) (logger : nat) (s1 s : LogState) (l : Level)
    (path args : string) :
  init_logger level logger (LogState_new false) = Ret ((), s1) -> rtc log_step s1 s ->
  delivered (log_record l path args s) =
    delivered s ++ (if logger_enabled l s then [(logger, LogLevel_from l, path +:+ ": " +:+ args)] else [])
  /\ (logger_enabled l s = true <-> level_rank l <= level_rank (LogLevel_into level))
  /\ LogLevel_into (LogLevel_from l) = l.
Proof.
  intros [= <-] Hr.
  assert (logger_set level logger s) as (_ & Hc & Hm & Hf & Hi).
  { eapply rtc_invariant; [exact (logger_set_step level logger)|exact Hr|done]. }
  unfold log_record, logger_enabled. rewrite Hc, Hm, Hf, Hi. split_and!.
  - destruct (level_rank l <=? _); simpl; [done|by rewrite app_nil_r].
  - apply Nat.leb_le.
  - by destruct l.
Qed.

Lemma logger_first_wins_witness :
  exists s, delivered (log_record LevelWarn "m" "x" s) = [(7, LogWarn, "m: x")]
    /\ delivered (log_record LevelDebug "m" "x" s) = [].
Proof.
  eexists. split.
  - refine (eq_trans (proj1 (logger_first_wins LogInfo 7 _ _ LevelWarn "m" "x" eq_refl (rtc_refl _ _))) _).
    reflexivity.
  - reflexivity.
Defined.
