(* ===== verification/Threads.v ===== *)
(** * The application's threads and the connection's thread

    [start_pvpn_connection] of [src/connection/pvpn_connection.rs] and the
    handle of [src/api/connection.rs] run concurrently: any number of threads of
    the application call the handle's methods, each of which queues a message and
    then wakes the poll, while the connection's thread builds its dependencies and
    runs the loop.  The system is a transition system whose steps are labelled;
    [sys_do] executes a label.  A step of the connection's thread is what the
    thread does between two points at which another thread can matter to it:
    [try_recv] and the poll.  The rest of an iteration is taken after its poll has
    returned, which no other thread can tell; one that panics before its poll may
    do so at once.

    The history variables [sent] and [taken] record the messages queued and the
    answers of [try_recv]. *)

From S2P Require Import Prelude Types NetworkRecovery SanitizedPeers Conversions LocalAgent.
From S2P Require Import Streams Pcap PvpnClient PeerSync Connection ConnectionSteps ConnectionInvariants.
From S2P Require Import ConnectionTheorems ConnectionSafety Mailbox Api.

(** ** The calls *)

(** The message a method of the handle queues. *)
Definition call_message (call : api_call) : PvpnMessage :=
  match call with
  | CallUpdate u => Update u
  | CallUpdatePeers ps => Update {| upd_peers := Some ps; upd_settings := None; upd_tun := None |}
  | CallUpdateSettings st => Update {| upd_peers := None; upd_settings := Some st; upd_tun := None |}
  | CallUpdateTun tun => Update {| upd_peers := None; upd_settings := None; upd_tun := Some tun |}
  | CallConnectivity ev => ConnectivityChange ev
  | CallDisconnect | CallDisconnectAndWait => Disconnect
  | CallStartCapture f => StartPacketCapture f
  | CallStopCapture => StopPacketCapture
  | CallStats => RequestStats
  | CallAgentStats => RequestLocalAgentStats
  | CallForkSelector i => ProvideApiForkSelector i
  end.

Lemma call_message_sent call (h h' : Handle) :
  api_run call h = Ret ((), h') -> mailbox h' = mailbox h ++ [call_message call].
Proof.
  destruct call; unfold api_run, api_disconnect_and_wait, api_update_peers, api_update_local_agent_settings,
    api_update_unix_tun, api_on_connectivity_change, api_disconnect, api_start_packet_capture,
    api_stop_packet_capture, api_request_stats, api_request_local_agent_stats, api_provide_api_fork_selector,
    api_update, mbind, M_bind; rewrite ?send_alive; destruct (receiver_alive h); try done; by intros [= <-].
Qed.

Section threads.
Context `{ids : StreamIds} {C Ss T CK : Type}.
Context `{pvpn : PvpnClient C, strs : Streams Ss T, str : Stream T, ck : Clock CK}.

Abbreviation conn := (PvpnConnection C Ss CK).
Abbreviation Deps := (@PvpnDependencies C Ss CK).

(** ** The system *)

(** Where the connection's thread is. *)
Inductive Thread :=
| Starting             (** about to build the dependencies *)
| Receiving (s : conn) (** in [handle_messages], before a [try_recv] *)
| Polling (s : conn)   (** the queue was found empty; the iteration waits in its poll *)
| Polled (s : conn)    (** the poll has returned *)
| Ended (s : option conn) (** the closure has returned, without a connection if it had no dependencies *)
| Crashed.             (** the thread has panicked *)

Record System := {
  queue : list PvpnMessage;
  flight : list api_call;  (** calls that have queued their message and not yet woken the poll *)
  woken : bool;            (** the waker's event is pending *)
  thread : Thread;
  handle_left : bool;      (** nobody has taken the join handle *)
  waiting : bool;          (** a caller is joining the thread *)
  joined : bool;           (** [disconnect_and_wait] has returned from the join *)
  sent : list PvpnMessage;
  taken : list (option PvpnMessage);
  wake_failed : bool;      (** some wake was refused by the system, which is only logged *)
}.

(** The receiver is dropped with the closure. *)
Definition running (t : Thread) : bool := match t with Ended _ | Crashed => false | _ => true end.

Definition set_thread (t : Thread) (x : System) : System :=
  {| queue := queue x; flight := flight x; woken := woken x; thread := t; handle_left := handle_left x;
     waiting := waiting x; joined := joined x; sent := sent x; taken := taken x; wake_failed := wake_failed x |}.

(** After an answer of [try_recv]. *)
Definition set_taken (m : option PvpnMessage) (q : list PvpnMessage) (t : Thread) (x : System) : System :=
  {| queue := q; flight := flight x; woken := woken x; thread := t; handle_left := handle_left x;
     waiting := waiting x; joined := joined x; sent := sent x; taken := taken x ++ [m];
     wake_failed := wake_failed x |}.

(** [message_sender.send(message).unwrap()], the first half of every method. *)
Definition sys_send (call : api_call) (x : System) : option System :=
  if running (thread x) then
    Some {| queue := queue x ++ [call_message call]; flight := flight x ++ [call]; woken := woken x;
            thread := thread x; handle_left := handle_left x; waiting := waiting x; joined := joined x;
            sent := sent x ++ [call_message call]; taken := taken x; wake_failed := wake_failed x |}
  else None.

(** [poll_waker.wake()], the second half, which succeeds or is refused ([ok]);
    [disconnect_and_wait] then takes the join handle, if it is still there, and
    joins. *)
Definition sys_wake (i : nat) (ok : bool) (x : System) : option System :=
  match flight x !! i with
  | None => None
  | Some call =>
      let joins := match call with CallDisconnectAndWait => handle_left x | _ => false end in
      Some {| queue := queue x; flight := delete i (flight x); woken := woken x || ok; thread := thread x;
              handle_left := handle_left x && negb joins; waiting := waiting x || joins; joined := joined x;
              sent := sent x; taken := taken x; wake_failed := wake_failed x || negb ok |}
  end.

(** The join returns when the thread has ended. *)
Definition sys_join (x : System) : option System :=
  if waiting x && negb (running (thread x)) then
    Some {| queue := queue x; flight := flight x; woken := woken x; thread := thread x;
            handle_left := handle_left x; waiting := false; joined := true; sent := sent x; taken := taken x;
            wake_failed := wake_failed x |}
  else None.

(** What the thread does next with the outcome of a computation. *)
Definition after {A} (o : outcome (A * conn)) (k : conn -> Thread) : option Thread :=
  match o with Ret (_, s) => Some (k s) | Panic => Some Crashed | NoFuel => None end.

(** Why the thread can panic: its dependencies, or the system's time. *)
Definition crash_cause (deps : outcome (io_result Deps)) : Prop :=
  deps = Panic \/ exists d, deps = Ret (Ok d) /\ (clock_fails (dep_clock d) \/ time_fails (dep_client d)).

Context (android : bool) (world : World) (deps : outcome (io_result Deps)).

Definition settings_of (config : InitialConnectionConfig) : option LocalAgentSettings :=
  match cfg_connection_mode config with NoLocalAgent _ => None | LocalAgent _ _ st => Some st end.

Definition created (d : Deps) (receiver : list (option PvpnMessage)) : outcome (() * conn) :=
  connection_new android (dep_client d) (dep_streams d) world receiver (cfg_network_available (config d))
    (cfg_peers (config d)) (cfg_pcap_file (config d)) (dep_clock d) (settings_of (config d)).

(** A step of the connection's thread.  The poll blocks unless it was woken or
    there is another reason to go on: a deadline, a stream, or that the iteration
    has panicked before it came to the poll. *)
Definition thread_next (fuel : nat) (reason : bool) (x : System) : option System :=
  match thread x with
  | Starting =>
      match deps with
      | Ret (Ok d) => (fun t => set_thread t x) <$> after (created d []) Receiving
      | Ret (Err _) => Some (set_thread (Ended None) x)
      | Panic => Some (set_thread Crashed x)
      | NoFuel => None
      end
  | Receiving s =>
      match queue x with
      | [] => Some (set_taken None [] (Polling s) x)
      | Disconnect :: q =>
          (fun t => set_taken (Some Disconnect) q t x) <$>
            after (on_connection_loop_end (set_should_stop true s)) (fun s' => Ended (Some s'))
      | m :: q => (fun t => set_taken (Some m) q t x) <$> after (handle_pvpn_message m s) Receiving
      end
  | Polling s =>
      if woken x || reason then
        Some {| queue := queue x; flight := flight x; woken := false; thread := Polled s;
                handle_left := handle_left x; waiting := waiting x; joined := joined x;
                sent := sent x; taken := taken x; wake_failed := wake_failed x |}
      else None
  | Polled s => (fun t => set_thread t x) <$> after (iteration fuel s) Receiving
  | Ended _ | Crashed => None
  end.

Inductive label :=
| LCall (call : api_call)
| LWake (i : nat) (ok : bool)
| LJoin
| LThread (fuel : nat) (reason : bool).

Definition sys_do (l : label) (x : System) : option System :=
  match l with
  | LCall call => sys_send call x
  | LWake i ok => sys_wake i ok x
  | LJoin => sys_join x
  | LThread fuel reason => thread_next fuel reason x
  end.

Definition sys_step (x y : System) : Prop := exists l, sys_do l x = Some y.

(** [connect_internal] has spawned the thread and returned the handle. *)
Definition sys_start : System :=
  {| queue := []; flight := []; woken := false; thread := Starting; handle_left := true; waiting := false;
     joined := false; sent := []; taken := []; wake_failed := false |}.

Definition sys_reachable (x : System) : Prop := rtc sys_step sys_start x.

Fixpoint sys_exec (ls : list label) (x : System) : option System :=
  match ls with
  | [] => Some x
  | l :: ls => match sys_do l x with Some y => sys_exec ls y | None => None end
  end.

Lemma sys_exec_reaches ls x y : sys_exec ls x = Some y -> rtc sys_step x y.
Proof.
  revert x. induction ls as [|l ls IH]; intros x; simpl; [by intros [= <-]|].
  destruct (sys_do l x) as [z|] eqn:E; [|done]. intros Hy. eapply rtc_l; [by exists l|]. by apply IH.
Defined.

(** ** Invariants *)

Record sys_inv (x : System) : Prop := {
  si_order : omap id (taken x) ++ queue x = sent x;
  si_wake : forall s, thread x = Polling s -> queue x <> [] -> woken x = true \/ flight x <> [] \/ wake_failed x = true;
  si_joined : joined x = true -> running (thread x) = false;
  si_waiting : waiting x = true \/ joined x = true -> Disconnect ∈ sent x;
  si_flight : forall c, c ∈ flight x -> call_message c ∈ sent x;
}.

Lemma after_inv {A} (o : outcome (A * conn)) k (f : Thread -> System) y :
  f <$> after o k = Some y ->
  (o = Panic /\ y = f Crashed) \/ exists a s, o = Ret (a, s) /\ y = f (k s).
Proof. destruct o as [[a s]| |]; simpl; intros E; simplify_eq; eauto. Qed.

(** The three kinds of thread steps: one that leaves the shared state alone, an
    answer of [try_recv], and the return of the poll. *)
Lemma thread_next_inv fuel reason x y :
  thread_next fuel reason x = Some y ->
  running (thread x) = true /\
  ((exists t, y = set_thread t x /\ forall s, t <> Polling s)
   \/ (exists m q t, y = set_taken m q t x /\ queue x = option_list m ++ q /\ (forall s, t = Polling s -> q = []))
   \/ (exists s, thread y = Polled s /\ queue y = queue x /\ flight y = flight x /\ waiting y = waiting x
         /\ joined y = joined x /\ sent y = sent x /\ taken y = taken x /\ wake_failed y = wake_failed x)).
Proof.
  unfold thread_next. destruct (thread x) as [|s|s|s|s|]; intros E; try done; (split; [done|]).
  - left. destruct deps as [[d|e]| |]; try (injection E as <-; by eexists); [|done].
    apply after_inv in E as [[_ ->]|(a & s & _ & ->)]; by eexists.
  - right. left. destruct (queue x) as [|m q].
    { injection E as <-. by eexists None, [], _. }
    exists (Some m), q. destruct m; apply after_inv in E as [[_ ->]|(a & s' & _ & ->)]; by eexists.
  - right. right. destruct (woken x || reason); [|done]. injection E as <-. by exists s.
  - left. apply after_inv in E as [[_ ->]|(a & s' & _ & ->)]; by eexists.
Qed.

Lemma sys_inv_start : sys_inv sys_start.
Proof. split; try done; simpl; [naive_solver|set_solver]. Qed.

Lemma sys_inv_step x y : sys_step x y -> sys_inv x -> sys_inv y.
Proof.
  intros [l E] []. destruct l as [call|i ok| |fuel reason]; simpl in E.
  - unfold sys_send in E. destruct (running (thread x)) eqn:Hr; simplify_eq. split; simpl.
    + by rewrite app_assoc, si_order0.
    + intros s Hs _. right. left. by destruct (flight x).
    + intros Hj. rewrite si_joined0 in Hr by done. done.
    + set_solver.
    + set_solver.
  - unfold sys_wake in E. destruct (flight x !! i) as [call|] eqn:Hi; simplify_eq. split; simpl; try done.
    + intros s Hs Hq. destruct ok; rewrite ?orb_true_r; auto.
    + intros Hw. destruct call; rewrite ?orb_false_r in Hw; try by apply si_waiting0.
      apply (si_flight0 CallDisconnectAndWait). by eapply list_elem_of_lookup_2.
    + intros c Hc. apply si_flight0. revert c Hc. apply sublist_subseteq, sublist_delete.
  - unfold sys_join in E. destruct (waiting x) eqn:Hw, (running (thread x)) eqn:Hr; simplify_eq/=.
    split; simpl; try done. intros _. apply si_waiting0. by left.
  - apply thread_next_inv in E as (Hr & [(t & -> & Ht)|[(m & q & t & -> & Hq & Ht)|(s & Ht & Hq & Hf & Hw & Hj & Hs & Hk & Hl)]]).
    + split; simpl; try done.
      * intros s Hs. by destruct (Ht s).
      * intros Hj. by rewrite si_joined0 in Hr.
    + split; simpl; try done.
      * rewrite omap_app, <- app_assoc, <- si_order0, Hq. by destruct m.
      * intros s Hs Hn. by rewrite (Ht s Hs) in Hn.
      * intros Hj. by rewrite si_joined0 in Hr.
    + split; rewrite ?Ht, ?Hq, ?Hf, ?Hw, ?Hj, ?Hs, ?Hk; simpl; try done.
      intros Hj'. by rewrite si_joined0 in Hr.
Qed.

Lemma sys_reachable_inv x : sys_reachable x -> sys_inv x.
Proof. intros Hx. eapply rtc_invariant; [exact sys_inv_step|exact Hx|apply sys_inv_start]. Qed.

(** ** Every interleaving is a schedule *)

Context {str_laws : StreamLaws T}.

(** The loop between two iterations: nothing asked it to stop, and the queue is
    not its own. *)
Definition idle (s : conn) : Prop := should_stop s = false /\ message_receiver s = [].

Lemma idle_receiver s : idle s -> set_receiver [] s = s.
Proof. intros [_ H]. destruct s. simpl in *. by subst. Qed.

Lemma set_receiver_twice l l' (s : conn) : set_receiver l (set_receiver l' s) = set_receiver l s.
Proof. done. Qed.

Lemma idle_message m s u s' : idle s -> handle_pvpn_message m s = Ret (u, s') -> idle s'.
Proof. intros [Hs Hr] E. apply message_inbox in E as [Er Es]. split; congruence. Qed.

Lemma idle_iteration fuel s u s' : idle s -> iteration fuel s = Ret (u, s') -> idle s'.
Proof.
  intros [Hs Hr] E. split.
  - rewrite <- Hs. apply io_should_stop. by eapply tracks_iteration.
  - rewrite <- Hr. by eapply blind_receiver; [apply blind_iteration|].
Qed.

(** What [run] does once its messages are handled. *)
Definition after_loop (fuel n : nat) : M conn () :=
  stop ← get should_stop;
  if negb stop then match n with O => no_fuel | S n => iteration fuel ;; run fuel n end
  else on_connection_loop_end.

Lemma run_loop fuel n (s : conn) :
  run fuel n s = (message_loop (length (message_receiver s)) ;; after_loop fuel n) s.
Proof.
  assert (forall k : bool -> M conn (),
    (handle_messages ≫= k) s = (message_loop (length (message_receiver s)) ;; stop ← get should_stop; k (negb stop)) s) as H.
  { intros k. unfold handle_messages, mbind, M_bind. simpl.
    by destruct (message_loop (length (message_receiver s)) s) as [[u s1]| |]. }
  unfold after_loop. destruct n; apply H.
Qed.

Lemma after_loop_approx fuel fuel' n n' s r :
  fuel <= fuel' -> n <= n' -> after_loop fuel n s = Ret r -> after_loop fuel' n' s = Ret r.
Proof.
  intros Hf Hn. assert (approximates (after_loop fuel n) (after_loop fuel' n')) as Ha; [|by apply Ha].
  unfold after_loop. apply approximates_bind; [apply approximates_refl|]. intros stop. destruct (negb stop); [|apply approximates_refl].
  destruct n as [|n]; [apply approximates_no_fuel|]. destruct n' as [|n']; [lia|].
  apply approximates_bind; [by apply iteration_approx|]. intros _. apply run_approx; [done|lia].
Qed.

(** From [s], with the schedule [l], the loop ends in [s']. *)
Definition ends (fuel n : nat) (l : list (option PvpnMessage)) (s s' : conn) : Prop :=
  forall k, length l <= k -> (message_loop k ;; after_loop fuel n) (set_receiver l s) = Ret ((), s').

Lemma message_loop_head k m l (s : conn) :
  message_loop k (set_receiver (Some m :: l) s) =
  match m with
  | Disconnect => Ret ((), set_should_stop true (set_receiver l s))
  | _ => (handle_pvpn_message m ;; match k with O => no_fuel | S k => message_loop k end) (set_receiver l s)
  end.
Proof. by destruct k, m. Qed.

Lemma ends_message fuel n m l s s1 s' u :
  m <> Disconnect -> handle_pvpn_message m s = Ret (u, s1) -> ends fuel n l s1 s' -> ends fuel n (Some m :: l) s s'.
Proof.
  intros Hm E H k Hk. simpl in Hk. destruct k as [|k]; [lia|]. specialize (H k ltac:(lia)).
  apply bind_inv in H as (v & s2 & E1 & E2). rewrite (bind_eq _ _ _ v s2); [done|]. rewrite message_loop_head.
  assert ((handle_pvpn_message m ;; message_loop k) (set_receiver l s) = Ret (v, s2)) as E'; [|by destruct m].
  by rewrite (bind_eq _ _ _ _ _ (blind_result _ l _ _ _ (blind_message m) E)).
Qed.

Lemma ends_disconnect s u s' :
  idle s -> on_connection_loop_end (set_should_stop true s) = Ret (u, s') -> ends 0 0 [Some Disconnect] s s'.
Proof.
  intros Hi E k _. rewrite (bind_eq _ _ _ () _ (message_loop_head k Disconnect [] s)), idle_receiver by done.
  by destruct u.
Qed.

Lemma ends_empty fuel n l s s1 s' u :
  idle s -> iteration fuel s = Ret (u, s1) -> ends fuel n l s1 s' -> ends fuel (S n) (None :: l) s s'.
Proof.
  intros [Hs _] E H k _.
  assert ((message_loop k ;; after_loop fuel (S n)) (set_receiver (None :: l) s) = after_loop fuel (S n) (set_receiver l s))
    as -> by by destruct k.
  unfold after_loop. rewrite (bind_eq _ _ _ _ _ eq_refl). simpl. rewrite Hs. simpl.
  rewrite (bind_eq _ _ _ _ _ (blind_result _ l _ _ _ (blind_iteration fuel) E)), run_loop. by apply H.
Qed.

Lemma ends_mono fuel fuel' n l s s' : fuel <= fuel' -> ends fuel n l s s' -> ends fuel' n l s s'.
Proof.
  intros Hf H k Hk. specialize (H k Hk). apply bind_inv in H as (a & s1 & E1 & E2).
  rewrite (bind_eq _ _ _ _ _ E1). by eapply after_loop_approx.
Qed.

(** The rest of the thread's life, from where it is. *)
Definition finishes (t : Thread) (l : list (option PvpnMessage)) (s' : conn) : Prop :=
  match t with
  | Starting =>
      exists d s0 fuel n, deps = Ret (Ok d) /\ created d [] = Ret ((), s0) /\ ends fuel n l s0 s'
  | Receiving s => idle s -> exists fuel n, ends fuel n l s s'
  | Polling s | Polled s => idle s -> exists fuel n u s1, iteration fuel s = Ret (u, s1) /\ ends fuel n l s1 s'
  | Ended o => o = Some s' /\ l = []
  | Crashed => False
  end.

Lemma created_idle d s0 : created d [] = Ret ((), s0) -> idle s0.
Proof. intros E. by apply new_inbox in E as [Hr Hs]. Qed.

(** One step of the thread, backwards. *)
Lemma finishes_step fuel reason x y l s' :
  thread_next fuel reason x = Some y -> finishes (thread y) l s' ->
  exists l0, taken y = taken x ++ l0 /\ finishes (thread x) (l0 ++ l) s'.
Proof.
  unfold thread_next. destruct (thread x) as [|s|s|s|s|]; intros E; try done.
  - destruct deps as [[d|e]| |] eqn:Ed; try done; [|by injection E as <-; intros [? _]|by injection E as <-].
    apply after_inv in E as [[_ ->]|([] & s & Ec & ->)]; [done|]. simpl. intros H. exists [].
    rewrite app_nil_r. split; [done|]. destruct (H (created_idle _ _ Ec)) as (f & n & He). by exists d, s, f, n.
  - destruct (queue x) as [|m q].
    { injection E as <-. simpl. intros H. exists [None]. split; [done|]. intros Hi.
      destruct (H Hi) as (f & n & u & s1 & Ei & He). exists f, (S n). by eapply ends_empty. }
    assert (m = Disconnect \/ m <> Disconnect) as [->|Hm] by (destruct m; auto).
    + apply after_inv in E as [[_ ->]|(u & s1 & Ec & ->)]; [done|]. simpl. intros [[= <-] ->].
      exists [Some Disconnect]. split; [done|]. intros Hi. exists 0, 0. by eapply ends_disconnect.
    + assert ((fun t => set_taken (Some m) q t x) <$> after (handle_pvpn_message m s) Receiving = Some y) as E'
        by (destruct m; done).
      apply after_inv in E' as [[_ ->]|(u & s1 & Ec & ->)]; [done|]. simpl. intros H. exists [Some m]. split; [done|].
      intros Hi. destruct (H (idle_message _ _ _ _ Hi Ec)) as (f & n & He). exists f, n. by eapply ends_message.
  - destruct (woken x || reason); [|done]. injection E as <-. simpl. intros H. exists []. by rewrite app_nil_r.
  - apply after_inv in E as [[_ ->]|(u & s1 & Ei & ->)]; [done|]. simpl. intros H. exists []. rewrite app_nil_r.
    split; [done|]. intros Hi. destruct (H (idle_iteration _ _ _ _ Hi Ei)) as (f & n & He).
    exists (Nat.max fuel f), n, u, s1. split; [|eapply ends_mono; [|exact He]; lia].
    eapply iteration_approx; [| |exact Ei]; [lia|done].
Qed.

Lemma thread_finishes x y s' :
  rtc sys_step x y -> thread y = Ended (Some s') ->
  exists l, taken y = taken x ++ l /\ finishes (thread x) l s'.
Proof.
  intros Hr Hy. induction Hr as [x|x z y [lab E] _ IH].
  { exists []. rewrite app_nil_r, Hy. by split. }
  destruct (IH Hy) as (l & Ht & Hf). destruct lab as [call|i ok| |fuel reason]; simpl in E.
  - unfold sys_send in E. destruct (running _); [|done]. injection E as <-. by exists l.
  - unfold sys_wake in E. destruct (flight x !! i); [|done]. injection E as <-. by exists l.
  - unfold sys_join in E. destruct (_ && _); [|done]. injection E as <-. by exists l.
  - destruct (finishes_step _ _ _ _ _ _ E Hf) as (l0 & E0 & Hf'). exists (l0 ++ l). split; [|done].
    by rewrite Ht, E0, app_assoc.
Qed.

Lemma initial_receiver d l :
  initial android (dep_client d) (dep_streams d) world l (cfg_network_available (config d)) (cfg_peers (config d))
    (dep_clock d) (settings_of (config d))
  = set_receiver l (initial android (dep_client d) (dep_streams d) world [] (cfg_network_available (config d))
      (cfg_peers (config d)) (dep_clock d) (settings_of (config d)) : conn).
Proof. done. Qed.

Lemma started_ends fuel n d l (s0 s' : conn) :
  created d [] = Ret ((), s0) -> ends fuel n l s0 s' ->
  start_pvpn_connection android fuel n world (Ok d) l = Some (Ret ((), s')).
Proof.
  intros E He. simpl. fold (settings_of (config d)). f_equal. rewrite initial_receiver.
  rewrite (bind_eq _ _ _ _ _ (blind_result _ l _ _ _ (blind_new_body _ _) E)), run_loop. by apply He.
Qed.

(** C12.  Concurrency: whatever the application's threads do and however they
    interleave with the connection's thread, when that thread has returned it did
    exactly what the loop does on the schedule of answers its [try_recv] gave;
    the messages in that schedule, followed by those never read, are the messages
    sent, in the order in which they were sent. *)
Theorem interleavings_scheduled (x : System) (s : conn) :
  sys_reachable x -> thread x = Ended (Some s) ->
  exists d fuel n, deps = Ret (Ok d)
    /\ start_pvpn_connection android fuel n world (Ok d) (taken x) = Some (Ret ((), s))
    /\ omap id (taken x) ++ queue x = sent x.
Proof.
  intros Hx Ht. destruct (thread_finishes _ _ _ Hx Ht) as (l & El & d & s0 & fuel & n & Hd & Hc & He).
  exists d, fuel, n. simpl in El. rewrite El. split_and!; [done|by eapply started_ends|].
  rewrite <- El. apply sys_reachable_inv, Hx.
Qed.

(** ** The end of the thread *)

Context {str_safe : StreamSafe T}.

(** Disconnected, reported so, and no capture left open. *)
Definition closed (s : conn) : Prop :=
  pcap_stream s = None /\ capture_run None (out s) = Some None
  /\ exists e, connection_state s = Disconnected e /\ default (Disconnected None) (last (reported (out s))) = Disconnected e.

(** What is known of the thread: the loop's invariant while it runs, and how it
    can have ended. *)
Definition thread_inv (t : Thread) : Prop :=
  match t with
  | Starting => True
  | Receiving s | Polling s | Polled s => conn_inv s /\ idle s /\ (time_panics s -> crash_cause deps)
  | Ended (Some s) => closed s
  | Ended None => exists e, deps = Ret (Err e)
  | Crashed => crash_cause deps
  end.

Lemma loop_ended_closed (s : conn) : conn_inv s -> should_stop s = true -> closed (loop_ended s).
Proof.
  intros Hi Hs. assert (conn_inv (loop_ended s)) as [[_ Hl Hc] _ _ _ _ _].
  { eapply rtc_invariant; [exact conn_step_inv|by apply loop_ended_steps|exact Hi]. }
  destruct (loop_ended_spec s Hs) as (Hp & _ & e & He). rewrite Hp in Hc. split_and!; [done..|]. exists e. by rewrite Hl.
Qed.

Lemma disconnect_inv (s : conn) : conn_inv s -> conn_inv (set_should_stop true s).
Proof. intros Hi. eapply conn_step_inv; [apply st_stop|exact Hi]. Qed.

Lemma message_inv m (s : conn) u s' : conn_inv s -> handle_pvpn_message m s = Ret (u, s') -> conn_inv s'.
Proof. intros Hi E. eapply tracks_invariant; [exact msg_step_inv|apply tracks_pvpn_message|exact Hi|exact E]. Qed.

Lemma created_returns d : exists s0, created d [] = Ret ((), s0).
Proof.
  unfold created, connection_new.
  match goal with |- exists s0, new_body ?p ?st ?i = _ => destruct (returns_new_body p st i) as ([] & s0 & E) end.
  by exists s0.
Qed.

Lemma thread_inv_step fuel reason x y :
  thread_next fuel reason x = Some y -> thread_inv (thread x) -> thread_inv (thread y).
Proof.
  unfold thread_next. destruct (thread x) as [|s|s|s|s|]; intros E; try done; simpl.
  - intros _. destruct deps as [[d|e]| |] eqn:Ed; try done; [|injection E as <-; simpl; by eexists|].
    + destruct (created_returns d) as (s0 & Es). rewrite Es in E. injection E as <-.
      split; [by eapply new_inv|]. split; [by eapply created_idle|]. intros Hp. right. exists d.
      split; [done|]. by eapply new_panics.
    + injection E as <-. by left.
  - intros (Hi & Hd & Hp). destruct (queue x) as [|m q].
    { injection E as <-. by split. }
    assert (m = Disconnect \/ m <> Disconnect) as [->|Hm] by (destruct m; auto).
    + rewrite loop_end_eq in E. injection E as <-. by apply loop_ended_closed; [apply disconnect_inv|].
    + assert ((fun t => set_taken (Some m) q t x) <$> after (handle_pvpn_message m s) Receiving = Some y) as E'
        by (destruct m; done).
      apply after_inv in E' as [[Em ->]|([] & s1 & Em & ->)].
      * apply Hp. left. destruct (message_fate m s) as [(s1 & Em')|(_ & _ & Ef)]; [congruence|by apply clock_fails_now].
      * split; [by eapply message_inv|]. split; [by eapply idle_message|]. intros Hp1. apply Hp.
        eapply conn_steps_panics; [by eapply tracks_any_message|exact Hp1].
  - intros Hi. destruct (woken x || reason); [|done]. by injection E as <-.
  - intros (Hi & Hd & Hp). apply after_inv in E as [[E ->]|(u & s1 & E & ->)]; [by apply Hp, (ok_iteration fuel)|].
    split; [|split; [by eapply idle_iteration|]].
    + eapply tracks_invariant; [apply io_step_inv|apply tracks_iteration|exact Hi|exact E].
    + intros Hp1. apply Hp. eapply (rtc_backward io_step); [apply io_step_panics|by eapply tracks_iteration|exact Hp1].
Qed.

Lemma sys_thread_inv x : sys_reachable x -> thread_inv (thread x).
Proof.
  intros Hx. eapply (rtc_invariant sys_step (fun x => thread_inv (thread x))); [|exact Hx|done].
  intros a b [lab E]. destruct lab as [call|i ok| |fuel reason]; simpl in E.
  - unfold sys_send in E. destruct (running _); [|done]. by injection E as <-.
  - unfold sys_wake in E. destruct (flight a !! i); [|done]. by injection E as <-.
  - unfold sys_join in E. destruct (_ && _); [|done]. by injection E as <-.
  - by eapply thread_inv_step.
Qed.

(** ** Progress *)

(** [k] steps of the connection's thread, its poll returning only when woken. *)
Fixpoint thread_run (k fuel : nat) (x : System) : option System :=
  match k with
  | O => Some x
  | S k => match thread_next fuel false x with Some y => thread_run k fuel y | None => None end
  end.

(** The iteration the thread is in, if any, ends. *)
Definition iteration_ends (t : Thread) : Prop :=
  match t with
  | Polling s | Polled s => exists fuel, iteration fuel s <> NoFuel
  | _ => deps <> NoFuel
  end.

(** A thread that has a disconnect request in its queue ends by itself. *)
Lemma receiving_ends fuel (q : list PvpnMessage) x s :
  thread x = Receiving s -> queue x = q -> Disconnect ∈ q ->
  exists k y, k <= length q /\ thread_run k fuel x = Some y /\ running (thread y) = false.
Proof.
  revert x s. induction q as [|m q IH]; intros x s Ht Hq Hd; [set_solver|].
  assert (m = Disconnect \/ m <> Disconnect) as [->|Hm] by (destruct m; auto).
  - exists 1. simpl. unfold thread_next. rewrite Ht, Hq, loop_end_eq. simpl. eexists. split_and!; [lia|done|done].
  - assert (thread_next fuel false x = (fun t => set_taken (Some m) q t x) <$> after (handle_pvpn_message m s) Receiving) as En
      by (unfold thread_next; rewrite Ht, Hq; by destruct m).
    destruct (message_fate m s) as [(s1 & Em)|(_ & Em & _)]; rewrite Em in En; simpl in En.
    2: { exists 1, (set_taken (Some m) q Crashed x). split; [simpl; lia|]. simpl. by rewrite En. }
    destruct (IH (set_taken (Some m) q (Receiving s1) x) s1) as (k & y & Hk & Ek & Hy); [done|done|set_solver|].
    exists (S k), y. split; [simpl; lia|]. split; [|done]. simpl. by rewrite En.
Qed.

Lemma polled_ends x s :
  thread x = Polled s -> Disconnect ∈ queue x -> iteration_ends (Polled s) ->
  exists k fuel y, k <= S (length (queue x)) /\ thread_run k fuel x = Some y /\ running (thread y) = false.
Proof.
  intros Ht Hd [fuel He]. destruct (iteration fuel s) as [[u s1]| |] eqn:Ei; [| |done].
  2: { exists 1, fuel, (set_thread Crashed x). split; [lia|]. simpl. unfold thread_next. by rewrite Ht, Ei. }
  destruct (receiving_ends fuel _ (set_thread (Receiving s1) x) s1 eq_refl eq_refl Hd) as (k & y & Hk & Ek & Hy).
  exists (S k), fuel, y. split; [simpl in Hk; lia|]. split; [|done]. simpl. unfold thread_next. by rewrite Ht, Ei.
Qed.

Lemma run_prefix k fuel x y z : thread_next fuel false x = Some y -> thread_run k fuel y = Some z ->
  thread_run (S k) fuel x = Some z.
Proof. intros E Ek. simpl. by rewrite E. Qed.

Lemma starting_next x :
  thread x = Starting -> deps <> NoFuel ->
  exists t, thread_next 0 false x = Some (set_thread t x) /\ (running t = false \/ exists s0, t = Receiving s0).
Proof.
  intros Ht Hn. unfold thread_next. rewrite Ht. destruct deps as [[d|e]| |]; [|eexists; split; [done|by left]..|done].
  destruct (created_returns d) as (s0 & ->). eexists. split; [done|]. right. by eexists.
Qed.

Lemma thread_ends x :
  running (thread x) = true -> Disconnect ∈ queue x -> iteration_ends (thread x) ->
  (forall s, thread x = Polling s -> woken x = true) ->
  exists k fuel y, k <= 2 + length (queue x) /\ thread_run k fuel x = Some y /\ running (thread y) = false.
Proof.
  intros Hr Hd He Hw. destruct (thread x) as [|s|s|s|s|] eqn:Ht; try done.
  - destruct (starting_next x Ht He) as (t & E & [Hf|[s0 ->]]).
    { exists 1, 0, (set_thread t x). split_and!; [lia|simpl; by rewrite E|done]. }
    destruct (receiving_ends 0 _ (set_thread (Receiving s0) x) s0 eq_refl eq_refl Hd) as (k & y & Hk & Ek & Hy).
    exists (S k), 0, y. split; [simpl in Hk; lia|]. split; [by eapply run_prefix|done].
  - destruct (receiving_ends 0 _ x s Ht eq_refl Hd) as (k & y & Hk & Ek & Hy). exists k, 0, y. by split; [lia|].
  - specialize (Hw s eq_refl).
    destruct (polled_ends {| queue := queue x; flight := flight x; woken := false; thread := Polled s;
      handle_left := handle_left x; waiting := waiting x; joined := joined x; sent := sent x; taken := taken x;
      wake_failed := wake_failed x |} s
      eq_refl Hd He) as (k & fuel & y & Hk & Ek & Hy).
    exists (S k), fuel, y. split; [simpl in Hk; lia|]. split; [|done]. eapply run_prefix; [|exact Ek].
    unfold thread_next. by rewrite Ht, Hw.
  - destruct (polled_ends x s Ht Hd He) as (k & fuel & y & Hk & Ek & Hy).
    exists k, fuel, y. by split; [lia|].
Qed.

Lemma thread_run_reaches k fuel x y : thread_run k fuel x = Some y -> rtc sys_step x y.
Proof.
  revert x. induction k as [|k IH]; intros x; simpl; [by intros [= <-]|].
  destruct (thread_next fuel false x) as [z|] eqn:E; [|done]. intros Hy. eapply rtc_l; [by exists (LThread fuel false)|].
  by apply IH.
Qed.

(** ** Bounded waiting

    With a disconnect request in the queue, every step of the thread brings it
    nearer to its end and no step of another thread takes it away again. *)

(** The messages before the first disconnect request. *)
Fixpoint before_disconnect (q : list PvpnMessage) : nat :=
  match q with [] | Disconnect :: _ => 0 | _ :: q => S (before_disconnect q) end.

Definition rank (x : System) : nat :=
  match thread x with
  | Starting | Polled _ => 2 + before_disconnect (queue x)
  | Receiving _ => 1 + before_disconnect (queue x)
  | Polling _ => 3 + before_disconnect (queue x)
  | Ended _ | Crashed => 0
  end.

Definition requested (x : System) : Prop := running (thread x) = true -> Disconnect ∈ queue x.

Definition is_thread_step (l : label) : bool := match l with LThread _ _ => true | _ => false end.
Definition thread_steps (ls : list label) : nat := length (retain is_thread_step ls).

Lemma before_disconnect_app q q' : Disconnect ∈ q -> before_disconnect (q ++ q') = before_disconnect q.
Proof.
  induction q as [|m q IH]; intros Hd; [set_solver|]. destruct m; simpl; try done; f_equal; apply IH; set_solver.
Qed.

Lemma before_disconnect_lt q : Disconnect ∈ q -> before_disconnect q < length q.
Proof.
  induction q as [|m q IH]; intros Hd; [set_solver|]. assert (m = Disconnect \/ m <> Disconnect) as [->|Hm] by (destruct m; auto).
  - simpl. lia.
  - assert (before_disconnect (m :: q) = S (before_disconnect q)) as -> by by destruct m.
    simpl. assert (before_disconnect q < length q) by (apply IH; set_solver). lia.
Qed.

Lemma rank_bound x : Disconnect ∈ queue x -> rank x <= 2 + length (queue x).
Proof. intros Hd%before_disconnect_lt. unfold rank. destruct (thread x); lia. Qed.

(** A step of the thread. *)
Lemma thread_rank fuel reason x y :
  requested x -> thread_next fuel reason x = Some y -> rank y < rank x /\ requested y.
Proof.
  unfold requested, thread_next, rank. destruct (thread x) as [|s|s|s|s|]; intros Hd E; try done; specialize (Hd eq_refl).
  - destruct deps as [[d|e]| |]; simplify_eq/=; [|split; [lia|done]..].
    apply after_inv in E as [[_ ->]|(a & s & _ & ->)]; simpl; (split; [lia|done]).
  - destruct (queue x) as [|m q]; [set_solver|].
    assert (m = Disconnect \/ m <> Disconnect) as [->|Hm] by (destruct m; auto).
    + apply after_inv in E as [[_ ->]|(a & s' & _ & ->)]; simpl; (split; [lia|done]).
    + assert (before_disconnect (m :: q) = S (before_disconnect q)) as -> by by destruct m.
      assert ((fun t => set_taken (Some m) q t x) <$> after (handle_pvpn_message m s) Receiving = Some y) as E'
        by (destruct m; done).
      apply after_inv in E' as [[_ ->]|(a & s' & _ & ->)]; simpl; (split; [lia|]); [done|]. set_solver.
  - destruct (woken x || reason); [|done]. injection E as <-. simpl. split; [lia|done].
  - apply after_inv in E as [[_ ->]|(a & s' & _ & ->)]; simpl; (split; [lia|done]).
Qed.

(** A step of another thread. *)
Lemma other_rank l x y :
  is_thread_step l = false -> requested x -> sys_do l x = Some y -> rank y = rank x /\ requested y.
Proof.
  unfold requested, rank. destruct l as [call|i ok| |fuel reason]; simpl; intros Hl Hd E; try done.
  - unfold sys_send in E. destruct (running (thread x)) eqn:Hr; [|done]. injection E as <-. specialize (Hd eq_refl). simpl.
    rewrite before_disconnect_app by done. split; [done|]. set_solver.
  - unfold sys_wake in E. destruct (flight x !! i); [|done]. by injection E as <-.
  - unfold sys_join in E. destruct (_ && _); [|done]. by injection E as <-.
Qed.

Lemma exec_rank ls x y :
  requested x -> sys_exec ls x = Some y -> thread_steps ls + rank y <= rank x /\ requested y.
Proof.
  unfold thread_steps, retain. revert x. induction ls as [|l ls IH]; intros x Hd E; simpl in *; [by injection E as <-|].
  destruct (sys_do l x) as [z|] eqn:Ez; [|done]. destruct (is_thread_step l) eqn:Hl.
  - destruct l as [| | |fuel reason]; try done. apply thread_rank in Ez as [Hz Hr]; [|done].
    destruct (IH z Hr E). simpl. split; [lia|done].
  - apply other_rank in Ez as [<- Hr]; [|done..]. by apply IH.
Qed.

(** The thread can go on, or a sender can: nobody waits for ever. *)
Lemma requested_enabled x :
  sys_inv x -> running (thread x) = true -> Disconnect ∈ queue x ->
  iteration_ends (thread x) -> wake_failed x = false ->
  (exists fuel y, thread_next fuel false x = Some y) \/ exists y, sys_wake 0 true x = Some y.
Proof.
  intros Hinv Hr Hd He Hw. destruct (thread x) as [|s|s|s|s|] eqn:Ht; try done.
  - left. destruct (starting_next x Ht He) as (t & E & _). by eexists _, _.
  - left. destruct (queue x) as [|m q] eqn:Hq; [set_solver|].
    destruct (receiving_ends 0 (m :: q) x s Ht Hq Hd) as ([|k] & y & _ & Ek & Hy); simpl in Ek.
    + injection Ek as <-. by rewrite Ht in Hy.
    + destruct (thread_next 0 false x) as [z|] eqn:E; [|done]. by exists 0, z.
  - destruct (si_wake x Hinv s Ht) as [Hk|[Hf|Hf]]; [by intros Hq; rewrite Hq in Hd; set_solver| | |congruence].
    + left. exists 0. unfold thread_next. rewrite Ht, Hk. by eexists.
    + right. unfold sys_wake. destruct (flight x) as [|c l]; [done|]. by eexists.
  - left. destruct He as [fuel He]. exists fuel. unfold thread_next. rewrite Ht.
    destruct (iteration fuel s) as [[u s1]| |]; [by eexists..|done].
Qed.

(** C14.  No wake-up is lost: if the thread is about to wait in its poll while a
    message is queued, and no wake was refused by the system, then the poll's waker
    is set, or the sender of a message is about to set it. *)
Theorem no_lost_wakeup (x : System) (s : conn) :
  sys_reachable x -> thread x = Polling s -> queue x <> [] -> wake_failed x = false ->
  woken x = true \/ flight x <> [].
Proof. intros Hx Ht Hq Hw. destruct (si_wake x (sys_reachable_inv x Hx) s Ht Hq) as [?|[?|?]]; [auto..|congruence]. Qed.

(** Disconnecting and waiting, as far as the system of threads decides it. *)
Lemma disconnect_progress x :
  sys_reachable x ->
  (Disconnect ∈ queue x -> forall ls y, sys_exec ls x = Some y ->
     thread_steps ls <= 2 + length (queue x)
     /\ (running (thread y) = true -> iteration_ends (thread y) -> wake_failed y = false ->
         (exists fuel z, sys_do (LThread fuel false) y = Some z) \/ exists z, sys_do (LWake 0 true) y = Some z))
  /\ (joined x = true -> Disconnect ∈ sent x /\
       match thread x with
       | Ended (Some s) => closed s
       | Ended None => exists e, deps = Ret (Err e)
       | Crashed => crash_cause deps
       | _ => False
       end).
Proof.
  intros Hx. split.
  - intros Hd ls y Ey. destruct (exec_rank ls x y) as [Hk Hy]; [by intros _|done|].
    pose proof (rank_bound x Hd). split; [lia|]. intros Hr He Hw.
    assert (sys_reachable y) as Hy' by (unfold sys_reachable; etrans; [exact Hx|by eapply sys_exec_reaches]).
    apply requested_enabled; [by apply sys_reachable_inv|done|by apply Hy|done|done].
  - intros Hj. pose proof (sys_reachable_inv x Hx) as Hinv. pose proof (sys_thread_inv x Hx) as Ht.
    split; [apply (si_waiting x Hinv); by right|].
    pose proof (si_joined x Hinv Hj) as Hr. destruct (thread x) as [| | | |[s|]|]; done.
Qed.
End threads.
