(* ===== verification/Termination.v ===== *)
(** * The loop's inner loops end

    One iteration of the connection loop contains three loops whose length the
    outside world decides: pulling actions from the VPN library, pulling messages
    from its local agent, and reading streams until nothing is left.  Here they
    are shown to end, and with them every iteration and every run that is asked to
    disconnect, over an outside world with four properties, in three classes: a write
    returns ([StreamEnds]), the library settles when it is only pulled and told how
    its actions went ([ClientSettles]), its agent runs out of messages (a field of
    the same class), and no infinite amount of data can be read between two polls
    ([ReadsSettle]).  The classes are discharged for the client, the mio streams
    and the Unix sockets, over classes of the library, the sockets and the
    devices. *)

From S2P Require Import Prelude Types NetworkRecovery SanitizedPeers Conversions LocalAgent.
From S2P Require Import Streams Pcap MioStreams SocketFactory PvpnClient PeerSync Connection ConnectionSteps.
From S2P Require Import ConnectionInvariants ConnectionTheorems ConnectionSafety Mailbox StreamCalls Threads.

(** ** Computations that more fuel makes end *)

Section settles.
Context {St : Type}.

(** With enough fuel the computation has a result, always the same. *)
Definition settles {A} (m : nat -> M St A) (s : St) : Prop :=
  exists n r, r <> NoFuel /\ forall N, n <= N -> m N s = r.

Lemma settles_const {A} (m : M St A) s : m s <> NoFuel -> settles (fun _ => m) s.
Proof. intros H. by exists 0, (m s). Qed.

Lemma settles_returns {A} (m : M St A) s : returns m -> settles (fun _ => m) s.
Proof. intros H. apply settles_const. by destruct (H s) as (a & s' & ->). Qed.

Lemma settles_lift_partial {F A} gt st (op : F -> option (A * F)) s : settles (fun _ => liftO gt st op) s.
Proof. apply settles_const. unfold liftO. by destruct (op (gt s)) as [[a f]|]. Qed.

Lemma settles_bind {A B} (m : nat -> M St A) (k : nat -> A -> M St B) s :
  settles m s -> (forall N a s', m N s = Ret (a, s') -> settles (fun N => k N a) s') ->
  settles (fun N => m N ≫= k N) s.
Proof.
  intros (n & r & Hr & E) Hk. destruct r as [[a s']| |]; [|by exists n, Panic; split; [|intros N HN; unfold mbind, M_bind; rewrite E]|done].
  destruct (Hk n a s') as (n' & r' & Hr' & E'); [by apply E|]. exists (Nat.max n n'), r'. split; [done|].
  intros N HN. rewrite (bind_eq _ _ _ a s') by (apply E; lia). apply E'. lia.
Qed.

Lemma settles_when (b : bool) (m : nat -> M St ()) s :
  (b = true -> settles m s) -> settles (fun N => when b (m N)) s.
Proof. destruct b; intros H; [by apply H|]. by apply settles_const. Qed.

(** A loop whose condition holds only finitely often along its iterations. *)
Lemma settles_whileM cond (body : M St ()) s :
  returns body -> Acc (fun s2 s1 => cond s1 = true /\ body s1 = Ret ((), s2)) s ->
  settles (fun N => whileM N cond body) s.
Proof.
  intros Hb. induction 1 as [s _ IH]. destruct (cond s) eqn:Hc.
  - destruct (Hb s) as ([] & s1 & E). destruct (IH s1 (conj eq_refl E)) as (n & r & Hr & Hn).
    exists (S n), r. split; [done|]. intros [|N] HN; [lia|]. simpl. rewrite Hc, (bind_eq _ _ _ _ _ E). apply Hn. lia.
  - exists 0, (Ret ((), s)). split; [done|]. intros N _. destruct N; simpl; by rewrite Hc.
Qed.

Lemma settles_forM {A} (l : list A) (body : A -> M St ()) s :
  (forall x, returns (body x)) -> settles (fun _ => forM l body) s.
Proof. intros H. by apply settles_returns, returns_forM. Qed.
End settles.

(** ** What the outside world promises *)

Class StreamEnds (T : Type) `{Stream T} := {
  write_returns data : returns (stream_write (T := T) data);
  flush_returns : returns (stream_write_from_buffer (T := T));
}.

(** What the loop tells the client about an action it has pulled. *)
Inductive answer_step {C} `{PvpnClient C} : C -> C -> Prop :=
| as_now c : answer_step c (monotonic_now c).2
| as_error id k c : answer_step c (push_error id k c)
| as_done id c : answer_step c (push (Action_done id) c)
| as_close id c : answer_step c (push (Action_close id) c)
| as_capture c : answer_step c (set_packet_capture_enabled false c).2.

(** The client asks to be pulled only finitely often, whatever the answers. *)
Class ClientSettles (C : Type) `{PvpnClient C} := {
  pulls_end : well_founded (fun c2 c1 : C => need_pull c1 = true /\ rtc answer_step (pull c1).2 c2);
  agent_ends : well_founded (fun c2 c1 : C => exists m, pull_local_agent c1 = (Some m, c2));
}.

(** A read that found data and asks to be repeated. *)
Inductive read_more {Ss T} `{Streams Ss T} `{Stream T} : Ss -> Ss -> Prop :=
| rm_read id t buf n off pw buf' t' ss :
    get_stream id ss = Some t -> stream_read buf t = ((StreamOk n off WouldBlockNo pw, buf'), t') -> 0 < n ->
    read_more ss (put_stream id t' ss).

(** Calls on the stream set with such a read among them. *)
Definition read_round {Ss T} `{Streams Ss T} `{Stream T} (ss ss' : Ss) : Prop :=
  exists a b, rtc io_call ss a /\ read_more a b /\ rtc io_call b ss'.

Class ReadsSettle (Ss T : Type) `{Streams Ss T} `{Stream T} :=
  reads_end : well_founded (flip (@read_round Ss T _ _)).

Section termination.
Context `{ids : StreamIds} {C Ss T CK : Type}.
Context `{pvpn : PvpnClient C, strs : Streams Ss T, str : Stream T, ck : Clock CK}.
Context {str_ends : StreamEnds T} {cl_settles : ClientSettles C} {rd_settle : @ReadsSettle Ss T _ _}.

Abbreviation conn := (PvpnConnection C Ss CK).

(** ** Pulling *)

(** A step of the connection leaves the client alone or is one answer to it. *)
Definition client_answer (s s' : conn) : Prop :=
  client s' = client s \/ answer_step (client s) (client s').

Lemma client_answers (s s' : conn) : rtc client_answer s s' -> rtc answer_step (client s) (client s').
Proof. induction 1 as [|x y z [->|Ha] _ IH]; [done|done|]. by eapply rtc_l. Qed.

Lemma mute_modify (f : conn -> conn) : (forall s, client (f s) = client s) -> tracks client_answer (modify f).
Proof. intros Hf. apply tracks_step. intros s. by left. Qed.

Lemma mute_lift {F A} gt st (op : F -> A * F) :
  (forall f s, client (st f s) = client s) -> tracks client_answer (liftS gt st op : M conn A).
Proof. intros Hf. apply tracks_lift. intros s a f _. by left. Qed.

Lemma mute_with_stream {A} id (op : M T A) : tracks client_answer (with_stream id op : M conn _).
Proof.
  intros s a s'. unfold with_stream. destruct (get_stream id (conn_streams s)) as [t|]; [|by intros [= <- <-]].
  destruct (op t) as [[b t']| |]; intros; simplify_eq. apply rtc_once. by left.
Qed.

Lemma mute_pcap_write data p : tracks client_answer (pcap_write data p : M conn _).
Proof. intros s a s'. unfold pcap_write. destruct (PcapStream_write _ _ _). intros [= <- <-]. apply rtc_once. by left. Qed.

Lemma tells (f : C -> C) : (forall c, answer_step c (f c)) -> tracks client_answer (client_do f : M conn ()).
Proof. intros Hf. apply tracks_step. intros s. right. apply Hf. Qed.

Lemma asks {A} (f : C -> A * C) : (forall c, answer_step c (f c).2) -> tracks client_answer (client_get f : M conn A).
Proof. intros Hf. apply tracks_lift. intros s a c' E. right. simpl. specialize (Hf (client s)). by rewrite E in Hf. Qed.

#[local] Hint Resolve mute_with_stream mute_pcap_write : protun.
#[local] Hint Extern 2 (tracks client_answer (modify _)) => (apply mute_modify; intros; reflexivity) : protun.
#[local] Hint Extern 2 (tracks client_answer (liftS _ _ _)) => (apply mute_lift; intros; reflexivity) : protun.
#[local] Hint Extern 2 (tracks client_answer (streams_get _)) => (apply mute_lift; intros; reflexivity) : protun.
#[local] Hint Extern 2 (tracks client_answer (streams_do _)) => (apply mute_modify; intros; reflexivity) : protun.
#[local] Hint Extern 2 (tracks client_answer (recovery_do _)) => (apply mute_modify; intros; reflexivity) : protun.
#[local] Hint Extern 2 (tracks client_answer (output _)) => (apply mute_modify; intros; reflexivity) : protun.
#[local] Hint Extern 2 (tracks client_answer (emit_event _)) => (apply mute_modify; intros; reflexivity) : protun.
#[local] Hint Extern 2 (tracks client_answer (client_do _)) => (apply tells; intros; constructor) : protun.
#[local] Hint Extern 2 (tracks client_answer (client_get _)) => (apply asks; intros; constructor) : protun.

Lemma answers_stream_error id e : tracks client_answer (handle_stream_error id e : M conn ()).
Proof. unfold handle_stream_error. track. Qed.
Lemma answers_stop_capture r : tracks client_answer (stop_packet_capture r : M conn ()).
Proof. unfold stop_packet_capture. track. Qed.
#[local] Hint Resolve answers_stream_error answers_stop_capture : protun.
Lemma answers_write_result id r : tracks client_answer (handle_stream_write_result id r : M conn ()).
Proof. unfold handle_stream_write_result. track. Qed.
#[local] Hint Resolve answers_write_result : protun.
Lemma answers_handle_write id data : tracks client_answer (handle_write id data : M conn ()).
Proof. unfold handle_write. track. Qed.
Lemma answers_handle_open id o : tracks client_answer (handle_open id o : M conn ()).
Proof. unfold handle_open. track. Qed.
#[local] Hint Resolve answers_handle_write answers_handle_open : protun.
Lemma answers_handle_action id k : tracks client_answer (handle_action id k : M conn ()).
Proof. unfold handle_action. track. Qed.

(** A pull and everything its action leads to. *)
Lemma pull_once_answers (s s' : conn) u :
  pull_once s = Ret (u, s') -> rtc answer_step (pull (client s)).2 (client s').
Proof.
  unfold pull_once, client_get. intros (a & s1 & E & Ek)%bind_inv. unfold liftS in E.
  destruct (pull (client s)) as [a' c'] eqn:Ep. injection E as <- <-. simpl.
  destruct a' as [act|]; [|by injection Ek as <- <-].
  apply answers_handle_action in Ek. by apply client_answers in Ek.
Qed.

(** *** They return *)

#[local] Hint Resolve returns_client_get returns_client_do returns_streams_get returns_streams_do returns_recovery_do
  returns_output returns_emit returns_stop_capture returns_stream_error returns_write_result returns_handle_open
  returns_agent_message returns_update_state returns_poll_deadline returns_read_stream returns_set_state : protun.

Lemma returns_with_stream {A} id (op : M T A) : returns op -> returns (with_stream id op : M conn _).
Proof.
  intros Hop s. unfold with_stream. destruct (get_stream id (conn_streams s)) as [t|]; [|by eexists _, _].
  destruct (Hop t) as (a & t' & ->). by eexists _, _.
Qed.

Lemma returns_pcap_write data p : returns (pcap_write data p : M conn _).
Proof. intros s. unfold pcap_write. destruct (PcapStream_write _ _ _). by eexists _, _. Qed.
#[local] Hint Resolve returns_pcap_write : protun.

Lemma returns_handle_write id data : returns (handle_write id data : M conn ()).
Proof. unfold handle_write. solve_returns. apply returns_with_stream, write_returns. Qed.
#[local] Hint Resolve returns_handle_write : protun.

Lemma returns_handle_action id k : returns (handle_action id k : M conn ()).
Proof. unfold handle_action. solve_returns; apply returns_with_stream, returns_modify. Qed.
#[local] Hint Resolve returns_handle_action : protun.

Lemma returns_pull_once : returns (pull_once : M conn ()).
Proof. unfold pull_once. solve_returns. Qed.

Lemma agent_message_client m (s s' : conn) u : handle_agent_message m s = Ret (u, s') -> client s' = client s.
Proof.
  unfold handle_agent_message, emit_event, output, modify, get, mbind, M_bind, mret, M_ret.
  repeat case_match; intros; by simplify_eq/=.
Qed.

Lemma agent_messages_end (s : conn) : settles pull_agent_messages s.
Proof.
  remember (client s) as c eqn:Hc. revert s Hc. induction (agent_ends c) as [c _ IH]. intros s ->.
  destruct (pull_local_agent (client s)) as [m c'] eqn:Ep.
  assert (Hpull : client_get pull_local_agent s = Ret (m, set_client c' s)).
  { unfold client_get, liftS. by rewrite Ep. }
  destruct m as [m|].
  - destruct (returns_agent_message m (set_client c' s)) as (u & s1 & E).
    destruct (IH c' (ex_intro _ m eq_refl) s1) as (n & r & Hr & Hn); [by apply agent_message_client in E|].
    exists (S n), r. split; [done|]. intros [|N] HN; [lia|]. simpl.
    rewrite (bind_eq _ _ _ _ _ Hpull), (bind_eq _ _ _ _ _ E). apply Hn. lia.
  - exists 0, (Ret ((), set_client c' s)). split; [done|]. intros N _. destruct N; simpl; by rewrite (bind_eq _ _ _ _ _ Hpull).
Qed.

Lemma pull_ends (s : conn) : settles pull_from_client s.
Proof.
  apply settles_bind.
  - apply settles_whileM; [exact returns_pull_once|].
    apply (wf_projected (fun c2 c1 => need_pull c1 = true /\ rtc answer_step (pull c1).2 c2) client); [|apply pulls_end].
    intros s2 s1 [Hp E]. split; [done|]. by eapply pull_once_answers.
  - intros _ [] s1 _. apply settles_bind; [apply settles_returns, returns_get|]. intros _ agent s2 _.
    destruct agent; [apply agent_messages_end|by apply settles_const].
Qed.

(** ** Reading *)

Lemma read_ends id (s : conn) : settles (fun N => read_one N id) s.
Proof.
  unfold read_one. apply settles_bind; [apply settles_returns, returns_read_stream|]. intros _ res s1 _.
  destruct res as [res|]; [|by apply settles_const].
  apply settles_bind; [apply settles_returns; solve_returns|]. intros _ [] s2 _.
  destruct res as [n off wb pw|e|]; [|apply settles_returns; solve_returns..].
  apply settles_bind; [apply settles_returns, returns_get|]. intros _ h s3 _.
  apply settles_bind; [|intros _ [] s4 _; by apply settles_const].
  apply settles_when. intros _. apply settles_bind.
  - apply settles_const. unfold buffer_slice. by case_decide.
  - intros _ data s4 _. apply settles_bind; [apply settles_returns; solve_returns|]. intros _ [] s5 _. apply pull_ends.
Qed.

Lemma pass_ends l (s : conn) : settles (fun N => read_pass N l) s.
Proof.
  revert s. induction l as [|id l IH]; intros s; simpl; [by apply settles_const|].
  apply settles_bind; [apply read_ends|]. intros _ again s1 _.
  apply settles_bind; [apply IH|]. intros _ next s2 _. by apply settles_const.
Qed.

(** A stream that asks to be read again has given data. *)
Lemma read_again fuel id (s s' : conn) :
  read_one fuel id s = Ret (true, s') -> read_round (conn_streams s) (conn_streams s').
Proof.
  unfold read_one. intros (res & s1 & Er & Ek)%bind_inv. unfold read_stream in Er.
  destruct (get_stream id (conn_streams s)) as [t|] eqn:Hg; [|by injection Er as <- <-].
  destruct (stream_read _ t) as [[r buf] t'] eqn:Hr. injection Er as <- <-.
  apply bind_inv in Ek as ([] & s2 & E2 & Ek).
  assert (conn_streams s2 = put_stream id t' (conn_streams s)) as Hs2.
  { unfold when, modify in E2. destruct (id =? TUN_STREAM_ID)%Z; injection E2 as <-; done. }
  destruct r as [n off wb pw|e|]; [|by apply bind_inv in Ek as (? & ? & _ & [=])..].
  apply bind_inv in Ek as (h & s3 & [= <- <-] & Ek). apply bind_inv in Ek as ([] & s4 & E4 & [= Hb <-]).
  apply andb_prop in Hb as [Hwb%bool_decide_eq_true Hn%Nat.ltb_lt]. subst wb.
  exists (conn_streams s), (put_stream id t' (conn_streams s)). split; [done|]. split; [by econstructor|].
  rewrite <- Hs2. apply (set_steps_calls io_call).
  match type of E4 with ?m _ = _ => assert (tracks (set_step io_call) m) as Ht end; [|by eapply Ht].
  apply tracks_when, tracks_bind; [apply calls_buffer_slice|]. intros data.
  apply tracks_bind; [apply keeps_modify; done|]. intros _. by apply calls_pull.
Qed.

Lemma pass_again fuel l (s s' : conn) next :
  read_pass fuel l s = Ret (next, s') -> next <> [] -> read_round (conn_streams s) (conn_streams s').
Proof.
  revert s s' next. induction l as [|id l IH]; intros s s' next; simpl; [by intros [= <- <-]|].
  intros (again & s1 & E1 & Ek)%bind_inv Hn. apply bind_inv in Ek as (next' & s2 & E2 & [= <- <-]).
  destruct again.
  - destruct (read_again _ _ _ _ E1) as (a & b & Ha & Hm & Hb). exists a, b. split_and!; [done..|].
    etrans; [exact Hb|]. apply (set_steps_calls io_call). by eapply calls_read_pass.
  - destruct (IH _ _ _ E2 Hn) as (a & b & Ha & Hm & Hb). exists a, b. split_and!; [|done..].
    etrans; [|exact Ha]. apply (set_steps_calls io_call). by eapply calls_read_one.
Qed.

Lemma reading_ends l (s : conn) :
  exists n r, r <> NoFuel /\ forall N N', n <= N -> n <= N' -> read_from_streams N N' l s = r.
Proof.
  remember (conn_streams s) as ss eqn:Hss. revert l s Hss. induction (reads_end ss) as [ss _ IH]. intros l s ->.
  destruct l as [|id l].
  { exists 0, (Ret ((), s)). split; [done|]. intros N [|N'] _ _; done. }
  destruct (pass_ends (id :: l) s) as (n & r & Hr & Hn). destruct r as [[next s1]| |]; [| |done].
  - assert (exists n' r', r' <> NoFuel /\ forall N N', n' <= N -> n' <= N' -> read_from_streams N N' next s1 = r')
      as (n' & r' & Hr' & Hn').
    { destruct next as [|id' next']; [exists 0, (Ret ((), s1)); split; [done|]; intros N [|N'] _ _; done|].
      apply (IH (conn_streams s1)); [|done]. by eapply (pass_again n (id :: l)); [apply Hn|]. }
    exists (S (Nat.max n n')), r'. split; [done|]. intros N [|N'] HN HN'; [lia|]. cbn [read_from_streams].
    rewrite (bind_eq _ _ _ next s1) by (apply Hn; lia). apply Hn'; lia.
  - exists (S n), Panic. split; [done|]. intros N [|N'] HN HN'; [lia|]. cbn [read_from_streams].
    unfold mbind, M_bind. by rewrite Hn by lia.
Qed.

(** ** An iteration *)

Lemma returns_poll_result r : returns (handle_poll_result r : M conn ()).
Proof. unfold handle_poll_result. solve_returns. apply returns_with_stream, flush_returns. Qed.

Lemma poll_ends (s : conn) : settles poll_from_streams s.
Proof.
  unfold poll_from_streams.
  apply settles_bind; [apply settles_returns, returns_poll_deadline|]. intros _ d s1 _.
  apply settles_bind; [apply settles_returns, returns_streams_get|]. intros _ res s2 _.
  apply settles_bind; [apply settles_lift_partial|]. intros _ times s3 _.
  apply settles_bind; [apply settles_returns, returns_lift|]. intros _ notify s4 _.
  apply settles_bind; [apply settles_returns; solve_returns|]. intros _ [] s5 _.
  destruct res as [results|e]; [|by apply settles_const].
  apply settles_bind; [apply settles_forM, returns_poll_result|]. intros _ [] s6 _.
  destruct (reading_ends (stream_id <$> retain is_readable results) s6) as (n & r & Hr & Hn).
  exists n, r. split; [done|]. intros N HN. by apply Hn.
Qed.

Lemma iteration_settles (s : conn) : settles iteration s.
Proof.
  apply settles_bind; [apply settles_lift_partial|]. intros _ _ s1 _.
  apply settles_bind; [apply pull_ends|]. intros _ _ s2 _.
  apply settles_bind; [apply settles_returns, returns_update_state|]. intros _ _ s3 _. apply poll_ends.
Qed.

(** ** Runs *)

Context {str_laws : StreamLaws T} {str_safe : StreamSafe T}.

(** An iteration comes to an end, which more fuel does not change. *)
Lemma iteration_comes_to (s : conn) :
  conn_inv s -> exists fuel o, (forall fuel', fuel <= fuel' -> iteration fuel' s = o)
    /\ match o with Ret _ => True | Panic => time_panics s | NoFuel => False end.
Proof.
  intros Hi. destruct (iteration_settles s) as (n & r & Hr & Hn). exists n, r. split; [done|].
  destruct r as [[[] s']| |]; [done| |done]. by apply (ok_iteration n s Hi), Hn.
Qed.

(** What is left of a schedule holds the disconnect request or it was found. *)
Lemma after_messages_left l :
  Some Disconnect ∈ l -> (after_messages l).1 = true
    \/ (Some Disconnect ∈ (after_messages l).2 /\ length (after_messages l).2 < length l).
Proof.
  induction l as [|[m|] l IH]; intros Hd; [set_solver| |].
  - assert (m = Disconnect \/ (m <> Disconnect /\ after_messages (Some m :: l) = after_messages l)) as [->|[Hm ->]]
      by (destruct m; auto; by right); [by left|].
    destruct IH as [|[]]; [set_solver|by left|right; simpl; split; [done|lia]].
  - right. simpl. split; [set_solver|lia].
Qed.

(** How a run that is asked to disconnect can end. *)
Definition run_end (o : outcome (() * conn)) (fails : Prop) : Prop :=
  match o with Ret (_, s) => closed s | Panic => fails | NoFuel => False end.

Lemma run_ends (s : conn) :
  conn_inv s -> Some Disconnect ∈ message_receiver s ->
  exists fuel n o, run fuel n s = o /\ run_end o (time_panics s).
Proof.
  remember (length (message_receiver s)) as k eqn:Hk. revert s Hk.
  induction (lt_wf k) as [k _ IH]. intros s -> Hi Hd.
  destruct (handle_messages_total s) as [(Em & _ & Hf)|(s1 & Em & Hr & Hs)].
  { exists 0, 0, Panic. split; [simpl; unfold mbind, M_bind; by rewrite Em|by left]. }
  assert (conn_inv s1) as Hi1 by (eapply tracks_invariant; [exact conn_step_inv|exact tracks_handle_messages|exact Hi|exact Em]).
  assert (time_panics s1 -> time_panics s) as Hp1 by (eapply conn_steps_panics, tracks_handle_messages; exact Em).
  destruct (should_stop s1) eqn:Hst.
  { exists 0, 0, (Ret ((), loop_ended s1)). split; [|by apply loop_ended_closed]. simpl. rewrite (bind_eq _ _ _ _ _ Em). apply loop_end_eq. }
  destruct (after_messages_left _ Hd) as [Ht|[Hd' Hlt]]; [by rewrite Ht in Hs|].
  destruct (iteration_comes_to s1 Hi1) as (f & o & Ei & Ho). destruct o as [[[] s2]| |]; [| |done].
  2: { exists f, 1, Panic. split; [|by apply Hp1]. simpl. rewrite (bind_eq _ _ _ _ _ Em). simpl. unfold mbind, M_bind. by rewrite Ei. }
  assert (message_receiver s2 = message_receiver s1) as Hr2.
  { eapply blind_receiver; [apply (blind_iteration f)|by apply Ei]. }
  assert (rtc io_step s1 s2) as Hs2 by (by eapply (tracks_iteration f), Ei).
  destruct (IH (length (message_receiver s2))) with (s := s2) as (f' & n & o & Er & Hc); [by rewrite Hr2, Hr|done| |by rewrite Hr2, Hr|].
  { eapply rtc_invariant; [apply io_step_inv|exact Hs2|exact Hi1]. }
  exists (Nat.max f f'), (S n), o. split.
  - simpl. rewrite (bind_eq _ _ _ _ _ Em). simpl. rewrite (bind_eq _ _ _ _ _ (Ei _ (Nat.le_max_l f f'))).
    eapply run_approx; [| | |exact Er]; [lia..|]. by intros ->.
  - destruct o as [[]| |]; try done. apply Hp1. eapply (rtc_backward io_step); [apply io_step_panics|exact Hs2|exact Hc].
Qed.

Lemma run_ends_new android cl ss w receiver net ps pcap clock settings :
  Some Disconnect ∈ receiver ->
  exists fuel n (s0 : conn) o,
    connection_new android cl ss w receiver net ps pcap clock settings = Ret ((), s0)
    /\ (forall fuel' n', fuel <= fuel' -> n <= n' -> run fuel' n' s0 = o)
    /\ run_end o (clock_fails clock \/ time_fails cl).
Proof.
  intros Hd.
  destruct (new_run_safe 0 0 android cl ss w receiver net ps pcap clock settings) as (s0 & En & _).
  destruct (run_ends s0) as (f & n & o & Er & Hc).
  - by eapply new_inv.
  - unfold connection_new in En. by rewrite (blind_receiver _ _ _ _ (blind_new_body _ _) En).
  - exists f, n, s0, o. split_and!; [done| |].
    + intros f' n' Hf Hn. eapply run_approx; [exact Hf|exact Hn| |exact Er]. by intros ->.
    + destruct o as [[]| |]; try done. by eapply new_panics.
Qed.

(** C9.  Every iteration of the loop returns, and so does every connection that is
    asked to disconnect: whatever is read, written, polled and sent by the
    application in between, a disconnect request anywhere in the schedule of
    messages ends the run, disconnected, reported so and with no capture open.
    The exception is a panic, where the system's time cannot be told.  The
    outside world is one whose streams' writes return ([StreamEnds]), whose library
    settles when it is only pulled and answered ([ClientSettles]), and in which
    finitely much can be read between two polls ([ReadsSettle]). *)
Theorem run_returns (android : bool) (cl : C) (ss : Ss) (w : World)
    (receiver : list (option PvpnMessage)) (net : bool) (ps : list PeerInfo)
    (pcap : option PcapFileInfo) (clock : CK) (settings : option LocalAgentSettings) :
  (forall s : conn, conn_inv s ->
     exists fuel o, (forall fuel', fuel <= fuel' -> iteration fuel' s = o)
       /\ match o with Ret _ => True | Panic => time_panics s | NoFuel => False end)
  /\ (Some Disconnect ∈ receiver ->
      exists fuel n (s0 : conn) o,
        connection_new android cl ss w receiver net ps pcap clock settings = Ret ((), s0)
        /\ (forall fuel' n', fuel <= fuel' -> n <= n' -> run fuel' n' s0 = o)
        /\ match o with
           | Ret (_, s) => closed s
           | Panic => clock_fails clock \/ time_fails cl
           | NoFuel => False
           end).
Proof. split; [exact iteration_comes_to|apply run_ends_new]. Qed.

Lemma thread_iteration_ends (deps : outcome (io_result (@PvpnDependencies C Ss CK))) t :
  thread_inv deps t -> running t = true -> deps <> NoFuel -> iteration_ends deps t.
Proof.
  destruct t as [|s|s|s|s|]; intros Hi Hr Hd; try done.
  all: destruct Hi as [Hi _]; destruct (iteration_comes_to s Hi) as (f & o & E & Ho);
    exists f; rewrite (E f (Nat.le_refl f)); by destruct o.
Qed.
End termination.

(** ** Threads *)

Section waiting.
Context `{ids : StreamIds} {C Ss T CK : Type}.
Context `{pvpn : PvpnClient C, strs : Streams Ss T, str : Stream T, ck : Clock CK}.
Context {str_laws : StreamLaws T} {str_safe : StreamSafe T}.

(** C13.  Disconnecting and waiting.  Once a disconnect request is queued, then
    whatever the application's threads do from there on, the connection's thread
    takes at most as many steps as there are messages queued, and two; and until it
    has ended it is never stuck: it can take a step, without any other reason to
    leave its poll, or the sender of a message can set the waker.  The latter holds
    where each of these does: the dependencies are had or refused in the end
    ([deps] is not [NoFuel]); no wake was refused by the system; the streams' writes
    return ([StreamEnds]), which a TCP socket that accepts nothing without refusing
    does not; the library settles when it is only pulled and answered
    ([ClientSettles]); and finitely much can be read between two polls
    ([ReadsSettle]), which a peer that sends without a pause does not keep to.
    There the thread ends under every schedule that lets it and the senders go on.
    And when [disconnect_and_wait] has returned from its join, without any of these
    conditions, a disconnect request had been sent and the thread has ended: with a
    connection that is disconnected, reported so and has no capture open, without a
    connection because its dependencies were refused, or by a panic, of building
    the dependencies or of reading the system's time. *)
Theorem disconnect_and_wait_returns (android : bool) (world : World)
    (deps : outcome (io_result (@PvpnDependencies C Ss CK))) (x : System) :
  sys_reachable android world deps x ->
  (Disconnect ∈ queue x -> forall ls y, sys_exec android world deps ls x = Some y ->
     thread_steps ls <= 2 + length (queue x)
     /\ (running (thread y) = true -> deps <> NoFuel -> wake_failed y = false ->
         StreamEnds T -> ClientSettles C -> @ReadsSettle Ss T _ _ ->
         (exists fuel z, sys_do android world deps (LThread fuel false) y = Some z)
         \/ exists z, sys_do android world deps (LWake 0 true) y = Some z))
  /\ (joined x = true -> Disconnect ∈ sent x /\
       match thread x with
       | Ended (Some s) => closed s
       | Ended None => exists e, deps = Ret (Err e)
       | Crashed => deps = Panic
           \/ exists d, deps = Ret (Ok d) /\ (clock_fails (dep_clock d) \/ time_fails (dep_client d))
       | _ => False
       end).
Proof.
  intros Hx. destruct (disconnect_progress android world deps x Hx) as [Hp Hj]. split; [|exact Hj].
  intros Hd ls y Ey. destruct (Hp Hd ls y Ey) as [Hk Hgo]. split; [done|]. intros Hr Hn Hw Hse Hcs Hrs.
  apply Hgo; [done| |done]. apply thread_iteration_ends; [|done..].
  apply (sys_thread_inv android world deps). unfold sys_reachable in *. etrans; [exact Hx|by eapply sys_exec_reaches].
Qed.
End waiting.
