(* ===== verification/Settling.v ===== *)
(** * The promises of [Termination.v] kept

    The client keeps its promise over a library that keeps the same one; the mio
    streams keep theirs over streams that have finitely much to be read, as the
    Unix sockets and TUN devices have over such devices; and the writes of the Unix
    streams return on devices that make progress. *)

From S2P Require Import Prelude Types NetworkRecovery SanitizedPeers Conversions LocalAgent.
From S2P Require Import Streams Pcap MioStreams SocketFactory PvpnClient PeerSync Connection ConnectionSteps.
From S2P Require Import ConnectionInvariants ConnectionTheorems ConnectionSafety Mailbox StreamCalls Threads.
From S2P Require Import Termination.

(** ** The client *)

(** What the client tells the library about an action it has pulled; a state
    carries what the library asked for last. *)
Inductive lib_answer {L} `{PvpnLibrary L} : Task * L -> Task * L -> Prop :=
| la_push a t l r l' : is_read a = false -> lib_push a l = (r, l') -> lib_answer (t, l) (task r, l')
| la_stop t l r l' : lib_stop_capture_packet l = (r, l') -> lib_answer (t, l) (task r, l').

Class LibrarySettles (L : Type) `{PvpnLibrary L} := {
  lib_pulls_end : well_founded (fun y x : Task * L =>
    x.1 = NeedPull /\ exists r l, lib_pull x.2 = (r, l) /\ rtc lib_answer (task r, l) y);
  lib_agent_ends : well_founded (fun l2 l1 : L => exists m, lib_pull_local_agent l1 = (Some m, l2));
}.

Section client.
Context {L KM KR : Type} `{LibrarySettles L} {clock_m : InstantFactory KM} {clock_r : Clock KR}.

Abbreviation impl := (PvpnClientImpl L KM KR).

Definition asked (s : impl) : Task * L := (if c_need_pull s then NeedPull else OtherTask, c s).

Lemma asked_call {A} (op : L -> PvpnReturn A * L) (s : impl) :
  asked (call op s).2 = (task (op (c s)).1, (op (c s)).2).
Proof. unfold call, asked. destruct (op (c s)) as [r l]. simpl. by destruct (task r). Qed.

Lemma push_answer a (s : impl) : is_read a = false -> lib_answer (asked s) (asked (impl_push a s)).
Proof.
  intros Ha. unfold impl_push. rewrite asked_call. unfold asked.
  eapply la_push; [exact Ha|apply surjective_pairing].
Qed.

Lemma answer_asked (s s' : impl) : answer_step s s' -> rtc lib_answer (asked s) (asked s').
Proof.
  destruct 1 as [s|id k s|id s|id s|s]; simpl.
  - unfold impl_monotonic_now. by destruct (instant_factory_now _).
  - by apply rtc_once, push_answer.
  - by apply rtc_once, push_answer.
  - by apply rtc_once, push_answer.
  - apply rtc_once. rewrite asked_call. unfold asked. eapply la_stop. apply surjective_pairing.
Qed.

Lemma answers_asked (s s' : impl) : rtc answer_step s s' -> rtc lib_answer (asked s) (asked s').
Proof. induction 1 as [|x y z Hs _ IH]; [done|]. etrans; [by apply answer_asked|done]. Qed.

#[global] Instance PvpnClientImpl_settles : ClientSettles impl.
Proof.
  split.
  - eapply (wf_projected _ asked); [|exact lib_pulls_end]. intros s2 s1 [Hn Ha]. simpl in Hn.
    split; [unfold asked; by rewrite Hn|]. apply answers_asked in Ha. simpl in Ha. rewrite asked_call in Ha.
    eexists _, _. split; [apply surjective_pairing|exact Ha].
  - eapply (wf_projected _ c); [|exact lib_agent_ends]. intros s2 s1 [m E]. simpl in E. unfold impl_pull_local_agent in E.
    destruct (lib_pull_local_agent (c s1)) as [m' l] eqn:El. injection E as -> <-. by exists m.
Qed.
End client.

(** ** Streams with finitely much to be read *)

Class PendingReads (T : Type) `{Stream T} := {
  pending : T -> nat;
  pending_call t t' : stream_call t t' -> pending t' <= pending t;
  pending_more buf t n off pw buf' t' :
    stream_read buf t = ((StreamOk n off WouldBlockNo pw, buf'), t') -> 0 < n -> pending t' < pending t;
}.

(** Nothing can be read yet from a socket that has just been opened. *)
Class FreshSockets (F T : Type) `{MioSocketFactory F T} `{PendingReads T} := {
  fresh_tcp a f t f' : new_tcp_socket a f = (Ok t, f') -> pending t = 0;
  fresh_udp a f t f' : new_udp_socket a f = (Ok t, f') -> pending t = 0;
}.

Section mio.
Context `{ids : StreamIds} {P T F : Type} `{str : Stream T, mp : MioPoll P T, sf : MioSocketFactory F T} (tun_new : Z -> T).
Context {pr : PendingReads T} {fs : FreshSockets F T}.

#[local] Instance settling_streams : Streams (@MioStreams P T F) T := MioStreams_Streams tun_new.

Definition list_pending (l : list (@MioStreamInfo T)) : nat := sum_list_with (pending ∘ info_stream) l.

Lemma pending_update id (f : MioStreamInfo -> MioStreamInfo) l s :
  get_stream_by_id l id = Some s ->
  list_pending (update_by_id id f l) + pending (info_stream s) = list_pending l + pending (info_stream (f s)).
Proof.
  unfold list_pending, get_stream_by_id, find. induction l as [|x l IH]; simpl; [done|].
  destruct (info_id x =? id)%Z; simpl; [intros [= <-]; lia|]. intros Hg. specialize (IH Hg). lia.
Qed.

Lemma pending_put id t t' (m : @MioStreams P T F) :
  mio_get_stream id m = Some t ->
  list_pending (streams (mio_put_stream id t' m)) + pending t = list_pending (streams m) + pending t'.
Proof.
  unfold mio_get_stream. destruct (get_stream_by_id (streams m) id) as [s|] eqn:Hg; [|done]. intros [= <-].
  exact (pending_update id _ _ s Hg).
Qed.

Lemma pending_retain p l : list_pending (retain p l) <= list_pending l.
Proof. unfold list_pending. induction l as [|x l IH]; simpl; [done|]. destruct (p x); simpl; lia. Qed.

Lemma pending_register id t i (m : @MioStreams P T F) r m' :
  pending t = 0 -> register_stream id t i m = (r, m') -> list_pending (streams m') = list_pending (streams m).
Proof.
  intros Ht. unfold register_stream. destruct (registry_register _ _ _ _) as [[|e] p]; intros; simplify_eq/=; [|done].
  unfold list_pending. rewrite sum_list_with_app. simpl. lia.
Qed.

Lemma pending_io (m m' : @MioStreams P T F) :
  io_call m m' -> list_pending (streams m') <= list_pending (streams m).
Proof.
  destruct 1 as [id t t' m Hg Hc|id a m r m' E|id a m r m' E|id m|id b m].
  - apply pending_call in Hc. pose proof (pending_put id t t' m Hg). simpl in *. lia.
  - simpl in E. unfold mio_open_new_tcp_stream in E. destruct (new_tcp_socket _ _) as [[t|e] f] eqn:Ef; [|by simplify_eq/=].
    apply pending_register in E; [simpl in E; lia|by eapply fresh_tcp].
  - simpl in E. unfold mio_open_new_udp_stream in E. destruct (new_udp_socket _ _) as [[t|e] f] eqn:Ef; [|by simplify_eq/=].
    apply pending_register in E; [simpl in E; lia|by eapply fresh_udp].
  - apply pending_retain.
  - simpl. unfold mio_set_poll_enable_wait_for_write. destruct (get_stream_by_id _ _) as [s|] eqn:Hg; [|done].
    case_decide; [|done]. simpl.
    match goal with |- context [update_by_id id ?f] => pose proof (pending_update id f (streams m) s Hg) as Hu end.
    simpl in Hu. lia.
Qed.

Lemma pending_ios (m m' : @MioStreams P T F) :
  rtc io_call m m' -> list_pending (streams m') <= list_pending (streams m).
Proof. induction 1 as [|x y z Hs%pending_io _ IH]; [done|lia]. Qed.

#[global] Instance MioStreams_settle : @ReadsSettle (@MioStreams P T F) T (MioStreams_Streams tun_new) _.
Proof.
  apply (wf_projected lt (fun m => list_pending (streams m))); [|exact lt_wf].
  intros m' m (a & b & Ha%pending_ios & Hm & Hb%pending_ios).
  destruct Hm as [id t buf n off pw buf' t' a Hg Hr Hn]. pose proof (pending_more _ _ _ _ _ _ _ Hr Hn).
  pose proof (pending_put id t t' a Hg). simpl in *. lia.
Qed.
End mio.

(** ** Unix streams *)

(** A device that has finitely much to be read until something arrives. *)
Class DevicePending (K : Type) `{Device K} := {
  dev_pending : K -> nat;
  pending_read n k r k' : dev_read n k = (r, k') -> dev_pending k' <= dev_pending k;
  pending_data n k data k' : dev_read n k = (Ok data, k') -> 0 < length data -> dev_pending k' < dev_pending k;
  pending_write data k r k' : dev_write data k = (r, k') -> dev_pending k' <= dev_pending k;
  pending_shutdown k : dev_pending (dev_shutdown k) <= dev_pending k;
}.

Section unix.
Context {K : Type} `{Device K} {af : AddressFamilies} (fuel : nat).

#[local] Instance settling_unix : Stream (MioStream K) := MioStream_Stream fuel.

(** *** Writes return *)

Lemma box_returns {T A} (box : T -> MioStream K) (o : outcome (A * T)) :
  (exists a t, o = Ret (a, t)) -> exists a s, box_result box o = Ret (a, s).
Proof. intros (a & t & ->). by eexists _, _. Qed.

#[global] Instance MioStream_ends `{!DeviceProgress K} : @StreamEnds (MioStream K) (MioStream_Stream fuel).
Proof.
  split.
  - intros data [t|t|t|t]; simpl; apply box_returns.
    + apply tcp_flush_terminates. unfold tcp_work. simpl. rewrite concat_app, !length_app. simpl.
      rewrite app_nil_r. unfold write_bound, tcp_work. lia.
    + unfold udp_write. destruct (dev_write _ _). by eexists _, _.
    + apply tun_unix_loop_terminates. unfold write_bound. lia.
    + unfold tun_apple_write. destruct (match head data with Some _ => _ | None => _ end); [|by eexists _, _].
      apply tun_apple_loop_terminates. simpl. unfold write_bound, APPLE_TUN_PACKET_HEADER_LEN. lia.
  - intros [t|t|t|t]; [|by eexists _, _..]. simpl. apply box_returns.
    apply tcp_flush_terminates. unfold write_bound. simpl. lia.
Qed.

(** *** Reads come to an end *)

Context {dp : DevicePending K}.

Definition box_device (s : MioStream K) : K :=
  match s with MioTcp t => tcp_sock t | MioUdp t => udp_sock t | MioTun t => tun_file t | MioTunApple t => apple_file t end.

Definition box_pending (s : MioStream K) : nat := dev_pending (box_device s).

Lemma tcp_flush_pending n bw t r t' :
  tcp_flush n bw t = Ret (r, t') -> dev_pending (tcp_sock t') <= dev_pending (tcp_sock t).
Proof.
  revert bw t. induction n as [|n IH]; intros bw t; simpl; destruct (write_buffer t) as [|data rest].
  1, 3: by intros [= <- <-].
  - done.
  - destruct (dev_write data (tcp_sock t)) as [[count|e] k] eqn:E; apply pending_write in E.
    + intros Hf%IH. simpl in Hf. lia.
    + by intros [= <- <-].
Qed.

Lemma tun_unix_loop_pending n data bw t r t' :
  tun_unix_write_loop n data bw t = Ret (r, t') -> dev_pending (tun_file t') <= dev_pending (tun_file t).
Proof.
  revert bw t. induction n as [|n IH]; intros bw t; simpl; case_decide; try done.
  1, 3: by intros [= <- <-].
  destruct (dev_write _ (tun_file t)) as [[count|e] k] eqn:E; apply pending_write in E.
  - intros Hf%IH. simpl in Hf. lia.
  - by intros [= <- <-].
Qed.

Lemma tun_apple_loop_pending n len bw t r t' :
  tun_apple_write_loop n len bw t = Ret (r, t') -> dev_pending (apple_file t') <= dev_pending (apple_file t).
Proof.
  revert bw t. induction n as [|n IH]; intros bw t; simpl; case_decide; try done.
  1, 3: by intros [= <- <-].
  destruct (dev_write _ (apple_file t)) as [[[|count]|e] k] eqn:E; apply pending_write in E.
  - by intros [= <- <-].
  - intros Hf%IH. simpl in Hf. lia.
  - repeat case_match; by intros [= <- <-].
Qed.

Lemma box_read buf (s s' : MioStream K) r buf' :
  stream_read buf s = ((r, buf'), s') ->
  box_pending s' <= box_pending s
  /\ forall n off wb pw, r = StreamOk n off wb pw -> 0 < n -> box_pending s' < box_pending s.
Proof.
  unfold box_pending. destruct s as [t|t|t|t]; simpl; unfold tcp_read, udp_read, tun_unix_read, tun_apple_read;
    destruct (dev_read _ _) as [[data|e] k] eqn:E; pose proof (pending_read _ _ _ _ E) as Hle;
    try pose proof (pending_data _ _ _ _ E) as Hlt; repeat case_match; intros; simplify_eq/=; (split; [done|]);
    intros; simplify_eq; unfold stream_ok, APPLE_TUN_PACKET_HEADER_LEN in *; simplify_eq; try done; try lia; apply Hlt; lia.
Qed.

Lemma box_result_inv {T A} (box : T -> MioStream K) (o : outcome (A * T)) a s :
  box_result box o = Ret (a, s) -> exists t, o = Ret (a, t) /\ s = box t.
Proof. destruct o as [[a' t]| |]; [|done..]. intros [= <- <-]. by exists t. Qed.

Lemma box_write data (s s' : MioStream K) r : stream_write data s = Ret (r, s') -> box_pending s' <= box_pending s.
Proof.
  unfold box_pending. destruct s as [t|t|t|t]; simpl; intros (t' & E & ->)%box_result_inv; simpl.
  - apply tcp_flush_pending in E. exact E.
  - unfold udp_write in E. destruct (dev_write _ _) as [r' k] eqn:Ed. apply pending_write in Ed. by injection E as _ <-.
  - by eapply tun_unix_loop_pending.
  - unfold tun_apple_write in E. destruct (match head data with Some _ => _ | None => _ end); [|by injection E as _ <-].
    apply tun_apple_loop_pending in E. exact E.
Qed.

Lemma box_flush (s s' : MioStream K) r : stream_write_from_buffer s = Ret (r, s') -> box_pending s' <= box_pending s.
Proof.
  unfold box_pending. destruct s as [t|t|t|t]; [|by intros [= _ <-]..]. simpl. intros (t' & E & ->)%box_result_inv.
  apply tcp_flush_pending in E. exact E.
Qed.

#[global] Instance MioStream_pending : @PendingReads (MioStream K) (MioStream_Stream fuel).
Proof.
  refine {| pending := box_pending |}.
  - intros t t' [buf s r s' E|data s r s' E|s r s' E|o s|s].
    + destruct r as [r buf']. by apply box_read in E as [].
    + by eapply box_write.
    + by eapply box_flush.
    + done.
    + destruct s; [|done..]. apply pending_shutdown.
  - intros buf t n off pw buf' t' E Hn. apply box_read in E as [_ Hlt]. by eapply Hlt.
Defined.
End unix.

(** *** The sockets of the Unix factory *)

Section factory.
Context {O K : Type} `{OperatingSystem O} `{DevicePending K} {af : AddressFamilies} (fuel : nat) (EINPROGRESS : Z) (socket_of : Z -> K).
Context (fresh : forall fd, dev_pending (socket_of fd) = 0).

(** What holds of the value of a computation that succeeds. *)
Definition yields {A} (m : @SysM O A) (ok : A -> Prop) : Prop := forall f a f', m f = (Ok a, f') -> ok a.

Lemma yields_ret {A} (a : A) (ok : A -> Prop) : ok a -> yields (fun f => (Ok a, f)) ok.
Proof. by intros Ha f b f' [= <- <-]. Qed.

Lemma yields_any {A} (m : @SysM O A) : yields m (fun _ => True).
Proof. done. Qed.

Lemma yields_bind {A B} (m : @SysM O A) (k : A -> @SysM O B) ok1 ok :
  yields m ok1 -> (forall a, ok1 a -> yields (k a) ok) -> yields (SysM_bind A B k m) ok.
Proof.
  intros Hm Hk f b f'. unfold SysM_bind. destruct (m f) as [[a|e] f1] eqn:E; [|done]. apply Hk. by eapply Hm.
Qed.

Ltac yields_steps := repeat (eapply yields_bind; [apply yields_any|]; intros ? _).

Lemma yields_udp fd : yields (UdpSocketStream_new socket_of fd) (fun t => dev_pending (udp_sock t) = 0).
Proof. unfold UdpSocketStream_new, mbind. yields_steps. apply yields_ret, fresh. Qed.

#[global] Instance unix_sockets_fresh :
  @FreshSockets (@SocketFactoryUnix O) (MioStream K) (SocketFactoryUnix_factory EINPROGRESS socket_of)
    (MioStream_Stream fuel) (MioStream_pending fuel).
Proof.
  split; intros a f t f'; simpl.
  - assert (yields (unix_new_tcp_socket EINPROGRESS socket_of a) (fun t => box_pending t = 0)) as Hy; [|by apply Hy].
    unfold unix_new_tcp_socket, mbind. yields_steps. apply yields_ret, fresh.
  - assert (yields (unix_new_udp_socket socket_of a) (fun t => box_pending t = 0)) as Hy; [|by apply Hy].
    unfold unix_new_udp_socket, mbind. do 7 (eapply yields_bind; [apply yields_any|]; intros ? _).
    eapply yields_bind; [apply yields_udp|]. intros t' Ht. by apply yields_ret.
Qed.
End factory.

(** ** The scripted world

    The scripted devices and the scripted library run out of what they were given. *)
#[global] Instance script_device_pending : DevicePending script_device.
Proof.
  refine {| dev_pending d := length (sd_reads d) |}.
  - simpl. intros n k r k'. destruct (sd_reads k) eqn:E; intros; simplify_eq/=; rewrite ?E; simpl; lia.
  - simpl. intros n k data k'. destruct (sd_reads k) eqn:E; intros; simplify_eq/=; lia.
  - simpl. intros data k r k'. destruct (sd_writes k) as [|[]]; intros; by simplify_eq/=.
  - done.
Defined.

Definition script_left (x : Task * script_lib) : nat :=
  match x.1 with NeedPull => S (length (sl_actions x.2)) | OtherTask => 0 end.

Lemma script_answers (x y : Task * script_lib) : rtc lib_answer x y ->
  x = y \/ (sl_actions y.2 = sl_actions x.2 /\ y.1 = match sl_actions x.2 with [] => OtherTask | _ => NeedPull end).
Proof.
  induction 1 as [x|x y z Hs _ IH]; [by left|right].
  destruct Hs as [a t l r l' Ha E|t l r l' E]; simpl in E; unfold sl_answer in E; injection E as <- <-; simpl in *.
  all: destruct IH as [<-|[-> ->]]; done.
Qed.

#[global] Instance script_lib_settles : LibrarySettles script_lib.
Proof.
  split.
  - apply (wf_projected lt script_left); [|exact lt_wf]. intros y [t l] [Ht (r & l1 & E & Ha)]. simpl in Ht, E. subst t.
    unfold sl_answer in E. injection E as <- <-. apply script_answers in Ha as [<-|[Hl Ht]]; unfold script_left; simpl in *.
    + destruct (sl_actions l) as [|a [|b m]]; simpl; lia.
    + rewrite Ht, Hl. destruct (sl_actions l) as [|a [|b m]]; simpl; lia.
  - apply (wf_projected lt (fun l => length (sl_messages l))); [|exact lt_wf]. intros l2 l1 [m E]. simpl in E.
    destruct (sl_messages l1) as [|m' l]; [done|]. injection E as _ <-. simpl. lia.
Qed.
