(* ===== verification/Startup.v ===== *)
(** * Starting a connection on Unix

    [src/api/connection_unix.rs] and the creation of the poll in
    [src/connection/mio/streams.rs]: [unix_connect] creates the poll and its
    waker, and hands to the connection's thread a closure that builds the
    dependencies of the loop. *)

From S2P Require Import Prelude Types NetworkRecovery SanitizedPeers Conversions LocalAgent Streams Pcap.
From S2P Require Import MioStreams SocketFactory PvpnClient PeerSync Connection ConnectionSteps ConnectionInvariants.
From S2P Require Import ConnectionTheorems ConnectionSafety StreamCalls Clocks Mailbox Api Threads.

(** ** The thread *)

Section thread.
Context `{ids : StreamIds} {C Ss T CK : Type}.
Context `{pvpn : PvpnClient C, strs : Streams Ss T, str : Stream T, ck : Clock CK}.
Context `{!StreamLaws T, !StreamSafe T}.

Abbreviation Deps := (@PvpnDependencies C Ss CK).

(** The thread runs the loop over the dependencies, if it could build them, and
    panics only where [P] holds. *)
Definition thread_safe (deps : io_result Deps) (P : Prop) : Prop :=
  forall android fuel n world receiver,
    match start_pvpn_connection android fuel n world deps receiver with
    | Some o => is_ok deps = true /\ (o = Panic -> P)
    | None => is_ok deps = false
    end.

Lemma started_safe (deps : io_result Deps) : thread_safe deps (crash_cause (Ret deps)).
Proof.
  intros android fuel n world receiver. destruct deps as [d|e]; [|done]. simpl. split; [done|].
  set (settings := match cfg_connection_mode (config d) with NoLocalAgent _ => None | LocalAgent _ _ st => Some st end).
  destruct (new_run_safe fuel n android (dep_client d) (dep_streams d) world receiver
    (cfg_network_available (config d)) (cfg_peers (config d)) (cfg_pcap_file (config d)) (dep_clock d) settings)
    as (s0 & E & Hp).
  unfold connection_new in E. rewrite (bind_eq _ _ _ () s0 E). intros Hr. right. exists d. split; [done|by apply Hp].
Qed.

(** However the application's calls interleave with the thread: the thread panics
    only in building its dependencies or in reading the system's time, ends without
    a connection only when they were refused, and otherwise leaves a connection
    that is closed. *)
Definition thread_fate (deps : outcome (io_result Deps)) : Prop :=
  forall android world x, sys_reachable android world deps x ->
    match thread x with
    | Crashed => crash_cause deps
    | Ended None => exists e, deps = Ret (Err e)
    | Ended (Some s) => closed s
    | _ => True
    end.

Lemma started_fate (deps : outcome (io_result Deps)) : thread_fate deps.
Proof. intros android world x Hx. pose proof (sys_thread_inv android world deps x Hx) as Ht. by destruct (thread x) as [| | | |[s|]|]. Qed.
End thread.

(** Whether there are dependencies. *)
Definition built {D E} (deps : outcome (result D E)) : bool := match deps with Ret (Ok _) => true | _ => false end.

(** ** The client of the thread *)

Section client_start.
Context {L I R Key Cert Auth App Seed : Type} `{PvpnLibrary L} `{InstantSource I, SystemTimeSource R}.
Context (private_key_from_pem : list byte -> result Key string).
Context (certificate_from_pem : list byte -> result Cert string).
Context (muon_auth_try_from : list byte -> result Auth string).
Context (muon_app : string -> string -> result App string).
Context (build_local_agent : Seed -> Instant -> Instant -> option Key -> option Cert -> App -> option Auth -> L).
Context (build_no_local_agent : Seed -> Instant -> Instant -> list byte -> L).

Abbreviation Client := (PvpnClientImpl L (ClientMonotonicFactory I) (ClientRealtimeFactory R)).

(** The secrets in the cache are accepted; and the application's name is, too. *)
Definition secrets_parse (mode : ConnectionMode) (cache_get : CacheKey -> option (list byte)) : bool :=
  match mode with
  | NoLocalAgent _ => true
  | LocalAgent _ _ _ =>
      parses private_key_from_pem (cache_get PrivateKey) && parses certificate_from_pem (cache_get Certificate)
      && parses muon_auth_try_from (cache_get ApiSession)
  end.

Definition secrets_usable (mode : ConnectionMode) (cache_get : CacheKey -> option (list byte)) : bool :=
  secrets_parse mode cache_get
  && match mode with NoLocalAgent _ => true | LocalAgent user_agent app_version _ => is_ok (muon_app app_version user_agent) end.

(** The client, when the cache has been read: where the system's clock is set
    before the epoch its creation panics. *)
Lemma client_built mode cache_get km (r : R) (seed : Seed) :
  match outcome_try (Ret (to_pvpn_client_mode private_key_from_pem certificate_from_pem muon_auth_try_from mode cache_get))
      (fun md => PvpnClientImpl_new muon_app build_local_agent build_no_local_agent km (ClientRealtimeFactory_new r) md seed) with
  | Panic => secrets_parse mode cache_get = true /\ ((system_time_now r).1 < 0)%Z
  | Ret (Err _) => secrets_usable mode cache_get = false /\ (secrets_parse mode cache_get = true -> (0 <= (system_time_now r).1)%Z)
  | Ret (Ok cl) => secrets_usable mode cache_get = true /\ (0 <= (system_time_now r).1)%Z
                   /\ clock_read (ClientRealtimeFactory_new r) (realtime_factory (cl : Client))
  | NoFuel => False
  end.
Proof.
  pose proof (client_mode_from_cache private_key_from_pem certificate_from_pem muon_auth_try_from mode cache_get) as Hm.
  unfold secrets_usable, PvpnClientImpl_new. destruct (instant_factory_now km) as [m km'].
  assert (forall o : option (Instant * ClientRealtimeFactory R), o = clock_now (ClientRealtimeFactory_new r) ->
    match o with Some (t, k) => (0 <= (system_time_now r).1)%Z /\ clock_read (ClientRealtimeFactory_new r) k
               | None => ((system_time_now r).1 < 0)%Z end) as Hr.
  { intros [[t k]|] E; symmetry in E; [|by apply (realtime_panics (ClientRealtimeFactory_new r))]. split; [|by exists t].
    destruct (Z.lt_ge_cases (system_time_now r).1 0) as [Hlt|]; [|done].
    apply (realtime_panics (ClientRealtimeFactory_new r)) in Hlt. congruence. }
  specialize (Hr _ eq_refl). destruct mode as [key|ua av st]; destruct (to_pvpn_client_mode _ _ _ _ _) as [md|e];
    try done; simpl.
  - subst md. by destruct (clock_now _) as [[t k]|].
  - destruct Hm as (-> & key & cert & auth & -> & _). destruct (clock_now _) as [[t k]|]; [|done].
    destruct (muon_app av ua); simpl; by destruct Hr.
  - by destruct Hm as [-> _].
Qed.

(** A panic of the thread over this client and its clock is one of the clock. *)
Lemma crash_before_epoch {Ss} (d : @PvpnDependencies Client Ss (ClientRealtimeFactory R)) (r : R) :
  clock_read (ClientRealtimeFactory_new r) (realtime_factory (dep_client d)) ->
  dep_clock d = ClientRealtimeFactory_new r -> crash_cause (Ret (Ok d)) -> before_epoch r.
Proof.
  intros Hr Hk [[=]|(d' & [= <-] & Hf)]. apply (realtime_fails (ClientRealtimeFactory_new r)).
  destruct Hf as [Hf|Hf%impl_time_fails]; [by rewrite <- Hk|].
  eapply clock_fails_reads; [by apply rtc_once|exact Hf].
Qed.

End client_start.

(** ** The constructor *)

(** [Poll::new], [Waker::new] and [Waker::wake] of the mio crate. *)
Class MioSystem (O P Wk : Type) := {
  Poll_new : O -> io_result P * O;
  Waker_new : Token -> P -> io_result Wk * P;
  Waker_wake : Wk -> O -> io_result () * O;
}.

Record MioPollWaker (Wk : Type) := MioPollWaker_new { waker : Wk }.
Arguments MioPollWaker_new {Wk} waker.
Arguments waker {Wk} _.

(** [PollWaker::wake]: an error is only logged. *)
Definition MioPollWaker_wake {O P Wk} `{MioSystem O P Wk} (k : MioPollWaker Wk) : M O () := fun o =>
  let '(_, o) := Waker_wake (waker k) o in Ret ((), o).

Definition create_mio_poll_with_waker {O P Wk} `{MioSystem O P Wk} (o : O) : io_result (P * MioPollWaker Wk) * O :=
  match Poll_new o with
  | (Err e, o) => (Err e, o)
  | (Ok poll, o) =>
      match Waker_new POLL_WAKER_TOKEN poll with
      | (Err e, _) => (Err e, o)
      | (Ok waker, poll) => (Ok (poll, MioPollWaker_new waker), o)
      end
  end.

Section unix.
Context `{ids : StreamIds} {O P Wk S K : Type} `{MioSystem O P Wk} `{MioPoll P (MioStream K)} `{OperatingSystem S} `{Device K}.
Context (EINPROGRESS : Z) (socket_of file_of : Z -> K).
Context {L I R Key Cert Auth App Seed : Type} `{PvpnLibrary L} `{InstantSource I, SystemTimeSource R}.
Context (private_key_from_pem : list byte -> result Key string).
Context (certificate_from_pem : list byte -> result Cert string).
Context (muon_auth_try_from : list byte -> result Auth string).
Context (muon_app : string -> string -> result App string).
Context (build_local_agent : Seed -> Instant -> Instant -> option Key -> option Cert -> App -> option Auth -> L).
Context (build_no_local_agent : Seed -> Instant -> Instant -> list byte -> L).

#[local] Instance unix_factory : MioSocketFactory (@SocketFactoryUnix S) (MioStream K) :=
  SocketFactoryUnix_factory EINPROGRESS socket_of.

Abbreviation UnixClient := (PvpnClientImpl L (ClientMonotonicFactory I) (ClientRealtimeFactory R)).
Abbreviation UnixStreams := (@MioStreams P (MioStream K) (@SocketFactoryUnix S)).
Abbreviation Deps := (@PvpnDependencies UnixClient UnixStreams (ClientRealtimeFactory R)).

(** The TUN stream on the file of the descriptor. *)
Definition tun_of (apple : bool) (fd : Z) : MioStream K := TunStreamUnixType_new apple (file_of fd).

Definition SocketFactoryUnix_new (callback : bool) (s : S) : @SocketFactoryUnix S :=
  {| has_callback := callback; os := s; calls := [] |}.

(** [create_pvpn_dependencies]: a TUN device that cannot be registered is a
    panic, as is a time before the epoch, and an unusable key an error. *)
Definition create_unix_dependencies (apple : bool) (poll : P) (config : InitialConnectionConfig) (tun_fd : option Z)
    (socket_fd_available_callback : bool) (cache_get : CacheKey -> option (list byte)) (sys : S) (i : I) (r : R) (seed : Seed)
  : outcome (io_result Deps) :=
  let socket_factory := SocketFactoryUnix_new socket_fd_available_callback sys in
  let tun_stream := tun_of apple <$> tun_fd in
  match MioStreams_new tun_stream socket_factory poll with
  | Err _ => Panic
  | Ok streams =>
      let realtime := ClientRealtimeFactory_new r in
      outcome_try (Ret (to_pvpn_client_mode private_key_from_pem certificate_from_pem muon_auth_try_from
                          (cfg_connection_mode config) cache_get)) (fun mode =>
      outcome_try (PvpnClientImpl_new muon_app build_local_agent build_no_local_agent
                     (ClientMonotonicFactory_new i) realtime mode seed) (fun client =>
      Ret (Ok {| config := config; dep_streams := streams; dep_client := client; dep_clock := realtime |})))
  end.

(** [Connection::unix_connect]: the handle, the waker it was given, and what its
    thread gets. *)
Definition unix_connect (apple : bool) (config : InitialConnectionConfig) (tun_fd : option Z) (socket_fd_available_callback : bool)
    (cache_get : CacheKey -> option (list byte)) (sys : S) (i : I) (r : R) (seed : Seed)
  : M O (Handle * MioPollWaker Wk * outcome (io_result Deps)) := fun o =>
  match create_mio_poll_with_waker o with
  | (Err _, _) => Panic
  | (Ok (poll, waker), o) =>
      let deps := create_unix_dependencies apple poll config tun_fd socket_fd_available_callback cache_get sys i r seed in
      Ret ((connect_internal (built deps), waker, deps), o)
  end.

(** ** What is started *)

Context `{!DeviceLaws K} {af : AddressFamilies} (sfuel : nat) (apple : bool).

#[local] Instance unix_stream : Stream (MioStream K) := MioStream_Stream sfuel.
#[local] Instance unix_streams : Streams UnixStreams (MioStream K) :=
  MioStreams_Streams (tun_of apple).

Abbreviation readable := (secrets_parse private_key_from_pem certificate_from_pem muon_auth_try_from).
Abbreviation usable := (secrets_usable private_key_from_pem certificate_from_pem muon_auth_try_from muon_app).

(** The TUN device can be registered with the poll. *)
Definition tun_registers (tun_fd : option Z) (poll : P) : bool :=
  match tun_fd with
  | Some fd => is_ok (registry_register (tun_of apple fd) (POLL_WAKER_TOKEN + 1) READABLE poll).1
  | None => true
  end.

Lemma streams_new_spec tun_fd (factory : @SocketFactoryUnix S) (poll : P) :
  match MioStreams_new (tun_of apple <$> tun_fd) factory poll with
  | Ok m => tun_registers tun_fd poll = true
            /\ mio_get_tun_interface_state None m = match tun_fd with Some _ => InterfaceUp None | None => InterfaceDown None end
  | Err _ => tun_registers tun_fd poll = false
  end.
Proof.
  unfold MioStreams_new, tun_registers, register_stream. destruct tun_fd as [fd|]; [|done]. cbn [fmap option_fmap option_map next_token mio_poll].
  destruct (registry_register _ _ READABLE poll) as [[u|e] p']; [|done]. split; [done|].
  unfold mio_get_tun_interface_state, get_stream_by_id. simpl. by rewrite Z.eqb_refl.
Qed.

(** The dependencies panic exactly when the TUN device or the time does. *)
Definition deps_panic (config : InitialConnectionConfig) (tun_fd : option Z) (poll : P)
    (cache_get : CacheKey -> option (list byte)) (r : R) : Prop :=
  tun_registers tun_fd poll = false
  \/ (readable (cfg_connection_mode config) cache_get = true /\ ((system_time_now r).1 < 0)%Z).

(** What the dependencies are, without the threads. *)
Lemma unix_dependencies_spec (poll : P) (config : InitialConnectionConfig) (tun_fd : option Z) (callback : bool)
    (cache_get : CacheKey -> option (list byte)) (sys : S) (i : I) (r : R) (seed : Seed) :
  let deps := create_unix_dependencies apple poll config tun_fd callback cache_get sys i r seed in
  (deps = Panic <-> deps_panic config tun_fd poll cache_get r)
  /\ built deps = tun_registers tun_fd poll && usable (cfg_connection_mode config) cache_get
                  && (0 <=? (system_time_now r).1)%Z
  /\ (forall d, deps = Ret (Ok d) -> thread_safe (Ok d) (before_epoch r)
       /\ mio_reachable (tun_of apple) (dep_streams d)
       /\ get_tun_interface_state None (dep_streams d)
          = match tun_fd with Some _ => InterfaceUp None | None => InterfaceDown None end)
  /\ (crash_cause deps -> tun_registers tun_fd poll = false \/ before_epoch r)
  /\ ((exists e, deps = Ret (Err e)) -> usable (cfg_connection_mode config) cache_get = false)
  /\ deps <> NoFuel.
Proof.
  cbv zeta. unfold create_unix_dependencies, deps_panic.
  pose proof (streams_new_spec tun_fd (SocketFactoryUnix_new callback sys) poll) as Hs.
  destruct (MioStreams_new _ _ poll) as [m|e] eqn:Em; [destruct Hs as [-> Hup]|].
  2: { rewrite Hs. split_and!; try done; [by split; [left|]|by left|by intros [e' [=]]]. }
  rewrite outcome_try_assoc.
  pose proof (client_built private_key_from_pem certificate_from_pem muon_auth_try_from muon_app build_local_agent
    build_no_local_agent (cfg_connection_mode config) cache_get (ClientMonotonicFactory_new i) r seed) as Hc.
  destruct (outcome_try (Ret _) _) as [[cl|e]| |]; simpl.
  - destruct Hc as (Hu & Hge & Hr). rewrite Hu.
    set (d0 := {| config := config; dep_streams := m; dep_client := cl; dep_clock := ClientRealtimeFactory_new r |}).
    pose proof (crash_before_epoch d0 r Hr eq_refl) as Hcr. split_and!.
    + split; [done|]. intros [|[_ Hlt]]; [done|lia].
    + symmetry. by apply Z.leb_le.
    + intros d [= <-]. split_and!; [|by eexists (tun_of apple <$> tun_fd), (SocketFactoryUnix_new callback sys), poll, m|done].
      intros android fuel n world receiver.
      pose proof (started_safe (Ok d0) android fuel n world receiver) as Hst.
      destruct (start_pvpn_connection _ _ _ _ _ _) as [o|]; [|done]. destruct Hst as [Ho Hp]. split; [done|].
      intros Hpo. by apply Hcr, Hp.
    + intros Hc. right. by apply Hcr.
    + by intros [e [=]].
    + done.
  - destruct Hc as [Hu Hp]. rewrite Hu. split_and!; try done.
    + split; [done|]. intros [|[Ht Hlt]]; [done|]. specialize (Hp Ht). lia.
    + intros [|(d & [=] & _)]; done.
  - destruct Hc as [Hp Hlt]. assert (before_epoch r) as Hb by by exists r. split_and!; try done.
    + by split; [right|].
    + rewrite (proj2 (Z.leb_gt _ _) Hlt). by rewrite !andb_false_r.
    + by right.
    + by intros [e [=]].
  - done.
Qed.

End unix.
