(* ===== verification/Scenario.v ===== *)
(** * Concrete connections

    The loop over the implementations of its interfaces: the mio stream set
    with Unix sockets, and the client over a scripted library.  Running it
    shows that the theorems' hypotheses hold on real executions. *)

From S2P Require Import Prelude Types NetworkRecovery SanitizedPeers Conversions LocalAgent.
From S2P Require Import Streams Pcap MioStreams SocketFactory PvpnClient PeerSync.
From S2P Require Import Connection ConnectionSteps ConnectionInvariants ConnectionTheorems ConnectionSafety StreamCalls.

#[local] Existing Instance sample_ids.

(** An operating system that gives out descriptor 5 and accepts every call. *)
#[local] Instance accepting_os : OperatingSystem () := fun _ o => (Ok 5%Z, o).

Definition quiet_device : script_device := {| sd_reads := []; sd_writes := []; sd_taken := [] |}.
Definition packet_device : script_device :=
  {| sd_reads := [Ok [Byte.x45; Byte.x00]; Ok [Byte.x45; Byte.x01]]; sd_writes := []; sd_taken := [] |}.

Abbreviation Cl := (PvpnClientImpl script_lib Z Z).
Abbreviation Str := (MioStream script_device).
Abbreviation Strs := (@MioStreams fake_poll Str (@SocketFactoryUnix ())).

#[local] Instance demo_factory : MioSocketFactory SocketFactoryUnix Str :=
  SocketFactoryUnix_factory 115 (fun _ => quiet_device).
(** The address families of macOS. *)
#[global] Instance macos_families : AddressFamilies := {| af_inet := Byte.x02; af_inet6 := Byte.x1e |}.

#[local] Instance demo_stream : Stream Str := MioStream_Stream 100.
#[local] Instance demo_streams : Streams Strs Str :=
  MioStreams_Streams (fun _ => MioTun {| tun_file := quiet_device |}).
#[local] Instance demo_laws : StreamLaws Str := MioStream_laws 100.

Definition demo_client (actions : list Action) (messages : list LocalAgentMessage)
    (info : option TunnelInfo) : Cl :=
  {| c := {| sl_actions := actions; sl_messages := messages; sl_info := info; sl_peers := ∅;
             sl_pushed := [] |};
     c_need_pull := true; c_wakeup_deadline := None; monotonic_factory := 0%Z; realtime_factory := 0%Z |}.

(** A TUN device with two packets and one readable event for it. *)
Definition demo_strs : Strs :=
  {| streams := [{| info_id := 0; info_stream := MioTun {| tun_file := packet_device |};
                    info_token := 1; info_interest := READABLE |}];
     mio_poll := {| fake_events := [sample_event 1] |}; next_token := 2;
     socket_factory := {| has_callback := true; os := (); calls := [] |} |}.

Definition demo_world : World := {| w_files := ∅; w_fds := ∅; w_faults := []; w_writes := [] |}.

Definition demo_peer (ip pr : Z) : PeerInfo :=
  {| peer_id := "peer"; server_ip := V4 ip; server_public_key := {| peer_key := [] |};
     udp_ports := [51820%Z]; tcp_ports := []; tls_ports := []; priority := pr; peer_exit_label := None |}.

Definition demo_tunnel : TunnelInfo :=
  TunnelConnected VpnWireguardUdp (as_peer (demo_peer 1 0)) {| sa_ip := V4 1; sa_port := 51820 |} 0.

Section demo.
Context (cl : Cl) (receiver : list (option PvpnMessage)) (net : bool) (ps : list PeerInfo).
Context (pcap : option PcapFileInfo) (settings : option LocalAgentSettings).

Definition demo_new : outcome (() * PvpnConnection Cl Strs Z) :=
  connection_new false cl demo_strs demo_world receiver net ps pcap 0%Z settings.

(** [k] iterations of the loop. *)
Fixpoint loop_n (k : nat) (s : PvpnConnection Cl Strs Z) : option (PvpnConnection Cl Strs Z) :=
  match k with
  | O => Some s
  | S k =>
      match handle_messages s with
      | Ret (true, s1) =>
          match iteration 50 s1 with
          | Ret (_, s2) => loop_n k s2
          | _ => None
          end
      | _ => None
      end
  end.

Lemma loop_n_reaches k s s' : loop_n k s = Some s' -> loop_reaches 50 s s'.
Proof.
  revert s. induction k as [|k IH]; intros s; simpl; [intros [= <-]; constructor|].
  destruct (handle_messages s) as [[[] s1]| |] eqn:E1; try done.
  destruct (iteration 50 s1) as [[[] s2]| |] eqn:E2; try done.
  intros Hl. eapply lr_next; eauto.
Defined.

(** What a run of [k] iterations shows of its last state. *)
Definition demo {A} (k : nat) (f : PvpnConnection Cl Strs Z -> A) : option A :=
  match demo_new with
  | Ret (_, s) => f <$> loop_n k s
  | _ => None
  end.

Lemma demo_inv {A} k (f : PvpnConnection Cl Strs Z -> A) a :
  demo k f = Some a ->
  exists s0 s, demo_new = Ret ((), s0) /\ loop_reaches 50 s0 s /\ f s = a.
Proof.
  unfold demo. destruct demo_new as [[[] s0]| |]; [|done..].
  destruct (loop_n k s0) as [s|] eqn:E; [|done]. intros [= <-].
  exists s0, s. split; [done|]. split; [|done]. by eapply loop_n_reaches.
Defined.
End demo.

Definition capture_info : PcapFileInfo := {| pcap_file := Path "/c.pcap" Append; max_bytes := Some 2%Z |}.
Definition script1 : list (option PvpnMessage) :=
  [Some (StartPacketCapture capture_info); None; Some (ConnectivityChange Down); None].
Definition client1 : Cl :=
  demo_client [{| act_stream := -1; act_kind := ActWrite [Byte.x01; Byte.x02; Byte.x03] |}] [] (Some demo_tunnel).

Example demo_states :
  demo client1 script1 true [demo_peer 1 0] None None 2 (fun s => reported (out s))
  = Some [Connected (get_peer_connection_info (as_peer (demo_peer 1 0))
                       {| sa_ip := V4 1; sa_port := 51820 |} VpnWireguardUdp) None;
          Connecting [get_peer_connection_info (as_peer (demo_peer 1 0))
                       {| sa_ip := V4 1; sa_port := 51820 |} VpnWireguardUdp] [WaitingForNetwork]].
Proof. vm_compute. reflexivity. Qed.

(** ** Witnesses *)

Lemma states_reported_witness :
  exists s, length (reported (out s)) = 2
    /\ default (Disconnected None) (last (reported (out s))) = connection_state (s : PvpnConnection Cl Strs Z).
Proof.
  destruct (demo_inv client1 script1 true [demo_peer 1 0] None None 2
    (fun s => length (reported (out s))) 2) as (s0 & s & Hn & Hr & Hl); [vm_compute; reflexivity|].
  exists s. split; [exact Hl|].
  exact (proj1 (states_reported 50 _ _ _ _ _ _ _ _ _ _ s0 s Hn Hr)).
Defined.

Lemma capture_lifecycle_witness :
  exists s : PvpnConnection Cl Strs Z,
    length (out s) = 4 /\ capture_run None (out s) = Some (file_info <$> pcap_stream s).
Proof.
  destruct (demo_inv client1 script1 true [demo_peer 1 0] None None 2
    (fun s => length (out s)) 4) as (s0 & s & Hn & Hr & Hl); [vm_compute; reflexivity|].
  exists s. split; [exact Hl|].
  exact (proj1 (capture_lifecycle 50 _ _ _ _ _ _ _ _ _ _ s0 s Hn Hr)).
Defined.

Lemma offline_reported_witness :
  exists (s : PvpnConnection Cl Strs Z) peers,
    net_up s = false /\ connection_state s = Connecting peers [WaitingForNetwork].
Proof.
  destruct (demo_inv client1 script1 true [demo_peer 1 0] None None 2 net_up false)
    as (s0 & s & Hn & Hr & Hd); [vm_compute; reflexivity|].
  destruct (offline_reported 50 _ _ _ _ _ _ _ _ _ _ s0 s Hn Hr Hd) as (peers & H & _).
  exists s, peers. split; [exact Hd|exact H].
Defined.

Lemma agent_mode_respected_witness :
  exists s : PvpnConnection Cl Strs Z,
    length (reported (out s)) = 1 /\ Forall (state_fits_mode true) (reported (out s)).
Proof.
  destruct (demo_inv (demo_client [] [LocalAgentConnected] (Some demo_tunnel)) [] true [demo_peer 1 0] None
    (Some LocalAgentSettings_default) 1 (fun s => length (reported (out s))) 1)
    as (s0 & s & Hn & Hr & Hl); [vm_compute; reflexivity|].
  exists s. split; [exact Hl|].
  exact (agent_mode_respected 50 _ _ _ _ _ _ _ _ _ (Some LocalAgentSettings_default) s0 s Hn Hr).
Defined.

Lemma peers_in_sync_witness :
  exists s : PvpnConnection Cl Strs Z,
    length (peers s) = 2 /\ peer_map (client s) = peers_map (peers s).
Proof.
  destruct (demo_inv (demo_client [] [] None)
    [Some (Update {| upd_peers := Some [demo_peer 2 0; demo_peer 3 5; demo_peer 3 1];
                     upd_settings := None; upd_tun := None |})]
    true [demo_peer 1 0; demo_peer 2 0] None None 1 (fun s => length (peers s)) 2)
    as (s0 & s & Hn & Hr & Hl); [vm_compute; reflexivity|].
  exists s. split; [exact Hl|].
  refine (proj1 (peers_in_sync 50 _ _ _ _ _ _ _ _ _ _ s0 s _ Hn Hr)). reflexivity.
Defined.

Definition disconnect_script : list (option PvpnMessage) :=
  [Some (StartPacketCapture capture_info); None; Some StopPacketCapture; Some StopPacketCapture;
   Some (StartPacketCapture capture_info); Some Disconnect; Some RequestStats].

Definition demo_run (n : nat) : outcome (() * PvpnConnection Cl Strs Z) :=
  match demo_new client1 disconnect_script true [demo_peer 1 0] None None with
  | Ret (_, s0) => run 50 n s0
  | _ => Panic
  end.

Lemma demo_run_inv n :
  match demo_run n with Ret _ => true | _ => false end = true ->
  exists s0 s, demo_new client1 disconnect_script true [demo_peer 1 0] None None = Ret ((), s0)
    /\ run 50 n s0 = Ret ((), s).
Proof.
  unfold demo_run. destruct (demo_new _ _ _ _ _ _) as [[[] s0]| |]; [|done..]. intros H. exists s0.
  destruct (run 50 n s0) as [[[] s]| |] eqn:E; [|done..]. exists s. split; reflexivity.
Defined.

Lemma run_ends_disconnected_witness :
  exists s : PvpnConnection Cl Strs Z, pcap_stream s = None /\ capture_run None (out s) = Some None.
Proof.
  destruct (demo_run_inv 1) as (s0 & s & Hn & Hr); [vm_compute; reflexivity|]. exists s.
  destruct (run_ends_disconnected 50 1 _ _ _ _ _ _ _ _ _ _ s0 s Hn Hr) as (_ & Hp & _ & Hc).
  split; [exact Hp|exact Hc].
Defined.

Lemma run_fuel_irrelevant_witness :
  exists s0 s : PvpnConnection Cl Strs Z, run 50 1 s0 = Ret ((), s) /\ run 60 7 s0 = Ret ((), s).
Proof.
  destruct (demo_run_inv 1) as (s0 & s & Hn & Hr); [vm_compute; reflexivity|]. exists s0, s.
  split; [exact Hr|]. apply (run_fuel_irrelevant 50 60 1 7 s0 s); [lia|lia|exact Hr].
Defined.

Lemma disconnect_ends_loop_witness :
  exists s s' : PvpnConnection Cl Strs Z,
    message_receiver s = [Some StopPacketCapture; Some Disconnect; Some RequestStats]
    /\ run 0 0 s = Ret ((), s') /\ message_receiver s' = [Some RequestStats].
Proof.
  set (s := initial false client1 demo_strs demo_world
    [Some StopPacketCapture; Some Disconnect; Some RequestStats] true [] 0%Z None).
  destruct (disconnect_ends_loop 0 0 s [StopPacketCapture] [Some RequestStats])
    as [(s' & E & Hr & _)|(Ha & _)]; [reflexivity|set_solver| |set_solver].
  exists s, s'. split; [reflexivity|]. split; [exact E|exact Hr].
Defined.

Lemma offline_reads_dropped_witness :
  exists s s' : PvpnConnection Cl Strs Z,
    iteration 50 s = Ret ((), s') /\ rtc quiet_step (client s) (client s').
Proof.
  set (s := initial false client1 demo_strs demo_world [] false [] 0%Z None).
  assert (match iteration 50 s with Ret _ => true | _ => false end = true) as Hi
    by (vm_compute; reflexivity).
  destruct (iteration 50 s) as [[[] s']| |] eqn:E; [|discriminate Hi..]. exists s, s'.
  split; [exact E|]. exact (proj1 (offline_reads_dropped 50 s s' eq_refl E)).
Defined.

#[local] Instance demo_safe : StreamSafe Str := MioStream_safe 100.

(** The demonstration's clock never fails. *)
Lemma demo_time_told (cl : Cl) : (0 <= realtime_factory cl)%Z -> ~ (clock_fails 0%Z \/ time_fails cl).
Proof.
  intros Hc [Hf|Hf%impl_time_fails]; [by apply tick_never_fails in Hf|by apply tick_never_fails in Hf].
Qed.

Lemma run_never_panics_witness :
  exists s0 : PvpnConnection Cl Strs Z,
    demo_new client1 script1 true [demo_peer 1 0] None None = Ret ((), s0) /\ run 50 3 s0 <> Panic.
Proof.
  destruct (run_never_panics 50 3 false client1 demo_strs demo_world script1 true [demo_peer 1 0] None 0%Z None)
    as (s0 & E & Hp).
  exists s0. split; [exact E|]. intros Hr. apply (demo_time_told client1); [reflexivity || (vm_compute; discriminate)|by apply Hp].
Defined.

(** After an iteration in which a UDP stream was opened. *)
Definition client_open : Cl :=
  demo_client [{| act_stream := 9; act_kind := ActOpen {| os_kind := UdpStream; os_addr := sample_addr |} None |}] [] None.

Lemma mio_connection_routes_witness :
  exists (s : PvpnConnection Cl Strs Z) m' evs p',
    info_id <$> streams (conn_streams s) = [0; 9]%Z
    /\ mio_poll_streams None (conn_streams s) = (Ok [], m')
    /\ poll_poll (T := Str) None (mio_poll (conn_streams s)) = (Ok evs, p').
Proof.
  destruct (demo_inv client_open [] true [demo_peer 1 0] None None 1
    (fun s => (info_id <$> streams (conn_streams s), mio_poll (conn_streams s)))
    ([0; 9]%Z, {| fake_events := [] |})) as (s0 & s & Hn & Hr & Hl); [vm_compute; reflexivity|].
  injection Hl as Hids Hp.
  destruct (mio_poll_streams None (conn_streams s)) as [r m'] eqn:Ep.
  assert (r = Ok []) as -> by (unfold mio_poll_streams in Ep; rewrite Hp in Ep; injection Ep as <- _; reflexivity).
  assert (MioStreams_new (P := fake_poll) (T := Str) (Some (MioTun {| tun_file := packet_device |}))
            (socket_factory demo_strs) (mio_poll demo_strs) = Ok demo_strs) as Hm by reflexivity.
  destruct (mio_connection_routes (fun _ => MioTun {| tun_file := quiet_device |}) 50
              (Some (MioTun {| tun_file := packet_device |})) (socket_factory demo_strs) (mio_poll demo_strs) demo_strs false client_open demo_world [] true
              [demo_peer 1 0] None 0%Z None s0 s None [] m' Hm Hn Hr Ep) as (evs & p' & Ev & _).
  exists s, m', evs, p'. split; [exact Hids|]. split; [exact Ep|exact Ev].
Defined.
