(* ===== verification/ThreadsRun.v ===== *)
(** * Two threads on a concrete system

    An application that asks for statistics while the connection's thread is
    starting and then disconnects and waits while the thread is in its poll; the
    witnesses of [Threads.v] and [Termination.v]. *)

From S2P Require Import Prelude Types NetworkRecovery SanitizedPeers Conversions LocalAgent.
From S2P Require Import Streams Pcap MioStreams SocketFactory PvpnClient PeerSync.
From S2P Require Import Connection ConnectionSteps ConnectionInvariants ConnectionTheorems ConnectionSafety.
From S2P Require Import Mailbox Api Threads Termination Settling Scenario.

#[local] Existing Instance sample_ids.
#[local] Existing Instance accepting_os.
#[local] Instance two_stream : Stream Str := MioStream_Stream 100.
#[local] Instance two_laws : StreamLaws Str := MioStream_laws 100.
#[local] Instance two_safe : StreamSafe Str := MioStream_safe 100.
#[local] Instance two_factory : MioSocketFactory SocketFactoryUnix Str :=
  SocketFactoryUnix_factory 115 (fun _ => quiet_device).
#[local] Instance two_streams : Streams Strs Str :=
  MioStreams_Streams (fun _ => MioTun {| tun_file := quiet_device |}).

Abbreviation Sys := (@System Cl Strs Z).

Definition two_deps : outcome (io_result (@PvpnDependencies Cl Strs Z)) :=
  Ret (Ok {| config := {| cfg_peers := [demo_peer 1 0]; cfg_network_available := true; cfg_pcap_file := Some capture_info;
                          cfg_connection_mode := NoLocalAgent {| client_key := [] |} |};
             dep_streams := demo_strs; dep_client := client1; dep_clock := 0%Z |}).

Abbreviation exec := (sys_exec false demo_world two_deps).
Abbreviation reachable := (sys_reachable false demo_world two_deps).

(** Up to the moment the thread waits in its poll with the request queued. *)
Definition until_poll : list label :=
  [LCall CallStats; LThread 0 false; LWake 0 true; LThread 0 false; LThread 0 false;
   LCall CallDisconnectAndWait; LWake 0 true].
Definition until_joined : list label :=
  until_poll ++ [LThread 0 false; LThread 50 false; LThread 0 false; LJoin].

Definition phase (t : @Thread Cl Strs Z) : nat :=
  match t with Starting => 0 | Receiving _ => 1 | Polling _ => 2 | Polled _ => 3 | Ended (Some _) => 4 | Ended None => 5 | Crashed => 6 end.

Definition shown (x : Sys) : nat * list PvpnMessage * list (option PvpnMessage) * bool * bool :=
  (phase (thread x), queue x, taken x, woken x, joined x).

Example until_poll_shows :
  shown <$> exec until_poll sys_start = Some (2, [Disconnect], [Some RequestStats; None], true, false).
Proof. vm_compute. reflexivity. Qed.

Example until_joined_shows :
  shown <$> exec until_joined sys_start = Some (4, [], [Some RequestStats; None; Some Disconnect], false, true).
Proof. vm_compute. reflexivity. Qed.

Lemma exec_shows {A} (f : Sys -> A) ls a :
  f <$> exec ls sys_start = Some a -> exists x, reachable x /\ f x = a.
Proof.
  destruct (exec ls sys_start) as [x|] eqn:E; [|done]. intros [= <-]. exists x. split; [|done].
  by eapply sys_exec_reaches.
Defined.

Lemma phase_ended t : phase t = 4 -> exists s, t = Ended (Some s).
Proof. destruct t as [| | | |[s|]|]; try done. by exists s. Defined.
Lemma phase_polling t : phase t = 2 -> exists s, t = Polling s.
Proof. destruct t as [| | | |[s|]|]; try done. by eexists. Defined.

Lemma interleavings_scheduled_witness :
  exists x s d fuel n, thread x = Ended (Some s)
    /\ start_pvpn_connection false fuel n demo_world (Ok d) [Some RequestStats; None; Some Disconnect] = Some (Ret ((), s))
    /\ sent x = [RequestStats; Disconnect].
Proof.
  destruct (exec_shows (fun x => (shown x, sent x)) until_joined
    ((4, [], [Some RequestStats; None; Some Disconnect], false, true), [RequestStats; Disconnect]))
    as (x & Hx & Hs); [vm_compute; reflexivity|]. injection Hs as Hp Hq Ht _ _ Hs.
  apply phase_ended in Hp as [s Hs'].
  destruct (interleavings_scheduled false demo_world two_deps x s Hx Hs') as (d & fuel & n & _ & Hr & _).
  exists x, s, d, fuel, n. rewrite <- Ht. by split_and!.
Defined.

Lemma no_lost_wakeup_witness :
  exists (x : Sys) s, thread x = Polling s /\ queue x = [Disconnect] /\ (woken x = true \/ flight x <> []).
Proof.
  destruct (exec_shows (fun x => (shown x, wake_failed x)) until_poll
    ((2, [Disconnect], [Some RequestStats; None], true, false), false))
    as (x & Hx & Hs); [vm_compute; reflexivity|]. injection Hs as Hp Hq _ _ _ Hw.
  apply phase_polling in Hp as [s Hs']. exists x, s. split; [exact Hs'|]. split; [exact Hq|].
  apply (no_lost_wakeup false demo_world two_deps x s Hx Hs'); [rewrite Hq; discriminate|exact Hw].
Defined.

(** A wake that the system refuses is only logged, and the message then waits for
    another reason to leave the poll. *)
Example refused_wake_waits :
  (fun x => (shown x, bool_decide (is_Some (thread_next false demo_world two_deps 50 false x)),
             bool_decide (is_Some (thread_next false demo_world two_deps 50 true x))))
    <$> exec [LThread 0 false; LThread 0 false; LCall CallDisconnect; LWake 0 false] sys_start
  = Some ((2, [Disconnect], [None], false, false), false, true).
Proof. vm_compute. reflexivity. Qed.

(** ** The loops end *)

#[local] Instance two_ends : StreamEnds Str := MioStream_ends 100.
#[local] Instance two_pending : PendingReads Str := MioStream_pending 100.
#[local] Instance two_fresh : FreshSockets (@SocketFactoryUnix ()) Str :=
  unix_sockets_fresh 100 115 (fun _ => quiet_device) (fun _ => eq_refl).
#[local] Instance two_settle : @ReadsSettle Strs Str _ _ :=
  MioStreams_settle (fun _ => MioTun {| tun_file := quiet_device |}).

(** A connection that captures packets, loses its network and is then disconnected. *)
Lemma run_returns_witness :
  exists fuel n (s0 s : PvpnConnection Cl Strs Z),
    demo_new client1 (script1 ++ [Some Disconnect]) true [demo_peer 1 0] None None = Ret ((), s0)
    /\ run fuel n s0 = Ret ((), s) /\ closed s.
Proof.
  destruct (run_returns false client1 demo_strs demo_world (script1 ++ [Some Disconnect]) true [demo_peer 1 0] None 0%Z None)
    as [_ Hrun].
  destruct Hrun as (fuel & n & s0 & o & Hn & Hr & Hc); [unfold script1; set_solver|].
  destruct o as [[[] s]| |]; [|by apply demo_time_told in Hc|done].
  exists fuel, n, s0, s. split; [exact Hn|]. split; [by apply Hr|exact Hc].
Defined.

Lemma disconnect_and_wait_returns_witness :
  (exists x : Sys, queue x = [Disconnect] /\ phase (thread x) = 2
     /\ (forall ls y, exec ls x = Some y -> thread_steps ls <= 3)
     /\ ((exists fuel z, sys_do false demo_world two_deps (LThread fuel false) x = Some z)
         \/ exists z, sys_do false demo_world two_deps (LWake 0 true) x = Some z))
  /\ exists x : Sys, joined x = true /\ Disconnect ∈ sent x.
Proof.
  split.
  - destruct (exec_shows (fun x => (shown x, wake_failed x)) until_poll
      ((2, [Disconnect], [Some RequestStats; None], true, false), false)) as (x & Hx & Hs); [vm_compute; reflexivity|].
    injection Hs as Hp Hq _ _ _ Hw. pose proof (phase_polling _ Hp) as [s Hs'].
    assert (Disconnect ∈ queue x) as Hd by (rewrite Hq; by left).
    pose proof (proj1 (disconnect_and_wait_returns false demo_world two_deps x Hx) Hd) as Hall.
    exists x. split; [exact Hq|]. split; [exact Hp|]. split.
    + intros ls y E. destruct (Hall ls y E) as [Hk _]. by rewrite Hq in Hk.
    + destruct (Hall [] x eq_refl) as [_ Hg]. apply Hg; [by rewrite Hs'|discriminate|exact Hw|apply _..].
  - destruct (exec_shows joined until_joined true) as (x & Hx & Hj); [vm_compute; reflexivity|]. exists x.
    split; [exact Hj|]. exact (proj1 (proj2 (disconnect_and_wait_returns false demo_world two_deps x Hx) Hj)).
Defined.
