(* ===== verification/UnixRun.v ===== *)
(** * A connection started on Unix

    [unix_connect] on a concrete system, its thread run for some iterations with
    clocks that tick; the witnesses of [Clocks.v], [DataPath.v] and
    [Startup.v]. *)

From stdpp Require Import sorting.
From S2P Require Import Prelude Types NetworkRecovery SanitizedPeers Conversions LocalAgent.
From S2P Require Import Streams Pcap MioStreams SocketFactory PvpnClient PeerSync.
From S2P Require Import Connection ConnectionSteps ConnectionInvariants ConnectionTheorems ConnectionSafety StreamCalls.
From S2P Require Import Clocks DataPath Mailbox Api Threads Startup Scenario.

#[local] Existing Instance sample_ids.
#[local] Existing Instance accepting_os.

(** A machine that counts microseconds, set to 1970, and a poll that can be had. *)
#[local] Instance tick_instants : InstantSource Z := fun t => (t, (t + 1000)%Z).
#[local] Instance tick_system_time : SystemTimeSource Z := fun t => (t, (t + 1000)%Z).
#[local] Instance tick_laws : InstantLaws Z.
Proof. refine {| last_instant t := (t - 1000)%Z |}. intros o t o' [= <- <-]. lia. Defined.

Lemma tick_after_epoch : ~ before_epoch 0%Z.
Proof.
  intros (o & Hr & Ho). assert (0 <= o)%Z as Hk; [|simpl in Ho; lia].
  eapply (rtc_invariant time_read (fun t => (0 <= t)%Z)); [|exact Hr|done].
  intros a b [x [= _ <-]] Ha. lia.
Qed.

#[local] Instance one_poll : MioSystem () fake_poll () := {
  Poll_new o := (Ok {| fake_events := [sample_event 1] |}, o);
  Waker_new _ p := (Ok (), p);
  Waker_wake _ o := (Ok (), o);
}.

#[local] Instance unix_demo_stream : Stream Str := MioStream_Stream 100.
#[local] Instance unix_demo_laws : StreamLaws Str := MioStream_laws 100.
#[local] Instance unix_demo_factory : MioSocketFactory SocketFactoryUnix Str :=
  SocketFactoryUnix_factory 115 (fun _ => quiet_device).
#[local] Instance unix_demo_streams : Streams Strs Str :=
  MioStreams_Streams (tun_of (fun _ => packet_device) false).

Definition unix_config : InitialConnectionConfig :=
  {| cfg_peers := [demo_peer 1 0]; cfg_network_available := true; cfg_pcap_file := None;
     cfg_connection_mode := NoLocalAgent {| client_key := [] |} |}.

Abbreviation timed_new m := {| timed_lib := script_lib_new; told := [m] |}.
Abbreviation unix_with f :=
  (f (fun _ => Ok ()) (fun _ => Ok ()) (fun _ => Ok ()) (fun _ _ => Ok ())
     (fun _ m _ _ _ _ _ => timed_new m) (fun _ m _ _ => timed_new m)).

Abbreviation UCl := (PvpnClientImpl (Timed script_lib) (ClientMonotonicFactory Z) (ClientRealtimeFactory Z)).
Abbreviation UConn := (PvpnConnection UCl Strs (ClientRealtimeFactory Z)).

Abbreviation unix_demo_at t tun_fd :=
  (unix_with (unix_connect (P := fake_poll) (Wk := ()) (S := ()) (I := Z) (R := Z) (Key := ()) (Cert := ()) (Auth := ()) (App := ()) (Seed := ())
     (fun _ => packet_device)) false unix_config tun_fd true (fun _ => None) () 7000%Z t () ()).
Abbreviation unix_demo tun_fd := (unix_demo_at 0%Z tun_fd).

(** The handle is usable and the times of the first iterations are told in
    order. *)
Example unix_demo_runs :
  match unix_demo (Some 3%Z) with
  | Ret ((h, _, Ret (Ok d)), _) =>
      receiver_alive h = true
      /\ match start_pvpn_connection false 50 2 demo_world (Ok d) [Some (ConnectivityChange Down); None; Some Disconnect] with
         | Some (Ret (_, s)) => reported (out s) = [Connecting [] [WaitingForNetwork]; Disconnected None]
                                /\ told (c (client s)) = [1000; 2000; 3000]%Z
         | _ => False
         end
  | _ => False
  end.
Proof. vm_compute. split_and!; reflexivity. Qed.

(** Set before 1970, the system's clock ends the thread as it starts. *)
Example unix_demo_before_epoch :
  match unix_demo_at (-5)%Z (Some 3%Z) with
  | Ret ((h, _, Panic), _) => receiver_alive h = false
  | _ => False
  end.
Proof. vm_compute. reflexivity. Qed.


Definition unix_client : UCl :=
  {| c := timed_new 1000%Z; c_need_pull := true; c_wakeup_deadline := None;
     monotonic_factory := {| initial_instant := 7000; mono_source := 9000%Z |};
     realtime_factory := {| real_source := 1000%Z |} |}.

(** A run of two iterations. *)
Definition unix_loop : option (UConn * UConn) :=
  match connection_new false unix_client demo_strs demo_world [] true [demo_peer 1 0] None (ClientRealtimeFactory_new 0%Z) None with
  | Ret (_, s0) =>
      match handle_messages s0 with
      | Ret (true, s1) => match iteration 50 s1 with Ret (_, s2) => Some (s0, s2) | _ => None end
      | _ => None
      end
  | _ => None
  end.


(** ** Traffic

    The client opens a UDP stream with a first packet, writes to the TUN device,
    hands out a key and writes to a stream that does not exist; the TUN device
    has two packets. *)

Definition data_client : Wire Cl :=
  {| wire := demo_client
       [{| act_stream := 9; act_kind := ActOpen {| os_kind := UdpStream; os_addr := sample_addr |} (Some [Byte.x0a]) |};
        {| act_stream := 0; act_kind := ActWrite [Byte.x45; Byte.x0b] |};
        {| act_stream := PRIVKEY_STREAM_ID; act_kind := ActWrite [Byte.x0c] |};
        {| act_stream := 33; act_kind := ActWrite [Byte.x0d] |}] [] (Some demo_tunnel);
     pulled := []; pushed := [] |}.

Definition data_streams : Taps Strs := {| taps := demo_strs; reads := []; writes := [] |}.

Abbreviation DConn := (PvpnConnection (Wire Cl) (Taps Strs) Z).

Definition data_run : option (DConn * DConn) :=
  match connection_new false data_client data_streams demo_world [] true [demo_peer 1 0] None 0%Z None with
  | Ret (_, s0) => match iteration 50 s0 with Ret (_, s') => Some (s0, s') | _ => None end
  | _ => None
  end.

Example data_run_shows :
  (fun p : DConn * DConn => (reads (conn_streams p.2), retain is_read (pushed (client p.2)),
                             writes (conn_streams p.2), cached (out p.2))) <$> data_run
  = Some ([(0, [Byte.x45; Byte.x00]); (0, [Byte.x45; Byte.x01])]%Z,
          [Action_read 0 [Byte.x45; Byte.x00]; Action_read 0 [Byte.x45; Byte.x01]],
          [(9, [Byte.x0a]); (0, [Byte.x45; Byte.x0b])]%Z, [(PrivateKey, [Byte.x0c])]).
Proof. vm_compute. reflexivity. Qed.

Lemma data_run_ok : exists s s', data_run = Some (s, s') /\ iteration 50 s = Ret ((), s') /\ net_up s = true.
Proof.
  assert (Hd : (fun p : DConn * DConn => net_up p.1) <$> data_run = Some true) by (vm_compute; reflexivity).
  unfold data_run in *. destruct (connection_new _ _ _ _ _ _ _ _ _ _) as [[[] s0]| |]; [|discriminate Hd..].
  destruct (iteration 50 s0) as [[[] s']| |] eqn:E; [|discriminate Hd..]. injection Hd as Hd. exists s0, s'. by split_and!.
Defined.

(** A whole run, ended by a disconnect request. *)
Definition data_whole : option (DConn * DConn) :=
  match connection_new false data_client data_streams demo_world [None; Some Disconnect] true [demo_peer 1 0] None 0%Z None with
  | Ret (_, s0) => match run 50 1 s0 with Ret (_, s') => Some (s0, s') | _ => None end
  | _ => None
  end.

Lemma data_whole_ok :
  exists s s', data_whole = Some (s, s') /\ run 50 1 s = Ret ((), s') /\ net_up s = true
    /\ message_receiver s = [None; Some Disconnect] /\ length (reads (conn_streams s')) = 2
    /\ length (cached (out s')) = 1.
Proof.
  assert (Hd : (fun p : DConn * DConn => (net_up p.1, message_receiver p.1, length (reads (conn_streams p.2)),
      length (cached (out p.2)))) <$> data_whole = Some (true, [None; Some Disconnect], 2, 1)) by (vm_compute; reflexivity).
  unfold data_whole in *. destruct (connection_new _ _ _ _ _ _ _ _ _ _) as [[[] s0]| |]; [|discriminate Hd..].
  destruct (run 50 1 s0) as [[[] s']| |] eqn:E; [|discriminate Hd..]. injection Hd as Hu Hm Hr Hc. exists s0, s'.
  exact (conj eq_refl (conj E (conj Hu (conj Hm (conj Hr Hc))))).
Defined.

Lemma reads_delivered_witness :
  (exists s s', data_run = Some (s, s') /\ exists l, reads (conn_streams s') = reads (conn_streams s) ++ l
    /\ retain is_read (pushed (client s'))
       = retain is_read (pushed (client s)) ++ ((fun r => Action_read r.1 r.2) <$> l))
  /\ exists s s', data_whole = Some (s, s') /\ length (reads (conn_streams s')) = 2
    /\ exists l, reads (conn_streams s') = reads (conn_streams s) ++ l
    /\ retain is_read (pushed (client s'))
       = retain is_read (pushed (client s)) ++ ((fun r => Action_read r.1 r.2) <$> l).
Proof.
  split.
  - destruct data_run_ok as (s & s' & Hd & E & Hu). exists s, s'. split; [exact Hd|].
    destruct (proj1 (reads_delivered 50 0 s s') E) as (l & Hl & Hp & _). rewrite Hu in Hp. exists l. split; [exact Hl|exact Hp].
  - destruct data_whole_ok as (s & s' & Hd & E & Hu & Hm & Hr & _). exists s, s'. split; [exact Hd|]. split; [exact Hr|].
    apply (proj2 (reads_delivered 50 1 s s') E Hu). rewrite Hm. unfold stays_up.
    intros Hin. apply elem_of_cons in Hin as [Hin|Hin]; [discriminate Hin|]. apply list_elem_of_singleton in Hin. discriminate Hin.
Defined.

Lemma writes_delivered_witness :
  exists s s', data_whole = Some (s, s') /\ length (cached (out s')) = 1
    /\ exists l w, pulled (client s') = pulled (client s) ++ l
    /\ writes (conn_streams s') = writes (conn_streams s) ++ w /\ sublist w (omap stream_payload l).
Proof.
  destruct data_whole_ok as (s & s' & Hd & E & _ & _ & _ & Hc). exists s, s'. split; [exact Hd|]. split; [exact Hc|].
  destruct (proj2 (writes_delivered 50 1 s s') (or_intror E)) as (l & w & Hl & _ & Hw & Hs).
  exists l, w. exact (conj Hl (conj Hw Hs)).
Defined.
