(* ===== verification/ConfigParser.v ===== *)
(** * The configuration file of the sample program and the tests

    [src/api/test_utils/test_config_parser.rs].  The crates that read the file
    ([ini!]) and decode base64 are parameters, and so is the order in which a
    [HashMap] is iterated.  The parser reports malformed input by panicking,
    which is [None] here. *)

From Stdlib Require Import Strings.Ascii.
From S2P Require Import Prelude Types Net IpParse Text.

Abbreviation Fields := (gmap string (option string)).
Abbreviation Ini := (gmap string Fields).

Record ParsedForkConfig := { username : string; password : string; fork_app_version : string }.

Record ParsedConfig := {
  initial_connection_config : InitialConnectionConfig;
  tun_interface_name : option string;
}.

(** [fields[key].clone().unwrap()], which panics on a missing key and on a key
    without a value. *)
Definition index_unwrap (fields : Fields) (key : string) : option string := fields !! key ≫= id.

(** [fields.get(key).cloned().flatten()]. *)
Definition get_flatten (fields : Fields) (key : string) : option string := fields !! key ≫= id.

Definition parse_ports (ports : string) : option (list Z) :=
  mapM (fun s => parse_u16 (text_of s)) (split_on "," (chars ports)).

(** The ports of a section: [unwrap_or_default] when there are none. *)
Definition section_ports (fields : Fields) (key : string) : option (list Z) :=
  match get_flatten fields key with
  | Some s => parse_ports s
  | None => Some []
  end.

(** [fields["priority"].clone().map(parse).unwrap_or(0)]. *)
Definition section_priority (fields : Fields) : option Z :=
  match fields !! "priority"%string with
  | None => None
  | Some None => Some 0%Z
  | Some (Some s) => parse_i32 s
  end.

(** [s.trim()]. *)
Definition trimmed (s : string) : string := text_of (trim (chars s)).

Section parser.
Context (decode : string -> option (list byte)).
Local Open Scope string_scope.

Definition byte_slice_from_base64 (s : string) : option (list byte) := decode (trimmed s).

(** [try_into] an array of [n] bytes. *)
Definition to_key (n : nat) (bytes : list byte) : option (list byte) :=
  if bool_decide (length bytes = n) then Some bytes else None.

Definition wg_peer_public_key_from_b64 (s : string) : option WgPeerPublicKey :=
  bytes ← decode (trimmed s);
  arr ← to_key PEER_PUB_KEY_SIZE_BYTES bytes;
  Some {| peer_key := arr |}.

(** The body of the loop for a peer's section. *)
Definition parse_peer (id : string) (fields : Fields) : option PeerInfo :=
  ip ← index_unwrap fields "server_ip" ≫= IpAddr_from_str;
  key ← index_unwrap fields "server_public_key" ≫= wg_peer_public_key_from_b64;
  udp ← section_ports fields "udp_ports";
  tcp ← section_ports fields "tcp_ports";
  tls ← section_ports fields "tls_ports";
  prio ← section_priority fields;
  Some {| peer_id := id; server_ip := ip; server_public_key := key; udp_ports := udp; tcp_ports := tcp;
          tls_ports := tls; priority := prio; peer_exit_label := get_flatten fields "exit_label" |}.

(** [section_name.strip_prefix("peer.")]. *)
Definition peer_section (name : string) : option string := text_of <$> strip_prefix (chars "peer.") (chars name).
#[local] Arguments peer_section : simpl never.

(** The sections in the order of the iteration. *)
Fixpoint parse_ini_peers (sections : list (string * Fields)) : option (list PeerInfo) :=
  match sections with
  | [] => Some []
  | (name, fields) :: rest =>
      match peer_section name with
      | Some id =>
          p ← parse_peer id fields;
          ps ← parse_ini_peers rest;
          Some (p :: ps)
      | None => parse_ini_peers rest
      end
  end.

Definition parse_mode (mode : Fields) : option ConnectionMode :=
  local_agent ← index_unwrap mode "with_local_agent" ≫= parse_bool;
  if local_agent : bool then
    user_agent ← index_unwrap mode "user_agent";
    app_version ← index_unwrap mode "app_version";
    Some (LocalAgent user_agent app_version LocalAgentSettings_default)
  else
    key ← index_unwrap mode "client_private_key" ≫= byte_slice_from_base64;
    arr ← to_key CLIENT_PRIV_KEY_SIZE_BYTES key;
    Some (NoLocalAgent {| client_key := arr |}).

Definition parse_fork (ini : Ini) (mode : ConnectionMode) : option (option ParsedForkConfig) :=
  match mode with
  | LocalAgent _ app_version _ =>
      match ini !! "fork" with
      | Some fork =>
          u ← index_unwrap fork "username";
          p ← index_unwrap fork "password";
          Some (Some {| username := u; password := p; fork_app_version := app_version |})
      | None => Some None
      end
  | NoLocalAgent _ => Some None
  end.

(** [load] is [ini!(&path)]; [iter] is the order of the map's iterator. *)
Definition parse_ini_config (load : string -> option Ini) (iter : Ini -> list (string * Fields)) (path : string)
  : option (result (ParsedConfig * option ParsedForkConfig) string) :=
  ini ← load path;
  ps ← parse_ini_peers (iter ini);
  mode_fields ← ini !! "mode";
  mode ← parse_mode mode_fields;
  fork_config ← parse_fork ini mode;
  Some (Ok ({| initial_connection_config :=
                 {| cfg_peers := ps; cfg_network_available := true; cfg_pcap_file := None; cfg_connection_mode := mode |};
               tun_interface_name := get_flatten mode_fields "tun_interface_name" |}, fork_config)).

(** ** The peers *)

Lemma peer_section_spec name id : peer_section name = Some id <-> name = "peer." +:+ id.
Proof.
  unfold peer_section. split.
  - destruct (strip_prefix _ _) as [rest|] eqn:E; [|done]. intros [= <-].
    apply chars_inj. rewrite chars_app, chars_text. by apply strip_prefix_Some.
  - intros ->. by rewrite chars_app, strip_prefix_app; simpl; rewrite text_chars.
Qed.

(** What a section contributes. *)
Definition section_peer (e : string * Fields) : option (option PeerInfo) :=
  (fun id => parse_peer id e.2) <$> peer_section e.1.

Lemma parse_peer_id id fields p : parse_peer id fields = Some p -> peer_id p = id.
Proof.
  unfold parse_peer. intros E. repeat (apply bind_Some in E as (? & _ & E)). by injection E as <-.
Qed.

Lemma parse_ini_peers_spec sections :
  parse_ini_peers sections = mapM id (omap section_peer sections).
Proof.
  induction sections as [|[name fields] rest IH]; [done|]. csimpl. unfold section_peer at 1. simpl.
  destruct (peer_section name) as [id|]; simpl; [|exact IH]. by rewrite IH.
Qed.

Lemma mapM_id_None {A} (l : list (option A)) : mapM id l = None <-> None ∈ l.
Proof.
  split.
  - intros H. apply eq_None_not_Some in H. destruct (decide (Forall is_Some l)) as [Hf|Hf].
    { by apply mapM_is_Some_2 in Hf. }
    apply not_Forall_Exists in Hf; [|apply _]. apply Exists_exists in Hf as (x & Hx & Hn).
    by destruct x; [destruct Hn; eauto|].
  - intros Hin. apply eq_None_not_Some. intros [k Hk]. apply mapM_Some in Hk.
    apply list_elem_of_lookup in Hin as [i Hi]. destruct (Forall2_lookup_l _ _ _ _ _ Hk Hi) as (y & _ & Hy). done.
Qed.

Lemma parse_ini_peers_ids sections ps :
  parse_ini_peers sections = Some ps ->
  (forall p, p ∈ ps <-> exists fields, ("peer." +:+ peer_id p, fields) ∈ sections /\ parse_peer (peer_id p) fields = Some p)
  /\ peer_id <$> ps = omap (fun e => peer_section e.1) sections.
Proof.
  revert ps. induction sections as [|[name fields] rest IH]; intros ps; simpl.
  { intros [= <-]. split; [|done]. intros p. set_solver. }
  destruct (peer_section name) as [id|] eqn:Es.
  - intros (p0 & Hp0 & E)%bind_Some. apply bind_Some in E as (ps' & Hps & [= <-]).
    destruct (IH ps' Hps) as [IH1 IH2]. pose proof (parse_peer_id _ _ _ Hp0) as Hid. split; [|csimpl; by rewrite IH2, Hid].
    apply peer_section_spec in Es as ->. intros p. rewrite elem_of_cons, IH1. setoid_rewrite elem_of_cons. split.
    + intros [->|(f & Hin & Hp)]; [|by exists f; eauto]. exists fields. rewrite Hid. eauto.
    + intros (f & [[= Heq ->]|Hin] & Hp); [|right; eauto]. left.
      change (peer_id p = id) in Heq. rewrite Heq in Hp. congruence.
  - intros Hps. destruct (IH ps Hps) as [IH1 IH2]. split; [|exact IH2].
    intros p. rewrite IH1. setoid_rewrite elem_of_cons. split; [intros (f & ? & ?); eauto|].
    intros (f & [[= Heq ->]|Hin] & Hp); [|eauto]. exfalso.
    assert (peer_section name = Some (peer_id p)) as Hc by (apply peer_section_spec; congruence). congruence.
Qed.

Lemma section_names_NoDup (ini : Ini) sections :
  sections ≡ₚ map_to_list ini -> NoDup (omap (fun e => peer_section e.1) sections).
Proof.
  intros Hp. assert (NoDup sections.*1) as Hn by (rewrite Hp; apply NoDup_fst_map_to_list). clear Hp.
  induction sections as [|[name fields] rest IH]; [constructor|]. csimpl in *. apply NoDup_cons in Hn as [Hx Hn].
  destruct (peer_section name) as [id|] eqn:Es; [|by apply IH]. apply NoDup_cons. split; [|by apply IH].
  intros Hin. apply Hx. apply list_elem_of_omap in Hin as ([name' fields'] & Hin & Es'). simpl in Es'.
  apply peer_section_spec in Es as ->. apply peer_section_spec in Es' as ->.
  apply (list_elem_of_fmap_2 fst) in Hin. exact Hin.
Qed.

(** C31.  Reading a configuration, in whatever order the sections are iterated: it
    never answers an error; it panics on a peer section that does not parse and
    otherwise only for the mode or the account; and when it returns, there is
    exactly one peer per peer section, with the section's values and its own
    identifier, the network is taken to be available, no capture is asked for, and
    an account is there exactly in local-agent mode with a section for it. *)
Theorem ini_config_parsed (load : string -> option Ini) (iter : Ini -> list (string * Fields)) (path : string) (ini : Ini) :
  load path = Some ini -> iter ini ≡ₚ map_to_list ini ->
  match parse_ini_config load iter path with
  | Some (Err _) => False
  | None =>
      (exists id fields, ini !! ("peer." +:+ id) = Some fields /\ parse_peer id fields = None)
      \/ match ini !! "mode" with
         | None => True
         | Some mode => match parse_mode mode with None => True | Some m => parse_fork ini m = None end
         end
  | Some (Ok (config, fork)) =>
      let c := initial_connection_config config in
      (forall p, p ∈ cfg_peers c <-> exists fields, ini !! ("peer." +:+ peer_id p) = Some fields
                                       /\ parse_peer (peer_id p) fields = Some p)
      /\ NoDup (peer_id <$> cfg_peers c)
      /\ (forall id fields, ini !! ("peer." +:+ id) = Some fields -> exists p, p ∈ cfg_peers c /\ peer_id p = id)
      /\ cfg_network_available c = true /\ cfg_pcap_file c = None
      /\ (is_Some fork <-> is_Some (ini !! "fork") /\ exists ua av st, cfg_connection_mode c = LocalAgent ua av st)
  end.
Proof.
  intros Hl Hi. unfold parse_ini_config. rewrite Hl. simpl.
  assert (Hin : forall name fields, (name, fields) ∈ iter ini <-> ini !! name = Some fields)
    by (intros; by rewrite Hi, elem_of_map_to_list).
  destruct (parse_ini_peers (iter ini)) as [ps|] eqn:Ep; simpl.
  2: { left. rewrite parse_ini_peers_spec in Ep. apply mapM_id_None, list_elem_of_omap in Ep as ([name fields] & Hs & E).
       unfold section_peer in E. simpl in E. destruct (peer_section name) as [id|] eqn:Es; simplify_eq/=.
       apply peer_section_spec in Es as ->. exists id, fields. by rewrite Hin in Hs. }
  destruct (ini !! "mode") as [mode|]; simpl; [|by right].
  destruct (parse_mode mode) as [m|]; simpl; [|by right].
  destruct (parse_fork ini m) as [fork|] eqn:Ef; simpl; [|by right].
  destruct (parse_ini_peers_ids _ _ Ep) as [Hp Hids]. split_and!; try done.
  - intros p. rewrite Hp. by setoid_rewrite Hin.
  - rewrite Hids. by apply (section_names_NoDup ini).
  - intros id fields Hf. assert (id ∈ peer_id <$> ps) as Hm.
    { rewrite Hids. apply list_elem_of_omap. exists ("peer." +:+ id, fields). rewrite Hin. split; [done|].
      by apply peer_section_spec. }
    apply list_elem_of_fmap in Hm as (p & -> & Hm). by exists p.
  - unfold parse_fork in Ef. destruct m as [key|ua av st].
    { injection Ef as <-. split; [by intros []|]. intros (_ & ? & ? & ? & ?). done. }
    destruct (ini !! "fork") as [f|].
    + apply bind_Some in Ef as (u & _ & Ef). apply bind_Some in Ef as (p & _ & [= <-]).
      split; [|by eauto]. intros _. split; [by eauto|]. by eexists _, _, _.
    + injection Ef as <-. split; [by intros []|]. by intros [[] _].
Qed.

(** ** Writing a configuration *)

Definition write_ports (l : list Z) : option (option string) :=
  match l with [] => None | _ => Some (Some (text_of (join "," ((fun z => chars (pretty z)) <$> l)))) end.

(** Set a key, or leave it out. *)
Definition write_key (key : string) (v : option (option string)) : Fields -> Fields := partial_alter (fun _ => v) key.

Context (encode : list byte -> string).
Context (decode_encode : forall k, length k = PEER_PUB_KEY_SIZE_BYTES -> decode (trimmed (encode k)) = Some k).

(** A peer's section as the parser's documentation shows it. *)
Definition write_peer (p : PeerInfo) : Fields :=
  write_key "server_ip" (Some (Some (ip_to_string (server_ip p))))
  (write_key "server_public_key" (Some (Some (encode (peer_key (server_public_key p)))))
  (write_key "udp_ports" (write_ports (udp_ports p))
  (write_key "tcp_ports" (write_ports (tcp_ports p))
  (write_key "tls_ports" (write_ports (tls_ports p))
  (write_key "priority" (Some (Some (pretty (priority p))))
  (write_key "exit_label" (Some <$> peer_exit_label p) ∅)))))).

Definition peer_entry (p : PeerInfo) : string * Fields := ("peer." +:+ peer_id p, write_peer p).

Definition write_mode (user_agent app_version : string) (tun : option string) : Fields :=
  write_key "with_local_agent" (Some (Some "true")) (write_key "user_agent" (Some (Some user_agent))
    (write_key "app_version" (Some (Some app_version)) (write_key "tun_interface_name" (Some <$> tun) ∅))).

Definition write_fork (account : string * string) : Fields :=
  write_key "username" (Some (Some account.1)) (write_key "password" (Some (Some account.2)) ∅).

Definition write_config (ps : list PeerInfo) (user_agent app_version : string) (tun : option string)
    (fork : option (string * string)) : Ini :=
  <["mode" := write_mode user_agent app_version tun]>
  (partial_alter (fun _ => write_fork <$> fork) "fork" (list_to_map (peer_entry <$> ps))).

Definition valid_peer (p : PeerInfo) : Prop :=
  ip_in_range (server_ip p) /\ length (peer_key (server_public_key p)) = PEER_PUB_KEY_SIZE_BYTES
  /\ Forall (fun z => (0 <= z < 65536)%Z) (udp_ports p ++ tcp_ports p ++ tls_ports p)
  /\ (- 2 ^ 31 <= priority p < 2 ^ 31)%Z.

Lemma lookup_key key v (m : Fields) : write_key key v m !! key = v.
Proof. apply lookup_partial_alter_eq. Qed.
Lemma lookup_key_ne key key' v (m : Fields) : key <> key' -> write_key key v m !! key' = m !! key'.
Proof. apply lookup_partial_alter_ne. Qed.

Lemma comma_not_digit z : (0 <= z)%Z -> ","%char ∉ chars (pretty z).
Proof.
  intros Hz Hin. destruct (pretty_digits z Hz) as (ds & Hd & _). apply list_elem_of_lookup in Hin as [i Hi].
  destruct (Forall2_lookup_l _ _ _ _ _ Hd Hi) as (d & _ & E). vm_compute in E. discriminate E.
Qed.

Lemma parse_ports_written l :
  l <> [] -> Forall (fun z => (0 <= z < 65536)%Z) l -> parse_ports (text_of (join "," ((fun z => chars (pretty z)) <$> l))) = Some l.
Proof.
  intros Hne Hl. unfold parse_ports. rewrite chars_text, split_join.
  - apply mapM_Some. clear Hne. induction Hl as [|z l Hz _ IH]; csimpl; constructor; [|done].
    by rewrite text_chars, parse_u16_pretty.
  - by destruct l.
  - apply Forall_fmap. eapply Forall_impl; [exact Hl|]. intros z [Hz _]. by apply comma_not_digit.
Qed.

Lemma section_ports_written key l (m : Fields) :
  m !! key = write_ports l -> Forall (fun z => (0 <= z < 65536)%Z) l -> section_ports m key = Some l.
Proof.
  intros Hm Hl. unfold section_ports, get_flatten. rewrite Hm. unfold write_ports.
  destruct l as [|z l]; [done|]. by apply parse_ports_written.
Qed.

Lemma parse_peer_written p : valid_peer p -> parse_peer (peer_id p) (write_peer p) = Some p.
Proof.
  intros (Hip & Hk & Hports & Hprio). rewrite !Forall_app in Hports. destruct Hports as (Hu & Ht & Hs).
  assert (write_peer p !! "server_ip" = Some (Some (ip_to_string (server_ip p)))
    /\ write_peer p !! "server_public_key" = Some (Some (encode (peer_key (server_public_key p))))
    /\ write_peer p !! "udp_ports" = write_ports (udp_ports p) /\ write_peer p !! "tcp_ports" = write_ports (tcp_ports p)
    /\ write_peer p !! "tls_ports" = write_ports (tls_ports p) /\ write_peer p !! "priority" = Some (Some (pretty (priority p)))
    /\ write_peer p !! "exit_label" = Some <$> peer_exit_label p) as (Li & Lk & Lu & Lt & Ls & Lp & Ll)
    by (unfold write_peer; split_and!; rewrite ?lookup_key_ne by done; apply lookup_key).
  unfold parse_peer. rewrite (section_ports_written _ _ _ Lu Hu), (section_ports_written _ _ _ Lt Ht),
    (section_ports_written _ _ _ Ls Hs). unfold section_priority, index_unwrap, get_flatten.
  rewrite Lp, Li, Lk, Ll, parse_i32_pretty by done. simpl. rewrite from_str_to_string by done. simpl.
  unfold wg_peer_public_key_from_b64, to_key. rewrite decode_encode by done. simpl. rewrite bool_decide_eq_true_2 by done. simpl.
  destruct p as [? ? [] ? ? ? ? []]; done.
Qed.

Lemma mode_written ua av tun :
  parse_mode (write_mode ua av tun) = Some (LocalAgent ua av LocalAgentSettings_default)
  /\ get_flatten (write_mode ua av tun) "tun_interface_name" = tun.
Proof.
  assert (write_mode ua av tun !! "with_local_agent" = Some (Some "true") /\ write_mode ua av tun !! "user_agent" = Some (Some ua)
    /\ write_mode ua av tun !! "app_version" = Some (Some av) /\ write_mode ua av tun !! "tun_interface_name" = Some <$> tun)
    as (La & Lu & Lv & Lt) by (unfold write_mode; split_and!; rewrite ?lookup_key_ne by done; apply lookup_key).
  unfold parse_mode, index_unwrap, get_flatten. rewrite La, Lu, Lv, Lt. split; [done|]. by destruct tun.
Qed.

Lemma config_lookup ps ua av tun fork name :
  NoDup (peer_id <$> ps) ->
  forall fields, write_config ps ua av tun fork !! ("peer." +:+ name) = Some fields <->
    exists p, p ∈ ps /\ peer_id p = name /\ fields = write_peer p.
Proof.
  intros Hn fields. unfold write_config. rewrite lookup_insert_ne, lookup_partial_alter_ne by done.
  rewrite <- elem_of_list_to_map.
  - rewrite list_elem_of_fmap. unfold peer_entry. split.
    + intros (p & [= E ->] & Hp). exists p. by split_and!.
    + intros (p & Hp & <- & ->). by exists p.
  - assert ((peer_entry <$> ps).*1 = String.append "peer." <$> (peer_id <$> ps)) as ->
      by (rewrite <- !list_fmap_compose; done).
    apply NoDup_fmap_2; [|done]. intros a b E. by injection E.
Qed.

(** C30.  A configuration that is written in the documented format is read back:
    the same peers, whatever the order of iteration, the mode, the name of the
    interface and the account. *)
Theorem config_roundtrip (load : string -> option Ini) (iter : Ini -> list (string * Fields)) (path : string)
    (ps : list PeerInfo) (user_agent app_version : string) (tun : option string) (fork : option (string * string)) :
  let ini := write_config ps user_agent app_version tun fork in
  load path = Some ini -> iter ini ≡ₚ map_to_list ini -> Forall valid_peer ps -> NoDup (peer_id <$> ps) ->
  exists ps', ps' ≡ₚ ps
    /\ parse_ini_config load iter path =
       Some (Ok ({| initial_connection_config :=
                      {| cfg_peers := ps'; cfg_network_available := true; cfg_pcap_file := None;
                         cfg_connection_mode := LocalAgent user_agent app_version LocalAgentSettings_default |};
                    tun_interface_name := tun |},
                 (fun f => {| username := f.1; password := f.2; fork_app_version := app_version |}) <$> fork)).
Proof.
  intros ini Hl Hi Hv Hn. unfold parse_ini_config. rewrite Hl. simpl.
  assert (Hin : forall name fields, (name, fields) ∈ iter ini <-> ini !! name = Some fields)
    by (intros; by rewrite Hi, elem_of_map_to_list).
  assert (Hparse : forall p, p ∈ ps -> parse_peer (peer_id p) (write_peer p) = Some p)
    by (intros p Hp; apply parse_peer_written; rewrite Forall_forall in Hv; auto).
  destruct (parse_ini_peers (iter ini)) as [ps'|] eqn:Ep; simpl.
  2: { exfalso. rewrite parse_ini_peers_spec in Ep. apply mapM_id_None, list_elem_of_omap in Ep as ([name fields] & Hs & E).
       unfold section_peer in E. simpl in E. destruct (peer_section name) as [id|] eqn:Es; simplify_eq/=.
       apply peer_section_spec in Es as ->. apply Hin, config_lookup in Hs as (p & Hp & <- & ->); [|done].
       rewrite Hparse in E; done. }
  exists ps'. destruct (parse_ini_peers_ids _ _ Ep) as [Hp Hids]. split.
  - apply NoDup_Permutation.
    + apply (NoDup_fmap_1 peer_id). rewrite Hids. by apply (section_names_NoDup ini).
    + by apply (NoDup_fmap_1 peer_id).
    + intros p. rewrite Hp. split.
      * intros (fields & Hf & E). apply Hin, config_lookup in Hf as (q & Hq & Hid & ->); [|done].
        rewrite <- Hid, Hparse in E by done. congruence.
      * intros Hps. exists (write_peer p). split; [|by apply Hparse]. apply Hin, config_lookup; [done|]. by exists p.
  - assert (ini !! "mode" = Some (write_mode user_agent app_version tun)) as -> by apply lookup_insert_eq. simpl.
    destruct (mode_written user_agent app_version tun) as [-> ->]. simpl.
    assert (ini !! "fork" = write_fork <$> fork) as ->
      by (unfold ini, write_config; rewrite lookup_insert_ne by done; apply lookup_partial_alter_eq).
    destruct fork as [[u pw]|]; simpl; [|done]. unfold index_unwrap, write_fork.
    by rewrite lookup_key, lookup_key_ne, lookup_key.
Qed.
End parser.

(** ** A configuration *)

(** A coding of bytes by two letters each, in place of base64. *)
Definition letter (n : N) : ascii := ascii_of_N (65 + n).
Definition letters (b : byte) : list ascii := [letter (Byte.to_N b / 16); letter (Byte.to_N b mod 16)].
Definition toy_encode (k : list byte) : string := text_of (concat (letters <$> k)).
Fixpoint toy_decode_chars (l : list ascii) : option (list byte) :=
  match l with
  | [] => Some []
  | a :: b :: l =>
      x ← Byte.of_N (16 * (N_of_ascii a - 65) + (N_of_ascii b - 65));
      k ← toy_decode_chars l;
      Some (x :: k)
  | _ => None
  end.
Definition toy_decode (s : string) : option (list byte) := toy_decode_chars (chars s).

Lemma toy_decode_encode k : toy_decode (trimmed (toy_encode k)) = Some k.
Proof.
  unfold trimmed, toy_encode. rewrite chars_text, trim_id.
  - unfold toy_decode. rewrite chars_text. induction k as [|b k IH]; [reflexivity|]. cbn [fmap list_fmap concat letters app toy_decode_chars].
    rewrite IH. destruct b; reflexivity.
  - induction k as [|b k IH]; [constructor|]. cbn [fmap list_fmap concat]. apply Forall_app. split; [|exact IH].
    destruct b; repeat constructor.
Defined.

Definition written_peer (id : string) (ip prio : Z) : PeerInfo :=
  {| peer_id := id; server_ip := V4 ip; server_public_key := {| peer_key := replicate 32 Byte.x41 |};
     udp_ports := [51820; 443]%Z; tcp_ports := [443; 80]%Z; tls_ports := []; priority := prio;
     peer_exit_label := Some "1"%string |}.

Definition written_ini : Ini :=
  write_config toy_encode [written_peer "server1" 16909060 0; written_peer "server2" 84281096 (-1)] "ProtonVPN/1.0" "1.0.0"
    (Some "protun0"%string) (Some ("user", "secret")%string).

Lemma written_valid id ip prio : (0 <= ip < 2 ^ 32)%Z -> (- 2 ^ 31 <= prio < 2 ^ 31)%Z -> valid_peer (written_peer id ip prio).
Proof. intros Hip Hp. split; [exact Hip|]. split; [reflexivity|]. split; [repeat constructor; lia|exact Hp]. Defined.

Lemma config_roundtrip_witness :
  exists ps', ps' ≡ₚ [written_peer "server1" 16909060 0; written_peer "server2" 84281096 (-1)]
    /\ exists c, parse_ini_config toy_decode (fun _ => Some written_ini) map_to_list "./config.ini" = Some (Ok c)
       /\ cfg_peers (initial_connection_config c.1) = ps'.
Proof.
  destruct (config_roundtrip toy_decode toy_encode (fun k _ => toy_decode_encode k) (fun _ => Some written_ini) map_to_list
    "./config.ini" [written_peer "server1" 16909060 0; written_peer "server2" 84281096 (-1)] "ProtonVPN/1.0" "1.0.0"
    (Some "protun0"%string) (Some ("user", "secret")%string)) as (ps' & Hp & E).
  - reflexivity.
  - reflexivity.
  - do 2 (apply List.Forall_cons; [apply written_valid; lia|]). apply List.Forall_nil.
  - apply (bool_decide_unpack _). vm_compute. exact I.
  - exists ps'. split; [exact Hp|]. eexists. split; [exact E|reflexivity].
Defined.

Lemma ini_config_parsed_witness :
  exists c fork, parse_ini_config toy_decode (fun _ => Some written_ini) map_to_list "./config.ini" = Some (Ok (c, fork))
    /\ NoDup (peer_id <$> cfg_peers (initial_connection_config c)) /\ is_Some fork.
Proof.
  pose proof (ini_config_parsed toy_decode (fun _ => Some written_ini) map_to_list "./config.ini" written_ini eq_refl (reflexivity _)) as H.
  assert (Hok : match parse_ini_config toy_decode (fun _ => Some written_ini) map_to_list "./config.ini" with
                | Some (Ok (_, Some _)) => true | _ => false end = true) by (vm_compute; reflexivity).
  destruct (parse_ini_config _ _ _ _) as [[[c [f|]]|e]|]; try discriminate Hok. destruct H as (_ & Hn & _).
  exists c, (Some f). split; [reflexivity|]. split; [exact Hn|]. by eexists.
Defined.

(** A section without a priority panics, although a default is written in the
    code, which applies to a key without a value; so does a space after a comma. *)
Example priority_required :
  parse_peer toy_decode "a" (delete "priority"%string (write_peer toy_encode (written_peer "a" 1 0))) = None
  /\ is_Some (parse_peer toy_decode "a" (<["priority"%string := None]> (write_peer toy_encode (written_peer "a" 1 0))))
  /\ parse_ports "443, 80" = None /\ parse_ports "" = None.
Proof. vm_compute. by eauto. Qed.
