(* ===== verification/SecretCache.v ===== *)
(** * The application's cache

    [PersistentCache] of [src/api/connection.rs], the interface through which a
    connection keeps its secrets from one run to the next: its methods, what an
    implementation promises, and what a client can conclude from that alone. *)

From S2P Require Import Prelude Types.

(** The secrets, the empty value being none. *)
Abbreviation Secrets := (CacheKey -> list byte).

Definition upd (key : CacheKey) (data : list byte) (m : Secrets) : Secrets :=
  fun k => if decide (k = key) then data else m k.

Definition secret (d : list byte) : option (list byte) := match d with [] => None | _ => Some d end.

(** The methods; an implementation may panic, and gives back its state also then. *)
Class PersistentCache (X : Type) := {
  cache_put : CacheKey -> list byte -> X -> outcome () * X;
  cache_get : CacheKey -> X -> outcome (option (list byte)) * X;
  cache_clear : X -> outcome () * X;
}.

(** A cache that keeps its promise: it [holds] a value per key, and its methods
    return and act on these values. *)
Class CacheLaws (X : Type) `{PersistentCache X} := {
  holds : X -> Secrets -> Prop;
  holds_ext x m m' : holds x m -> (forall k, m k = m' k) -> holds x m';
  holds_put key data x m : holds x m -> exists x', cache_put key data x = (Ret (), x') /\ holds x' (upd key data m);
  holds_get key x m : holds x m -> exists x', cache_get key x = (Ret (secret (m key)), x') /\ holds x' m;
  holds_clear x m : holds x m -> exists x', cache_clear x = (Ret (), x') /\ holds x' (fun _ => []);
}.

Section client.
Context {X : Type} `{PersistentCache X}.

(** What a connection is answered when it reads its secrets. *)
Definition cache_answers (x : X) (key : CacheKey) : option (list byte) :=
  match (cache_get key x).1 with Ret r => r | _ => None end.

(** The connection's writes, as they are made. *)
Fixpoint put_secrets (l : list (CacheKey * list byte)) (x : X) : outcome X :=
  match l with
  | [] => Ret x
  | (key, data) :: l =>
      match cache_put key data x with
      | (Ret _, x) => put_secrets l x
      | (Panic, _) => Panic
      | (NoFuel, _) => NoFuel
      end
  end.

(** The last value written for a key, [d] if there is none. *)
Definition last_secret (l : list (CacheKey * list byte)) (key : CacheKey) (d : list byte) : list byte :=
  foldl (fun acc e => if decide (e.1 = key) then e.2 else acc) d l.

Context {laws : CacheLaws X}.

Lemma put_secrets_holds l x m :
  holds x m -> exists x', put_secrets l x = Ret x' /\ holds x' (fun k => last_secret l k (m k)).
Proof.
  revert x m. induction l as [|[key data] l IH]; intros x m Hx; simpl; [by exists x|].
  destruct (holds_put key data x m Hx) as (x1 & -> & H1). destruct (IH x1 _ H1) as (x' & E & H'). exists x'.
  split; [done|]. eapply holds_ext; [exact H'|]. intros k. unfold last_secret, upd. simpl.
  f_equal. repeat case_decide; by subst.
Qed.

Lemma holds_answers x m key : holds x m -> cache_answers x key = secret (m key).
Proof. intros Hx. destruct (holds_get key x m Hx) as (x' & E & _). unfold cache_answers. by rewrite E. Qed.
End client.
