(* ===== verification/BlobCache.v ===== *)
(** * The sample program's cache

    [src/example/binary_blob_file.rs], a file that holds one value, and the
    [PersistentCache] of [src/example/sample.rs] with a file per secret, over the
    files of [Pcap.v].  A lock is poisoned by a panic while it is held; the
    operations therefore give back their state also when they panic. *)

From S2P Require Import Prelude Types Pcap SecretCache.

(** ** Files that are read and rewritten *)

Definition set_pos (pos : nat) (f : File) : File := {| f_key := f_key f; f_pos := pos; f_append := f_append f |}.

(** [seek(SeekFrom::Start(pos))]. *)
Definition file_seek (pos : nat) (f : File) (w : World) : io_result () * (File * World) :=
  match fallible (fun w => ((), w)) w with
  | (Ok _, w) => (Ok (), (set_pos pos f, w))
  | (Err e, w) => (Err e, (f, w))
  end.

(** [set_len(0)]: the position stays. *)
Definition file_truncate (f : File) (w : World) : io_result () * (File * World) :=
  let '(r, w) := fallible (fun w => ((), set_contents (f_key f) [] w)) w in (r, (f, w)).

(** [read_to_end]: from the position to the end of the file. *)
Definition file_read_to_end (f : File) (w : World) : io_result (list byte) * (File * World) :=
  match fallible (fun w => (drop (f_pos f) (contents (f_key f) w), w)) w with
  | (Ok buf, w) => (Ok buf, (set_pos (Nat.max (f_pos f) (length (contents (f_key f) w))) f, w))
  | (Err e, w) => (Err e, (f, w))
  end.

(** ** BinaryBlobFile *)

Definition BinaryBlobFile_new (path : string) (w : World) : outcome File * World :=
  match create_parent path w with
  | (Err _, w) => (Panic, w)
  | (Ok _, w) =>
      match file_open path false w with
      | (Err _, w) => (Panic, w)
      | (Ok f, w) => (Ret f, w)
      end
  end.

Definition blob_clear (f : File) (w : World) : io_result () * (File * World) :=
  match file_truncate f w with
  | (Err e, fw) => (Err e, fw)
  | (Ok _, (f, w)) => file_seek 0 f w
  end.

Definition blob_put (data : list byte) (f : File) (w : World) : io_result () * (File * World) :=
  match blob_clear f w with
  | (Err e, fw) => (Err e, fw)
  | (Ok _, (f, w)) => write_all data f w
  end.

Definition blob_get (f : File) (w : World) : io_result (option (list byte)) * (File * World) :=
  match file_seek 0 f w with
  | (Err e, fw) => (Err e, fw)
  | (Ok _, (f, w)) =>
      match file_read_to_end f w with
      | (Err e, fw) => (Err e, fw)
      | (Ok [], fw) => (Ok None, fw)
      | (Ok buf, fw) => (Ok (Some buf), fw)
      end
  end.

(** ** The cache *)

(** [RwLock<BinaryBlobFile>]. *)
Record Lock := { blob : File; poisoned : bool }.

Record Cache := { cert_stream : Lock; private_key_stream : Lock; api_session_stream : Lock }.

Definition Cache_new (cert_path key_path session_path : string) (w : World) : outcome Cache * World :=
  match BinaryBlobFile_new cert_path w with
  | (Ret cert, w) =>
      match BinaryBlobFile_new key_path w with
      | (Ret key, w) =>
          match BinaryBlobFile_new session_path w with
          | (Ret session, w) =>
              (Ret {| cert_stream := {| blob := cert; poisoned := false |};
                      private_key_stream := {| blob := key; poisoned := false |};
                      api_session_stream := {| blob := session; poisoned := false |} |}, w)
          | (_, w) => (Panic, w)
          end
      | (_, w) => (Panic, w)
      end
  | (_, w) => (Panic, w)
  end.

Definition stream_of (key : CacheKey) (c : Cache) : Lock :=
  match key with
  | Certificate => cert_stream c
  | PrivateKey => private_key_stream c
  | ApiSession => api_session_stream c
  end.

Definition set_stream (key : CacheKey) (l : Lock) (c : Cache) : Cache :=
  match key with
  | Certificate => {| cert_stream := l; private_key_stream := private_key_stream c; api_session_stream := api_session_stream c |}
  | PrivateKey => {| cert_stream := cert_stream c; private_key_stream := l; api_session_stream := api_session_stream c |}
  | ApiSession => {| cert_stream := cert_stream c; private_key_stream := private_key_stream c; api_session_stream := l |}
  end.

Abbreviation CacheState := (Cache * World)%type.

(** [let _ = stream.write().unwrap().op(..)]: the error of the operation is dropped. *)
Definition locked_do (key : CacheKey) (op : File -> World -> io_result () * (File * World)) (s : CacheState)
  : outcome () * CacheState :=
  let '(c, w) := s in
  let l := stream_of key c in
  if poisoned l then (Panic, s)
  else
    let '(_, (f, w)) := op (blob l) w in
    (Ret (), (set_stream key {| blob := f; poisoned := false |} c, w)).

Definition Cache_put (key : CacheKey) (data : list byte) : CacheState -> outcome () * CacheState :=
  locked_do key (blob_put data).

(** [stream.write().unwrap().get().unwrap()]: an error panics with the lock held. *)
Definition get_bytes (key : CacheKey) (s : CacheState) : outcome (option (list byte)) * CacheState :=
  let '(c, w) := s in
  let l := stream_of key c in
  if poisoned l then (Panic, s)
  else
    match blob_get (blob l) w with
    | (Ok r, (f, w)) => (Ret r, (set_stream key {| blob := f; poisoned := false |} c, w))
    | (Err _, (f, w)) => (Panic, (set_stream key {| blob := f; poisoned := true |} c, w))
    end.

Definition Cache_get (key : CacheKey) : CacheState -> outcome (option (list byte)) * CacheState := get_bytes key.

Definition Cache_clear (s : CacheState) : outcome () * CacheState :=
  match locked_do Certificate blob_clear s with
  | (Ret _, s) =>
      match locked_do PrivateKey blob_clear s with
      | (Ret _, s) => locked_do ApiSession blob_clear s
      | r => r
      end
  | r => r
  end.

(** [impl PersistentCache for Cache]. *)
#[global] Instance Cache_PersistentCache : PersistentCache CacheState :=
  {| cache_put := Cache_put; cache_get := Cache_get; cache_clear := Cache_clear |}.

(** ** What the cache promises *)

Inductive cache_op :=
| OpPut (key : CacheKey) (data : list byte)
| OpGet (key : CacheKey)
| OpClear.

(** The answer of an operation, [Some] for a value. *)
Definition cache_step (op : cache_op) (s : CacheState) : outcome (option (list byte)) * CacheState :=
  match op with
  | OpPut key data => let '(o, s) := Cache_put key data s in (match o with Ret _ => Ret None | Panic => Panic | NoFuel => NoFuel end, s)
  | OpGet key => Cache_get key s
  | OpClear => let '(o, s) := Cache_clear s in (match o with Ret _ => Ret None | Panic => Panic | NoFuel => NoFuel end, s)
  end.

Fixpoint cache_steps (ops : list cache_op) (s : CacheState) : list (outcome (option (list byte))) * CacheState :=
  match ops with
  | [] => ([], s)
  | op :: ops => let '(a, s) := cache_step op s in let '(l, s) := cache_steps ops s in (a :: l, s)
  end.

(** The specification: a value per key. *)
Definition spec_step (op : cache_op) (m : Secrets) : option (list byte) * Secrets :=
  match op with
  | OpPut key data => (None, upd key data m)
  | OpGet key => (secret (m key), m)
  | OpClear => (None, fun _ => [])
  end.

Fixpoint spec_steps (ops : list cache_op) (m : Secrets) : list (option (list byte)) * Secrets :=
  match ops with
  | [] => ([], m)
  | op :: ops => let '(a, m) := spec_step op m in let '(l, m) := spec_steps ops m in (a :: l, m)
  end.

(** The files of the cache are distinct, the system does not fail, and the
    contents are those of the map. *)
Record represents (paths : CacheKey -> string) (s : CacheState) (m : Secrets) : Prop := {
  rep_faults : w_faults s.2 = [] /\ w_writes s.2 = [];
  rep_locks : forall k, poisoned (stream_of k s.1) = false /\ f_append (blob (stream_of k s.1)) = false;
  rep_files : forall k, f_key (blob (stream_of k s.1)) = KPath (paths k);
  rep_contents : forall k, contents (KPath (paths k)) s.2 = m k;
}.

(** The effect of an operation on one file of a system that does not fail. *)
Definition file_effect (f : File) (w : World) (f' : File) (w' : World) (d : list byte) : Prop :=
  f_key f' = f_key f /\ f_append f' = f_append f /\ w_faults w' = [] /\ w_writes w' = []
  /\ contents (f_key f) w' = d /\ forall k, k <> f_key f -> contents k w' = contents k w.

Lemma contents_set_eq k c w : contents k (set_contents k c w) = c.
Proof. unfold contents. simpl. by rewrite lookup_insert_eq. Qed.
Lemma contents_set_ne k k' c w : k' <> k -> contents k' (set_contents k c w) = contents k' w.
Proof. intros H. unfold contents. simpl. by rewrite lookup_insert_ne. Qed.

Lemma fallible_ok {A} (op : World -> A * World) w :
  w_faults w = [] -> fallible op w = let '(a, w') := op w in (Ok a, w').
Proof. intros H. unfold fallible. rewrite H. destruct w. simpl in H. by subst. Qed.

Lemma blob_clear_effect f w :
  w_faults w = [] -> w_writes w = [] ->
  exists f' w', blob_clear f w = (Ok (), (f', w')) /\ f_pos f' = 0 /\ file_effect f w f' w' [].
Proof.
  intros Hf Hw. unfold blob_clear, file_truncate. rewrite fallible_ok by done. unfold file_seek.
  rewrite fallible_ok by done. eexists _, _. split; [done|]. split; [done|].
  split_and!; try done; [apply contents_set_eq|intros; by apply contents_set_ne].
Qed.

Lemma write_at_start (d : list byte) : write_at 0 d [] = d.
Proof. unfold write_at. simpl. by rewrite drop_nil, app_nil_r. Qed.

Lemma blob_put_effect d f w :
  f_append f = false -> w_faults w = [] -> w_writes w = [] ->
  exists f' w', blob_put d f w = (Ok (), (f', w')) /\ file_effect f w f' w' d.
Proof.
  intros Ha Hf Hw. unfold blob_put. destruct (blob_clear_effect f w Hf Hw) as (f1 & w1 & -> & Hp & Hk & Ha1 & Hf1 & Hw1 & Hc & Ho).
  unfold write_all. rewrite Hw1, Ha1, Ha, Hp, Hk, Hc, write_at_start. eexists _, _. split; [done|].
  split_and!; try done; simpl.
  - unfold contents. simpl. by rewrite lookup_insert_eq.
  - intros k Hne. rewrite <- (Ho k Hne). unfold contents. simpl. by rewrite lookup_insert_ne.
Qed.

Lemma blob_get_effect f w :
  w_faults w = [] -> w_writes w = [] ->
  exists f' w', blob_get f w = (Ok (secret (contents (f_key f) w)), (f', w'))
    /\ file_effect f w f' w' (contents (f_key f) w).
Proof.
  intros Hf Hw. unfold blob_get, file_seek. rewrite fallible_ok by done. unfold file_read_to_end.
  rewrite fallible_ok by done. cbn [f_pos set_pos f_key]. rewrite drop_0.
  destruct (contents (f_key f) w) as [|b d] eqn:E; eexists _, _; (split; [done|]); by split_and!.
Qed.

Lemma stream_set_eq k l c : stream_of k (set_stream k l c) = l.
Proof. by destruct k. Qed.
Lemma stream_set_ne k k' l c : k' <> k -> stream_of k' (set_stream k l c) = stream_of k' c.
Proof. by destruct k, k'. Qed.

Section refinement.
Context (paths : CacheKey -> string) (paths_inj : forall k k', paths k = paths k' -> k = k').
Abbreviation represents := (represents paths).

Lemma represents_update key c w f' w' d m :
  represents (c, w) m -> file_effect (blob (stream_of key c)) w f' w' d ->
  represents (set_stream key {| blob := f'; poisoned := false |} c, w') (upd key d m).
Proof.
  intros [[Hf Hw] Hl Hk Hc] (Ek & Ea & Ef & Ew & Ec & Eo). simpl in *. rewrite Hk in *. split; simpl.
  - done.
  - intros k. destruct (decide (k = key)) as [->|Hne].
    + rewrite stream_set_eq. simpl. split; [done|]. rewrite Ea. apply Hl.
    + rewrite stream_set_ne by done. apply Hl.
  - intros k. destruct (decide (k = key)) as [->|Hne]; [by rewrite stream_set_eq|by rewrite stream_set_ne].
  - intros k. unfold upd. case_decide as Hd; [by subst|]. rewrite Eo; [apply Hc|]. intros [= E]. by apply Hd, paths_inj.
Qed.

Lemma represents_ext s m m' : represents s m -> (forall k, m k = m' k) -> represents s m'.
Proof. intros [Hf Hl Hk Hc] He. split; [done..|]. intros k. by rewrite <- He. Qed.

Lemma locked_do_ok key op d c w m f' w' r :
  represents (c, w) m -> op (blob (stream_of key c)) w = (r, (f', w')) ->
  file_effect (blob (stream_of key c)) w f' w' d ->
  exists s', locked_do key op (c, w) = (Ret (), s') /\ represents s' (upd key d m).
Proof.
  intros Hr E He. unfold locked_do. destruct (rep_locks _ _ _ Hr key) as [Hp _]. simpl in Hp. rewrite Hp, E.
  eexists. split; [done|]. by apply represents_update with w.
Qed.

Lemma clear_ok key s m :
  represents s m -> exists s', locked_do key blob_clear s = (Ret (), s') /\ represents s' (upd key [] m).
Proof.
  destruct s as [c w]. intros Hr. pose proof (rep_faults _ _ _ Hr) as [Hf Hw].
  destruct (blob_clear_effect (blob (stream_of key c)) w Hf Hw) as (f' & w' & E & _ & He). by eapply locked_do_ok.
Qed.

Lemma cache_step_refines op s m :
  represents s m ->
  exists s', cache_step op s = (Ret (spec_step op m).1, s') /\ represents s' (spec_step op m).2.
Proof.
  intros Hr. destruct op as [key data|key|]; simpl.
  - destruct s as [c w]. pose proof (rep_faults _ _ _ Hr) as [Hf Hw]. destruct (rep_locks _ _ _ Hr key) as [_ Ha].
    destruct (blob_put_effect data (blob (stream_of key c)) w Ha Hf Hw) as (f' & w' & E & He).
    destruct (locked_do_ok _ _ _ _ _ _ _ _ _ Hr E He) as (s' & Es & Hs). unfold Cache_put. rewrite Es. by exists s'.
  - destruct s as [c w]. pose proof (rep_faults _ _ _ Hr) as [Hf Hw]. destruct (rep_locks _ _ _ Hr key) as [Hp _].
    destruct (blob_get_effect (blob (stream_of key c)) w Hf Hw) as (f' & w' & E & He).
    pose proof (rep_contents _ _ _ Hr key) as Hc. pose proof (rep_files _ _ _ Hr key) as Hk. simpl in Hc, Hk, Hp.
    rewrite Hk, Hc in E, He.
    unfold Cache_get, get_bytes. rewrite Hp, E. eexists. split; [done|].
    eapply represents_ext; [by eapply represents_update|]. intros k. unfold upd. case_decide; by subst.
  - destruct (clear_ok Certificate s m Hr) as (s1 & E1 & H1).
    destruct (clear_ok PrivateKey s1 _ H1) as (s2 & E2 & H2). destruct (clear_ok ApiSession s2 _ H2) as (s3 & E3 & H3).
    unfold Cache_clear. rewrite E1, E2, E3. eexists. split; [done|].
    eapply represents_ext; [exact H3|]. intros []; done.
Qed.

(** The promise of the interface. *)
Definition Cache_laws : CacheLaws CacheState.
Proof.
  refine {| holds := represents; holds_ext := represents_ext |}.
  - intros key data s m Hr. destruct (cache_step_refines (OpPut key data) s m Hr) as (s' & E & H'). exists s'. simpl in *.
    destruct (Cache_put key data s) as [[[]| |] s1]; try done. by injection E as <-.
  - intros key s m Hr. exact (cache_step_refines (OpGet key) s m Hr).
  - intros s m Hr. destruct (cache_step_refines OpClear s m Hr) as (s' & E & H'). exists s'. simpl in *.
    destruct (Cache_clear s) as [[[]| |] s1]; try done. by injection E as <-.
Defined.

Lemma cache_steps_refine ops s m :
  represents s m ->
  exists s', cache_steps ops s = (Ret <$> (spec_steps ops m).1, s') /\ represents s' (spec_steps ops m).2.
Proof.
  revert s m. induction ops as [|op ops IH]; intros s m Hr; simpl; [by exists s|].
  destruct (cache_step_refines op s m Hr) as (s1 & -> & H1). destruct (spec_step op m) as [a m1]. simpl in H1 |- *.
  destruct (IH s1 m1 H1) as (s2 & -> & H2). destruct (spec_steps ops m1) as [l m2]. by exists s2.
Qed.

Lemma blob_new_ok path w :
  w_faults w = [] -> w_writes w = [] ->
  exists w', BinaryBlobFile_new path w = (Ret {| f_key := KPath path; f_pos := 0; f_append := false |}, w')
    /\ w_faults w' = [] /\ w_writes w' = [] /\ forall k, contents k w' = contents k w.
Proof.
  intros Hf Hw. unfold BinaryBlobFile_new, create_parent, file_open. rewrite fallible_ok by done. rewrite fallible_ok by done.
  eexists. split; [done|]. split_and!; try done. intros k. destruct (decide (k = KPath path)) as [->|Hk].
  - apply contents_set_eq.
  - by apply contents_set_ne.
Qed.

(** The secrets the files hold. *)
Definition stored (w : World) : Secrets := fun k => contents (KPath (paths k)) w.

Lemma cache_new_represents w :
  w_faults w = [] -> w_writes w = [] ->
  exists c w', Cache_new (paths Certificate) (paths PrivateKey) (paths ApiSession) w = (Ret c, w')
    /\ represents (c, w') (stored w).
Proof.
  intros Hf Hw. unfold Cache_new.
  destruct (blob_new_ok (paths Certificate) w Hf Hw) as (w1 & -> & Hf1 & Hw1 & H1).
  destruct (blob_new_ok (paths PrivateKey) w1 Hf1 Hw1) as (w2 & -> & Hf2 & Hw2 & H2).
  destruct (blob_new_ok (paths ApiSession) w2 Hf2 Hw2) as (w3 & -> & Hf3 & Hw3 & H3). eexists _, _. split; [done|].
  split; simpl; [done|by intros []|by intros []|]. intros k. unfold stored. by rewrite H3, H2, H1.
Qed.
End refinement.

(** C29.  The sample's cache is a map: on files that do not fail, and for distinct
    paths, it can always be opened, no operation panics, and any sequence of puts,
    gets and clears is answered as by a map from keys to values that starts with
    what the files held, an empty value being the same as none; the files end up
    with the map's values. *)
Theorem cache_refines_map (paths : CacheKey -> string) (w : World) (ops : list cache_op) :
  w_faults w = [] -> w_writes w = [] -> (forall k k', paths k = paths k' -> k = k') ->
  exists c w1 s', Cache_new (paths Certificate) (paths PrivateKey) (paths ApiSession) w = (Ret c, w1)
    /\ let '(answers, m) := spec_steps ops (stored paths w) in
       cache_steps ops (c, w1) = (Ret <$> answers, s') /\ forall k, stored paths s'.2 k = m k.
Proof.
  intros Hf Hw Hp. destruct (cache_new_represents paths w Hf Hw) as (c & w1 & E & Hr).
  destruct (cache_steps_refine paths Hp ops _ _ Hr) as (s' & Es & Hr'). exists c, w1, s'. split; [done|].
  destruct (spec_steps ops _) as [answers m]. split; [done|]. intros k. apply (rep_contents _ _ _ Hr').
Qed.

(** The paths of the sample program. *)
Definition sample_paths (k : CacheKey) : string :=
  match k with
  | Certificate => "./protun_cert"
  | PrivateKey => "./protun_privatekey"
  | ApiSession => "./protun_muon"
  end.

Lemma sample_paths_inj k k' : sample_paths k = sample_paths k' -> k = k'.
Proof. by destruct k, k'. Qed.

Definition blank_world : World := {| w_files := ∅; w_fds := ∅; w_faults := []; w_writes := [] |}.
Definition demo_ops : list cache_op :=
  [OpGet PrivateKey; OpPut PrivateKey [Byte.x01; Byte.x02; Byte.x03]; OpPut Certificate [Byte.x09]; OpPut PrivateKey [Byte.x04];
   OpGet PrivateKey; OpGet Certificate; OpClear; OpGet PrivateKey].

Lemma cache_refines_map_witness :
  exists c w1 s', Cache_new "./protun_cert" "./protun_privatekey" "./protun_muon" blank_world = (Ret c, w1)
    /\ cache_steps demo_ops (c, w1)
       = (Ret <$> [None; None; None; None; Some [Byte.x04]; Some [Byte.x09]; None; None], s').
Proof.
  destruct (cache_refines_map sample_paths blank_world demo_ops eq_refl eq_refl sample_paths_inj) as (c & w1 & s' & E & H).
  exists c, w1, s'. split; [exact E|]. exact (proj1 H).
Defined.

(** Two ways in which a failing system shows.  A write that fails part of the way
    is not reported, and the beginning of the secret is what is read later.  And a
    read that fails panics and poisons the lock of its key, so that from then on
    every operation on the key panics. *)
Example failed_put_truncates :
  match Cache_new "./protun_cert" "./protun_privatekey" "./protun_muon"
          {| w_files := ∅; w_fds := ∅; w_faults := []; w_writes := [Some 1] |} with
  | (Ret c, w) => (cache_steps [OpPut PrivateKey [Byte.x01; Byte.x02]; OpGet PrivateKey] (c, w)).1
  | _ => []
  end = [Ret None; Ret (Some [Byte.x01])].
Proof. vm_compute. reflexivity. Qed.

Lemma failed_get_poisons key c w e rest ops :
  poisoned (stream_of key c) = false -> w_faults w = Some e :: rest ->
  Forall (fun op => match op with OpPut k _ | OpGet k => k = key | OpClear => key = Certificate end) ops ->
  let '(answers, s') := cache_steps (OpGet key :: ops) (c, w) in
  Forall (fun a => a = Panic) answers /\ length answers = S (length ops) /\ poisoned (stream_of key s'.1) = true.
Proof.
  intros Hp Hf Hops. simpl. rewrite Hp. unfold blob_get, file_seek, fallible. rewrite Hf. simpl.
  set (s := (set_stream key _ c, _)). assert (poisoned (stream_of key s.1) = true) as Hs by (simpl; by rewrite stream_set_eq).
  assert (forall ops, Forall (fun op => match op with OpPut k _ | OpGet k => k = key | OpClear => key = Certificate end) ops ->
    cache_steps ops s = (replicate (length ops) Panic, s)) as Hall.
  { clear Hops ops. induction ops as [|op ops IH]; intros Ho; [done|]. apply Forall_cons in Ho as [Hop Ho]. simpl.
    assert (cache_step op s = (Panic, s)) as ->; [|by rewrite IH].
    destruct s as [c1 w1]. simpl in Hs. destruct op as [k d|k|]; simpl; subst; unfold Cache_put, Cache_clear, locked_do;
      simpl in *; by rewrite Hs. }
  rewrite Hall by done. simpl. rewrite length_replicate. split; [|done]. constructor; [done|]. by apply Forall_replicate.
Qed.
