(* ===== verification/ForkSelector.v ===== *)
(** * Session fork selectors

    [src/api/test_utils/muon_test_auth.rs]: signing in with the [muon] crate to
    get a fork selector, with the cookies of the session captured on the way.  The
    crate is an interface: a call of it is a computation that sets and reads
    cookies through the store it was given and then answers.  The futures are run
    to their ends one after the other ([block_on], [await]), so that a call is its
    computation. *)

From S2P Require Import Prelude Types Net IpParse Text Clocks.

(** ** The capabilities given to the crate *)

Section time.
Context {O : Type} `{InstantSource O, SystemTimeSource O}.

Record TimeCapability := { at_start : Z }.

Definition TimeCapability_default (o : O) : TimeCapability * O :=
  let '(t, o) := instant_now o in ({| at_start := t |}, o).

(** [Instant::now() - self.at_start], which saturates at zero. *)
Definition TimeCapability_instant (k : TimeCapability) (o : O) : Duration * O :=
  let '(t, o) := instant_now o in (Z.max 0 (t - at_start k), o).

(** [SystemTime::now().duration_since(UNIX_EPOCH).expect(..)]. *)
Definition TimeCapability_system (o : O) : outcome (Duration * O) :=
  let '(t, o) := system_time_now o in if (t <? 0)%Z then Panic else Ret (t, o).

(** The [Monotonic] marker: the instants given out never go back. *)
Lemma capability_monotonic `{!InstantLaws O} (k : TimeCapability) (o : O) :
  let '(t1, o1) := TimeCapability_instant k o in (t1 <= (TimeCapability_instant k o1).1)%Z.
Proof.
  unfold TimeCapability_instant. destruct (instant_now o) as [t1 o1] eqn:E1. destruct (instant_now o1) as [t2 o2] eqn:E2.
  apply instant_monotonic in E1 as [_ E1], E2 as [E2 _]. simpl. lia.
Qed.
End time.

(** [MyResolver]: the addresses [lookup_host] finds for the host at port 80. *)
Definition resolve (lookup_host : string -> io_result (list SocketAddr)) (host : string) : io_result (list IpAddr) :=
  result_bind (lookup_host (host +:+ ":80")) (fun addresses => Ok (sa_ip <$> addresses)).

(** ** The cookie store *)

Record MuonCookieStore := { store_cookies : list Cookie }.

(** [MuonCookieStore::new]: the vector is shared with the caller, who reads it at
    the end; the store is therefore threaded through the calls. *)
Definition MuonCookieStore_new (cookies : list Cookie) : MuonCookieStore := {| store_cookies := cookies |}.

(** A cookie whose name is already there, in whatever case, is not stored. *)
Definition cookie_set (cookie : Cookie) (s : MuonCookieStore) : MuonCookieStore :=
  if forallb (fun c => negb (eq_ignore_ascii_case (cookie_name c) (cookie_name cookie))) (store_cookies s)
  then {| store_cookies := store_cookies s ++ [cookie] |}
  else s.

Definition cookie_get (s : MuonCookieStore) : list Cookie := store_cookies s.

(** A computation of the crate. *)
Inductive muon (A : Type) : Type :=
| MDone (a : A)
| MSet (cookie : Cookie) (k : muon A)
| MGet (k : list Cookie -> muon A).
Arguments MDone {A} a.
Arguments MSet {A} cookie k.
Arguments MGet {A} k.

Fixpoint run_muon {A} (p : muon A) (s : MuonCookieStore) : A * MuonCookieStore :=
  match p with
  | MDone a => (a, s)
  | MSet cookie k => run_muon k (cookie_set cookie s)
  | MGet k => run_muon (k (cookie_get s)) s
  end.

(** The cookies a computation sets. *)
Fixpoint cookies_set {A} (p : muon A) (s : MuonCookieStore) : list Cookie :=
  match p with
  | MDone _ => []
  | MSet cookie k => cookie :: cookies_set k (cookie_set cookie s)
  | MGet k => cookies_set (k (cookie_get s)) s
  end.

(** ** Signing in *)

Inductive LoginFlow (Session : Type) :=
| LoginOk (session : Session)
| TwoFactor
| LoginFailed (reason : string).
Arguments LoginOk {Session} session.
Arguments TwoFactor {Session}.
Arguments LoginFailed {Session} reason.

Class Muon (App Session : Type) := {
  App_new : string -> option App;
  (** [Client::builder(..).build()] and [new_session_without_credentials]. *)
  new_session : App -> muon (option Session);
  login : string -> string -> Session -> muon (LoginFlow Session);
  (** [pvpnclient::util::fork_muon_session]. *)
  fork_muon_session : Session -> App -> muon (option string);
}.

Section selector.
Context {App Session : Type} `{Muon App Session}.

Definition get_session_fork_selector_async (app user pass : string) : outcome ForkSelectorInfo :=
  match App_new app with
  | None => Panic
  | Some app =>
      match run_muon (new_session app) (MuonCookieStore_new []) with
      | (None, _) => Panic
      | (Some session, captured) =>
          match run_muon (login user pass session) captured with
          | (TwoFactor, _) => Panic
          | (LoginFailed _, _) => Panic
          | (LoginOk session, captured) =>
              match run_muon (fork_muon_session session app) captured with
              | (None, _) => Panic
              | (Some sel, captured) =>
                  Ret {| selector := sel;
                         cookies := {| items := (fun c => {| cookie_name := cookie_name c; cookie_value := cookie_value c |})
                                                <$> store_cookies captured |} |}
              end
          end
      end
  end.

(** [runtime.block_on(..)]; [runtime] is whether the runtime could be built. *)
Definition get_session_fork_selector (runtime : bool) (app user pass : string) : outcome ForkSelectorInfo :=
  if runtime then get_session_fork_selector_async app user pass else Panic.

(** ** What is captured *)

Definition lower (s : string) : list Ascii.ascii := to_ascii_lowercase <$> chars s.

Lemma eq_ignore_spec a b : eq_ignore_ascii_case a b = true <-> lower a = lower b.
Proof. apply bool_decide_eq_true. Qed.

(** [kept] is what a store holds of the cookies [l] that were set: the first of
    every name, names being compared without regard to case, in order. *)
Record first_of_each (l kept : list Cookie) : Prop := {
  fe_order : sublist kept l;
  fe_once : NoDup ((fun c => lower (cookie_name c)) <$> kept);
  fe_first : forall c, c ∈ l -> exists c', c' ∈ kept
    /\ find (fun c' => eq_ignore_ascii_case (cookie_name c') (cookie_name c)) l = Some c';
}.

Lemma set_first_of_each l s c :
  first_of_each l (store_cookies s) -> first_of_each (l ++ [c]) (store_cookies (cookie_set c s)).
Proof.
  intros [Ho Hn Hf]. unfold cookie_set. destruct (forallb _ _) eqn:E; simpl.
  - rewrite forallb_forall in E.
    assert (Hnew : forall c', c' ∈ l -> eq_ignore_ascii_case (cookie_name c') (cookie_name c) = false).
    { intros c' Hc'. destruct (Hf c' Hc') as (c'' & Hk & [_ Hm]%find_Some). specialize (E c'' ltac:(by apply list_elem_of_In)).
      apply negb_true_iff in E. apply not_true_iff_false in E. apply not_true_iff_false. intros Hq. apply E.
      rewrite eq_ignore_spec in *. congruence. }
    split.
    + by apply sublist_app.
    + rewrite fmap_app. apply NoDup_app. split; [done|]. split; [|apply NoDup_singleton]. intros n Hin Hs.
      apply list_elem_of_singleton in Hs as ->. apply list_elem_of_fmap in Hin as (c' & Hc & Hin).
      assert (eq_ignore_ascii_case (cookie_name c') (cookie_name c) = true) as Ht by by apply eq_ignore_spec.
      rewrite Hnew in Ht; [done|]. by eapply sublist_subseteq.
    + intros c0 [Hc0|Hc0]%elem_of_app.
      * destruct (Hf c0 Hc0) as (c' & Hk & Hfi). exists c'. split; [set_solver|]. rewrite find_app. by rewrite Hfi.
      * apply list_elem_of_singleton in Hc0 as ->. exists c. split; [set_solver|]. rewrite find_app.
        rewrite (proj2 (find_None _ l) Hnew). unfold find. simpl.
        by rewrite (proj2 (eq_ignore_spec (cookie_name c) (cookie_name c)) eq_refl).
  - split; [by apply sublist_inserts_r|done|].
    intros c0 [Hc0|Hc0]%elem_of_app.
    + destruct (Hf c0 Hc0) as (c' & Hk & Hfi). exists c'. split; [done|]. rewrite find_app. by rewrite Hfi.
    + apply list_elem_of_singleton in Hc0 as ->.
      destruct (find (fun c' => eq_ignore_ascii_case (cookie_name c') (cookie_name c)) l) as [c'|] eqn:Ef.
      * exists c'. rewrite find_app, Ef. split; [|done]. pose proof (find_Some _ _ _ Ef) as [Hl Hm].
        destruct (Hf c' Hl) as (c'' & Hk & Hf'').
        assert (forall x, eq_ignore_ascii_case (cookie_name x) (cookie_name c') = eq_ignore_ascii_case (cookie_name x) (cookie_name c)) as Hx.
        { intros x. apply eq_iff_eq_true. rewrite !eq_ignore_spec in *. by rewrite Hm. }
        assert (c'' = c') as ->; [|done]. enough (Some c'' = Some c') by congruence. rewrite <- Hf'', <- Ef.
        clear -Hx. induction l as [|y l IH]; [done|]. unfold find in *. simpl. by rewrite Hx, IH.
      * exfalso. apply not_true_iff_false in E. apply E. apply forallb_forall. intros x Hx%list_elem_of_In.
        apply negb_true_iff. apply (proj1 (find_None _ l) Ef). by eapply sublist_subseteq.
Qed.

Lemma run_first_of_each {A} (p : muon A) s l :
  first_of_each l (store_cookies s) -> first_of_each (l ++ cookies_set p s) (store_cookies (run_muon p s).2).
Proof.
  revert s l. induction p as [a|cookie p IH|k IH]; intros s l Hl; simpl; [by rewrite app_nil_r| |by apply IH].
  assert (l ++ cookie :: cookies_set p (cookie_set cookie s) = (l ++ [cookie]) ++ cookies_set p (cookie_set cookie s)) as ->
    by by rewrite <- app_assoc.
  by apply IH, set_first_of_each.
Qed.

(** The computations of a sign-in that succeeds. *)
Definition signed_in (app user pass : string) (sel : string) (set : list Cookie) (captured : MuonCookieStore) : Prop :=
  exists a s0 st0 s1 st1, App_new app = Some a
    /\ run_muon (new_session a) {| store_cookies := [] |} = (Some s0, st0)
    /\ run_muon (login user pass s0) st0 = (LoginOk s1, st1)
    /\ run_muon (fork_muon_session s1 a) st1 = (Some sel, captured)
    /\ set = cookies_set (new_session a) {| store_cookies := [] |} ++ cookies_set (login user pass s0) st0
             ++ cookies_set (fork_muon_session s1 a) st1.

(** The fork selector.  Signing in gives the selector of the forked session
    when every step of it succeeds, and panics otherwise; the cookies that come with it are the first
    of every name, names being compared without regard to case, that were set on
    the way, from the first request to the fork, in that order, and no name occurs
    twice. *)
Lemma fork_selector_cookies (app user pass : string) :
  match get_session_fork_selector_async app user pass with
  | Ret info => exists set captured, signed_in app user pass (selector info) set captured
      /\ first_of_each set (items (cookies info))
  | Panic => ~ exists sel set captured, signed_in app user pass sel set captured
  | NoFuel => False
  end.
Proof.
  unfold get_session_fork_selector_async, MuonCookieStore_new. destruct (App_new app) as [a|] eqn:Ea.
  2: { intros (sel & set & cap & a & ? & ? & ? & ? & E & _). congruence. }
  destruct (run_muon (new_session a) _) as [[s0|] st0] eqn:E0.
  2: { intros (sel & set & cap & a' & s0 & st0' & ? & ? & E & E0' & _). assert (a' = a) as -> by congruence. congruence. }
  destruct (run_muon (login user pass s0) st0) as [[s1| |reason] st1] eqn:E1.
  2, 3: intros (sel & set & cap & a' & s0' & st0' & s1' & st1' & E & E0' & E1' & _); assert (a' = a) as -> by congruence; assert (s0' = s0 /\ st0' = st0) as [-> ->] by (split; congruence); congruence.
  destruct (run_muon (fork_muon_session s1 a) st1) as [[sel|] st2] eqn:E2.
  2: { intros (sel & set & cap & a' & s0' & st0' & s1' & st1' & E & E0' & E1' & E2' & _). assert (a' = a) as -> by congruence. assert (s0' = s0 /\ st0' = st0) as [-> ->] by (split; congruence). congruence. }
  eexists _, st2. split; [by exists a, s0, st0, s1, st1|].
  assert ((fun c => {| cookie_name := cookie_name c; cookie_value := cookie_value c |}) <$> store_cookies st2 = store_cookies st2) as Hid.
  { rewrite <- (list_fmap_id (store_cookies st2)) at 2. apply list_fmap_ext. by intros i []. }
  simpl. rewrite Hid. rewrite app_assoc.
  pose proof (run_first_of_each (new_session a) {| store_cookies := [] |} []) as H0. rewrite E0 in H0.
  pose proof (run_first_of_each (login user pass s0) st0) as H1. rewrite E1 in H1.
  pose proof (run_first_of_each (fork_muon_session s1 a) st1) as H2. rewrite E2 in H2.
  apply H2, H1, H0. split; simpl; [done|constructor|]. intros c Hc. set_solver.
Qed.
End selector.
