(* ===== verification/Sample.v ===== *)
(** * The sample program

    [src/example/sample.rs]: the TUN device it opens on Linux, its thread that
    answers expired sessions, and [main], which puts the configuration, the cache
    and the connection together.  Reporting states on the terminal is left out. *)

From S2P Require Import Prelude Types Net NetworkRecovery SanitizedPeers Conversions LocalAgent Streams Pcap.
From S2P Require Import PvpnClient PeerSync Connection ConnectionSteps ConnectionTheorems ConnectionSafety Mailbox DataPath.
From S2P Require Import Api IpParse Text ConfigParser SecretCache BlobCache ForkSelector.

(** ** The TUN device *)

Section tun.
Local Open Scope Z_scope.

Definition IFF_TUN : Z := 0x0001.
Definition IFF_NO_PI : Z := 0x1000.
Definition TUNSETIFF : Z := 0x400454ca.

(** The system calls of the program; [-1] is a failure. *)
Class TunSystem (O : Type) := {
  tun_open : O -> Z * O;
  tun_ioctl : Z -> Z -> list byte -> O -> Z * O;
  tun_close : Z -> O -> O;
  last_os_error : O -> io_error;
}.

Definition byte_of (z : Z) : byte := default Byte.x00 (Byte.of_N (Z.to_N (wrapU 8 z))).

(** The request: the name in the first 16 bytes, then the flags. *)
Definition tun_request (name : string) : list byte :=
  let name_bytes := String.list_byte_of_string name in
  let copy_len := Nat.min (length name_bytes) 16 in
  let ifr := take copy_len name_bytes ++ drop copy_len (replicate 18 Byte.x00) in
  let flags := Z.lor IFF_TUN IFF_NO_PI in
  <[17%nat := byte_of (Z.land (Z.shiftr flags 8) 0xff)]> (<[16%nat := byte_of (Z.land flags 0xff)]> ifr).

Definition get_tun_fd {O} `{TunSystem O} (name : string) (o : O) : io_result Z * O :=
  let '(tun_fd, o) := tun_open o in
  if tun_fd =? -1 then (Err (last_os_error o), o)
  else
    let '(result, o) := tun_ioctl tun_fd TUNSETIFF (tun_request name) o in
    if result =? -1 then let o := tun_close tun_fd o in (Err (last_os_error o), o)
    else (Ok tun_fd, o).

(** [tun_fd(&config)]: no device without a name or when it cannot be had. *)
Definition tun_fd {O} `{TunSystem O} (config : ParsedConfig) (o : O) : option Z * O :=
  match tun_interface_name config with
  | None => (None, o)
  | Some name =>
      match get_tun_fd name o with
      | (Ok fd, o) => (Some fd, o)
      | (Err _, o) => (None, o)
      end
  end.

(** A system that counts the descriptors of the device that are open. *)
Record Counted (O : Type) := { counted : O; open_fds : list Z }.
Arguments counted {O} _.
Arguments open_fds {O} _.

#[global] Instance Counted_system {O} `{TunSystem O} : TunSystem (Counted O) := {
  tun_open x :=
    let '(fd, o) := tun_open (counted x) in
    (fd, {| counted := o; open_fds := if fd =? -1 then open_fds x else open_fds x ++ [fd] |});
  tun_ioctl fd req arg x :=
    let '(r, o) := tun_ioctl fd req arg (counted x) in (r, {| counted := o; open_fds := open_fds x |});
  tun_close fd x := {| counted := tun_close fd (counted x); open_fds := retain (fun y => negb (y =? fd)) (open_fds x) |};
  last_os_error x := last_os_error (counted x);
}.

(** The request is always 18 bytes, with a name of at most 15 bytes followed by a
    zero byte and the flags of a TUN device without packet information; and the
    descriptor is open afterwards exactly when it is returned. *)
Lemma tun_fd_accounted {O} `{TunSystem O} (name : string) (x : Counted O) :
  length (tun_request name) = 18%nat /\ drop 16 (tun_request name) = [Byte.x01; Byte.x10]
  /\ ((String.length name < 16)%nat -> exists pad,
       take 16 (tun_request name) = String.list_byte_of_string name ++ replicate (S pad) Byte.x00)
  /\ let '(r, x') := get_tun_fd name x in
     (tun_open (counted x)).1 ∉ open_fds x ->
     open_fds x' = open_fds x ++ match r with Ok fd => [fd] | Err _ => [] end.
Proof.
  assert (Hlen : length (take (Nat.min (length (String.list_byte_of_string name)) 16) (String.list_byte_of_string name)
    ++ drop (Nat.min (length (String.list_byte_of_string name)) 16) (replicate 18 Byte.x00)) = 18%nat).
  { rewrite length_app, length_take, length_drop, length_replicate. lia. }
  split_and!.
  - unfold tun_request. by rewrite !length_insert.
  - unfold tun_request. set (l := _ ++ drop _ _) in *. do 18 (destruct l as [|? l]; [done|]). by destruct l.
  - intros Hn. exists (15 - String.length name)%nat. unfold tun_request.
    assert (length (String.list_byte_of_string name) = String.length name) as Hl.
    { clear. induction name; simpl; [done|]. by f_equal. }
    rewrite !take_insert_ge by lia. rewrite Hl, Nat.min_l by lia. rewrite (take_ge (String.list_byte_of_string name)) by lia.
    rewrite take_app_ge by lia. rewrite Hl, drop_replicate, take_replicate. f_equal. f_equal. lia.
  - unfold get_tun_fd. simpl. destruct (tun_open (counted x)) as [fd o]. simpl. destruct (fd =? -1) eqn:Ef; simpl.
    { intros _. by rewrite app_nil_r. }
    destruct (tun_ioctl fd TUNSETIFF (tun_request name) o) as [r o']. simpl. destruct (r =? -1); simpl; [|done].
    intros Hfd. rewrite app_nil_r, retain_app, retain_all.
    + unfold retain. simpl. rewrite Z.eqb_refl. by rewrite app_nil_r.
    + intros y Hy. apply negb_true_iff, Z.eqb_neq. by intros ->.
Qed.
End tun.

(** ** Expired sessions *)

Section events.
(** [get_session_fork_selector] at its [n]-th call. *)
Context (select : nat -> string -> string -> string -> outcome ForkSelectorInfo).

(** The thread's loop over the events it receives, [n] sign-ins having been made. *)
Fixpoint answer_events (fork : ParsedForkConfig) (n : nat) (events : list Event) : M Handle () :=
  match events with
  | [] => mret ()
  | ErrorEv ApiSessionExpired :: events =>
      match select n (fork_app_version fork) (username fork) (password fork) with
      | Ret fork_selector => api_provide_api_fork_selector fork_selector ;; answer_events fork (S n) events
      | Panic => panic
      | NoFuel => no_fuel
      end
  | _ :: events => answer_events fork n events
  end.

Definition event_thread (fork_config : option ParsedForkConfig) (events : list Event) : M Handle () :=
  match fork_config with
  | Some fork_config => answer_events fork_config 0 events
  | None => mret ()
  end.

Definition is_expired (e : Event) : bool := match e with ErrorEv ApiSessionExpired => true | _ => false end.

(** Every expired session is answered with a selector of its own, in order, as
    long as signing in works and the connection's thread lives; other events are
    not answered. *)
Lemma sessions_answered fork n events (infos : nat -> ForkSelectorInfo) (h : Handle) :
  (forall i, select i (fork_app_version fork) (username fork) (password fork) = Ret (infos i)) ->
  receiver_alive h = true ->
  exists h', answer_events fork n events h = Ret ((), h') /\ receiver_alive h' = true
    /\ mailbox h' = mailbox h ++ ((fun i => ProvideApiForkSelector (infos i)) <$> seq n (length (retain is_expired events))).
Proof.
  intros Hs. revert n h. induction events as [|e events IH]; intros n h Ha; [exists h; simpl; by rewrite app_nil_r|].
  destruct (is_expired e) eqn:Ee.
  - destruct e as [| | | |[]]; try done. cbn [answer_events]. rewrite Hs.
    set (h1 := {| mailbox := mailbox h ++ [ProvideApiForkSelector (infos n)]; receiver_alive := receiver_alive h;
                  wakes := S (wakes h); join_handle := join_handle h |}).
    assert (api_provide_api_fork_selector (infos n) h = Ret ((), h1)) as E
      by (unfold api_provide_api_fork_selector; by rewrite send_alive; unfold h1; rewrite Ha).
    rewrite (bind_eq _ _ _ _ _ E). destruct (IH (S n) h1 Ha) as (h' & Eh & Ha' & Hm). exists h'. split; [exact Eh|].
    split; [done|]. rewrite Hm. unfold h1, retain. cbn. by rewrite <- app_assoc.
  - destruct (IH n h Ha) as (h' & Eh & Ha' & Hm). exists h'.
    assert (answer_events fork n (e :: events) = answer_events fork n events) as -> by by destruct e as [| | | |[]].
    split; [done|]. split; [done|]. rewrite Hm. unfold retain. simpl. by rewrite Ee.
Qed.
End events.

(** ** The program *)

Section main.
Context {O X : Type} `{TunSystem O}.
Context (path_exists : string -> bool) (load : string -> option Ini) (iter : Ini -> list (string * Fields)).
Context (decode : string -> option (list byte)).
(** [Connection::unix_connect] with the callbacks of the program. *)
Context (connect : InitialConnectionConfig -> option Z -> (CacheKey -> option (list byte)) -> outcome X).

Definition config_path (args : list string) : string := default "./config.ini"%string (args !! 1).

(** [main] up to the loops over events and states: [None] when there is no
    configuration, otherwise the connection, the account and the cache. *)
Definition sample_main (args : list string) (w : World) (log : LogState) (o : O)
  : outcome (option (X * option ParsedForkConfig * CacheState)) :=
  if negb (path_exists (config_path args)) then Ret None
  else
    match init_logger LogInfo 0 log with
    | Panic => Panic
    | NoFuel => NoFuel
    | Ret _ =>
        match Cache_new "./protun_cert" "./protun_privatekey" "./protun_muon" w with
        | (Ret cache, w) =>
            match parse_ini_config decode load iter (config_path args) with
            | Some (Ok (config, fork_config)) =>
                let '(fd, _) := tun_fd config o in
                match connect (initial_connection_config config) fd (cache_answers (cache, w)) with
                | Ret x => Ret (Some (x, fork_config, (cache, w)))
                | Panic => Panic
                | NoFuel => NoFuel
                end
            | _ => Panic
            end
        | _ => Panic
        end
    end.
End main.

(** ** Secrets from one run to the next *)

Section restart.
Context `{ids : StreamIds} {C Ss T CK : Type}.
Context `{pvpn : PvpnClient C, strs : Streams Ss T, str : Stream T, ck : Clock CK}.
Context {Key Cert Auth : Type} (private_key_from_pem : list byte -> result Key string).
Context (certificate_from_pem : list byte -> result Cert string) (muon_auth_try_from : list byte -> result Auth string).

Context {X : Type} `{PersistentCache X, !CacheLaws X}.

(** C28.  Secrets survive a restart.  After a run of the connection with a cache
    that keeps the promise of its interface, as the sample's does, the next
    connection finds for every key the last value the VPN library wrote in that
    run, or what was there before if it wrote none: the library's writes reach the
    cache through the loop, none of these steps panics, and the mode the next
    client is built with is made from exactly these values. *)
Theorem secrets_survive_restart (fuel n : nat) (s s' : PvpnConnection (Wire C) (Taps Ss) CK) (cache : X)
    (before : Secrets) (mode : ConnectionMode) :
  holds cache before -> pulled (client s) = [] -> cached (out s) = [] -> run fuel n s = Ret ((), s') ->
  exists cache', put_secrets (cached (out s')) cache = Ret cache'
    /\ let now k := secret (last_secret (omap cache_payload (pulled (client s'))) k (before k)) in
       (forall k, cache_answers cache' k = now k)
       /\ to_pvpn_client_mode private_key_from_pem certificate_from_pem muon_auth_try_from mode (cache_answers cache')
          = to_pvpn_client_mode private_key_from_pem certificate_from_pem muon_auth_try_from mode now.
Proof.
  intros Hr Hs0 Hc0 (rl & al & _ & _ & Hpl & Hc & _)%run_carried. cbn in Hpl, Hc. rewrite Hs0 in Hpl. rewrite Hc0 in Hc.
  simpl in Hpl, Hc. destruct (put_secrets_holds (cached (out s')) cache before Hr) as (cache' & E & Hr').
  exists cache'. split; [done|]. intros now.
  assert (forall k, cache_answers cache' k = now k) as Hk.
  { intros k. rewrite (holds_answers _ _ k Hr'). unfold now. by rewrite Hc, Hpl. }
  split; [done|]. destruct mode as [key|ua av st]; [done|]. simpl. by rewrite !Hk.
Qed.
End restart.
