(* ===== verification/SampleRun.v ===== *)
(** * The sample program on a concrete system

    The witnesses of [Sample.v]: a run whose library writes a private key, with
    the sample's cache in its files, and the program started on a configuration. *)

From S2P Require Import Prelude Types NetworkRecovery SanitizedPeers Conversions LocalAgent Streams Pcap MioStreams SocketFactory.
From S2P Require Import PvpnClient PeerSync Connection ConnectionSteps ConnectionTheorems ConnectionSafety Mailbox DataPath Api.
From S2P Require Import Startup Scenario UnixRun IpParse Text ConfigParser SecretCache BlobCache ForkSelector Sample.

#[local] Existing Instance sample_ids.
#[local] Existing Instance accepting_os.
#[local] Instance run_stream : Stream Str := MioStream_Stream 100.
#[local] Instance run_factory : MioSocketFactory SocketFactoryUnix Str :=
  SocketFactoryUnix_factory 115 (fun _ => quiet_device).
#[local] Instance run_streams : Streams Strs Str :=
  MioStreams_Streams (tun_of (fun _ => packet_device) false).

Lemma blank_cache :
  exists c w, Cache_new "./protun_cert" "./protun_privatekey" "./protun_muon" blank_world = (Ret c, w)
    /\ represents sample_paths (c, w) (fun _ => []).
Proof. exact (cache_new_represents sample_paths blank_world eq_refl eq_refl). Defined.

(** The secrets a whole run writes. *)
Lemma whole_secrets :
  exists s s' : DConn, data_whole = Some (s, s') /\ run 50 1 s = Ret ((), s') /\ pulled (client s) = []
    /\ cached (out s) = [] /\ omap cache_payload (pulled (client s')) = [(PrivateKey, [Byte.x0c])].
Proof.
  assert (Hd : (fun p : DConn * DConn => (pulled (client p.1), cached (out p.1), omap cache_payload (pulled (client p.2)))) <$> data_whole
    = Some ([], [], [(PrivateKey, [Byte.x0c])])) by (vm_compute; reflexivity).
  destruct data_whole_ok as (s & s' & E & Er & _). rewrite E in Hd. injection Hd as Hp Hc Hs. exists s, s'.
  exact (conj E (conj Er (conj Hp (conj Hc Hs)))).
Defined.

Lemma secrets_survive_restart_witness :
  exists (cache cache' : CacheState) (s' : DConn), put_secrets (cached (out s')) cache = Ret cache'
    /\ cache_answers cache' PrivateKey = Some [Byte.x0c] /\ cache_answers cache' Certificate = None.
Proof.
  destruct blank_cache as (c & w & _ & Hr). destruct whole_secrets as (s & s' & _ & E & Hp & Hc & Hl).
  destruct (secrets_survive_restart (fun _ => Ok ()) (fun _ => Ok ()) (fun _ => Ok ())
    (CacheLaws0 := Cache_laws sample_paths sample_paths_inj) 50 1 s s' (c, w)
    (fun _ => []) (NoLocalAgent {| client_key := [] |}) Hr Hp Hc E) as (cache' & Ep & Ha & _).
  exists (c, w), cache', s'. split; [exact Ep|]. rewrite !Ha, Hl. split; reflexivity.
Defined.

(** A Linux machine that gives out descriptor 7. *)
#[local] Instance linux : TunSystem () := {
  tun_open o := (7%Z, o);
  tun_ioctl _ _ _ o := (0%Z, o);
  tun_close _ o := o;
  last_os_error _ := io_error_new OtherKind "";
}.

(** The program opens the device named in the file and connects with it. *)
Example sample_starts :
  match sample_main (fun _ => true) (fun _ => Some written_ini) map_to_list toy_decode
          (fun config fd get => Ret (length (cfg_peers config), fd, get PrivateKey)) ["sample"] blank_world (LogState_new false) () with
  | Ret (Some (x, fork, _)) => x = (2, Some 7%Z, None) /\ (username <$> fork) = Some "user"%string
  | _ => False
  end.
Proof. vm_compute. split; reflexivity. Qed.

Example sample_needs_config :
  sample_main (X := ()) (fun _ => false) (fun _ => Some written_ini) map_to_list toy_decode (fun _ _ _ => Ret ()) ["sample"; "x.ini"]
    blank_world (LogState_new false) () = Ret None.
Proof. reflexivity. Qed.

(** A server that sets a cookie twice, in different case, and one more. *)
#[local] Instance toy_muon : Muon string () := {
  App_new s := if decide (s = "") then None else Some s;
  new_session _ := MSet {| cookie_name := "Session-Id"; cookie_value := "1" |} (MDone (Some ()));
  login user _ _ := if decide (user = "user")
    then MGet (fun l => MSet {| cookie_name := "SESSION-ID"; cookie_value := "2" |} (MDone (LoginOk ()))) else MDone (LoginFailed "user");
  fork_muon_session _ app := MSet {| cookie_name := "Tag"; cookie_value := app |} (MDone (Some "fork"%string));
}.

Example sign_in :
  get_session_fork_selector true "app@1" "user" "pw" =
  Ret {| selector := "fork"; cookies := {| items := [{| cookie_name := "Session-Id"; cookie_value := "1" |};
                                                     {| cookie_name := "Tag"; cookie_value := "app@1" |}] |} |}
  /\ get_session_fork_selector true "app@1" "other" "pw" = Panic /\ get_session_fork_selector true "" "user" "pw" = Panic.
Proof. vm_compute. split_and!; reflexivity. Qed.
