(* ===== verification/BuildVersion.v ===== *)
(** * The version of the Windows library

    [src/build/windows_build.rs]: the build script turns the output of
    [git describe] into the version resource of the library.  Running the command,
    the environment and the resource compiler are its inputs; the properties it
    sets are the model's result. *)

From Stdlib Require Import Strings.Ascii.
From S2P Require Import Prelude Types Net IpParse Text.

Local Open Scope Z_scope.

(** The properties set on the [WindowsResource]. *)
Record Resource := { file_version : Z; strings : list (string * string) }.

(** [describe.rsplitn(3, '-')] with its three expectations: tag, count, hash. *)
Definition describe_parts (describe : list ascii) : option (list ascii * list ascii * list ascii) :=
  match rsplitn 3 "-"%char describe with
  | [hash_raw; count_str; tag_raw] => Some (tag_raw, count_str, hash_raw)
  | _ => None
  end.

(** The numbers of the version: major, minor, patch and release. *)
Definition version_numbers (tag_parts : list Z) (commits_since : Z) : Z * Z * Z * Z :=
  match tag_parts with
  | x :: y :: z :: _ => (x, y, z, commits_since)
  | [x; y] => (x, y, commits_since, 0)
  | [x] => (x, 0, commits_since, 0)
  | [] => (0, 0, commits_since, 0)
  end.

Definition tag_numbers (tag : list ascii) : list Z :=
  omap (fun s => parse_u16 (text_of s)) (split_on "."%char tag).

(** [((major as u64) << 48) | ((minor as u64) << 32) | ((patch as u64) << 16) | (release as u64)]. *)
Definition pack_version (v : Z * Z * Z * Z) : Z :=
  let '(major, minor, patch, release) := v in
  Z.lor (Z.lor (Z.lor (wrapU 64 (Z.shiftl major 48)) (wrapU 64 (Z.shiftl minor 32))) (wrapU 64 (Z.shiftl patch 16))) release.

Definition product_version (v : Z * Z * Z * Z) (hash : list ascii) : string :=
  let '(major, minor, patch, release) := v in
  pretty major +:+ "." +:+ pretty minor +:+ "." +:+ pretty patch +:+ "." +:+ pretty release +:+ "-" +:+ text_of hash.

Definition architecture_name (target_arch : option string) : option string :=
  let architecture := default ""%string target_arch in
  if bool_decide (architecture = "x86_64"%string) then Some "x64"%string
  else if bool_decide (architecture = "x86"%string) then Some "x32"%string
  else if bool_decide (architecture = "aarch64"%string) then Some "arm64"%string
  else if bool_decide (architecture = "arm"%string) then Some "arm32"%string
  else None.

(** [git] is the outcome of the command with its standard output, and [compile]
    that of the resource compiler. *)
Definition set_dll_properties (git : io_result string) (target_arch : option string)
    (compile : Resource -> io_result ()) : outcome Resource :=
  match git with
  | Err _ => Panic
  | Ok stdout =>
      match describe_parts (trim (chars stdout)) with
      | None => Panic
      | Some (tag_raw, count_str, hash_raw) =>
          let tag := trim_start_matches "v"%char tag_raw in
          let hash := trim_start_matches "g"%char hash_raw in
          let commits_since := default 0 (parse_u16 (text_of count_str)) in
          let version := version_numbers (tag_numbers tag) commits_since in
          match architecture_name target_arch with
          | None => Panic
          | Some architecture =>
              let res := {| file_version := pack_version version;
                            strings := [("ProductVersion", product_version version hash);
                                        ("FileDescription", "ProTUN Windows " +:+ architecture);
                                        ("ProductName", "Proton VPN");
                                        ("LegalCopyright", "Copyright © 2026 Proton AG")]%string |} in
              match compile res with Ok _ => Ret res | Err _ => Panic end
          end
      end
  end.

Definition newline : string := String.String "010"%char String.EmptyString.

Definition version_of (stdout : string) : option (Z * option string) :=
  match set_dll_properties (Ok stdout) (Some "x86_64"%string) (fun _ => Ok ()) with
  | Ret r => Some (file_version r, snd <$> head (strings r))
  | _ => None
  end.

Example comment_example :
  version_of ("v0.1-31-gc364e3f0" +:+ newline) = Some (2 ^ 32 + 31 * 2 ^ 16, Some "0.1.31.0-c364e3f0"%string).
Proof. vm_compute. reflexivity. Qed.

(** A tag with a suffix after a dash loses the number the suffix is attached to,
    and a repository without tags, for which [--always] prints a bare hash, has no
    version at all. *)
Example dashed_tag : version_of "v1.2-rc1-5-gc364e3f0" = Some (2 ^ 48 + 5 * 2 ^ 16, Some "1.0.5.0-c364e3f0"%string).
Proof. vm_compute. reflexivity. Qed.
Example no_tag : version_of "c364e3f0" = None.
Proof. vm_compute. reflexivity. Qed.

(** ** Packing *)

Definition in_u16 (x : Z) : Prop := 0 <= x < 65536.

Lemma lor_shift x y k : 0 <= k -> 0 <= y < 2 ^ k -> Z.lor (Z.shiftl x k) y = x * 2 ^ k + y.
Proof.
  intros Hk Hy. assert (Z.land (Z.shiftl x k) y = 0) as Hl.
  { apply Z.bits_inj'. intros i Hi. rewrite Z.land_spec, Z.bits_0.
    destruct (Z.lt_ge_cases i k); [by rewrite Z.shiftl_spec_low by lia|].
    rewrite <- (Z.mod_small y (2 ^ k)) by done. by rewrite Z.mod_pow2_bits_high, andb_false_r by lia. }
  rewrite <- Z.lxor_lor, <- Z.add_nocarry_lxor by done. by rewrite Z.shiftl_mul_pow2.
Qed.

Lemma pack_value a b c d :
  in_u16 a -> in_u16 b -> in_u16 c -> in_u16 d ->
  pack_version (a, b, c, d) = ((a * 65536 + b) * 65536 + c) * 65536 + d.
Proof.
  unfold in_u16. intros Ha Hb Hc Hd. unfold pack_version.
  assert (forall x k, 0 <= x < 65536 -> 0 <= k <= 48 -> wrapU 64 (Z.shiftl x k) = Z.shiftl x k) as Hw.
  { intros x k Hx Hk. apply wrapU_small. rewrite Z.shiftl_mul_pow2 by lia.
    assert (2 ^ k <= 2 ^ 48) by (apply Z.pow_le_mono_r; lia). assert (0 < 2 ^ k) by (apply Z.pow_pos_nonneg; lia).
    change (2 ^ 64) with (65536 * 2 ^ 48). nia. }
  rewrite !Hw by lia. change 48 with (32 + 16). rewrite <- (Z.shiftl_shiftl a 32 16) by lia.
  change 32 with (16 + 16). rewrite <- (Z.shiftl_shiftl b 16 16) by lia.
  rewrite <- !Z.shiftl_lor. rewrite <- (Z.shiftl_shiftl a 16 16), <- !Z.shiftl_lor by lia.
  rewrite !lor_shift by lia. change (2 ^ 16) with 65536. lia.
Qed.

(** ** What [git describe] prints *)

Definition hex_char (ch : ascii) : Prop := is_Some (to_digit 16 ch).

(** The text for [k] letters v, the numbers [ts] of the tag, [n] commits since
    and the abbreviated [hash]. *)
Definition describe_text (k : nat) (ts : list Z) (n : Z) (hash : list ascii) : list ascii :=
  (replicate k "v"%char ++ join "."%char ((fun z => chars (pretty z)) <$> ts))
  ++ "-"%char :: chars (pretty n) ++ "-"%char :: "g"%char :: hash.

Definition plain_char (ch : ascii) : Prop :=
  is_whitespace ch = false /\ ch <> "-"%char /\ ch <> "."%char /\ ch <> "v"%char /\ ch <> "g"%char.

Lemma hex_plain ch : hex_char ch -> plain_char ch.
Proof.
  intros [d Hd]. unfold plain_char. split_and!; try (intros ->; vm_compute in Hd; discriminate Hd).
  destruct ch as [[] [] [] [] [] [] [] []]; vm_compute in Hd |- *; done.
Qed.

Lemma decimal_hex ch d : to_digit 10 ch = Some d -> hex_char ch.
Proof. intros Hd. destruct ch as [[] [] [] [] [] [] [] []]; vm_compute in Hd; try discriminate Hd; by eexists. Qed.

Lemma pretty_plain z : 0 <= z -> Forall plain_char (chars (pretty z)) /\ chars (pretty z) <> [].
Proof.
  intros Hz. destruct (pretty_digits z Hz) as (ds & Hd & _ & Hne). split.
  - clear Hne. induction Hd as [|ch d l ds Hc _ IH]; constructor; [|done]. by eapply hex_plain, decimal_hex.
  - intros E. rewrite E in Hd. by apply Forall2_nil_inv_l in Hd.
Qed.

Lemma plain_notin (l : list ascii) ch : ~ plain_char ch -> Forall plain_char l -> ch ∉ l.
Proof. intros Hn Hl Hin. rewrite Forall_forall in Hl. by apply Hn, Hl. Qed.

Lemma not_plain ch : ch = "-"%char \/ ch = "."%char \/ ch = "v"%char \/ ch = "g"%char -> ~ plain_char ch.
Proof. unfold plain_char. naive_solver. Qed.

Lemma join_spec (P : ascii -> Prop) sep (ps : list (list ascii)) :
  P sep -> Forall (Forall P) ps -> Forall P (join sep ps).
Proof.
  intros Hs. induction ps as [|p ps IH]; intros Hps; [done|]. apply Forall_cons in Hps as [Hp Hps].
  destruct ps as [|q ps]; [done|]. cbn [join]. apply Forall_app; split; [done|]. constructor; [done|]. by apply IH.
Qed.

Section describe.
Context (k : nat) (ts : list Z) (n : Z) (hash : list ascii).
Context (Hts : ts <> []) (Ht16 : Forall in_u16 ts) (Hn : in_u16 n) (Hh : Forall hex_char hash).

Abbreviation pieces := ((fun z => chars (pretty z)) <$> ts).

Lemma pieces_plain : Forall (Forall plain_char) pieces.
Proof. apply Forall_fmap. eapply Forall_impl; [exact Ht16|]. intros z [Hz _]. by apply pretty_plain. Qed.

Lemma hash_plain : Forall plain_char hash.
Proof. eapply Forall_impl; [exact Hh|]. apply hex_plain. Qed.

Lemma describe_trimmed : trim (chars (text_of (describe_text k ts n hash) +:+ newline)) = describe_text k ts n hash.
Proof.
  rewrite chars_app, chars_text. apply trim_end_newline. unfold describe_text.
  assert (forall l, Forall plain_char l -> Forall (fun ch => is_whitespace ch = false) l) as Hp.
  { intros l Hl. eapply Forall_impl; [exact Hl|]. by intros ch []. }
  rewrite !Forall_app, !Forall_cons, !Forall_app, !Forall_cons. split_and!; try done.
  - apply Forall_replicate. done.
  - apply join_spec; [done|]. eapply Forall_impl; [exact pieces_plain|]. exact Hp.
  - apply Hp, pretty_plain. by destruct Hn.
  - apply Hp, hash_plain.
Qed.

Lemma describe_split :
  describe_parts (describe_text k ts n hash) =
  Some (replicate k "v"%char ++ join "."%char pieces, chars (pretty n), "g"%char :: hash).
Proof.
  unfold describe_parts, describe_text. cbn [rsplitn].
  assert (forall a b h, (a ++ "-"%char :: b ++ "-"%char :: h) = (a ++ "-"%char :: b) ++ "-"%char :: h) as Hassoc
    by (intros a b h; by rewrite <- app_assoc).
  rewrite Hassoc, rsplit_once_last.
  - rewrite rsplit_once_last; [done|]. apply plain_notin; [apply not_plain; auto|]. apply pretty_plain. by destruct Hn.
  - apply not_elem_of_cons. split; [done|]. apply plain_notin; [apply not_plain; auto|apply hash_plain].
Qed.

Lemma tag_trimmed : trim_start_matches "v"%char (replicate k "v"%char ++ join "."%char pieces) = join "."%char pieces.
Proof.
  apply trim_start_matches_run. destruct ts as [|z zs]; [done|]. apply Forall_cons in Ht16 as [[Hz _] _].
  destruct (pretty_plain z Hz) as [Hp Hne]. destruct (chars (pretty z)) as [|ch l] eqn:E; [done|].
  apply Forall_cons in Hp as [(_ & _ & _ & Hv & _) _]. csimpl. rewrite E. destruct zs; simpl; congruence.
Qed.

Lemma hash_trimmed : trim_start_matches "g"%char ("g"%char :: hash) = hash.
Proof.
  simpl. apply trim_start_matches_id. destruct hash_plain as [|ch l (_ & _ & _ & _ & Hg) _]; simpl; congruence.
Qed.

Lemma tag_parsed : tag_numbers (join "."%char pieces) = ts.
Proof.
  unfold tag_numbers. rewrite split_join.
  - clear Hts. induction Ht16 as [|z zs Hz Hzs IH]; [done|]. csimpl. rewrite text_chars, parse_u16_pretty by done. f_equal; by apply IH.
  - by destruct ts.
  - eapply Forall_impl; [exact pieces_plain|]. intros l Hl. apply plain_notin; [apply not_plain; auto|done].
Qed.
End describe.

Lemma numbers_in_u16 ts n :
  Forall in_u16 ts -> in_u16 n -> let '(a, b, c, d) := version_numbers ts n in in_u16 a /\ in_u16 b /\ in_u16 c /\ in_u16 d.
Proof.
  intros Ht Hn. assert (in_u16 0) by (unfold in_u16; lia).
  destruct Ht as [|x [|y [|z zs]] Hx Ht]; simpl; [done..| |];
    repeat match goal with H : Forall _ (_ :: _) |- _ => apply Forall_cons in H as [? ?] end; done.
Qed.

(** C32.  The version of the Windows library.  For a tag that consists of numbers, a
    count of commits and a hash as [git describe] prints them, the build script
    gives the library a 64-bit version whose four 16-bit fields are the first
    three numbers of the tag, or all of them if there are fewer, then the count,
    then zeros; the text of the version has the same numbers and the hash.  For a
    tag of at most three numbers, a later commit always gets a greater version. *)
Theorem dll_version (k : nat) (ts : list Z) (n : Z) (hash : list ascii) (arch : option string) (name : string)
    (compile : Resource -> io_result ()) :
  ts <> [] -> Forall in_u16 ts -> in_u16 n -> Forall hex_char hash ->
  architecture_name arch = Some name -> (forall r, is_ok (compile r) = true) ->
  (exists r, set_dll_properties (Ok (text_of (describe_text k ts n hash) +:+ newline)) arch compile = Ret r
     /\ head (strings r) = Some ("ProductVersion"%string, product_version (version_numbers ts n) hash)
     /\ (let '(a, b, c, d) := version_numbers ts n in file_version r = ((a * 65536 + b) * 65536 + c) * 65536 + d)
     /\ 0 <= file_version r < 2 ^ 64)
  /\ forall n', in_u16 n' -> n < n' -> (length ts <= 3)%nat ->
       pack_version (version_numbers ts n) < pack_version (version_numbers ts n').
Proof.
  intros Hts Ht Hn Hh Ha Hc. pose proof (numbers_in_u16 ts n Ht Hn) as Hv. split.
  - unfold set_dll_properties.
    rewrite describe_trimmed, describe_split, tag_trimmed, hash_trimmed, tag_parsed, text_chars, parse_u16_pretty, Ha by done.
    simpl default. set (res := {| file_version := _ |}). exists res.
    destruct (compile res) as [u|e] eqn:Er; [|specialize (Hc res); by rewrite Er in Hc].
    split; [done|]. split; [done|]. unfold res. cbn [file_version].
    destruct (version_numbers ts n) as [[[a b] c] d]. destruct Hv as (Hva & Hvb & Hvc & Hvd).
    rewrite pack_value by done. split; [done|]. unfold in_u16 in *. change (2 ^ 64) with (65536 * 65536 * 65536 * 65536). lia.
  - intros n' Hn' Hlt Hl. pose proof (numbers_in_u16 ts n' Ht Hn') as Hv'.
    assert (in_u16 0) by (unfold in_u16; lia).
    destruct ts as [|x [|y [|z [|]]]]; cbn [version_numbers length] in *; try done; try lia;
      destruct Hv as (? & ? & ? & ?), Hv' as (? & ? & ? & ?); rewrite !pack_value by done; lia.
Qed.

Lemma dll_version_witness :
  exists r, set_dll_properties (Ok ("v0.1-31-gc364e3f0" +:+ newline)) (Some "aarch64"%string) (fun _ => Ok ()) = Ret r
    /\ file_version r = 2 ^ 32 + 31 * 2 ^ 16 /\ pack_version (version_numbers [0; 1] 31) < pack_version (version_numbers [0; 1] 32).
Proof.
  destruct (dll_version 1 [0; 1] 31 (chars "c364e3f0") (Some "aarch64"%string) "arm64"%string (fun _ => Ok ()))
    as [(r & E & _ & Hv & _) Ho].
  - discriminate.
  - repeat constructor; lia.
  - split; lia.
  - repeat (constructor; [by eexists|]). constructor.
  - reflexivity.
  - reflexivity.
  - exists r. split; [exact E|]. split; [exact Hv|]. apply Ho; [split; lia|lia|simpl; lia].
Defined.
