(* ===== verification/Vectors.v ===== *)
(** * Vector utilities

    [src/utils/vector.rs] and [src/utils/common.rs]: removal of duplicates, the
    split of addresses by protocol and their textual lists, used by the Windows
    implementation. *)

From S2P Require Import Prelude Types Net.

Section distinct.
Context {A : Type} `{Countable A}.

(** [filter(|x| set.insert(x))]: [insert] answers whether [x] was not yet in
    the set. *)
Fixpoint distinct_from (set : gset A) (l : list A) : list A :=
  match l with
  | [] => []
  | x :: l => if decide (x ∈ set) then distinct_from set l
              else x :: distinct_from ({[x]} ∪ set) l
  end.

Definition distinct (l : list A) : list A := distinct_from ∅ l.

Lemma distinct_from_snoc set l x :
  distinct_from set (l ++ [x])
  = distinct_from set l ++ (if decide (x ∈ set \/ x ∈ l) then [] else [x]).
Proof.
  revert set. induction l as [|y l IH]; intros set; simpl.
  - repeat case_decide; set_solver.
  - destruct (decide (y ∈ set)); rewrite IH; simpl; repeat f_equal;
      repeat case_decide; set_solver.
Qed.

(** The value is the first of each group of equal elements, in order. *)
Lemma distinct_snoc l x :
  distinct (l ++ [x]) = distinct l ++ (if decide (x ∈ l) then [] else [x]).
Proof. unfold distinct. rewrite distinct_from_snoc. repeat case_decide; set_solver. Qed.

Lemma elem_of_distinct_from set l x : x ∈ distinct_from set l <-> x ∈ l /\ x ∉ set.
Proof.
  revert set. induction l as [|y l IH]; intros set; simpl; [set_solver|].
  case_decide; rewrite ?elem_of_cons, IH; [set_solver|].
  destruct (decide (x = y)); set_solver.
Qed.

Lemma elem_of_distinct l x : x ∈ distinct l <-> x ∈ l.
Proof. unfold distinct. rewrite elem_of_distinct_from. set_solver. Qed.

Lemma distinct_from_NoDup set l : NoDup (distinct_from set l).
Proof.
  revert set. induction l as [|y l IH]; intros set; simpl; [constructor|].
  case_decide; [done|]. constructor; [|done]. rewrite elem_of_distinct_from. set_solver.
Qed.

Lemma distinct_NoDup l : NoDup (distinct l).
Proof. apply distinct_from_NoDup. Qed.

Lemma distinct_from_id set l :
  NoDup l -> (forall x, x ∈ l -> x ∉ set) -> distinct_from set l = l.
Proof.
  revert set. induction l as [|y l IH]; intros set Hnd Hs; simpl; [done|].
  apply NoDup_cons in Hnd as [Hy Hnd]. rewrite decide_False by set_solver.
  f_equal. apply IH; set_solver.
Qed.

Lemma distinct_id l : NoDup l -> distinct l = l.
Proof. intros. apply distinct_from_id; set_solver. Qed.

Lemma distinct_from_sublist set l : sublist (distinct_from set l) l.
Proof.
  revert set. induction l as [|y l IH]; intros set; simpl; [done|].
  case_decide; by constructor.
Qed.

Lemma distinct_Forall (P : A -> Prop) l : Forall P l -> Forall P (distinct l).
Proof. rewrite !Forall_forall. intros Hl x. rewrite elem_of_distinct. apply Hl. Qed.
End distinct.

#[export] Hint Resolve distinct_NoDup : protun.

(** [retain] splits a vector in the elements kept and those dropped. *)
Lemma retain_partition {A} (p : A -> bool) (l : list A) :
  l ≡ₚ retain p l ++ retain (fun x => negb (p x)) l.
Proof.
  unfold retain. induction l as [|x l IH]; simpl; [done|].
  destruct (p x); simpl; [by constructor|]. by rewrite <- Permutation_middle, <- IH.
Qed.

(** [split_ips_by_protocol]. *)
Definition split_ips_by_protocol (l : list IpAddr) : list Z * list Z :=
  foldl (fun '(v4, v6) ip => match ip with V4 a => (v4 ++ [a], v6) | V6 a => (v4, v6 ++ [a]) end)
    ([], []) l.

Definition as_v4 (ip : IpAddr) : option Z := match ip with V4 a => Some a | V6 _ => None end.
Definition as_v6 (ip : IpAddr) : option Z := match ip with V4 _ => None | V6 a => Some a end.

(** The two lists are the addresses of each protocol, in order. *)
Lemma split_ips_spec l : split_ips_by_protocol l = (omap as_v4 l, omap as_v6 l).
Proof.
  unfold split_ips_by_protocol. induction l as [|x l IH] using rev_ind; [done|].
  rewrite foldl_snoc, IH, !omap_app. destruct x; simpl; by rewrite ?app_nil_r.
Qed.

(** [iter().map(to_string).collect().join(",")]. *)
Definition ipv4s_to_comma_separated_string (l : list Z) : string :=
  String.concat "," (ipv4_to_string <$> l).
Definition ipv6s_to_comma_separated_string (l : list Z) : string :=
  String.concat "," (ipv6_to_string <$> l).

(** [src/utils/common.rs]. *)
Definition option_ipv6addr_to_string (o : option Z) : string :=
  match o with Some a => ipv6_to_string a | None => "" end.
