(* ===== verification/WinNet.v ===== *)
(** * Windows: byte order of addresses and the IP Helper interface

    The rows of the Windows networking API that the code fills in and reads,
    the conversions of addresses to and from them, and the class [WinNet] of
    the operating system's functions, with its documented laws. *)

From S2P Require Import Prelude Types Net.

Local Open Scope Z_scope.

(** ** Errors *)

(** [src/api/windows/protun_error.rs]. *)
Inductive ProTunFatalError :=
| NoLocalIp (msg : string)
| HandleCreationFailed (msg : string)
| WinsockStartFailed (msg : string)
| WintunLibraryLoadingFailed (msg : string)
| WintunInterfaceCreationFailed (msg : string)
| WintunAdapterIndexFetchFailed (msg : string)
| WintunSessionCreationFailed (msg : string)
| WintunIpAddressSetupFailed (msg : string)
| WintunSessionHandleCreationFailed (msg : string).

(** [constants.rs]; a [GUID] is its 128-bit number. *)
Definition ADAPTER_GUID : Z := 207251590231051553767137937883512590316.

(** ** Byte order *)

(** [to_le_bytes] of an [n]-byte integer. *)
Fixpoint to_le_bytes (n : nat) (x : Z) : list Z :=
  match n with O => [] | S n => x mod 256 :: to_le_bytes n (x / 256) end.

Definition from_le_bytes (l : list Z) : Z := foldr (fun b acc => b + 256 * acc) 0 l.

Definition to_be_bytes (n : nat) (x : Z) : list Z := reverse (to_le_bytes n x).
Definition from_be_bytes (l : list Z) : Z := from_le_bytes (reverse l).

Lemma length_to_le_bytes n x : length (to_le_bytes n x) = n.
Proof. revert x. induction n; intros x; simpl; auto. Qed.

Lemma from_to_le_bytes n x : 0 <= x < 256 ^ Z.of_nat n -> from_le_bytes (to_le_bytes n x) = x.
Proof.
  revert x. induction n as [|n IH]; intros x Hx; simpl; [change (256 ^ Z.of_nat 0) with 1 in Hx; lia|].
  rewrite Nat2Z.inj_succ, Z.pow_succ_r in Hx by lia.
  rewrite IH by (split; [apply Z.div_pos; lia|apply Z.div_lt_upper_bound; lia]).
  pose proof (Z.div_mod x 256). lia.
Qed.

Lemma to_from_le_bytes l :
  Forall (fun b => 0 <= b < 256) l -> to_le_bytes (length l) (from_le_bytes l) = l.
Proof.
  induction 1 as [|b l Hb _ IH]; simpl; [done|].
  rewrite (Z.mul_comm 256), Z_mod_plus_full, Z.mod_small, Z.div_add by lia.
  rewrite (Z.div_small b), Z.add_0_l by lia. by f_equal.
Qed.

Lemma to_le_bytes_u8 n x : Forall (fun b => 0 <= b < 256) (to_le_bytes n x).
Proof.
  revert x. induction n as [|n IH]; intros x; simpl; constructor; [|done].
  apply Z.mod_pos_bound. lia.
Qed.

Lemma from_to_be_bytes n x : 0 <= x < 256 ^ Z.of_nat n -> from_be_bytes (to_be_bytes n x) = x.
Proof. intros. unfold from_be_bytes, to_be_bytes. rewrite reverse_involutive. by apply from_to_le_bytes. Qed.

(** [Ipv4Addr::octets] and [Ipv6Addr::octets]. *)
Definition octets4 (a : Z) : list Z := to_be_bytes 4 a.
Definition octets6 (a : Z) : list Z := to_be_bytes 16 a.

(** [u32::from_be] on the little-endian machines Windows runs on. *)
Definition u32_from_be (x : Z) : Z := from_be_bytes (to_le_bytes 4 x).

(** Writing the octets as a little-endian number and reading it as a big-endian
    one gives the address back. *)
Lemma u32_network_order a : 0 <= a < 2 ^ 32 -> u32_from_be (from_le_bytes (octets4 a)) = a.
Proof.
  intros Ha. unfold u32_from_be, octets4, to_be_bytes.
  assert (Hl : length (reverse (to_le_bytes 4 a)) = 4%nat) by (by rewrite length_reverse, length_to_le_bytes).
  rewrite <- Hl at 1. rewrite to_from_le_bytes by (apply Forall_reverse, to_le_bytes_u8).
  by apply (from_to_be_bytes 4).
Qed.

(** ** Rows *)

Definition AF_UNSPEC : Z := 0.
Definition AF_INET : Z := 2.
Definition AF_INET6 : Z := 23.

(** The union [SOCKADDR_INET]: the family, [Ipv4.sin_addr.S_un.S_addr] and
    [Ipv6.sin6_addr.u.Byte], which do not overlap. *)
Record SOCKADDR_INET := { si_family : Z; S_addr : Z; sin6_Byte : list Z }.

(** The fields of [MIB_IPFORWARD_ROW2] that the code uses. *)
Record MIB_IPFORWARD_ROW2 := {
  DestinationPrefix : SOCKADDR_INET;
  PrefixLength : Z;
  NextHop : SOCKADDR_INET;
  InterfaceLuid : Z;
  InterfaceIndex : Z;
  Metric : Z;
}.

(** Those of [MIB_UNICASTIPADDRESS_ROW] and [MIB_IF_ROW2]. *)
Record MIB_UNICASTIPADDRESS_ROW := {
  ua_Address : SOCKADDR_INET;
  ua_InterfaceLuid : Z;
  ua_InterfaceIndex : Z;
  ua_ValidLifetime : Z;
  ua_PreferredLifetime : Z;
  ua_OnLinkPrefixLength : Z;
  ua_DadState : Z;
}.
Record MIB_IF_ROW2 := { AdminStatus : Z; OperStatus : Z; MediaConnectState : Z }.

#[global] Instance SOCKADDR_INET_eq_dec : EqDecision SOCKADDR_INET.
Proof. solve_decision. Defined.
#[global] Instance MIB_IPFORWARD_ROW2_eq_dec : EqDecision MIB_IPFORWARD_ROW2.
Proof. solve_decision. Defined.

(** [sockaddr_inet_to_ip_addr]; the error is the thread's last error. *)
Definition sockaddr_inet_to_ip_addr (sa : SOCKADDR_INET) : option IpAddr :=
  if si_family sa =? AF_INET then Some (V4 (u32_from_be (S_addr sa)))
  else if si_family sa =? AF_INET6 then Some (V6 (from_be_bytes (sin6_Byte sa)))
  else None.

(** ** The operating system *)

(** [WIN32_ERROR] codes. *)
Definition NO_ERROR : Z := 0.
Definition ERROR_NOT_FOUND : Z := 1168.
Definition ERROR_OBJECT_NOT_FOUND : Z := 4312.
Definition ERROR_OBJECT_ALREADY_EXISTS : Z := 5010.

(** Functions of [iphlpapi] and the registry over the state [W] of the system.
    The two table functions answer a status and, unless the pointer is null, the
    address and the entries of a table that they allocate. *)
Class WinNet (W : Type) := {
  InitializeIpForwardEntry : MIB_IPFORWARD_ROW2;
  GetIpForwardTable2 : W -> Z * option (Z * list MIB_IPFORWARD_ROW2) * W;
  GetUnicastIpAddressTable : W -> Z * option (Z * list MIB_UNICASTIPADDRESS_ROW) * W;
  FreeMibTable : Z -> W -> W;
  CreateIpForwardEntry2 : MIB_IPFORWARD_ROW2 -> W -> Z * W;
  DeleteIpForwardEntry2 : MIB_IPFORWARD_ROW2 -> W -> Z * W;
  ConvertInterfaceLuidToGuid : Z -> W -> result Z Z;
  GetIfEntry2 : Z -> W -> result MIB_IF_ROW2 Z;
  GetIpInterfaceEntry_metric : Z -> Z -> W -> result Z Z;
  (** [Display] of the error of a failed call. *)
  win32_error_display : Z -> string;
  (** [open_subkey_with_flags] of the ProTUN key, [get_value] of [RoutingTable]. *)
  reg_open : W -> bool;
  reg_get_routes : W -> option (list string);
  (** [create_subkey_with_flags] of the ProTUN key, [set_value] of [RoutingTable];
      the answers say whether the call succeeded. *)
  reg_create : W -> bool * W;
  reg_set_routes : list string -> W -> bool * W;
}.

(** What the documentation says of these functions.  [live] are the tables
    allocated and not yet freed; [route_id] is what identifies a route for
    [CreateIpForwardEntry2] and [DeleteIpForwardEntry2] (its interface included,
    [route_iface]), [routes] the routes the system has, [stored] the value kept
    in the registry, empty when there is none. *)
Class WinNetLaws (W : Type) `{WinNet W} := {
  live : W -> gset Z;
  route_id : MIB_IPFORWARD_ROW2 -> positive;
  routes : W -> gset positive;
  route_iface : positive -> Z;
  stored : W -> list string;

  get_table_live w st r w' : GetIpForwardTable2 w = (st, r, w') ->
    match r with
    | Some (p, _) => if decide (st = NO_ERROR) then p ∉ live w /\ live w' = {[p]} ∪ live w
                     else live w' = live w
    | None => live w' = live w
    end;
  get_addresses_live w st r w' : GetUnicastIpAddressTable w = (st, r, w') ->
    match r with
    | Some (p, _) => if decide (st = NO_ERROR) then p ∉ live w /\ live w' = {[p]} ∪ live w
                     else live w' = live w
    | None => live w' = live w
    end;
  free_live p w : live (FreeMibTable p w) = live w ∖ {[p]};

  get_table_routes w : routes (GetIpForwardTable2 w).2 = routes w
    /\ stored (GetIpForwardTable2 w).2 = stored w;
  get_addresses_routes w : routes (GetUnicastIpAddressTable w).2 = routes w
    /\ stored (GetUnicastIpAddressTable w).2 = stored w;
  table_rows w p rs w' : GetIpForwardTable2 w = (NO_ERROR, Some (p, rs), w') ->
    forall id, id ∈ routes w <-> exists row, row ∈ rs /\ route_id row = id;
  route_id_iface row : route_iface (route_id row) = InterfaceIndex row;
  free_routes p w : routes (FreeMibTable p w) = routes w /\ stored (FreeMibTable p w) = stored w;

  create_entry row w st w' : CreateIpForwardEntry2 row w = (st, w') ->
    stored w' = stored w /\
    if decide (st = NO_ERROR) then route_id row ∉ routes w /\ routes w' = {[route_id row]} ∪ routes w
    else routes w' = routes w;
  delete_entry row w st w' : DeleteIpForwardEntry2 row w = (st, w') ->
    stored w' = stored w /\
    if decide (st = NO_ERROR) then routes w' = routes w ∖ {[route_id row]}
    else routes w' = routes w /\ (st = ERROR_OBJECT_NOT_FOUND -> route_id row ∉ routes w);

  reg_get_read w l : reg_get_routes w = Some l -> l = stored w;
  reg_create_same w : stored (reg_create w).2 = stored w /\ routes (reg_create w).2 = routes w;
  reg_set_stored l w b w' : reg_set_routes l w = (b, w') ->
    routes w' = routes w /\ stored w' = if b then l else stored w;
}.

(** The registry key can be read and written. *)
Class RegistryWorks (W : Type) `{WinNetLaws W} := {
  reg_get_stored w : default [] (reg_get_routes w) = stored w;
  reg_no_key w : reg_open w = false -> stored w = [];
  reg_create_ok w : (reg_create w).1 = true;
  reg_set_ok l w : (reg_set_routes l w).1 = true;
}.
