(* ===== verification/LocalIpFinder.v ===== *)
(** * Windows: the interface that reaches the internet

    [src/connection/windows/helpers/local_ip_finder.rs]: the default routes of
    the interfaces that are up, other than the tunnel's own, give candidate
    local addresses; the one with the lowest metric is chosen per protocol. *)

From Stdlib Require Import Sorting.Sorted.
From S2P Require Import Prelude Types Net Vectors WinNet.

Local Open Scope Z_scope.

(** ** [sort_by_key] *)

Section sort_by_key.
Context {A : Type} (le : A -> A -> bool).

Fixpoint sorted_insert (x : A) (l : list A) : list A :=
  match l with
  | [] => [x]
  | y :: l' => if le x y then x :: l else y :: sorted_insert x l'
  end.

(** The stable sort. *)
Definition sort_by (l : list A) : list A := foldr sorted_insert [] l.

Lemma elem_of_sorted_insert x y l : y ∈ sorted_insert x l <-> y = x \/ y ∈ l.
Proof. induction l as [|z l IH]; simpl; [set_solver|]. destruct (le x z); set_solver. Qed.

Lemma elem_of_sort_by y l : y ∈ sort_by l <-> y ∈ l.
Proof. induction l as [|x l IH]; simpl; [done|]. rewrite elem_of_sorted_insert. set_solver. Qed.

Context (le_total : forall x y, le x y = true \/ le y x = true).
Context (le_trans : forall x y z, le x y = true -> le y z = true -> le x z = true).

Lemma le_false x y : le x y = false -> le y x = true.
Proof. destruct (le_total x y); congruence. Qed.

Lemma sorted_insert_sorted x l :
  StronglySorted (fun a b => le a b = true) l -> StronglySorted (fun a b => le a b = true) (sorted_insert x l).
Proof.
  induction 1 as [|y l Hs IH Hy]; simpl; [repeat constructor|].
  destruct (le x y) eqn:E.
  - constructor; [by constructor|]. constructor; [done|].
    eapply Forall_impl; [exact Hy|]. eauto.
  - constructor; [done|]. apply Forall_forall. intros z [->|Hz]%elem_of_sorted_insert;
      [by apply le_false|by eapply Forall_forall in Hy].
Qed.

Lemma sort_by_sorted l : StronglySorted (fun a b => le a b = true) (sort_by l).
Proof. induction l; simpl; [constructor|by apply sorted_insert_sorted]. Qed.

(** The head of the sorted list is the first of the least elements. *)
Lemma sort_by_head l x r :
  sort_by l = x :: r -> exists pre post, l = pre ++ x :: post
    /\ Forall (fun y => le y x = false) pre /\ Forall (fun y => le x y = true) post.
Proof.
  revert x r. induction l as [|y l IH]; intros x r; simpl; [done|].
  destruct (sort_by l) as [|z s] eqn:Es; simpl.
  - intros [= <- <-]. exists [], l. split; [done|]. split; [constructor|].
    apply Forall_forall. intros u Hu%elem_of_sort_by. rewrite Es in Hu. set_solver.
  - destruct (IH z s eq_refl) as (pre & post & -> & Hpre & Hpost).
    destruct (le y z) eqn:E; intros [= <- <-].
    + exists [], (pre ++ z :: post). split; [done|]. split; [constructor|].
      apply Forall_app. split; [|constructor; [done|]]; (eapply Forall_impl; [eassumption|]); intros u Hu;
        eapply le_trans; eauto. by apply le_false.
    + exists (y :: pre), post. split; [done|]. split; [by constructor|done].
Qed.
End sort_by_key.

Section sort_omap.
Context {A B : Type} (le : A -> A -> bool) (le' : B -> B -> bool) (f : A -> option B).
Context (le_total : forall x y, le x y = true \/ le y x = true).
Context (le_trans : forall x y z, le x y = true -> le y z = true -> le x z = true).
Context (f_le : forall x y a b, f x = Some a -> f y = Some b -> le x y = le' a b).

Lemma omap_cons_eq x l :
  omap f (x :: l) = match f x with Some a => a :: omap f l | None => omap f l end.
Proof. done. Qed.

Lemma omap_sorted_insert x l :
  StronglySorted (fun a b => le a b = true) l ->
  omap f (sorted_insert le x l)
  = match f x with Some a => sorted_insert le' a (omap f l) | None => omap f l end.
Proof.
  induction 1 as [|y l Hs IH Hy]; [simpl; by destruct (f x)|].
  cbn [sorted_insert]. destruct (le x y) eqn:E; rewrite !omap_cons_eq.
  - destruct (f x) as [a|] eqn:Ex; [|done]. destruct (f y) as [b|] eqn:Ey; simpl.
    { by rewrite <- (f_le x y a b), E by done. }
    assert (Hall : Forall (fun b => le' a b = true) (omap f l)).
    { apply Forall_forall. intros b (z & Hz & Hb)%list_elem_of_omap.
      rewrite <- (f_le x z a b) by done. eapply le_trans; [done|]. by eapply (proj1 (Forall_forall _ _) Hy). }
    destruct (omap f l) as [|b t]; simpl; [done|]. by apply Forall_cons in Hall as [-> _].
  - rewrite IH. destruct (f y) as [b|] eqn:Ey, (f x) as [a|] eqn:Ex; simpl; try done.
    by rewrite <- (f_le x y a b), E by done.
Qed.

(** Selecting by [f] commutes with sorting. *)
Lemma omap_sort_by l : omap f (sort_by le l) = sort_by le' (omap f l).
Proof.
  induction l as [|x l IH]; simpl; [done|].
  rewrite omap_sorted_insert, IH by (by apply sort_by_sorted). by destruct (f x).
Qed.
End sort_omap.

(** ** Interfaces *)

(** [Ipv4InternetInterface] and [Ipv6InternetInterface]. *)
Record IpInternetInterface := {
  interface_metric : Z;
  any_route_metric : Z;
  local_ip : Z;
  interface_index : Z;
  next_hop : Z;
}.

Inductive InternetInterface :=
| IfV4 (i : IpInternetInterface)
| IfV6 (i : IpInternetInterface).

#[global] Instance IpInternetInterface_eq_dec : EqDecision IpInternetInterface.
Proof. solve_decision. Defined.
#[global] Instance InternetInterface_eq_dec : EqDecision InternetInterface.
Proof. solve_decision. Defined.

(** A [u32] sum. *)
Definition effective_metric (i : IpInternetInterface) : Z :=
  wrapU 32 (interface_metric i + any_route_metric i).

(** [Display] of the two structs, as far as they differ only in the address: the
    number shown as the interface's metric is its index. *)
Definition interface_fmt (protocol ip hop : string) (i : IpInternetInterface) : string :=
  protocol +:+ " address " +:+ ip +:+ " -> Next hop " +:+ hop +:+ " (Interface " +:+ pretty (interface_index i)
  +:+ ") (Effective Metric " +:+ pretty (effective_metric i) +:+ " = Interface Metric " +:+ pretty (interface_index i)
  +:+ " + Any Route Metric " +:+ pretty (any_route_metric i) +:+ ")".

Definition Ipv4InternetInterface_fmt (i : IpInternetInterface) : string :=
  interface_fmt "IPv4" (ip_to_string (V4 (local_ip i))) (ip_to_string (V4 (next_hop i))) i.
Definition Ipv6InternetInterface_fmt (i : IpInternetInterface) : string :=
  interface_fmt "IPv6" (ip_to_string (V6 (local_ip i))) (ip_to_string (V6 (next_hop i))) i.

Example display_shows_index :
  Ipv4InternetInterface_fmt {| interface_metric := 25; any_route_metric := 10; local_ip := 1; interface_index := 7; next_hop := 2 |}
  = "IPv4 address 0.0.0.1 -> Next hop 0.0.0.2 (Interface 7) (Effective Metric 35 = Interface Metric 7 + Any Route Metric 10)".
Proof. vm_compute. reflexivity. Qed.

(** The sort key: IPv4 before IPv6, then the lowest metric. *)
Definition sort_key (i : InternetInterface) : Z * Z :=
  match i with IfV4 i => (4, effective_metric i) | IfV6 i => (6, effective_metric i) end.

(** [Ord] of pairs. *)
Definition key_le (a b : InternetInterface) : bool :=
  let '(p, m) := sort_key a in let '(q, n) := sort_key b in (p <? q) || ((p =? q) && (m <=? n)).

Definition as_if4 (i : InternetInterface) : option IpInternetInterface :=
  match i with IfV4 i => Some i | IfV6 _ => None end.
Definition as_if6 (i : InternetInterface) : option IpInternetInterface :=
  match i with IfV4 _ => None | IfV6 i => Some i end.

Definition NET_IF_ADMIN_STATUS_UP : Z := 1.
Definition IfOperStatusUp : Z := 1.
Definition MediaConnectStateConnected : Z := 1.

Section finder.
Context {W : Type} `{WinNet W}.

Definition is_route_interface_up (route : MIB_IPFORWARD_ROW2) (w : W) : result bool Z :=
  match GetIfEntry2 (InterfaceLuid route) w with
  | Ok row => Ok ((AdminStatus row =? NET_IF_ADMIN_STATUS_UP) && (OperStatus row =? IfOperStatusUp)
                  && (MediaConnectState row =? MediaConnectStateConnected))
  | Err e => Err e
  end.

Definition get_interface_metric (route : MIB_IPFORWARD_ROW2) (address_family : Z) (w : W) : result Z Z :=
  GetIpInterfaceEntry_metric address_family (InterfaceLuid route) w.

Definition create_internet_interface (route : MIB_IPFORWARD_ROW2) (ip : IpAddr) (w : W)
    : option InternetInterface :=
  match ip with
  | V4 ipv4addr =>
      match sockaddr_inet_to_ip_addr (NextHop route) with
      | Some (V4 ipv4_next_hop) =>
          match get_interface_metric route AF_INET w with
          | Ok m => Some (IfV4 {| interface_metric := m; any_route_metric := Metric route;
                                  local_ip := ipv4addr; interface_index := InterfaceIndex route;
                                  next_hop := ipv4_next_hop |})
          | Err _ => None
          end
      | Some (V6 _) | None => None
      end
  | V6 ipv6addr =>
      match sockaddr_inet_to_ip_addr (NextHop route) with
      | Some (V6 ipv6_next_hop) =>
          match get_interface_metric route AF_INET6 w with
          | Ok m => Some (IfV6 {| interface_metric := m; any_route_metric := Metric route;
                                  local_ip := ipv6addr; interface_index := InterfaceIndex route;
                                  next_hop := ipv6_next_hop |})
          | Err _ => None
          end
      | Some (V4 _) | None => None
      end
  end.

Definition get_internet_interfaces_from_route (route : MIB_IPFORWARD_ROW2)
    (by_luid : gmap Z (list IpAddr)) (w : W) : list InternetInterface :=
  match is_route_interface_up route w with
  | Ok true =>
      match by_luid !! InterfaceLuid route with
      | Some ips => omap (fun ip => create_internet_interface route ip w) ips
      | None => []
      end
  | _ => []
  end.

Definition get_internet_interfaces_from_routes (rs : list MIB_IPFORWARD_ROW2)
    (by_luid : gmap Z (list IpAddr)) (w : W) : list InternetInterface :=
  foldl (fun potential route =>
    match ConvertInterfaceLuidToGuid (InterfaceLuid route) w with
    | Ok guid => if guid =? ADAPTER_GUID then potential
                 else potential ++ get_internet_interfaces_from_route route by_luid w
    | Err _ => potential
    end) [] (retain (fun r => PrefixLength r =? 0) rs).

(** [entry(luid).or_default().push(ip)] for every address that converts. *)
Definition addresses_by_luid (rows : list MIB_UNICASTIPADDRESS_ROW) : gmap Z (list IpAddr) :=
  foldl (fun m row =>
    match sockaddr_inet_to_ip_addr (ua_Address row) with
    | Some ip => <[ua_InterfaceLuid row := default [] (m !! ua_InterfaceLuid row) ++ [ip]]> m
    | None => m
    end) ∅ rows.

Definition get_potential_internet_interfaces (w : W) : result (list InternetInterface) ProTunFatalError * W :=
  let '(status, table, w) := GetIpForwardTable2 w in
  if negb (status =? NO_ERROR) then
    (Err (NoLocalIp ("Error when getting the routing table. Win32 error code: " +:+ win32_error_display status)), w)
  else match table with
  | None => (Err (NoLocalIp "GetIpForwardTable2 returned a null routing table"), w)
  | Some (routing_table, rs) =>
      let '(status, table, w) := GetUnicastIpAddressTable w in
      if negb (status =? NO_ERROR) then
        (Err (NoLocalIp ("Error when getting the unicast IP address table. Win32 error code: "
                         +:+ win32_error_display status)), FreeMibTable routing_table w)
      else match table with
      | None => (Err (NoLocalIp "GetUnicastIpAddressTable returned a null address table"),
                 FreeMibTable routing_table w)
      | Some (ip_addresses_table, ip_addresses) =>
          let valid := sort_by key_le (get_internet_interfaces_from_routes rs (addresses_by_luid ip_addresses) w) in
          let w := FreeMibTable ip_addresses_table (FreeMibTable routing_table w) in
          (match valid with
           | [] => Err (NoLocalIp "No valid local internet IP addresses")
           | _ => Ok valid
           end, w)
      end
  end.

Definition get_internet_interfaces (w : W)
    : result (option IpInternetInterface * option IpInternetInterface) ProTunFatalError * W :=
  let '(r, w) := get_potential_internet_interfaces w in
  (result_bind r (fun interfaces => Ok (head (omap as_if4 interfaces), head (omap as_if6 interfaces))), w).

Definition get_ipv4_internet_interface (w : W) : result (option IpInternetInterface) ProTunFatalError * W :=
  let '(r, w) := get_internet_interfaces w in (result_bind r (fun '(v4, _) => Ok v4), w).

Definition get_ipv6_internet_interface (w : W) : result (option IpInternetInterface) ProTunFatalError * W :=
  let '(r, w) := get_internet_interfaces w in (result_bind r (fun '(_, v6) => Ok v6), w).
End finder.

(** ** What is chosen *)

Section finder_spec.
Context {W : Type} `{WinNet W}.

(** [i] is a local address on an interface that is up, is not the tunnel's and
    has a default route of the address's protocol. *)
Definition candidate (rs : list MIB_IPFORWARD_ROW2) (rows : list MIB_UNICASTIPADDRESS_ROW) (w : W)
    (i : InternetInterface) : Prop :=
  exists route guid row ip,
    route ∈ rs /\ PrefixLength route = 0
    /\ ConvertInterfaceLuidToGuid (InterfaceLuid route) w = Ok guid /\ guid <> ADAPTER_GUID
    /\ is_route_interface_up route w = Ok true
    /\ row ∈ rows /\ ua_InterfaceLuid row = InterfaceLuid route
    /\ sockaddr_inet_to_ip_addr (ua_Address row) = Some ip
    /\ create_internet_interface route ip w = Some i.

Lemma exists_snoc {A} (P : A -> Prop) l y :
  (exists x, x ∈ l ++ [y] /\ P x) <-> (exists x, x ∈ l /\ P x) \/ P y.
Proof. setoid_rewrite elem_of_app. setoid_rewrite list_elem_of_singleton. naive_solver. Qed.

Lemma addresses_by_luid_spec rows luid ip :
  ip ∈ default [] (addresses_by_luid rows !! luid)
  <-> exists row, row ∈ rows /\ ua_InterfaceLuid row = luid /\ sockaddr_inet_to_ip_addr (ua_Address row) = Some ip.
Proof.
  unfold addresses_by_luid. induction rows as [|row rows IH] using rev_ind.
  - simpl. rewrite lookup_empty. simpl. split; [intros Hx; by apply not_elem_of_nil in Hx|].
    intros (row & Hrow & _). by apply not_elem_of_nil in Hrow.
  - rewrite exists_snoc, foldl_snoc. destruct (sockaddr_inet_to_ip_addr (ua_Address row)) as [ip'|] eqn:E.
    + destruct (decide (ua_InterfaceLuid row = luid)) as [->|Hne].
      * rewrite lookup_insert_eq. simpl. rewrite elem_of_app, IH, list_elem_of_singleton. naive_solver.
      * rewrite lookup_insert_ne, IH by done. naive_solver.
    + rewrite IH. naive_solver.
Qed.

Lemma elem_of_from_route route m (w : W) i :
  i ∈ get_internet_interfaces_from_route route m w
  <-> is_route_interface_up route w = Ok true
      /\ exists ip, ip ∈ default [] (m !! InterfaceLuid route) /\ create_internet_interface route ip w = Some i.
Proof.
  unfold get_internet_interfaces_from_route.
  destruct (is_route_interface_up route w) as [[]|]; [|set_solver..].
  destruct (m !! InterfaceLuid route); simpl; rewrite ?list_elem_of_omap; set_solver.
Qed.

Lemma elem_of_from_routes rs m (w : W) i :
  i ∈ get_internet_interfaces_from_routes rs m w
  <-> exists route, route ∈ rs /\ PrefixLength route = 0
      /\ (exists guid, ConvertInterfaceLuidToGuid (InterfaceLuid route) w = Ok guid /\ guid <> ADAPTER_GUID)
      /\ i ∈ get_internet_interfaces_from_route route m w.
Proof.
  unfold get_internet_interfaces_from_routes. induction rs as [|route rs IH] using rev_ind.
  { split; [intros Hx; by apply not_elem_of_nil in Hx|]. intros (r & Hr & _). by apply not_elem_of_nil in Hr. }
  rewrite exists_snoc, retain_app, foldl_app. cbn [retain List.filter].
  destruct (PrefixLength route =? 0) eqn:E0; cbn [foldl];
    [apply Z.eqb_eq in E0|apply Z.eqb_neq in E0; rewrite IH; naive_solver].
  destruct (ConvertInterfaceLuidToGuid _ _) as [g|] eqn:Eg; [|rewrite IH; naive_solver].
  destruct (g =? ADAPTER_GUID) eqn:E; [apply Z.eqb_eq in E|apply Z.eqb_neq in E; rewrite elem_of_app];
    rewrite IH; naive_solver.
Qed.

Lemma candidates_spec rs rows (w : W) i :
  i ∈ get_internet_interfaces_from_routes rs (addresses_by_luid rows) w <-> candidate rs rows w i.
Proof.
  rewrite elem_of_from_routes. unfold candidate. setoid_rewrite elem_of_from_route.
  setoid_rewrite addresses_by_luid_spec. split.
  - intros (route & Hr & H0 & (guid & Hg) & Hup & ip & (row & Hrow) & Hi). exists route, guid, row, ip. naive_solver.
  - intros (route & guid & row & ip & Hr). exists route. naive_solver.
Qed.

Lemma key_le_total x y : key_le x y = true \/ key_le y x = true.
Proof. destruct x, y; unfold key_le; simpl; auto; rewrite !Z.leb_le; lia. Qed.

Lemma key_le_trans x y z : key_le x y = true -> key_le y z = true -> key_le x z = true.
Proof. destruct x, y, z; unfold key_le; simpl; rewrite ?Z.leb_le; try done; lia. Qed.

(** The head of the addresses of one protocol has the lowest metric. *)
Lemma least_of_protocol (f : InternetInterface -> option IpInternetInterface) l i :
  f = as_if4 \/ f = as_if6 -> head (omap f (sort_by key_le l)) = Some i ->
  forall x j, x ∈ l -> f x = Some j -> effective_metric i <= effective_metric j.
Proof.
  intros Hf Hh x j Hx Hj.
  rewrite (omap_sort_by key_le (fun a b => effective_metric a <=? effective_metric b)) in Hh;
    [|exact key_le_total|exact key_le_trans|destruct Hf; subst; intros [] [] ?? [=<-] [=<-]; done].
  destruct (sort_by _ (omap f l)) as [|i' r] eqn:E; [done|]. injection Hh as ->.
  assert (Hin : j ∈ omap f l) by (apply list_elem_of_omap; eauto).
  apply sort_by_head in E as (pre & post & Hl & Hpre & Hpost);
    [|intros; rewrite !Z.leb_le; lia|intros ???; rewrite !Z.leb_le; lia].
  rewrite Hl in Hin. apply elem_of_app in Hin as [Hin|[->|Hin]%elem_of_cons]; [| lia |].
  - eapply Forall_forall in Hpre; [|done]. apply Z.leb_gt in Hpre. lia.
  - eapply Forall_forall in Hpost; [|done]. by apply Z.leb_le in Hpost.
Qed.

Lemma head_of_protocol (f : InternetInterface -> option IpInternetInterface) l :
  match head (omap f (sort_by key_le l)) with
  | Some i => exists x, x ∈ l /\ f x = Some i
  | None => forall x, x ∈ l -> f x = None
  end.
Proof.
  destruct (omap f (sort_by key_le l)) as [|i r] eqn:E; simpl.
  - intros x Hx. destruct (f x) as [j|] eqn:Ef; [|done].
    assert (Hj : j ∈ omap f (sort_by key_le l)) by (apply list_elem_of_omap; exists x; split; [by apply elem_of_sort_by|done]).
    rewrite E in Hj. set_solver.
  - assert (Hi : i ∈ omap f (sort_by key_le l)) by (rewrite E; set_solver).
    apply list_elem_of_omap in Hi as (x & Hx%elem_of_sort_by & Hf). eauto.
Qed.

(** [o] is a candidate of the protocol [c] with the lowest metric, if there is one. *)
Definition best (c : IpInternetInterface -> InternetInterface) (cand : InternetInterface -> Prop)
    (o : option IpInternetInterface) : Prop :=
  match o with
  | Some i => cand (c i) /\ forall j, cand (c j) -> effective_metric i <= effective_metric j
  | None => forall j, ~ cand (c j)
  end.

Lemma best_of_protocol f c l cand :
  (f = as_if4 /\ c = IfV4) \/ (f = as_if6 /\ c = IfV6) -> (forall x, x ∈ l <-> cand x) ->
  best c cand (head (omap f (sort_by key_le l))).
Proof.
  intros Hf Hc. pose proof (head_of_protocol f l) as Hh. unfold best.
  destruct (head _) as [i|] eqn:E.
  - destruct Hh as (x & Hx & Hfx). assert (x = c i) as -> by (destruct Hf as [[-> ->]|[-> ->]], x; simpl in *; congruence).
    split; [by apply Hc|]. intros j Hj. eapply least_of_protocol; [|exact E|by apply Hc|]; destruct Hf as [[-> ->]|[-> ->]]; auto.
  - intros j Hj%Hc. apply Hh in Hj. destruct Hf as [[-> ->]|[-> ->]]; done.
Qed.

(** The choice, protocol by protocol. *)
Lemma internet_interface_choice (w w1 w2 : W) p rs q rows :
  GetIpForwardTable2 w = (NO_ERROR, Some (p, rs), w1) ->
  GetUnicastIpAddressTable w1 = (NO_ERROR, Some (q, rows), w2) ->
  match (get_internet_interfaces w).1 with
  | Ok (v4, v6) => best IfV4 (candidate rs rows w2) v4 /\ best IfV6 (candidate rs rows w2) v6
                   /\ (v4 <> None \/ v6 <> None)
  | Err _ => forall i, ~ candidate rs rows w2 i
  end.
Proof.
  intros H1 H2. unfold get_internet_interfaces, get_potential_internet_interfaces.
  rewrite H1. simpl. rewrite H2. simpl.
  pose proof (candidates_spec rs rows w2) as Hc.
  set (l := get_internet_interfaces_from_routes rs (addresses_by_luid rows) w2) in *.
  destruct (sort_by key_le l) as [|x s] eqn:E; simpl.
  - intros i Hi%Hc. apply (elem_of_sort_by key_le) in Hi. rewrite E in Hi. set_solver.
  - assert (Hb : forall f c, (f = as_if4 /\ c = IfV4) \/ (f = as_if6 /\ c = IfV6) ->
      best c (candidate rs rows w2) (head (omap f (x :: s)))) by (intros; rewrite <- E; by eapply best_of_protocol).
    split_and!; [apply (Hb as_if4); auto|apply (Hb as_if6); auto|]. destruct x; [left|right]; done.
Qed.

(** C23.  With both tables at hand, an error is answered exactly when there is no
    candidate; otherwise the interface answered for each protocol is up, is not
    the tunnel's own, has a default route and an address of that protocol, and
    no other such address has a lower effective metric; none is answered only
    when the protocol has no candidate. *)
Theorem internet_interface_best (w w1 w2 : W) p rs q rows :
  GetIpForwardTable2 w = (NO_ERROR, Some (p, rs), w1) ->
  GetUnicastIpAddressTable w1 = (NO_ERROR, Some (q, rows), w2) ->
  match (get_internet_interfaces w).1 with
  | Ok (v4, v6) => best IfV4 (candidate rs rows w2) v4 /\ best IfV6 (candidate rs rows w2) v6
                   /\ (v4 <> None \/ v6 <> None)
  | Err _ => forall i, ~ candidate rs rows w2 i
  end.
Proof. apply internet_interface_choice. Qed.

(** What the three system calls preserve, the search preserves. *)
Lemma finder_preserves {A} (f : W -> A) (w : W) :
  (forall w, f (GetIpForwardTable2 w).2 = f w) -> (forall w, f (GetUnicastIpAddressTable w).2 = f w) ->
  (forall p w, f (FreeMibTable p w) = f w) -> f (get_internet_interfaces w).2 = f w.
Proof.
  intros Ht Ha Hf. unfold get_internet_interfaces, get_potential_internet_interfaces.
  pose proof (Ht w) as E1. destruct (GetIpForwardTable2 w) as [[st t] w1]; simpl in *.
  destruct (negb _); [done|]. destruct t as [[p rs]|]; [|done].
  pose proof (Ha w1) as E2. destruct (GetUnicastIpAddressTable w1) as [[st' t'] w2]; simpl in *.
  destruct (negb _); [|destruct t' as [[q rows]|]]; simpl; rewrite ?Hf; congruence.
Qed.

Context `{!WinNetLaws W}.

Lemma finder_keeps (w : W) :
  routes (get_internet_interfaces w).2 = routes w /\ stored (get_internet_interfaces w).2 = stored w.
Proof.
  split; apply finder_preserves; intros; (apply get_table_routes || apply get_addresses_routes || apply free_routes).
Qed.

(** Looking for the interfaces frees every table it allocates, on every
    path, and frees no other table. *)
Lemma interfaces_free_tables (w : W) : live (get_internet_interfaces w).2 = live w.
Proof.
  unfold get_internet_interfaces, get_potential_internet_interfaces.
  destruct (GetIpForwardTable2 w) as [[st t] w1] eqn:E1. apply get_table_live in E1.
  destruct (st =? NO_ERROR) eqn:Es; simpl.
  2: { apply Z.eqb_neq in Es. destruct t as [[]|]; simpl; [by rewrite decide_False in E1|done]. }
  apply Z.eqb_eq in Es. destruct t as [[p rs]|]; simpl; [|done].
  rewrite decide_True in E1 by done. destruct E1 as [Hp E1].
  destruct (GetUnicastIpAddressTable w1) as [[st' t'] w2] eqn:E2. apply get_addresses_live in E2.
  destruct (st' =? NO_ERROR) eqn:Es'; simpl.
  2: { apply Z.eqb_neq in Es'. rewrite free_live.
       assert (live w2 = live w1) as -> by (destruct t' as [[]|]; [by rewrite decide_False in E2|done]).
       rewrite E1. set_solver. }
  apply Z.eqb_eq in Es'. destruct t' as [[q rows]|]; simpl; rewrite ?free_live.
  - rewrite decide_True in E2 by done. destruct E2 as [Hq E2]. rewrite E2, E1. set_solver.
  - rewrite E2, E1. set_solver.
Qed.
End finder_spec.
