(* ===== verification/WinRoutes.v ===== *)
(** * Windows: the routes of a connection

    [src/connection/windows/helpers/routing_table.rs] and [routes.rs]: the
    routes of the tunnel's interface, and the host routes that keep the traffic
    to the servers on the internet interface, which are remembered in the
    registry ([src/utils/windows/registry_editor.rs]) and removed at the end. *)

From S2P Require Import Prelude Types Net Vectors WinNet LocalIpFinder.

Local Open Scope Z_scope.

(** ** Routes *)

(** [Ipv4Route] and [Ipv6Route]. *)
Record IpRoute := {
  destination_ip_addr : Z;
  destination_prefix_length : Z;
  next_hop_address : option Z;
  route_interface_index : Z;
}.

Inductive Route :=
| RouteV4 (r : IpRoute)
| RouteV6 (r : IpRoute).

Inductive RouteCreationError :=
| AlreadyExists
| ProtocolDisabled
| UnknownRouteError (msg : string).

Inductive RouteDeletionSuccess := Deleted | NotFound.

(** The serialization that [serde] derives for [Route]. *)
Class RouteJson := {
  route_to_json : Route -> result string string;
  route_from_json : string -> result Route string;
}.

Class RouteJsonLaws `{RouteJson} := {
  route_json_roundtrip r : exists s, route_to_json r = Ok s /\ s <> "" /\ route_from_json s = Ok r;
}.

Section routing_table.
Context {W : Type} `{WinNet W}.

(** Assignment of the fields of [SOCKADDR_INET]. *)
Definition sockaddr_v4 (sa : SOCKADDR_INET) (a : Z) : SOCKADDR_INET :=
  {| si_family := AF_INET; S_addr := from_le_bytes (octets4 a); sin6_Byte := sin6_Byte sa |}.
Definition sockaddr_v6 (sa : SOCKADDR_INET) (a : Z) : SOCKADDR_INET :=
  {| si_family := AF_INET6; S_addr := S_addr sa; sin6_Byte := octets6 a |}.

Definition create_ipv4_mib_ipforward_row (route : IpRoute) : MIB_IPFORWARD_ROW2 :=
  let row := InitializeIpForwardEntry in
  {| DestinationPrefix := sockaddr_v4 (DestinationPrefix row) (destination_ip_addr route);
     PrefixLength := destination_prefix_length route;
     NextHop := match next_hop_address route with
                | Some a => sockaddr_v4 (NextHop row) a
                | None => NextHop row
                end;
     InterfaceLuid := InterfaceLuid row;
     InterfaceIndex := route_interface_index route;
     Metric := 1 |}.

Definition create_ipv6_mib_ipforward_row (route : IpRoute) : MIB_IPFORWARD_ROW2 :=
  let row := InitializeIpForwardEntry in
  {| DestinationPrefix := sockaddr_v6 (DestinationPrefix row) (destination_ip_addr route);
     PrefixLength := destination_prefix_length route;
     NextHop := match next_hop_address route with
                | Some a => sockaddr_v6 (NextHop row) a
                | None => NextHop row
                end;
     InterfaceLuid := InterfaceLuid row;
     InterfaceIndex := route_interface_index route;
     Metric := 1 |}.

Definition add_v4_route (route : IpRoute) (w : W) : result () RouteCreationError * W :=
  let '(st, w) := CreateIpForwardEntry2 (create_ipv4_mib_ipforward_row route) w in
  (if st =? NO_ERROR then Ok ()
   else if st =? ERROR_OBJECT_ALREADY_EXISTS then Err AlreadyExists
   else Err (UnknownRouteError (pretty st)), w).

Definition add_v6_route (route : IpRoute) (w : W) : result () RouteCreationError * W :=
  let '(st, w) := CreateIpForwardEntry2 (create_ipv6_mib_ipforward_row route) w in
  (if st =? NO_ERROR then Ok ()
   else if st =? ERROR_OBJECT_ALREADY_EXISTS then Err AlreadyExists
   else if st =? ERROR_NOT_FOUND then Err ProtocolDisabled
   else Err (UnknownRouteError (pretty st)), w).

Definition add_route (route : Route) (w : W) : result () RouteCreationError * W :=
  match route with RouteV4 r => add_v4_route r w | RouteV6 r => add_v6_route r w end.

(** The result of [DeleteIpForwardEntry2]. *)
Definition deletion_result (st : Z) : result RouteDeletionSuccess string :=
  if st =? NO_ERROR then Ok Deleted
  else if st =? ERROR_OBJECT_NOT_FOUND then Ok NotFound
  else Err (pretty st).

Definition delete_v4_route (route : IpRoute) (w : W) : result RouteDeletionSuccess string * W :=
  let '(st, w) := DeleteIpForwardEntry2 (create_ipv4_mib_ipforward_row route) w in (deletion_result st, w).

Definition delete_v6_route (route : IpRoute) (w : W) : result RouteDeletionSuccess string * W :=
  let '(st, w) := DeleteIpForwardEntry2 (create_ipv6_mib_ipforward_row route) w in (deletion_result st, w).

Definition delete_route (route : Route) (w : W) : result RouteDeletionSuccess string * W :=
  match route with RouteV4 r => delete_v4_route r w | RouteV6 r => delete_v6_route r w end.

Definition get_interface_rows (interface_index : Z) (w : W) : list MIB_IPFORWARD_ROW2 * W :=
  let '(error, table, w) := GetIpForwardTable2 w in
  if negb (error =? NO_ERROR) then ([], w)
  else match table with
  | None => ([], w)
  | Some (table_ptr, rows) =>
      (retain (fun r => InterfaceIndex r =? interface_index) rows, FreeMibTable table_ptr w)
  end.

Definition delete_rows (rows : list MIB_IPFORWARD_ROW2) (w : W)
    : list (result RouteDeletionSuccess string) * W :=
  foldl (fun '(results, w) row =>
    let '(st, w) := DeleteIpForwardEntry2 row w in (results ++ [deletion_result st], w)) ([], w) rows.

Definition delete_routes (interface_index : Z) (w : W) : list (result RouteDeletionSuccess string) * W :=
  let '(rows, w) := get_interface_rows interface_index w in delete_rows rows w.

(** ** [registry_editor.rs] *)

(** [filter(|s| s.len() > 0).cloned().collect().distinct()]. *)
Definition clean_routes (l : list string) : list string :=
  distinct (retain (fun s => negb (String.length s =? 0)%nat) l).

Definition get_created_routes (w : W) : list string :=
  if reg_open w then
    match reg_get_routes w with Some l => clean_routes l | None => [] end
  else [].

Definition set_created_routes (l : list string) (w : W) : W :=
  let l := clean_routes l in
  let '(opened, w) := reg_create w in
  if opened then (reg_set_routes l w).2 else w.

(** ** [routes.rs] *)

Record Routes := { routes_interface_index : Z }.

Definition create_ipv4_host_route (server_ip : Z) (nh : option Z) (idx : Z) : IpRoute :=
  {| destination_ip_addr := server_ip; destination_prefix_length := 32;
     next_hop_address := nh; route_interface_index := idx |}.
Definition create_ipv4_local_agent_route (server_ip idx : Z) : IpRoute :=
  create_ipv4_host_route server_ip None idx.
Definition create_ipv4_any_route (idx : Z) : IpRoute :=
  {| destination_ip_addr := 0; destination_prefix_length := 0;
     next_hop_address := None; route_interface_index := idx |}.
Definition create_ipv6_host_route (server_ip : Z) (nh : option Z) (idx : Z) : IpRoute :=
  {| destination_ip_addr := server_ip; destination_prefix_length := 128;
     next_hop_address := nh; route_interface_index := idx |}.
Definition create_ipv6_local_agent_route (server_ip idx : Z) : IpRoute :=
  create_ipv6_host_route server_ip None idx.
Definition create_ipv6_any_route (idx : Z) : IpRoute :=
  {| destination_ip_addr := 0; destination_prefix_length := 0;
     next_hop_address := None; route_interface_index := idx |}.

(** The body of the loop of [create_server_routes]. *)
Definition server_route (v4 v6 : option IpInternetInterface) (server_ip : IpAddr) : option Route :=
  match server_ip with
  | V4 a => match v4 with
            | Some i => Some (RouteV4 (create_ipv4_host_route a (Some (next_hop i)) (interface_index i)))
            | None => None
            end
  | V6 a => match v6 with
            | Some i => Some (RouteV6 (create_ipv6_host_route a (Some (next_hop i)) (interface_index i)))
            | None => None
            end
  end.

Definition create_server_routes (server_ips : list IpAddr) (w : W) : result (list Route) ProTunFatalError * W :=
  let '(r, w) := get_internet_interfaces w in
  (result_bind r (fun '(v4, v6) =>
     Ok (foldl (fun result ip => match server_route v4 v6 ip with
                                 | Some r => result ++ [r]
                                 | None => result
                                 end) [] server_ips)), w).

Context `{RouteJson}.

(** The loop that adds the server routes and records those that are new. *)
Definition add_server_routes (rs : list Route) (created : list string) (w : W) : list string * W :=
  foldl (fun '(created, w) route =>
    let '(r, w) := add_route route w in
    (match r with
     | Ok _ => match route_to_json route with Ok s => created ++ [s] | Err _ => created end
     | Err _ => created
     end, w)) (created, w) rs.

Definition Routes_create (server_ipv4_addr : Z) (server_ipv6_addr : option Z) (idx : Z)
    (server_ips : list IpAddr) (w : W) : result Routes ProTunFatalError * W :=
  let '(_, w) := add_v4_route (create_ipv4_local_agent_route server_ipv4_addr idx) w in
  let '(_, w) := add_v4_route (create_ipv4_any_route idx) w in
  let w := match server_ipv6_addr with
           | Some a =>
               let '(_, w) := add_v6_route (create_ipv6_local_agent_route a idx) w in
               (add_v6_route (create_ipv6_any_route idx) w).2
           | None => w
           end in
  let created_routes := get_created_routes w in
  let '(r, w) := create_server_routes server_ips w in
  match r with
  | Err e => (Err e, w)
  | Ok rs =>
      let '(created_routes, w) := add_server_routes rs created_routes w in
      (Ok {| routes_interface_index := idx |}, set_created_routes created_routes w)
  end.

(** The loop of [delete_created_routes]. *)
Definition delete_recorded (created : list string) (w : W) : list string * W :=
  foldl (fun '(reinsert, w) created_route =>
    match route_from_json created_route with
    | Ok route =>
        let '(r, w) := delete_route route w in
        (match r with Err _ => reinsert ++ [created_route] | Ok _ => reinsert end, w)
    | Err _ => (reinsert, w)
    end) ([], w) created.

Definition delete_created_routes (w : W) : W :=
  let '(reinsert, w) := delete_recorded (get_created_routes w) w in
  set_created_routes reinsert w.

Definition Routes_delete (self : Routes) (w : W) : W :=
  let '(_, w) := delete_routes (routes_interface_index self) w in
  delete_created_routes w.
End routing_table.

(** ** Rows in log messages *)

(** The view [u.Word] of the sixteen bytes as [u16] in the machine's order. *)
Fixpoint sin6_Word (l : list Z) : list Z :=
  match l with
  | b0 :: b1 :: l => from_le_bytes [b0; b1] :: sin6_Word l
  | _ => []
  end.

Definition sockaddr_to_string (ip : SOCKADDR_INET) : string :=
  if si_family ip =? AF_INET then ipv4_to_string (from_be_bytes (to_le_bytes 4 (S_addr ip)))
  else if si_family ip =? AF_INET6 then ipv6_to_string (ipv6_new (sin6_Word (sin6_Byte ip)))
  else "".

Definition row_to_string (row : MIB_IPFORWARD_ROW2) : string :=
  sockaddr_to_string (DestinationPrefix row) +:+ "/" +:+ pretty (PrefixLength row) +:+ " -> "
  +:+ sockaddr_to_string (NextHop row) +:+ " interface " +:+ pretty (InterfaceIndex row)
  +:+ " (Metric " +:+ pretty (Metric row) +:+ ")".

(** [Display] of [Ipv4Route] and [Ipv6Route]. *)
Definition ipv4_route_to_string (r : IpRoute) : string :=
  ipv4_to_string (destination_ip_addr r) +:+ "/" +:+ pretty (destination_prefix_length r) +:+ " -> "
  +:+ (match next_hop_address r with Some a => ipv4_to_string a | None => "On-link" end)
  +:+ " interface " +:+ pretty (route_interface_index r).
Definition ipv6_route_to_string (r : IpRoute) : string :=
  ipv6_to_string (destination_ip_addr r) +:+ "/" +:+ pretty (destination_prefix_length r) +:+ " -> "
  +:+ (match next_hop_address r with Some a => ipv6_to_string a | None => "On-link" end)
  +:+ " interface " +:+ pretty (route_interface_index r).

(** An IPv4 address is printed as it is. *)
Lemma ipv4_logged sa a :
  0 <= a < 2 ^ 32 -> sockaddr_to_string (sockaddr_v4 sa a) = ipv4_to_string a.
Proof.
  intros. unfold sockaddr_to_string. cbn [si_family S_addr sockaddr_v4]. rewrite Z.eqb_refl.
  f_equal. by apply (u32_network_order a).
Qed.

(** The groups of an IPv6 address are printed with their bytes swapped:
    [2001:db8::1] shows as [120:b80d::100]. *)
Lemma ipv6_logged_swapped sa :
  let a := 0x20010db8 * 2 ^ 96 + 1 in
  ipv6_to_string a = "2001:db8::1" /\ sockaddr_to_string (sockaddr_v6 sa a) = "120:b80d::100".
Proof. vm_compute. by split. Qed.

(** ** What the routes are *)

Lemma sockaddr_v4_ip sa a :
  0 <= a < 2 ^ 32 -> sockaddr_inet_to_ip_addr (sockaddr_v4 sa a) = Some (V4 a).
Proof.
  intros. unfold sockaddr_inet_to_ip_addr. cbn [si_family S_addr sockaddr_v4].
  by rewrite Z.eqb_refl, u32_network_order.
Qed.

Lemma sockaddr_v6_ip sa a :
  0 <= a < 2 ^ 128 -> sockaddr_inet_to_ip_addr (sockaddr_v6 sa a) = Some (V6 a).
Proof.
  intros. unfold sockaddr_inet_to_ip_addr. cbn [si_family sin6_Byte sockaddr_v6].
  change (AF_INET6 =? AF_INET) with false. cbn match. unfold octets6.
  by rewrite Z.eqb_refl, (from_to_be_bytes 16).
Qed.

(** The rows of a route carry its addresses in network byte order: reading
    the prefix and the next hop back, as is done for the rows of the system's
    routing table, gives the route's addresses. *)
Lemma route_rows_roundtrip {W} `{WinNet W} (r : IpRoute) a nh :
  destination_ip_addr r = a -> next_hop_address r = Some nh ->
  (0 <= a < 2 ^ 32 -> 0 <= nh < 2 ^ 32 ->
   let row := create_ipv4_mib_ipforward_row r in
   sockaddr_inet_to_ip_addr (DestinationPrefix row) = Some (V4 a)
   /\ sockaddr_inet_to_ip_addr (NextHop row) = Some (V4 nh))
  /\ (0 <= a < 2 ^ 128 -> 0 <= nh < 2 ^ 128 ->
   let row := create_ipv6_mib_ipforward_row r in
   sockaddr_inet_to_ip_addr (DestinationPrefix row) = Some (V6 a)
   /\ sockaddr_inet_to_ip_addr (NextHop row) = Some (V6 nh)).
Proof.
  intros <- Hnh. unfold create_ipv4_mib_ipforward_row, create_ipv6_mib_ipforward_row. rewrite Hnh.
  split; intros Ha Hn; cbn [DestinationPrefix NextHop].
  - by rewrite !sockaddr_v4_ip.
  - by rewrite !sockaddr_v6_ip.
Qed.

Section routes_spec.
Context {W : Type} `{WinNet W} `{!RouteJson}.

(** Every server address gets a host route over the internet interface of
    its protocol, through that interface's gateway and in the given order;
    addresses of a protocol without internet are left out, and without any
    internet interface the error is passed on. *)
Lemma server_routes_spec (server_ips : list IpAddr) (w : W) :
  (create_server_routes server_ips w).1
  = match (get_internet_interfaces w).1 with
    | Ok (v4, v6) => Ok (omap (server_route v4 v6) server_ips)
    | Err e => Err e
    end.
Proof.
  unfold create_server_routes. destruct (get_internet_interfaces w) as [[[v4 v6]|e] w']; simpl; [|done].
  f_equal. induction server_ips as [|ip l IH] using rev_ind; [done|].
  rewrite foldl_snoc, IH, omap_app. simpl. destruct (server_route v4 v6 ip); simpl; by rewrite ?app_nil_r.
Qed.

Definition row_of (r : Route) : MIB_IPFORWARD_ROW2 :=
  match r with RouteV4 r => create_ipv4_mib_ipforward_row r | RouteV6 r => create_ipv6_mib_ipforward_row r end.

Context `{!WinNetLaws W}.

Definition rid (r : Route) : positive := route_id (row_of r).

Lemma add_route_spec r (w : W) res w' :
  add_route r w = (res, w') ->
  stored w' = stored w /\
  match res with
  | Ok _ => rid r ∉ routes w /\ routes w' = {[rid r]} ∪ routes w
  | Err _ => routes w' = routes w
  end.
Proof.
  unfold add_route, add_v4_route, add_v6_route, rid.
  destruct r as [r|r]; simpl; destruct (CreateIpForwardEntry2 _ w) as [st w1] eqn:E;
    apply create_entry in E as [Hs E]; intros [= <- <-]; (split; [done|]);
    repeat case_match; try done; case_decide; simplify_eq; try done;
    rewrite ?Z.eqb_eq, ?Z.eqb_neq in *; naive_solver.
Qed.

Lemma add_route_iface r (w : W) res w' idx :
  add_route r w = (res, w') -> InterfaceIndex (row_of r) = idx ->
  stored w' = stored w /\ filter (fun id => route_iface id <> idx) (routes w')
                          = filter (fun id => route_iface id <> idx) (routes w).
Proof.
  intros E Hi. apply add_route_spec in E as [-> E]. split; [done|].
  assert (route_iface (rid r) = idx) by (unfold rid; by rewrite route_id_iface).
  destruct res; [destruct E as [_ ->]|by rewrite E]. set_solver.
Qed.

Lemma delete_entry_spec row (w : W) st w' :
  DeleteIpForwardEntry2 row w = (st, w') ->
  stored w' = stored w /\
  match deletion_result st with
  | Ok _ => routes w' = routes w ∖ {[route_id row]}
  | Err _ => routes w' = routes w
  end.
Proof.
  intros E. apply delete_entry in E as [Hs E]. split; [done|]. unfold deletion_result.
  destruct (Z.eqb_spec st NO_ERROR); [by rewrite decide_True in E|].
  rewrite decide_False in E by done. destruct E as [-> Hn].
  destruct (Z.eqb_spec st ERROR_OBJECT_NOT_FOUND); [|done]. apply Hn in e. set_solver.
Qed.

Lemma delete_route_eq r (w : W) :
  delete_route r w = (deletion_result (DeleteIpForwardEntry2 (row_of r) w).1, (DeleteIpForwardEntry2 (row_of r) w).2).
Proof.
  unfold delete_route, delete_v4_route, delete_v6_route.
  destruct r; simpl; by destruct (DeleteIpForwardEntry2 _ w).
Qed.

Lemma delete_route_spec r (w : W) res w' :
  delete_route r w = (res, w') ->
  stored w' = stored w /\
  match res with Ok _ => routes w' = routes w ∖ {[rid r]} | Err _ => routes w' = routes w end.
Proof.
  rewrite delete_route_eq. intros [= <- <-]. by apply delete_entry_spec; destruct (DeleteIpForwardEntry2 _ w).
Qed.

(** [clean_routes] keeps the non-empty entries. *)
Lemma elem_of_clean_routes s l : s ∈ clean_routes l <-> s ∈ l /\ s <> "".
Proof.
  unfold clean_routes. rewrite elem_of_distinct, elem_of_retain.
  destruct s; simpl; naive_solver.
Qed.

(** The routes that the entries stand for. *)
Definition recorded (l : list string) : list Route :=
  omap (fun s => match route_from_json s with Ok r => Some r | Err _ => None end) l.

Lemma elem_of_recorded l r : r ∈ recorded l <-> exists s, s ∈ l /\ route_from_json s = Ok r.
Proof.
  unfold recorded. rewrite list_elem_of_omap.
  split; intros (s & Hs & E); exists s; destruct (route_from_json s); naive_solver.
Qed.

Lemma recorded_snoc l s :
  recorded (l ++ [s]) = recorded l ++ (match route_from_json s with Ok r => [r] | Err _ => [] end).
Proof. unfold recorded. rewrite omap_app. simpl. by destruct (route_from_json s). Qed.

(** One by one, a deletion removes the route or puts the entry back. *)
Lemma delete_recorded_spec l (w : W) kept w' :
  delete_recorded l w = (kept, w') ->
  stored w' = stored w
  /\ routes w' ⊆ routes w
  /\ (forall id, id ∈ routes w -> id ∉ routes w' -> id ∈ rid <$> recorded l)
  /\ (forall s r, s ∈ l -> route_from_json s = Ok r -> rid r ∈ routes w' -> s ∈ kept).
Proof.
  unfold delete_recorded. revert kept w'. induction l as [|s l IH] using rev_ind; intros kept w'.
  { intros [= <- <-]. by split_and!. }
  rewrite foldl_snoc, recorded_snoc. destruct (foldl _ _ l) as [kept1 w1].
  destruct (IH _ _ eq_refl) as (Hs & Hsub & Hrec & Hk). clear IH.
  setoid_rewrite fmap_app. setoid_rewrite elem_of_app. setoid_rewrite list_elem_of_singleton.
  destruct (route_from_json s) as [r|e] eqn:Ej.
  2: { intros [= <- <-]. split_and!; [done|done|eauto|]. intros s' r' [Hin| ->]; [eauto|congruence]. }
  destruct (delete_route r w1) as [res w2] eqn:Ed. apply delete_route_spec in Ed as [Hs2 Ed].
  intros [= <- <-]. destruct res as [ok|err]; rewrite Ed.
  - split_and!; [congruence|clear -Hsub; set_solver| |].
    + intros id Hin Hout. destruct (decide (id = rid r)) as [->|Hne]; [right; apply list_elem_of_fmap; exists r; by rewrite list_elem_of_singleton|].
      left. apply Hrec; [done|]. clear -Hout Hne. set_solver.
    + intros s' r' [Hin| ->] Hj [Hr Hne]%elem_of_difference; [eauto|].
      assert (r' = r) as -> by congruence. by rewrite elem_of_singleton in Hne.
  - split_and!; [congruence|done|eauto|]. intros s' r' Hin Hj Hr.
    rewrite elem_of_app, list_elem_of_singleton. destruct Hin as [Hin| ->]; eauto.
Qed.

(** Whether the value [l] can be written, and what writing it does. *)
Definition registry_written (l : list string) (w : W) : bool :=
  (reg_create w).1 && (reg_set_routes (clean_routes l) (reg_create w).2).1.

Lemma set_created_routes_stored l (w : W) :
  routes (set_created_routes l w) = routes w
  /\ stored (set_created_routes l w) = if registry_written l w then clean_routes l else stored w.
Proof.
  unfold set_created_routes, registry_written. cbv zeta. pose proof (reg_create_same w) as [Hs Hr].
  destruct (reg_create w) as [[|] w1]; simpl in *; [|done].
  destruct (reg_set_routes (clean_routes l) w1) as [b w2] eqn:E. apply reg_set_stored in E as [Hr2 Hs2].
  simpl. by rewrite Hr2, Hs2, Hs, Hr.
Qed.

(** C22.  [delete_created_routes], whatever the deletions and the registry answer.
    When the record of created routes can be read, only routes recorded there are
    removed, and a recorded route that could not be removed stays recorded, even
    if the record cannot be written.  When it cannot be read, no route is removed,
    and the record is emptied, if it can be written: then, and only then, are
    routes forgotten. *)
Theorem created_routes_not_forgotten (w : W) :
  let w' := delete_created_routes w in
  match (if reg_open w then reg_get_routes w else None) with
  | Some _ =>
      routes w' ⊆ routes w
      /\ (forall id, id ∈ routes w -> id ∉ routes w' -> exists r, r ∈ recorded (stored w) /\ rid r = id)
      /\ (forall s r, s ∈ stored w -> s <> "" -> route_from_json s = Ok r -> rid r ∈ routes w' -> s ∈ stored w')
  | None =>
      routes w' = routes w
      /\ stored w' = if (reg_create w).1 && (reg_set_routes [] (reg_create w).2).1 then [] else stored w
  end.
Proof.
  cbv zeta. unfold delete_created_routes, get_created_routes.
  assert (forall l, reg_get_routes w = Some l -> l = stored w) as Hread by apply reg_get_read.
  destruct (if reg_open w then reg_get_routes w else None) as [l|] eqn:Er.
  - assert (reg_open w = true /\ reg_get_routes w = Some l) as [-> Hl] by (destruct (reg_open w); done).
    rewrite Hl, (Hread l Hl). destruct (delete_recorded (clean_routes (stored w)) w) as [kept w1] eqn:E.
    apply delete_recorded_spec in E as (Hs1 & Hsub & Hrec & Hk).
    destruct (set_created_routes_stored kept w1) as [-> ->]. split_and!; [done| |].
    + intros id Hin Hout. destruct (list_elem_of_fmap_1 _ _ _ (Hrec id Hin Hout)) as (r & -> & (s & Hs & Hj)%elem_of_recorded).
      apply elem_of_clean_routes in Hs as [Hs _]. exists r. rewrite elem_of_recorded. eauto.
    + intros s r Hs Hne Hj Hr. destruct (registry_written kept w1); [|by rewrite Hs1].
      apply elem_of_clean_routes. split; [|done]. eapply Hk; [|done..]. by apply elem_of_clean_routes.
  - assert ((if reg_open w then match reg_get_routes w with Some l => clean_routes l | None => [] end else []) = []) as ->
      by (destruct (reg_open w); [by rewrite Er|done]).
    apply (set_created_routes_stored [] w).
Qed.

Context `{!RegistryWorks W}.

Lemma get_created_routes_spec (w : W) : get_created_routes w = clean_routes (stored w).
Proof.
  unfold get_created_routes. destruct (reg_open w) eqn:E.
  - rewrite <- reg_get_stored. by destruct (reg_get_routes w).
  - by rewrite (reg_no_key w).
Qed.

Lemma set_created_routes_spec l (w : W) :
  routes (set_created_routes l w) = routes w /\ stored (set_created_routes l w) = clean_routes l.
Proof.
  destruct (set_created_routes_stored l w) as [-> ->]. unfold registry_written. by rewrite reg_create_ok, reg_set_ok.
Qed.

(** Routes of other interfaces than [idx]. *)
Definition others (idx : Z) (X : gset positive) : gset positive :=
  filter (fun id => route_iface id <> idx) X.

Lemma others_removed idx X Y : others idx (others idx X ∖ Y) = others idx X ∖ Y.
Proof. unfold others. apply set_eq. intros id. rewrite elem_of_filter, elem_of_difference, elem_of_filter. naive_solver. Qed.

Context `{!RouteJsonLaws}.

(** The loop over the server routes adds some routes that did not exist and
    records exactly those. *)
Lemma add_server_routes_spec rs created (w : W) created' w' :
  add_server_routes rs created w = (created', w') ->
  stored w' = stored w
  /\ exists new names, created' = created ++ names
     /\ routes w' = list_to_set (rid <$> new) ∪ routes w
     /\ Forall2 (fun r s => s <> "" /\ route_from_json s = Ok r) new names
     /\ Forall (fun r => rid r ∉ routes w) new.
Proof.
  unfold add_server_routes. revert created' w'. induction rs as [|r rs IH] using rev_ind; intros created' w'.
  { intros [= <- <-]. split; [done|]. exists [], []. rewrite app_nil_r. split_and!; try constructor. set_solver. }
  rewrite foldl_snoc. destruct (foldl _ _ rs) as [c1 w1].
  destruct (IH _ _ eq_refl) as (Hs & new & names & -> & Hr & Hj & Hn). clear IH.
  destruct (add_route r w1) as [res w2] eqn:Ea. apply add_route_spec in Ea as [Hs2 Ea].
  intros [= <- <-]. split; [congruence|]. destruct res as [u|e].
  - destruct Ea as [Hfresh Ea]. destruct (route_json_roundtrip r) as (s & -> & Hne & Hrt).
    exists (new ++ [r]), (names ++ [s]). split_and!; [by rewrite app_assoc| |by apply Forall2_app; repeat constructor|].
    + rewrite Ea, Hr, fmap_app, list_to_set_app_L. simpl. clear. set_solver.
    + apply Forall_app. split; [done|]. constructor; [|done]. rewrite Hr in Hfresh. clear -Hfresh. set_solver.
  - exists new, names. by rewrite Ea.
Qed.

Lemma recorded_names new names :
  Forall2 (fun r s => s <> "" /\ route_from_json s = Ok r) new names -> recorded names = new.
Proof.
  induction 1 as [|r s new names [_ Hj] _ IH]; [done|]. unfold recorded in *. simpl. rewrite Hj. by f_equal.
Qed.

(** Cleaning the entries loses none of the routes. *)
Lemma recorded_clean_app l new names :
  Forall2 (fun r s => s <> "" /\ route_from_json s = Ok r) new names ->
  list_to_set (rid <$> recorded (clean_routes (clean_routes (clean_routes l ++ names))))
  =@{gset positive} list_to_set (rid <$> recorded (clean_routes l)) ∪ list_to_set (rid <$> new).
Proof.
  intros Hn. apply set_eq. intros id.
  rewrite elem_of_union, !elem_of_list_to_set, !list_elem_of_fmap.
  rewrite <- (recorded_names new names Hn). setoid_rewrite elem_of_recorded.
  setoid_rewrite elem_of_clean_routes. setoid_rewrite elem_of_clean_routes. setoid_rewrite elem_of_app.
  assert (Hne : forall s, s ∈ names -> s <> "").
  { intros s Hs. eapply Forall2_Forall_r in Hn; [|apply Forall_forall; intros r _ s' [Hs' _]; exact Hs'].
    by eapply Forall_forall in Hn. }
  setoid_rewrite elem_of_clean_routes. naive_solver.
Qed.

(** With deletions that do not fail. *)
Context (deletes_ok : forall row (w : W), is_ok (deletion_result (DeleteIpForwardEntry2 row w).1) = true).

Lemma delete_rows_routes rows (w : W) :
  stored (delete_rows rows w).2 = stored w
  /\ routes (delete_rows rows w).2 = routes w ∖ list_to_set (route_id <$> rows).
Proof.
  unfold delete_rows. induction rows as [|row rows IH] using rev_ind; [simpl; set_solver|].
  rewrite foldl_snoc. destruct (foldl _ _ rows) as [res w1]; simpl in IH. destruct IH as [Hs IH].
  pose proof (deletes_ok row w1) as Hok. destruct (DeleteIpForwardEntry2 row w1) as [st w2] eqn:E.
  apply delete_entry_spec in E as [Hs2 E]. simpl in *. destruct (deletion_result st); [|done].
  split; [congruence|]. rewrite E, IH, fmap_app, list_to_set_app_L. simpl. clear. set_solver.
Qed.

Lemma delete_recorded_routes l (w : W) :
  (delete_recorded l w).1 = []
  /\ routes (delete_recorded l w).2 = routes w ∖ list_to_set (rid <$> recorded l).
Proof.
  unfold delete_recorded. induction l as [|s l IH] using rev_ind; [simpl; set_solver|].
  rewrite foldl_snoc, recorded_snoc. destruct (foldl _ _ l) as [kept w1]; simpl in IH. destruct IH as [-> IH].
  destruct (route_from_json s) as [r|e]; [|by rewrite app_nil_r].
  destruct (delete_route r w1) as [res w2] eqn:E. pose proof (deletes_ok (row_of r) w1) as Hok.
  pose proof E as E'. rewrite delete_route_eq in E'. injection E' as Hres _. rewrite Hres in Hok.
  apply delete_route_spec in E as [_ E]. destruct res; [|done]. simpl. split; [done|].
  rewrite E, IH, fmap_app, list_to_set_app_L. simpl. clear. set_solver.
Qed.

Context (table_ok : forall w : W, exists p rs w', GetIpForwardTable2 w = (NO_ERROR, Some (p, rs), w')).

Lemma delete_routes_routes idx (w : W) :
  stored (delete_routes idx w).2 = stored w /\ routes (delete_routes idx w).2 = others idx (routes w).
Proof.
  unfold delete_routes, get_interface_rows. destruct (table_ok w) as (p & rs & w1 & E).
  pose proof (table_rows w p rs w1 E) as Hrows. pose proof (get_table_routes w) as [Hr Hs].
  rewrite E in *. simpl in *. pose proof (free_routes p w1) as [Hr2 Hs2].
  destruct (delete_rows_routes (retain (fun r => InterfaceIndex r =? idx) rs) (FreeMibTable p w1)) as [-> ->].
  split; [congruence|]. rewrite Hr2, Hr. apply set_eq. intros id. unfold others.
  rewrite elem_of_filter, elem_of_difference, elem_of_list_to_set, list_elem_of_fmap.
  split; intros [Ha Hb].
  - split; [|done]. intros Hi. apply Hb. apply Hrows in Ha as (row & Hin & <-).
    exists row. split; [done|]. apply elem_of_retain. rewrite route_id_iface in Hi. by rewrite Z.eqb_eq.
  - split; [done|]. intros (row & -> & [Hi%Z.eqb_eq _]%elem_of_retain). apply Ha. by rewrite route_id_iface.
Qed.

(** The routes of the tunnel's interface that [create] adds. *)
Lemma add_interface_routes a4 (a6 : option Z) idx (w : W) :
  let w1 := (add_v4_route (create_ipv4_local_agent_route a4 idx) w).2 in
  let w2 := (add_v4_route (create_ipv4_any_route idx) w1).2 in
  let w3 := match a6 with
            | Some a => (add_v6_route (create_ipv6_any_route idx)
                          (add_v6_route (create_ipv6_local_agent_route a idx) w2).2).2
            | None => w2
            end in
  stored w3 = stored w /\ others idx (routes w3) = others idx (routes w).
Proof.
  assert (Hstep : forall r (w w' : W), InterfaceIndex (row_of r) = idx -> w' = (add_route r w).2 ->
    stored w' = stored w /\ others idx (routes w') = others idx (routes w)).
  { intros r u u' Hi ->. destruct (add_route r u) as [res u'] eqn:E. by eapply add_route_iface. }
  intros w1 w2 w3.
  destruct (Hstep (RouteV4 (create_ipv4_local_agent_route a4 idx)) w w1 eq_refl eq_refl) as [Hs1 Hr1].
  destruct (Hstep (RouteV4 (create_ipv4_any_route idx)) w1 w2 eq_refl eq_refl) as [Hs2 Hr2].
  subst w3. destruct a6 as [a|]; [|split; congruence].
  set (w3 := (add_v6_route (create_ipv6_local_agent_route a idx) w2).2).
  destruct (Hstep (RouteV6 (create_ipv6_local_agent_route a idx)) w2 w3 eq_refl eq_refl) as [Hs3 Hr3].
  destruct (Hstep (RouteV6 (create_ipv6_any_route idx)) w3 _ eq_refl eq_refl) as [Hs4 Hr4].
  cbn [add_route] in *. split; congruence.
Qed.

(** Creating and deleting, with nothing but the routes of the interface changed
    in between. *)
Lemma routes_created_deleted a4 a6 idx server_ips (w w1 : W) rt :
  Routes_create a4 a6 idx server_ips w = (Ok rt, w1) ->
  forall w2, others idx (routes w2) = others idx (routes w1) -> stored w2 = stored w1 ->
  routes_interface_index rt = idx
  /\ routes (Routes_delete rt w2)
     = others idx (routes w) ∖ list_to_set (rid <$> recorded (clean_routes (stored w)))
  /\ stored (Routes_delete rt w2) = [].
Proof.
  unfold Routes_create. pose proof (add_interface_routes a4 a6 idx w) as Hif. cbv zeta in Hif.
  destruct (add_v4_route _ w) as [? wa]; cbn [snd] in Hif.
  destruct (add_v4_route _ wa) as [? wb]; cbn [snd] in Hif.
  set (wc := match a6 with Some _ => _ | None => wb end).
  assert (stored wc = stored w /\ others idx (routes wc) = others idx (routes w)) as [Hsc Hrc].
  { subst wc. destruct a6; [|exact Hif]. destruct (add_v6_route _ wb). exact Hif. }
  clearbody wc. clear Hif. rewrite get_created_routes_spec, Hsc.
  assert (Hk : routes (create_server_routes server_ips wc).2 = routes wc
               /\ stored (create_server_routes server_ips wc).2 = stored wc).
  { pose proof (finder_keeps wc) as Hf. unfold create_server_routes. by destruct (get_internet_interfaces wc). }
  destruct (create_server_routes server_ips wc) as [[rs|e] wd]; simpl in Hk; [|done]. destruct Hk as [Hrd Hsd].
  destruct (add_server_routes rs _ wd) as [created we] eqn:Ea.
  apply add_server_routes_spec in Ea as (_ & new & names & -> & Hre & Hj & Hfresh).
  intros [= <- <-] w2 Hr2 Hs2. split; [done|]. unfold Routes_delete. simpl.
  set (wf := set_created_routes (clean_routes (stored w) ++ names) we) in *. pose proof (set_created_routes_spec (clean_routes (stored w) ++ names) we) as [Hrf Hsf].
  fold wf in Hrf, Hsf. pose proof (delete_routes_routes idx w2) as [Hsg Hrg].
  destruct (delete_routes idx w2) as [? wg]; simpl in *. rewrite <- Hs2 in Hsf. unfold delete_created_routes.
  rewrite get_created_routes_spec, Hsg, Hsf.
  set (entries := clean_routes (clean_routes _)). destruct (delete_recorded_routes entries wg) as [Hkept Hrh].
  destruct (delete_recorded entries wg) as [kept wh]; simpl in *. subst kept.
  destruct (set_created_routes_spec [] wh) as [-> ->]. split; [|done].
  rewrite Hrh, Hrg, Hr2, Hrf, Hre, Hrd.
  assert (Hl : list_to_set (rid <$> recorded entries)
    =@{gset positive} list_to_set (rid <$> recorded (clean_routes (stored w))) ∪ list_to_set (rid <$> new))
    by (by apply recorded_clean_app).
  rewrite Hl, <- Hrc. unfold others. apply set_eq. intros id.
  rewrite !elem_of_difference, !elem_of_filter, !elem_of_union, !elem_of_list_to_set.
  split; [tauto|]. intros ((Hi & Hin) & Hout). split; [tauto|]. intros [?|(r1 & -> & Hr)%list_elem_of_fmap]; [done|].
  eapply Forall_forall in Hfresh; [|exact Hr]. apply Hfresh. by rewrite Hrd.
Qed.

(** Creating the routes of a connection and deleting them at its end leaves
    the routing table as it was, apart from the tunnel's own interface, whose
    routes are removed, and the routes left recorded by an earlier run, which are
    removed too: routes that other programs had created are kept, even when they
    are the same as a server route. *)
Lemma routes_create_delete a4 a6 idx server_ips (w w1 : W) rt :
  Routes_create a4 a6 idx server_ips w = (Ok rt, w1) ->
  routes (Routes_delete rt w1)
  = others idx (routes w) ∖ list_to_set (rid <$> recorded (clean_routes (stored w)))
  /\ stored (Routes_delete rt w1) = [].
Proof.
  intros E. by destruct (routes_created_deleted _ _ _ _ _ _ _ E w1 eq_refl eq_refl) as (_ & ? & ?).
Qed.
End routes_spec.
