(* ===== verification/WinErrors.v ===== *)
(** * Windows: what a socket error means

    [src/utils/windows/io_error.rs]: whether an error of a socket call is fatal
    for the stream or only means that nothing can be done now. *)

From S2P Require Import Prelude Types.

Local Open Scope Z_scope.

(** Temporary on UDP, fatal on TCP. *)
Definition WSAEACCES : Z := 10013.
Definition WSAENETUNREACH : Z := 10051.
Definition WSAENETRESET : Z := 10052.
Definition WSAECONNABORTED : Z := 10053.
Definition WSAECONNRESET : Z := 10054.
Definition WSAETIMEDOUT : Z := 10060.
Definition WSAECONNREFUSED : Z := 10061.
Definition WSAEHOSTUNREACH : Z := 10065.

(** Fatal on both. *)
Definition WSA_INVALID_HANDLE : Z := 6.
Definition WSAEBADF : Z := 10009.
Definition WSAEFAULT : Z := 10014.
Definition WSAEINVAL : Z := 10022.
Definition WSAEMFILE : Z := 10024.
Definition WSAENOTSOCK : Z := 10038.
Definition WSAEDESTADDRREQ : Z := 10039.
Definition WSAEPROTONOSUPPORT : Z := 10043.
Definition WSAESOCKTNOSUPPORT : Z := 10044.
Definition WSAEOPNOTSUPP : Z := 10045.
Definition WSAEAFNOSUPPORT : Z := 10047.
Definition WSAEADDRINUSE : Z := 10048.
Definition WSAEADDRNOTAVAIL : Z := 10049.
Definition WSAENETDOWN : Z := 10050.
Definition WSAESHUTDOWN : Z := 10058.
Definition WSAEPROCLIM : Z := 10067.
Definition WSASYSNOTREADY : Z := 10091.
Definition WSAVERNOTSUPPORTED : Z := 10092.
Definition WSANOTINITIALISED : Z := 10093.
Definition WSAEPROVIDERFAILEDINIT : Z := 10106.

Inductive Transport := UDP | TCP.
Inductive SocketErrorAction := FatalSocketError | ActionWouldBlock.

#[global] Instance SocketErrorAction_eq_dec : EqDecision SocketErrorAction.
Proof. solve_decision. Defined.

(** The patterns of the two matches. *)
Definition udp_fatal : list Z :=
  [WSA_INVALID_HANDLE; WSAEBADF; WSAEFAULT; WSAEINVAL; WSAEMFILE; WSAENOTSOCK; WSAEDESTADDRREQ;
   WSAEPROTONOSUPPORT; WSAESOCKTNOSUPPORT; WSAEOPNOTSUPP; WSAEAFNOSUPPORT; WSAEADDRINUSE;
   WSAEADDRNOTAVAIL; WSAENETDOWN; WSAESHUTDOWN; WSAEPROCLIM; WSASYSNOTREADY; WSAVERNOTSUPPORTED;
   WSANOTINITIALISED; WSAEPROVIDERFAILEDINIT].
Definition tcp_fatal : list Z :=
  [WSA_INVALID_HANDLE; WSAEBADF; WSAEFAULT; WSAEINVAL; WSAEMFILE; WSAENOTSOCK; WSAEDESTADDRREQ;
   WSAEPROTONOSUPPORT; WSAESOCKTNOSUPPORT; WSAEOPNOTSUPP; WSAEAFNOSUPPORT; WSAEADDRINUSE;
   WSAEADDRNOTAVAIL; WSAENETDOWN; WSAESHUTDOWN; WSAEPROCLIM; WSASYSNOTREADY; WSAVERNOTSUPPORTED;
   WSANOTINITIALISED; WSAEPROVIDERFAILEDINIT; WSAEACCES; WSAENETUNREACH; WSAENETRESET;
   WSAECONNABORTED; WSAECONNRESET; WSAETIMEDOUT; WSAECONNREFUSED; WSAEHOSTUNREACH].

Definition to_socket_error_action (e : io_error) (transport : Transport) : SocketErrorAction :=
  if decide (kind e = WouldBlockKind) then ActionWouldBlock
  else match raw_os_error e with
  | Some err_code =>
      match transport with
      | UDP => if decide (err_code ∈ udp_fatal) then FatalSocketError else ActionWouldBlock
      | TCP => if decide (err_code ∈ tcp_fatal) then FatalSocketError else ActionWouldBlock
      end
  | None => ActionWouldBlock
  end.

Definition is_fatal (transport : Transport) (e : io_error) : bool :=
  bool_decide (to_socket_error_action e transport = FatalSocketError).

(** The codes the comment lists as temporary on UDP and fatal on TCP. *)
Definition udp_only_temporary : list Z :=
  [WSAEACCES; WSAENETUNREACH; WSAENETRESET; WSAECONNABORTED; WSAECONNRESET; WSAETIMEDOUT;
   WSAECONNREFUSED; WSAEHOSTUNREACH].

Lemma elem_of_tcp_fatal c : c ∈ tcp_fatal <-> c ∈ udp_fatal \/ c ∈ udp_only_temporary.
Proof. change tcp_fatal with (udp_fatal ++ udp_only_temporary). apply elem_of_app. Qed.

Lemma udp_fatal_disjoint c : c ∈ udp_fatal -> c ∉ udp_only_temporary.
Proof.
  assert (Forall (fun c => c ∉ udp_only_temporary) udp_fatal) as Hf
    by (apply (bool_decide_unpack _); vm_compute; exact I).
  intros Hc. by eapply Forall_forall in Hf.
Qed.

Lemma fatal_not_would_block t e : is_fatal t e = true -> kind e <> WouldBlockKind.
Proof.
  unfold is_fatal, to_socket_error_action. intros Hf Hk. by rewrite decide_True in Hf by done.
Qed.

Lemma is_fatal_udp_tcp e : is_fatal UDP e = true -> is_fatal TCP e = true.
Proof.
  unfold is_fatal, to_socket_error_action. repeat case_decide; try done.
  destruct (raw_os_error e) as [c|]; [|done]. repeat case_decide; try done.
  exfalso. rewrite elem_of_tcp_fatal in *. tauto.
Qed.

(** An error is judged by transport as the tables say: what is fatal for a
    UDP stream is fatal for a TCP stream; the two judgements differ exactly on
    the eight errors that a connectionless socket survives; and an error that
    is a plain would-block, or carries no system code, is never fatal. *)
Lemma socket_error_action_spec (e : io_error) :
  (is_fatal UDP e = true -> is_fatal TCP e = true)
  /\ (is_fatal TCP e = true /\ is_fatal UDP e = false
      <-> kind e <> WouldBlockKind /\ exists c, raw_os_error e = Some c /\ c ∈ udp_only_temporary)
  /\ (kind e = WouldBlockKind \/ raw_os_error e = None -> is_fatal TCP e = false).
Proof.
  split; [apply is_fatal_udp_tcp|].
  unfold is_fatal, to_socket_error_action. destruct (decide (kind e = WouldBlockKind)) as [Hk|Hk].
  { split; [naive_solver|done]. }
  destruct (raw_os_error e) as [c|]; [|naive_solver]. split; [|naive_solver].
  pose proof (elem_of_tcp_fatal c). pose proof (udp_fatal_disjoint c).
  repeat case_decide; split; intros Hx; naive_solver.
Qed.
