(* ===== verification/WinSockets.v ===== *)
(** * Windows: TCP and UDP sockets

    [src/connection/windows/tcp.rs], [udp.rs] and [helpers/socket_handle.rs].  A
    socket is a [Device] with the Winsock calls of the class [WinSocket]; a
    stream keeps it together with its event and two readiness flags.  Both
    streams are shown to behave as their mio counterparts on a socket whose
    errors are classified by [to_socket_error_action]. *)

From S2P Require Import Prelude Types Streams WinErrors.

(** ** Winsock *)

(** [take_error] reads and clears the pending error; [enum_network_events] is
    the field [lNetworkEvents] that [WSAEnumNetworkEvents] fills in for the
    socket, zero when the call fails, and clears the record. *)
Class WinSocket (K : Type) := {
  take_error : K -> io_result (option io_error) * K;
  enum_network_events : K -> Z * K;
}.

Definition FD_READ : Z := 1.
Definition FD_WRITE : Z := 2.

(** [raw_socket] is the socket of the stream that owns the handle. *)
Record SocketHandle := { handle : Z; event : Z }.
Record SocketEvent := { ev_is_readable : bool; ev_is_writable : bool }.
Record WindowsStreamState := { st_is_readable : bool; st_is_writable : bool }.

(** [trait WindowsStream]. *)
Class WindowsStream (T : Type) := {
  win_handle : T -> Z;
  win_has_error : T -> bool * T;
  win_get_state : T -> WindowsStreamState * T;
}.

Section sockets.
Context {K : Type} `{Device K} `{WinSocket K}.

Definition get_events (k : K) : SocketEvent * K :=
  let '(lNetworkEvents, k) := enum_network_events k in
  ({| ev_is_readable := negb (Z.land lNetworkEvents FD_READ =? 0)%Z;
      ev_is_writable := negb (Z.land lNetworkEvents FD_WRITE =? 0)%Z |}, k).

(** [has_error] of both sockets. *)
Definition socket_has_error (k : K) : bool * K :=
  let '(r, k) := take_error k in
  (match r with Ok None => false | Ok (Some _) => true | Err _ => true end, k).

(** ** tcp.rs *)

Record WinTcpStream := {
  wt_socket : K;
  wt_write_buffer : list (list byte);
  wt_socket_handle : SocketHandle;
  wt_is_readable : bool;
  wt_is_writable : bool;
}.

Definition wt_with (k : K) (buf : list (list byte)) (r w : bool) (t : WinTcpStream) : WinTcpStream :=
  {| wt_socket := k; wt_write_buffer := buf; wt_socket_handle := wt_socket_handle t;
     wt_is_readable := r; wt_is_writable := w |}.

Definition win_tcp_has_error (t : WinTcpStream) : bool * WinTcpStream :=
  let '(b, k) := socket_has_error (wt_socket t) in
  (b, wt_with k (wt_write_buffer t) (wt_is_readable t) (wt_is_writable t) t).

Definition win_tcp_get_state (t : WinTcpStream) : WindowsStreamState * WinTcpStream :=
  let '(events, k) := get_events (wt_socket t) in
  let r := wt_is_readable t || ev_is_readable events in
  let w := wt_is_writable t || ev_is_writable events in
  ({| st_is_readable := r; st_is_writable := w |}, wt_with k (wt_write_buffer t) r w t).

Definition win_tcp_read (buf : list byte) (t : WinTcpStream)
  : (StreamResult * list byte) * WinTcpStream :=
  let '(ret, k) := dev_read (length buf) (wt_socket t) in
  let t' r := wt_with k (wt_write_buffer t) r (wt_is_writable t) t in
  let pending_write := PendingWrite_from (negb (bool_decide (wt_write_buffer t = []))) in
  match ret with
  | Ok data =>
      if decide (length data = 0) then ((StreamClosed, buf), t' false)
      else ((stream_ok (length data) WouldBlockNo pending_write, fill buf data), t' true)
  | Err e =>
      match to_socket_error_action e TCP with
      | FatalSocketError => ((StreamErr e, buf), t' false)
      | ActionWouldBlock => ((stream_ok 0 WouldBlockYes pending_write, buf), t' false)
      end
  end.

(** The [loop] of [write_from_buffer], with at most [fuel] iterations. *)
Fixpoint win_tcp_flush (fuel : nat) (bytes_written : nat) : M WinTcpStream StreamResult :=
  fun t =>
    match wt_write_buffer t with
    | [] => Ret (stream_ok bytes_written WouldBlockNo PendingNo,
                 wt_with (wt_socket t) [] (wt_is_readable t) true t)
    | data :: rest =>
        match fuel with
        | O => NoFuel
        | S fuel =>
            match dev_write data (wt_socket t) with
            | (Ok count, k) =>
                win_tcp_flush fuel (bytes_written + count)
                  (wt_with k (if decide (count < length data) then drop count data :: rest else rest)
                     (wt_is_readable t) (wt_is_writable t) t)
            | (Err e, k) =>
                Ret (match to_socket_error_action e TCP with
                     | FatalSocketError => StreamErr e
                     | ActionWouldBlock => stream_ok bytes_written WouldBlockYes PendingYes
                     end, wt_with k (data :: rest) (wt_is_readable t) false t)
            end
        end
    end.

Definition win_tcp_write_from_buffer (fuel : nat) : M WinTcpStream StreamResult := win_tcp_flush fuel 0.

Definition win_tcp_write (fuel : nat) (data : list byte) : M WinTcpStream StreamResult :=
  modify (fun t => wt_with (wt_socket t) (wt_write_buffer t ++ [data]) (wt_is_readable t) (wt_is_writable t) t) ;;
  win_tcp_write_from_buffer fuel.

Definition win_tcp_shutdown_write (t : WinTcpStream) : WinTcpStream :=
  wt_with (dev_shutdown (wt_socket t)) (wt_write_buffer t) (wt_is_readable t) (wt_is_writable t) t.

Definition win_tcp_set_option (_ : SocketOption) (t : WinTcpStream) : WinTcpStream := t.

(** ** udp.rs *)

Record WinUdpStream := {
  wu_socket : K;
  wu_socket_handle : SocketHandle;
  wu_is_readable : bool;
  wu_is_writable : bool;
}.

Definition wu_with (k : K) (r w : bool) (t : WinUdpStream) : WinUdpStream :=
  {| wu_socket := k; wu_socket_handle := wu_socket_handle t; wu_is_readable := r; wu_is_writable := w |}.

Definition win_udp_has_error (t : WinUdpStream) : bool * WinUdpStream :=
  let '(b, k) := socket_has_error (wu_socket t) in (b, wu_with k (wu_is_readable t) (wu_is_writable t) t).

Definition win_udp_get_state (t : WinUdpStream) : WindowsStreamState * WinUdpStream :=
  let '(events, k) := get_events (wu_socket t) in
  let r := wu_is_readable t || ev_is_readable events in
  let w := wu_is_writable t || ev_is_writable events in
  ({| st_is_readable := r; st_is_writable := w |}, wu_with k r w t).

Definition win_udp_read (buf : list byte) (t : WinUdpStream)
  : (StreamResult * list byte) * WinUdpStream :=
  let '(ret, k) := dev_read (length buf) (wu_socket t) in
  match ret with
  | Ok data => ((stream_ok (length data) WouldBlockNo PendingNo, fill buf data),
                wu_with k true (wu_is_writable t) t)
  | Err e =>
      ((match to_socket_error_action e UDP with
        | FatalSocketError => StreamErr e
        | ActionWouldBlock => stream_ok 0 WouldBlockYes PendingNo
        end, buf), wu_with k false (wu_is_writable t) t)
  end.

Definition win_udp_write (data : list byte) : M WinUdpStream StreamResult := fun t =>
  let '(ret, k) := dev_write data (wu_socket t) in
  match ret with
  | Ok size => Ret (stream_ok size WouldBlockNo PendingNo, wu_with k (wu_is_readable t) true t)
  | Err e =>
      Ret (match to_socket_error_action e UDP with
           | FatalSocketError => StreamErr e
           | ActionWouldBlock => stream_ok 0 WouldBlockYes PendingNo
           end, wu_with k (wu_is_readable t) false t)
  end.

Definition win_udp_write_from_buffer : M WinUdpStream StreamResult :=
  mret (stream_ok 0 WouldBlockNo PendingNo).

#[global] Instance WinTcpStream_WindowsStream : WindowsStream WinTcpStream := {
  win_handle t := handle (wt_socket_handle t);
  win_has_error := win_tcp_has_error;
  win_get_state := win_tcp_get_state;
}.

#[global] Instance WinUdpStream_WindowsStream : WindowsStream WinUdpStream := {
  win_handle t := handle (wu_socket_handle t);
  win_has_error := win_udp_has_error;
  win_get_state := win_udp_get_state;
}.

#[global] Instance WinTcpStream_Stream (fuel : nat) : Stream WinTcpStream := {
  stream_read := win_tcp_read;
  stream_write := win_tcp_write fuel;
  stream_write_from_buffer := win_tcp_write_from_buffer fuel;
  stream_set_option := win_tcp_set_option;
  stream_shutdown_write := win_tcp_shutdown_write;
}.

#[global] Instance WinUdpStream_Stream : Stream WinUdpStream := {
  stream_read := win_udp_read;
  stream_write := win_udp_write;
  stream_write_from_buffer := win_udp_write_from_buffer;
  stream_set_option _ t := t;
  stream_shutdown_write t := t;
}.
End sockets.
Arguments WinTcpStream K : clear implicits.
Arguments WinUdpStream K : clear implicits.

(** ** A stream that behaves as another one *)

Definition outcome_map {A B} (f : A -> B) (o : outcome A) : outcome B :=
  match o with Ret a => Ret (f a) | Panic => Panic | NoFuel => NoFuel end.

(** Every method answers the same as that of the image under [abs]. *)
Class StreamSim (T T' : Type) `{Stream T, Stream T'} := {
  abs : T -> T';
  sim_read buf t : stream_read buf (abs t) = prod_map id abs (stream_read buf t);
  sim_write data t : stream_write data (abs t) = outcome_map (prod_map id abs) (stream_write data t);
  sim_flush t : stream_write_from_buffer (abs t) = outcome_map (prod_map id abs) (stream_write_from_buffer t);
  sim_shutdown t : stream_shutdown_write (abs t) = abs (stream_shutdown_write t);
}.

Section sim.
Context {T T' : Type} `{sim : StreamSim T T'}.

(** The laws carry over. *)
Lemma sim_laws `{!StreamLaws T'} : StreamLaws T.
Proof.
  split. intros buf t r buf' t' E. apply (read_in_bounds buf (abs t) r buf' (abs t')).
  by rewrite sim_read, E.
Qed.

Lemma sim_safe `{!StreamSafe T'} : StreamSafe T.
Proof.
  split.
  - intros data t E. apply (write_no_panic data (abs t)). by rewrite sim_write, E.
  - intros t E. apply (flush_no_panic (abs t)). by rewrite sim_flush, E.
Qed.
End sim.

(** ** Classified devices *)

(** The device [K] with errors that are not fatal turned into would-blocks. *)
Record Classified (tr : Transport) (K : Type) := Cl { cl_dev : K }.
Arguments Cl {tr K} _.
Arguments cl_dev {tr K} _.

Definition classify (tr : Transport) (e : io_error) : io_error :=
  if is_fatal tr e then e
  else {| kind := WouldBlockKind; raw_os_error := raw_os_error e; message := message e |}.

Lemma would_block_classify tr e : would_block (classify tr e) = negb (is_fatal tr e).
Proof.
  unfold classify, would_block. destruct (is_fatal tr e) eqn:E; simpl.
  - apply bool_decide_eq_false. by eapply fatal_not_would_block.
  - done.
Qed.

Lemma classify_fatal tr e : is_fatal tr e = true -> classify tr e = e.
Proof. unfold classify. by intros ->. Qed.

Section classified.
Context {K : Type} `{Device K} (tr : Transport).

Definition map_err {A} (r : io_result A) : io_result A :=
  match r with Ok a => Ok a | Err e => Err (classify tr e) end.

#[global] Instance Classified_Device : Device (Classified tr K) := {
  dev_read n d := prod_map map_err Cl (dev_read n (cl_dev d));
  dev_write data d := prod_map map_err Cl (dev_write data (cl_dev d));
  dev_shutdown d := Cl (dev_shutdown (cl_dev d));
}.

#[global] Instance Classified_laws `{!DeviceLaws K} : DeviceLaws (Classified tr K).
Proof.
  refine {| accepted d := accepted (cl_dev d) |}; simpl.
  - intros n [k] data [k'] E; simpl in E. destruct (dev_read n k) as [[d|e] k1] eqn:Ed; simplify_eq/=.
    exact (dev_read_bound n k _ _ Ed).
  - intros data [k] n [k'] E; simpl in E. destruct (dev_write data k) as [[m|e] k1] eqn:Ed; simplify_eq/=.
    exact (dev_write_ok data k _ _ Ed).
  - intros data [k] e [k'] E; simpl in E. destruct (dev_write data k) as [[m|e'] k1] eqn:Ed; simplify_eq/=.
    exact (dev_write_err data k _ _ Ed).
Defined.

#[global] Instance Classified_progress `{!DeviceProgress K} : DeviceProgress (Classified tr K).
Proof.
  intros data [k] n [k'] E. simpl in E. destruct (dev_write data k) as [[m|e] k1] eqn:Ed; simplify_eq/=.
  exact (dev_write_progress data k _ _ Ed).
Qed.
End classified.

Section sim_sockets.
Context {K : Type} `{Device K} `{WinSocket K}.

Definition abs_tcp (t : WinTcpStream K) : TcpSocketStream (Classified TCP K) :=
  {| tcp_sock := Cl (wt_socket t); write_buffer := wt_write_buffer t |}.
Definition abs_udp (t : WinUdpStream K) : UdpSocketStream (Classified UDP K) :=
  {| udp_sock := Cl (wu_socket t) |}.

(** The answer of both implementations to an error. *)
Lemma action_would_block tr e (ok : StreamResult) :
  (if would_block (classify tr e) then ok else StreamErr (classify tr e))
  = match to_socket_error_action e tr with FatalSocketError => StreamErr e | ActionWouldBlock => ok end.
Proof.
  rewrite would_block_classify. unfold classify, is_fatal. by destruct (to_socket_error_action e tr).
Qed.

Lemma win_tcp_flush_sim fuel bw (t : WinTcpStream K) :
  tcp_flush fuel bw (abs_tcp t) = outcome_map (prod_map id abs_tcp) (win_tcp_flush fuel bw t).
Proof.
  revert bw t. induction fuel as [|fuel IH]; intros bw [k buf h r w]; simpl; destruct buf as [|data rest]; try done.
  destruct (dev_write data k) as [[count|e] k'] eqn:E; simpl.
  - rewrite <- IH. done.
  - rewrite action_would_block. done.
Qed.

#[global] Instance WinTcp_sim (fuel : nat) : @StreamSim (WinTcpStream K) (TcpSocketStream (Classified TCP K))
  (WinTcpStream_Stream fuel) (TcpSocketStream_Stream fuel).
Proof.
  refine {| abs := abs_tcp |}; simpl.
  - intros buf [k wb h r w]. unfold tcp_read, win_tcp_read. simpl.
    destruct (dev_read (length buf) k) as [[data|e] k'] eqn:E; simpl.
    + case_decide; [done|]. by destruct wb.
    + rewrite would_block_classify. unfold classify, is_fatal.
      destruct (to_socket_error_action e TCP); simpl; [done|by destruct wb].
  - intros data t. apply (win_tcp_flush_sim fuel 0 (wt_with _ _ _ _ t)).
  - intros t. apply win_tcp_flush_sim.
  - done.
Defined.

#[global] Instance WinUdp_sim : @StreamSim (WinUdpStream K) (UdpSocketStream (Classified UDP K))
  WinUdpStream_Stream UdpSocketStream_Stream.
Proof.
  refine {| abs := abs_udp |}; simpl.
  - intros buf [k h r w]. unfold udp_read, win_udp_read. simpl.
    destruct (dev_read (length buf) k) as [[data|e] k'] eqn:E; simpl; [done|].
    by rewrite action_would_block.
  - intros data [k h r w]. unfold udp_write, win_udp_write. simpl.
    destruct (dev_write data k) as [[n|e] k'] eqn:E; simpl; [done|]. by rewrite action_would_block.
  - done.
  - done.
Defined.
End sim_sockets.

#[global] Instance WinTcpStream_laws {K} `{DeviceLaws K} fuel : @StreamLaws (WinTcpStream K) (WinTcpStream_Stream fuel).
Proof. apply (sim_laws (sim := WinTcp_sim fuel)). Qed.
#[global] Instance WinUdpStream_laws {K} `{DeviceLaws K} : StreamLaws (WinUdpStream K).
Proof. apply (sim_laws (sim := WinUdp_sim)). Qed.
#[global] Instance WinTcpStream_safe {K} `{DeviceLaws K} fuel : @StreamSafe (WinTcpStream K) (WinTcpStream_Stream fuel).
Proof. apply (sim_safe (sim := WinTcp_sim fuel)). Qed.
#[global] Instance WinUdpStream_safe {K} `{DeviceLaws K} : StreamSafe (WinUdpStream K).
Proof. apply (sim_safe (sim := WinUdp_sim)). Qed.

(** C35.  The Windows sockets answer as the mio sockets do on a socket whose
    errors are classified for the transport: same results, same bytes exchanged
    and same buffer, call by call. *)
Theorem win_sockets_as_mio {K} `{Device K} (fuel : nat) (buf data : list byte)
    (t : WinTcpStream K) (u : WinUdpStream K) :
  tcp_read buf (abs_tcp t) = prod_map id abs_tcp (win_tcp_read buf t)
  /\ tcp_write fuel data (abs_tcp t) = outcome_map (prod_map id abs_tcp) (win_tcp_write fuel data t)
  /\ tcp_write_from_buffer fuel (abs_tcp t)
     = outcome_map (prod_map id abs_tcp) (win_tcp_write_from_buffer fuel t)
  /\ udp_read buf (abs_udp u) = prod_map id abs_udp (win_udp_read buf u)
  /\ udp_write data (abs_udp u) = outcome_map (prod_map id abs_udp) (win_udp_write data u).
Proof.
  split_and!.
  - exact (sim_read (StreamSim := WinTcp_sim fuel) buf t).
  - exact (sim_write (StreamSim := WinTcp_sim fuel) data t).
  - exact (sim_flush (StreamSim := WinTcp_sim fuel) t).
  - exact (sim_read (StreamSim := WinUdp_sim) buf u).
  - exact (sim_write (StreamSim := WinUdp_sim) data u).
Qed.

(** ** Bytes and flags of a TCP stream *)

Section win_tcp_theorems.
Context {K : Type} `{DeviceLaws K}.

Definition win_tcp_outgoing (t : WinTcpStream K) : list byte :=
  accepted (wt_socket t) ++ concat (wt_write_buffer t).

(** The flag [is_writable] tells whether everything was handed over. *)
Lemma win_tcp_flush_writable fuel bw (t : WinTcpStream K) r t' :
  win_tcp_flush fuel bw t = Ret (r, t') ->
  (wt_is_writable t' = true <-> wt_write_buffer t' = [])
  /\ match r with StreamErr e => is_fatal TCP e = true | _ => True end.
Proof.
  revert bw t. induction fuel as [|fuel IH]; intros bw [k buf h rd w]; simpl; destruct buf as [|data rest]; try done.
  1, 2: by intros [= <- <-].
  destruct (dev_write data k) as [[count|e] k']; [apply IH|]. intros [= <- <-]. split; [done|].
  destruct (to_socket_error_action e TCP) eqn:Ea; [|done]. unfold is_fatal. by rewrite Ea.
Qed.

(** A Windows TCP stream neither loses, duplicates nor reorders outgoing
    bytes, and a write returns on a socket that makes progress; afterwards the
    stream counts as writable exactly when nothing is left in its buffer. *)
Lemma win_tcp_write_fifo `{!DeviceProgress K} (fuel : nat) (data : list byte) (t : WinTcpStream K) :
  length (concat (wt_write_buffer t)) + length (wt_write_buffer t) + length data + 1 <= fuel ->
  exists r t', win_tcp_write fuel data t = Ret (r, t')
    /\ win_tcp_outgoing t' = win_tcp_outgoing t ++ data
    /\ (wt_is_writable t' = true <-> wt_write_buffer t' = [])
    /\ match r with
       | StreamOk n _ _ pw =>
           length (accepted (wt_socket t')) = n + length (accepted (wt_socket t))
           /\ (pw = PendingYes <-> wt_is_writable t' = false)
       | StreamErr e => is_fatal TCP e = true
       | StreamClosed => False
       end.
Proof.
  intros Hf. set (t1 := wt_with (wt_socket t) (wt_write_buffer t ++ [data]) (wt_is_readable t) (wt_is_writable t) t).
  assert (Hwork : tcp_work (abs_tcp t1) <= fuel).
  { unfold tcp_work. simpl. rewrite concat_app, !length_app. simpl. rewrite app_nil_r. lia. }
  destruct (tcp_flush_terminates fuel 0 _ Hwork) as (r & t' & E).
  rewrite win_tcp_flush_sim in E.
  destruct (win_tcp_flush fuel 0 t1) as [[r1 t2]| |] eqn:Ew; [|done..]. simpl in E. injection E as <- <-.
  exists r1, t2. split; [done|].
  assert (Es : tcp_flush fuel 0 (abs_tcp t1) = Ret (r1, abs_tcp t2)) by (by rewrite win_tcp_flush_sim, Ew).
  apply win_tcp_flush_writable in Ew as [Hw He].
  apply tcp_flush_outgoing in Es as [Ho Hr]. split_and!.
  - unfold tcp_outgoing in Ho. simpl in Ho. unfold win_tcp_outgoing. rewrite Ho, concat_app. simpl.
    by rewrite app_nil_r, app_assoc.
  - done.
  - destruct r1 as [n off wb pw|e|]; [|done..].
    destruct Hr as (_ & Hn & Hpw & _). simpl in *. split; [lia|].
    destruct pw, (wt_is_writable t2); naive_solver.
Qed.
End win_tcp_theorems.

(** ** Readiness

    What Winsock documents of the [FD_READ] record of a socket with
    [WSAEventSelect]: data that arrives on an empty socket records the event, a
    [recv] that leaves data records it again, and [WSAEnumNetworkEvents] reports
    and clears it. *)
Class WinSocketLaws (K : Type) `{Device K, WinSocket K} := {
  has_data : K -> bool;
  fd_read : K -> bool;
  arrives : K -> K -> Prop;
  read_rearms n k r k' : dev_read n k = (r, k') -> has_data k' = true -> fd_read k' = true;
  write_keeps_ready data k r k' :
    dev_write data k = (r, k') -> has_data k' = has_data k /\ fd_read k' = fd_read k;
  shutdown_keeps_ready k : has_data (dev_shutdown k) = has_data k /\ fd_read (dev_shutdown k) = fd_read k;
  take_error_keeps_ready k r k' :
    take_error k = (r, k') -> has_data k' = has_data k /\ fd_read k' = fd_read k;
  enum_reports k l k' :
    enum_network_events k = (l, k') ->
    has_data k' = has_data k /\ (fd_read k = true -> Z.land l FD_READ <> 0%Z);
  arrival k k' :
    arrives k k' ->
    (fd_read k = true -> fd_read k' = true) /\ (has_data k = false -> has_data k' = true -> fd_read k' = true);
}.

(** A call of the loop on a stream, or data arriving at its socket. *)
Inductive win_step {T} `{Stream T, WindowsStream T} (env : T -> T -> Prop) : T -> T -> Prop :=
| win_step_read buf t r t' : stream_read buf t = (r, t') -> win_step env t t'
| win_step_write data t r t' : stream_write data t = Ret (r, t') -> win_step env t t'
| win_step_flush t r t' : stream_write_from_buffer t = Ret (r, t') -> win_step env t t'
| win_step_shutdown t : win_step env t (stream_shutdown_write t)
| win_step_state t r t' : win_get_state t = (r, t') -> win_step env t t'
| win_step_error t r t' : win_has_error t = (r, t') -> win_step env t t'
| win_step_env t t' : env t t' -> win_step env t t'.

Section readiness.
Context {K : Type} `{WinSocketLaws K}.

(** Data waiting at the socket is known to the stream or to Winsock. *)
Definition ready_inv (k : K) (flag : bool) : Prop := has_data k = true -> flag = true \/ fd_read k = true.

Lemma ready_inv_keep k k' flag :
  ready_inv k flag -> has_data k' = has_data k -> fd_read k' = fd_read k -> ready_inv k' flag.
Proof. unfold ready_inv. by intros Hi -> ->. Qed.

Lemma ready_inv_read n k r k' flag : dev_read n k = (r, k') -> ready_inv k' flag.
Proof. intros E Hd. right. by eapply read_rearms. Qed.

Lemma ready_inv_write data k r k' flag : dev_write data k = (r, k') -> ready_inv k flag -> ready_inv k' flag.
Proof. intros [Hd Hf]%write_keeps_ready Hi. by eapply ready_inv_keep. Qed.

Lemma ready_inv_shutdown k flag : ready_inv k flag -> ready_inv (dev_shutdown k) flag.
Proof. intros Hi. destruct (shutdown_keeps_ready k). by eapply ready_inv_keep. Qed.

Lemma ready_inv_error k b k' flag : socket_has_error k = (b, k') -> ready_inv k flag -> ready_inv k' flag.
Proof.
  unfold socket_has_error. destruct (take_error k) as [r k1] eqn:E. intros [= _ <-] Hi.
  apply take_error_keeps_ready in E as [Hd Hf]. by eapply ready_inv_keep.
Qed.

(** [get_state] reports waiting data. *)
Lemma ready_inv_events k ev k' flag :
  get_events k = (ev, k') -> ready_inv k flag ->
  (has_data k = true -> flag || ev_is_readable ev = true) /\ ready_inv k' (flag || ev_is_readable ev).
Proof.
  unfold get_events. destruct (enum_network_events k) as [l k1] eqn:E. intros [= <- <-] Hi. simpl.
  apply enum_reports in E as [Hd Hr].
  assert (Hrep : has_data k = true -> flag || negb (Z.land l FD_READ =? 0)%Z = true).
  { intros Hk. destruct (Hi Hk) as [->|Hf%Hr]; [done|]. apply Z.eqb_neq in Hf. by rewrite Hf, orb_true_r. }
  split; [done|]. intros Hk. left. apply Hrep. by rewrite <- Hd.
Qed.

Lemma ready_inv_arrival k k' flag : arrives k k' -> ready_inv k flag -> ready_inv k' flag.
Proof.
  intros [Hm Hn]%arrival Hi Hd. destruct (has_data k) eqn:E; [|auto].
  destruct (Hi E); auto.
Qed.

Definition env_tcp (t t' : WinTcpStream K) : Prop :=
  exists k', arrives (wt_socket t) k'
    /\ t' = wt_with k' (wt_write_buffer t) (wt_is_readable t) (wt_is_writable t) t.
Definition env_udp (t t' : WinUdpStream K) : Prop :=
  exists k', arrives (wu_socket t) k' /\ t' = wu_with k' (wu_is_readable t) (wu_is_writable t) t.

Definition tcp_ready (t : WinTcpStream K) : Prop := ready_inv (wt_socket t) (wt_is_readable t).
Definition udp_ready (t : WinUdpStream K) : Prop := ready_inv (wu_socket t) (wu_is_readable t).

Lemma win_tcp_flush_ready fuel bw (t : WinTcpStream K) r t' :
  win_tcp_flush fuel bw t = Ret (r, t') -> tcp_ready t -> tcp_ready t'.
Proof.
  unfold tcp_ready. revert bw t. induction fuel as [|fuel IH]; intros bw [k buf h rd w]; simpl;
    destruct buf as [|data rest]; try done.
  1, 2: by intros [= <- <-].
  destruct (dev_write data k) as [[count|e] k'] eqn:E; intros Hf Hi.
  - eapply IH; [exact Hf|]. simpl. by eapply ready_inv_write.
  - injection Hf as <- <-. simpl. by eapply ready_inv_write.
Qed.

Lemma win_tcp_step_ready fuel (t t' : WinTcpStream K) :
  @win_step _ (WinTcpStream_Stream fuel) _ env_tcp t t' -> tcp_ready t -> tcp_ready t'.
Proof.
  intros Hs Hi. inversion Hs as [buf ? r ? E|data ? r ? E|? r ? E|?|? r ? E|? b ? E|? ? (k' & Ha & ->)]; subst; simpl in *.
  - revert E. unfold win_tcp_read. destruct (dev_read _ _) as [[d|e] k'] eqn:E; intros E'; repeat case_match; simplify_eq/=;
      unfold tcp_ready; simpl; by eapply ready_inv_read.
  - exact (win_tcp_flush_ready fuel 0 (wt_with _ _ _ _ t) _ _ E Hi).
  - exact (win_tcp_flush_ready fuel 0 t _ _ E Hi).
  - by apply ready_inv_shutdown.
  - revert E. unfold win_tcp_get_state. destruct (get_events _) as [ev k'] eqn:E. intros [= <- <-].
    exact (proj2 (ready_inv_events _ _ _ _ E Hi)).
  - revert E. unfold win_tcp_has_error. destruct (socket_has_error _) as [b' k'] eqn:E. intros [= <- <-].
    exact (ready_inv_error _ _ _ _ E Hi).
  - by eapply ready_inv_arrival.
Qed.

Lemma win_udp_step_ready (t t' : WinUdpStream K) : win_step env_udp t t' -> udp_ready t -> udp_ready t'.
Proof.
  intros Hs Hi. inversion Hs as [buf ? r ? E|data ? r ? E|? r ? E|?|? r ? E|? b ? E|? ? (k' & Ha & ->)]; subst; simpl in *.
  - revert E. unfold win_udp_read. destruct (dev_read _ _) as [[d|e] k'] eqn:E; intros E'; simplify_eq/=;
      unfold udp_ready; simpl; by eapply ready_inv_read.
  - revert E. unfold win_udp_write. destruct (dev_write _ _) as [[d|e] k'] eqn:E; intros E'; simplify_eq/=;
      unfold udp_ready; simpl; by eapply ready_inv_write.
  - by injection E as <- <-.
  - done.
  - revert E. unfold win_udp_get_state. destruct (get_events _) as [ev k'] eqn:E. intros [= <- <-].
    exact (proj2 (ready_inv_events _ _ _ _ E Hi)).
  - revert E. unfold win_udp_has_error. destruct (socket_has_error _) as [b' k'] eqn:E. intros [= <- <-].
    exact (ready_inv_error _ _ _ _ E Hi).
  - by eapply ready_inv_arrival.
Qed.

(** C36.  No readiness is lost: after any calls on a Windows socket and arrivals
    of data, starting from a socket without data, the next poll reports the
    stream as readable whenever data is waiting. *)
Theorem win_readiness_not_lost (fuel : nat) (t0 t : WinTcpStream K) (u0 u : WinUdpStream K) :
  has_data (wt_socket t0) = false -> has_data (wu_socket u0) = false ->
  rtc (@win_step _ (WinTcpStream_Stream fuel) _ env_tcp) t0 t -> rtc (win_step env_udp) u0 u ->
  (has_data (wt_socket t) = true -> st_is_readable (win_tcp_get_state t).1 = true)
  /\ (has_data (wu_socket u) = true -> st_is_readable (win_udp_get_state u).1 = true).
Proof.
  intros Ht0 Hu0 Ht Hu.
  assert (tcp_ready t) as Hit.
  { eapply (rtc_invariant _ tcp_ready); [|exact Ht|]; [intros; by eapply win_tcp_step_ready|].
    intros Hd. congruence. }
  assert (udp_ready u) as Hiu.
  { eapply (rtc_invariant _ udp_ready); [|exact Hu|]; [intros; by eapply win_udp_step_ready|].
    intros Hd. congruence. }
  unfold win_tcp_get_state, win_udp_get_state. split.
  - destruct (get_events (wt_socket t)) as [ev k] eqn:E. exact (proj1 (ready_inv_events _ _ _ _ E Hit)).
  - destruct (get_events (wu_socket u)) as [ev k] eqn:E. exact (proj1 (ready_inv_events _ _ _ _ E Hiu)).
Qed.
End readiness.

(** ** A concrete socket

    Incoming messages in a queue, with the [FD_READ] record; writes go to a
    scripted device. *)
Record queue_socket := { qs_in : list (list byte); qs_fd_read : bool; qs_out : script_device }.

#[global] Instance queue_socket_Device : Device queue_socket := {
  dev_read n k :=
    match qs_in k with
    | [] => (Err would_block_error, {| qs_in := []; qs_fd_read := false; qs_out := qs_out k |})
    | d :: q => (Ok (take n d), {| qs_in := q; qs_fd_read := negb (bool_decide (q = [])); qs_out := qs_out k |})
    end;
  dev_write data k :=
    let '(r, o) := dev_write data (qs_out k) in
    (r, {| qs_in := qs_in k; qs_fd_read := qs_fd_read k; qs_out := o |});
  dev_shutdown k := k;
}.

#[global] Instance queue_socket_WinSocket : WinSocket queue_socket := {
  take_error k := (Ok None, k);
  enum_network_events k :=
    (if qs_fd_read k then FD_READ else 0%Z, {| qs_in := qs_in k; qs_fd_read := false; qs_out := qs_out k |});
}.

Lemma queue_write data (k : queue_socket) r k' :
  dev_write data k = (r, k') ->
  exists o, dev_write data (qs_out k) = (r, o)
    /\ k' = {| qs_in := qs_in k; qs_fd_read := qs_fd_read k; qs_out := o |}.
Proof.
  change (dev_write data k) with
    (let '(r, o) := dev_write data (qs_out k) in
     (r, {| qs_in := qs_in k; qs_fd_read := qs_fd_read k; qs_out := o |})).
  destruct (dev_write data (qs_out k)) as [r' o]. intros [= -> <-]. eauto.
Qed.

#[global] Program Instance queue_socket_laws : DeviceLaws queue_socket := { accepted k := sd_taken (qs_out k) }.
Next Obligation.
  simpl. intros n k data k'. destruct (qs_in k); intros; simplify_eq/=. rewrite length_take. lia.
Qed.
Next Obligation.
  intros data k n k' (o & Eo & ->)%queue_write. exact (dev_write_ok data _ n o Eo).
Qed.
Next Obligation.
  intros data k e k' (o & Eo & ->)%queue_write. exact (dev_write_err data _ e o Eo).
Qed.

#[global] Instance queue_socket_progress : DeviceProgress queue_socket.
Proof.
  intros data k n k' (o & Eo & ->)%queue_write. exact (dev_write_progress data _ n o Eo).
Qed.

Definition queue_arrives (k k' : queue_socket) : Prop :=
  exists d, k' = {| qs_in := qs_in k ++ [d];
                    qs_fd_read := if qs_in k then true else qs_fd_read k; qs_out := qs_out k |}.

#[global] Instance queue_socket_win_laws : WinSocketLaws queue_socket.
Proof.
  refine {| has_data k := negb (bool_decide (qs_in k = [])); fd_read := qs_fd_read; arrives := queue_arrives |}.
  - intros n k r k'; simpl. destruct (qs_in k); intros; by simplify_eq/=.
  - by intros data k r k' (o & Eo & ->)%queue_write.
  - done.
  - by intros k r k' [= _ <-].
  - intros k l k' [= <- <-]. split; [done|]. by destruct (qs_fd_read k).
  - intros k k' [d ->]. simpl. destruct (qs_in k); [done|]. done.
Defined.

Definition empty_socket : queue_socket := {| qs_in := []; qs_fd_read := false; qs_out := slow_socket |}.
Definition win_tcp0 : WinTcpStream queue_socket :=
  {| wt_socket := empty_socket; wt_write_buffer := []; wt_socket_handle := {| handle := 5; event := 5 |};
     wt_is_readable := false; wt_is_writable := false |}.
Definition win_udp0 : WinUdpStream queue_socket :=
  {| wu_socket := empty_socket; wu_socket_handle := {| handle := 6; event := 6 |};
     wu_is_readable := false; wu_is_writable := false |}.

(** After an arrival. *)
Definition full_socket : queue_socket := {| qs_in := [bytes3]; qs_fd_read := true; qs_out := slow_socket |}.

Lemma win_readiness_not_lost_witness :
  st_is_readable (win_tcp_get_state (wt_with full_socket [] false false win_tcp0)).1 = true
  /\ st_is_readable (win_udp_get_state (wu_with full_socket false false win_udp0)).1 = true.
Proof.
  assert (Ht : rtc (@win_step _ (WinTcpStream_Stream 5) _ env_tcp) win_tcp0 (wt_with full_socket [] false false win_tcp0)).
  { apply rtc_once. apply win_step_env. exists full_socket. split; [by exists bytes3|done]. }
  assert (Hu : rtc (win_step env_udp) win_udp0 (wu_with full_socket false false win_udp0)).
  { apply rtc_once. apply win_step_env. exists full_socket. split; [by exists bytes3|done]. }
  pose proof (win_readiness_not_lost 5 win_tcp0 (wt_with full_socket [] false false win_tcp0) win_udp0
    (wu_with full_socket false false win_udp0)) as Hw.
  destruct (Hw eq_refl eq_refl Ht Hu) as [H1 H2].
  split; [by apply H1|by apply H2].
Defined.

Lemma win_tcp_write_fifo_witness :
  exists r t', win_tcp_write 4 bytes3 win_tcp0 = Ret (r, t') /\ win_tcp_outgoing t' = bytes3.
Proof.
  destruct (win_tcp_write_fifo 4 bytes3 win_tcp0) as (r & t' & E & Ho & _); [vm_compute; lia|].
  exists r, t'. split; [exact E|exact Ho].
Defined.
