(* ===== verification/WinSocketFactory.v ===== *)
(** * Windows: opening and dropping sockets

    The constructors of [src/connection/windows/tcp.rs] and [udp.rs] with
    [helpers/socket_handle.rs]: a socket is bound to the local address of the
    internet interface, configured, connected and given an event.  What a
    failing step leaves open is accounted for. *)

From S2P Require Import Prelude Types Streams Net Vectors WinNet LocalIpFinder WinErrors WinSockets.

Local Open Scope Z_scope.

(** [SocketConfig] of [src/api/windows/connection_windows.rs]. *)
Record SocketConfig := { send_buffer_size_bytes : Z; receive_buffer_size_bytes : Z }.

(** The calls of Winsock, [std::net] and [socket2]; [W] is the state of the
    system, [K] that of a socket. *)
Class WinSockets (W K : Type) := {
  udp_bind : SocketAddr -> W -> io_result K * W;
  socket_new : Z -> W -> io_result K * W;
  sock_bind : SocketAddr -> K -> io_result () * K;
  sock_set_nonblocking : bool -> K -> io_result () * K;
  sock_connect : SocketAddr -> K -> io_result () * K;
  WSAIoctl_udp_connreset : Z -> K -> io_result () * K;
  sock_set_send_buffer_size : Z -> K -> io_result () * K;
  sock_set_recv_buffer_size : Z -> K -> io_result () * K;
  sock_close : K -> W -> W;
  WSACreateEvent : W -> result Z string * W;
  WSAEventSelect : Z -> Z -> K -> Z * K;
  WSACloseEvent : Z -> W -> W;
}.

Section factory.
Context {W K : Type} `{WinNet W} `{WinSockets W K}.

(** ** [SocketHandle] *)

Definition SocketHandle_new (k : K) (w : W) : io_result SocketHandle * K * W :=
  match WSACreateEvent w with
  | (Err error, w) => (Err (io_error_new OtherKind error), k, w)
  | (Ok ev, w) =>
      let '(select_result, k) := WSAEventSelect ev (Z.lor FD_READ FD_WRITE) k in
      if select_result =? 0 then (Ok {| handle := ev; event := ev |}, k, w)
      else (Err (io_error_new OtherKind "Cannot create socket event handle: WSAEventSelect failed"), k, w)
  end.

Definition SocketHandle_drop (h : SocketHandle) (w : W) : W := WSACloseEvent (event h) w.

(** ** UDP *)

Definition disable_connection_reset (k : K) : io_result () * K := WSAIoctl_udp_connreset 0 k.

Definition set_buffer_sizes (cfg : SocketConfig) (k : K) : K :=
  let '(_, k) := sock_set_send_buffer_size (send_buffer_size_bytes cfg) k in
  let '(_, k) := sock_set_recv_buffer_size (receive_buffer_size_bytes cfg) k in k.

(** The local address of the remote address's protocol, port zero. *)
Definition local_socket_address (remote : SocketAddr) (w : W) : io_result SocketAddr * W :=
  match sa_ip remote with
  | V4 _ =>
      match get_ipv4_internet_interface w with
      | (Ok (Some i), w) => (Ok {| sa_ip := V4 (local_ip i); sa_port := 0 |}, w)
      | (_, w) => (Err (io_error_new AddrNotAvailable "Can't find an IPv4 internet interface"), w)
      end
  | V6 _ =>
      match get_ipv6_internet_interface w with
      | (Ok (Some i), w) => (Ok {| sa_ip := V6 (local_ip i); sa_port := 0 |}, w)
      | (_, w) => (Err (io_error_new AddrNotAvailable "Can't find an IPv6 internet interface"), w)
      end
  end.

Definition configure_udp (remote : SocketAddr) (cfg : SocketConfig) (k : K) : io_result () * K :=
  match disable_connection_reset k with
  | (Err e, k) => (Err e, k)
  | (Ok _, k) =>
      match sock_set_nonblocking true (set_buffer_sizes cfg k) with
      | (Err e, k) => (Err e, k)
      | (Ok _, k) => sock_connect remote k
      end
  end.

(** A socket is closed when an error drops it. *)
Definition create_udp_socket (remote : SocketAddr) (cfg : SocketConfig) (w : W) : io_result K * W :=
  match local_socket_address remote w with
  | (Err e, w) => (Err e, w)
  | (Ok local, w) =>
      match udp_bind local w with
      | (Err e, w) => (Err e, w)
      | (Ok k, w) =>
          match configure_udp remote cfg k with
          | (Ok _, k) => (Ok k, w)
          | (Err e, k) => (Err e, sock_close k w)
          end
      end
  end.

Definition WinUdpStream_new (remote : SocketAddr) (cfg : SocketConfig) (w : W)
  : io_result (WinUdpStream K) * W :=
  match create_udp_socket remote cfg w with
  | (Err e, w) => (Err e, w)
  | (Ok k, w) =>
      match SocketHandle_new k w with
      | (Ok h, k, w) => (Ok {| wu_socket := k; wu_socket_handle := h;
                               wu_is_readable := false; wu_is_writable := false |}, w)
      | (Err e, k, w) => (Err e, sock_close k w)
      end
  end.

(** ** TCP *)

Definition domain_of (remote : SocketAddr) : Z := match sa_ip remote with V4 _ => AF_INET | V6 _ => AF_INET6 end.

Definition create_tcp_socket (domain : Z) (w : W) : io_result K * W := socket_new domain w.

Definition configure_tcp (local remote : SocketAddr) (k : K) : io_result () * K :=
  match sock_bind local k with
  | (Err e, k) => (Err e, k)
  | (Ok _, k) =>
      match sock_set_nonblocking true k with
      | (Err e, k) => (Err e, k)
      | (Ok _, k) =>
          match sock_connect remote k with
          | (Err e, k) => if decide (kind e = WouldBlockKind) then (Ok (), k) else (Err e, k)
          | (Ok _, k) => (Ok (), k)
          end
      end
  end.

Definition create_tcp_stream (remote : SocketAddr) (w : W) : io_result K * W :=
  match local_socket_address remote w with
  | (Err e, w) => (Err e, w)
  | (Ok local, w) =>
      match create_tcp_socket (domain_of remote) w with
      | (Err e, w) => (Err e, w)
      | (Ok k, w) =>
          match configure_tcp local remote k with
          | (Ok _, k) => (Ok k, w)
          | (Err e, k) => (Err e, sock_close k w)
          end
      end
  end.

Definition WinTcpStream_new (remote : SocketAddr) (w : W) : io_result (WinTcpStream K) * W :=
  match create_tcp_stream remote w with
  | (Err e, w) => (Err e, w)
  | (Ok k, w) =>
      match SocketHandle_new k w with
      | (Ok h, k, w) => (Ok {| wt_socket := k; wt_write_buffer := []; wt_socket_handle := h;
                               wt_is_readable := false; wt_is_writable := false |}, w)
      | (Err e, k, w) => (Err e, sock_close k w)
      end
  end.

(** ** Drop: the socket, then its event *)

Definition WinTcpStream_drop (t : WinTcpStream K) (w : W) : W :=
  SocketHandle_drop (wt_socket_handle t) (sock_close (wt_socket t) w).
Definition WinUdpStream_drop (t : WinUdpStream K) (w : W) : W :=
  SocketHandle_drop (wu_socket_handle t) (sock_close (wu_socket t) w).
End factory.

(** ** Open sockets and events *)

Record resources := { open_sockets : nat; open_events : gset Z }.

Definition add_socket (r : resources) := {| open_sockets := S (open_sockets r); open_events := open_events r |}.
Definition drop_socket (r : resources) := {| open_sockets := pred (open_sockets r); open_events := open_events r |}.
Definition add_event (ev : Z) (r : resources) :=
  {| open_sockets := open_sockets r; open_events := {[ev]} ∪ open_events r |}.
Definition drop_event (ev : Z) (r : resources) :=
  {| open_sockets := open_sockets r; open_events := open_events r ∖ {[ev]} |}.

(** What the process has open. *)
Class WinResources (W : Type) := opened : W -> resources.

Class WinSocketsLaws (W K : Type) `{WinNet W, WinSockets W K, WinResources W} := {
  udp_bind_opens a w r w' :
    udp_bind a w = (r, w') -> opened w' = if is_ok r then add_socket (opened w) else opened w;
  socket_new_opens d w r w' :
    socket_new d w = (r, w') -> opened w' = if is_ok r then add_socket (opened w) else opened w;
  sock_close_closes k w : opened (sock_close k w) = drop_socket (opened w);
  create_event_opens w r w' :
    WSACreateEvent w = (r, w') ->
    match r with
    | Ok ev => ev ∉ open_events (opened w) /\ opened w' = add_event ev (opened w)
    | Err _ => opened w' = opened w
    end;
  close_event_closes ev w : opened (WSACloseEvent ev w) = drop_event ev (opened w);
  get_table_opened w : opened (GetIpForwardTable2 w).2 = opened w;
  get_addresses_opened w : opened (GetUnicastIpAddressTable w).2 = opened w;
  free_opened p w : opened (FreeMibTable p w) = opened w;
}.

Section factory_spec.
Context {W K : Type} `{WinSocket K} `{WinSocketsLaws W K}.

(** The search for the local address opens nothing. *)
Lemma local_address_opened remote (w : W) r w' :
  local_socket_address remote w = (r, w') -> opened w' = opened w.
Proof.
  assert (Hf : opened (get_internet_interfaces w).2 = opened w).
  { apply finder_preserves; [apply get_table_opened|apply get_addresses_opened|apply free_opened]. }
  unfold local_socket_address, get_ipv4_internet_interface, get_ipv6_internet_interface.
  destruct (get_internet_interfaces w) as [[[v4 v6]|e] w1]; simpl in *;
    destruct (sa_ip remote); try destruct v4; try destruct v6; intros [= _ <-]; done.
Qed.

Lemma drop_add_socket r : drop_socket (add_socket r) = r.
Proof. by destruct r. Qed.

Lemma drop_add_socket_event ev r : drop_socket (add_event ev (add_socket r)) = add_event ev r.
Proof. by destruct r. Qed.

Lemma drop_all ev r :
  ev ∉ open_events (add_socket r) -> drop_event ev (drop_socket (add_event ev (add_socket r))) = r.
Proof. destruct r. unfold drop_event. simpl. intros. f_equal. set_solver. Qed.

(** A socket that is created stays open only when its setup succeeds. *)
Lemma udp_socket_opened remote cfg (w : W) r w' :
  create_udp_socket remote cfg w = (r, w') ->
  opened w' = if is_ok r then add_socket (opened w) else opened w.
Proof.
  unfold create_udp_socket. destruct (local_socket_address remote w) as [[local|e] w1] eqn:El;
    apply local_address_opened in El; [|by intros [= <- <-]].
  destruct (udp_bind local w1) as [[k|e] w2] eqn:Eb; apply udp_bind_opens in Eb; simpl in Eb;
    [|intros [= <- <-]; simpl; congruence].
  destruct (configure_udp remote cfg k) as [[|e] k']; intros [= <- <-]; simpl;
    rewrite ?sock_close_closes, Eb, ?drop_add_socket; congruence.
Qed.

Lemma tcp_socket_opened remote (w : W) r w' :
  create_tcp_stream remote w = (r, w') ->
  opened w' = if is_ok r then add_socket (opened w) else opened w.
Proof.
  unfold create_tcp_stream, create_tcp_socket. destruct (local_socket_address remote w) as [[local|e] w1] eqn:El;
    apply local_address_opened in El; [|by intros [= <- <-]].
  destruct (socket_new _ w1) as [[k|e] w2] eqn:Eb; apply socket_new_opens in Eb; simpl in Eb;
    [|intros [= <- <-]; simpl; congruence].
  destruct (configure_tcp local remote k) as [[|e] k']; intros [= <- <-]; simpl;
    rewrite ?sock_close_closes, Eb, ?drop_add_socket; congruence.
Qed.

(** What [SocketHandle::new] leaves open; its event stays when it cannot be
    bound to the socket. *)
Definition handle_opened (before : resources) (r : io_result SocketHandle) (after : resources) : Prop :=
  match r with
  | Ok h => handle h = event h /\ event h ∉ open_events before /\ after = add_event (event h) before
  | Err e => after = before
             \/ message e = "Cannot create socket event handle: WSAEventSelect failed"
                /\ exists ev, ev ∉ open_events before /\ after = add_event ev before
  end.

Lemma socket_handle_opened (k : K) (w : W) r k' w' :
  SocketHandle_new k w = (r, k', w') -> handle_opened (opened w) r (opened w').
Proof.
  unfold SocketHandle_new. destruct (WSACreateEvent w) as [[ev|m] w1] eqn:E; apply create_event_opens in E.
  - destruct E as [Hev E]. destruct (WSAEventSelect _ _ k) as [res k1].
    case_match; intros [= <- <- <-]; simpl; eauto 6.
  - intros [= <- <- <-]. by left.
Qed.

(** What opening a stream changes. *)
Definition stream_opened (before : resources) (h : option Z) (e : option io_error) (after : resources) : Prop :=
  match h with
  | Some ev => ev ∉ open_events before /\ after = add_event ev (add_socket before)
  | None => after = before
            \/ (message <$> e) = Some "Cannot create socket event handle: WSAEventSelect failed"
               /\ exists ev, ev ∉ open_events before /\ after = add_event ev before
  end.

Definition ok_of {A E} (r : result A E) : option A := match r with Ok a => Some a | Err _ => None end.
Definition err_of {A E} (r : result A E) : option E := match r with Ok _ => None | Err e => Some e end.

Lemma handle_failed before r k (w : W) :
  handle_opened (add_socket before) (Err r) (opened w) ->
  stream_opened before None (Some r) (opened (sock_close k w)).
Proof.
  rewrite sock_close_closes. intros [->|(Hm & ev & Hev & ->)]; simpl.
  - left. apply drop_add_socket.
  - right. split; [by rewrite Hm|]. exists ev. split; [done|]. apply drop_add_socket_event.
Qed.

(** What a constructor that answers [r], with the handle [h] of the stream, opened. *)
Definition new_opened {T} (before : resources) (h : T -> SocketHandle) (r : io_result T) (after : resources) : Prop :=
  match r with
  | Ok t => handle (h t) = event (h t) /\ event (h t) ∉ open_events before
            /\ after = add_event (event (h t)) (add_socket before)
  | Err e => stream_opened before None (Some e) after
  end.

Lemma tcp_new_opened remote (w : W) r w' :
  WinTcpStream_new (K := K) remote w = (r, w') -> new_opened (opened w) wt_socket_handle r (opened w').
Proof.
  unfold WinTcpStream_new. destruct (create_tcp_stream remote w) as [[k|e] w1] eqn:E;
    apply tcp_socket_opened in E; simpl in E; [|intros [= <- <-]; by left].
  destruct (SocketHandle_new k w1) as [[[h|e] k1] w2] eqn:Eh; apply socket_handle_opened in Eh; rewrite E in Eh;
    intros [= <- <-]; [done|by apply handle_failed].
Qed.

Lemma udp_new_opened remote cfg (w : W) r w' :
  WinUdpStream_new (K := K) remote cfg w = (r, w') -> new_opened (opened w) wu_socket_handle r (opened w').
Proof.
  unfold WinUdpStream_new. destruct (create_udp_socket remote cfg w) as [[k|e] w1] eqn:E;
    apply udp_socket_opened in E; simpl in E; [|intros [= <- <-]; by left].
  destruct (SocketHandle_new k w1) as [[[h|e] k1] w2] eqn:Eh; apply socket_handle_opened in Eh; rewrite E in Eh;
    intros [= <- <-]; [done|by apply handle_failed].
Qed.

Lemma drop_opened (k : K) (h : SocketHandle) before (w : W) :
  event h ∉ open_events before -> opened w = add_event (event h) (add_socket before) ->
  opened (SocketHandle_drop h (sock_close k w)) = before.
Proof.
  intros Hf Hw. unfold SocketHandle_drop. rewrite close_event_closes, sock_close_closes, Hw. by apply drop_all.
Qed.

(** C38.  Opening a Windows stream opens one socket and one fresh event, its
    handle.  When any step fails the socket is closed again and no event is left
    over, except when [WSAEventSelect] fails: then its event stays open.
    Dropping the stream closes both. *)
Theorem win_open_accounted (remote : SocketAddr) (cfg : SocketConfig) (w : W) :
  (let '(r, w') := WinTcpStream_new (K := K) remote w in
   stream_opened (opened w) (win_handle <$> ok_of r) (err_of r) (opened w')
   /\ forall t, r = Ok t -> opened (WinTcpStream_drop t w') = opened w)
  /\ (let '(r, w') := WinUdpStream_new (K := K) remote cfg w in
   stream_opened (opened w) (win_handle <$> ok_of r) (err_of r) (opened w')
   /\ forall t, r = Ok t -> opened (WinUdpStream_drop t w') = opened w).
Proof.
  split.
  - destruct (WinTcpStream_new remote w) as [r w'] eqn:E. apply tcp_new_opened in E.
    destruct r as [t|e]; [|done]. destruct E as (Hh & Hf & E). split.
    + simpl. by rewrite Hh.
    + intros ? [= <-]. by apply drop_opened.
  - destruct (WinUdpStream_new remote cfg w) as [r w'] eqn:E. apply udp_new_opened in E.
    destruct r as [t|e]; [|done]. destruct E as (Hh & Hf & E). split.
    + simpl. by rewrite Hh.
    + intros ? [= <-]. by apply drop_opened.
Qed.

(** The address of a candidate. *)
Definition if_addr (i : InternetInterface) : IpAddr :=
  match i with IfV4 i => V4 (local_ip i) | IfV6 i => V6 (local_ip i) end.

Definition protocol_of (a : IpAddr) : IpInternetInterface -> InternetInterface :=
  match a with V4 _ => IfV4 | V6 _ => IfV6 end.

Lemma local_address_spec remote (w w1 w2 : W) p rs q rows :
  GetIpForwardTable2 w = (NO_ERROR, Some (p, rs), w1) ->
  GetUnicastIpAddressTable w1 = (NO_ERROR, Some (q, rows), w2) ->
  match (local_socket_address remote w).1 with
  | Ok a => sa_port a = 0 /\ exists i, sa_ip a = if_addr (protocol_of (sa_ip remote) i)
            /\ best (protocol_of (sa_ip remote)) (candidate rs rows w2) (Some i)
  | Err e => kind e = AddrNotAvailable /\ forall i, ~ candidate rs rows w2 (protocol_of (sa_ip remote) i)
  end.
Proof.
  intros E1 E2. pose proof (internet_interface_choice w w1 w2 p rs q rows E1 E2) as Hc.
  unfold local_socket_address, get_ipv4_internet_interface, get_ipv6_internet_interface.
  destruct (get_internet_interfaces w) as [[[v4 v6]|e] w3]; simpl in *.
  - destruct Hc as (H4 & H6 & _).
    destruct (sa_ip remote); simpl; [destruct v4|destruct v6]; simpl; eauto 6.
  - destruct (sa_ip remote); simpl; auto.
Qed.

(** From the socket [k], fresh from the system, to the socket [k'] of a stream with
    the event [ev]: each call is made on the socket the one before it left. *)
Definition tcp_set_up (local remote : SocketAddr) (ev : Z) (k k' : K) : Prop :=
  exists k1 k2 k3 r, sock_bind local k = (Ok (), k1) /\ sock_set_nonblocking true k1 = (Ok (), k2)
    /\ sock_connect remote k2 = (r, k3) /\ (forall e, r = Err e -> kind e = WouldBlockKind)
    /\ WSAEventSelect ev (Z.lor FD_READ FD_WRITE) k3 = (0, k').

(** The same for a UDP socket, which is bound as it is created. *)
Definition udp_set_up (remote : SocketAddr) (cfg : SocketConfig) (ev : Z) (k k' : K) : Prop :=
  exists k1 k2 k3, disable_connection_reset k = (Ok (), k1)
    /\ sock_set_nonblocking true (set_buffer_sizes cfg k1) = (Ok (), k2)
    /\ sock_connect remote k2 = (Ok (), k3)
    /\ WSAEventSelect ev (Z.lor FD_READ FD_WRITE) k3 = (0, k').

Lemma configure_tcp_inv local remote (k k3 : K) :
  configure_tcp local remote k = (Ok (), k3) ->
  exists k1 k2 r, sock_bind local k = (Ok (), k1) /\ sock_set_nonblocking true k1 = (Ok (), k2)
    /\ sock_connect remote k2 = (r, k3) /\ forall e, r = Err e -> kind e = WouldBlockKind.
Proof.
  unfold configure_tcp. destruct (sock_bind local k) as [[[]|e] k1] eqn:Eb; [|done].
  destruct (sock_set_nonblocking true k1) as [[[]|e] k2] eqn:En; [|done].
  destruct (sock_connect remote k2) as [[[]|e] k4] eqn:Ec; [|case_decide; [|done]]; intros [= <-].
  - by exists k1, k2, (Ok ()).
  - exists k1, k2, (Err e). split_and!; [done..|]. by intros e' [= <-].
Qed.

Lemma configure_udp_inv remote cfg (k k3 : K) :
  configure_udp remote cfg k = (Ok (), k3) ->
  exists k1 k2, disable_connection_reset k = (Ok (), k1)
    /\ sock_set_nonblocking true (set_buffer_sizes cfg k1) = (Ok (), k2) /\ sock_connect remote k2 = (Ok (), k3).
Proof.
  unfold configure_udp. destruct (disable_connection_reset k) as [[[]|e] k1] eqn:Ed; [|done].
  destruct (sock_set_nonblocking true _) as [[[]|e] k2] eqn:En; [|done]. intros Ec. by exists k1, k2.
Qed.

Lemma socket_handle_selected (k k' : K) (w w' : W) h :
  SocketHandle_new k w = (Ok h, k', w') -> WSAEventSelect (event h) (Z.lor FD_READ FD_WRITE) k = (0, k').
Proof.
  unfold SocketHandle_new. destruct (WSACreateEvent w) as [[ev|m] w1]; [|done].
  destruct (WSAEventSelect _ _ k) as [res k1] eqn:E. destruct (Z.eqb_spec res 0) as [->|]; [|done]. by intros [= <- <- <-].
Qed.

(** C37.  The socket of a stream to a server was bound before it was connected, to
    an address of the server's protocol on an interface that is up, has a default
    route and is not the tunnel's own adapter, with the lowest metric of those: the
    traffic to the servers does not go into the tunnel it carries.  A TCP stream's
    socket is a new one that was bound to that address, made non-blocking,
    connected to the server, perhaps only begun to be, and given its event; a UDP
    stream's socket is one created bound to that address, then configured, connected
    and given its event.  This is when the system's two tables can be read. *)
Theorem win_sockets_outside_tunnel (remote : SocketAddr) (cfg : SocketConfig) (w w1 w2 : W) p rs q rows :
  GetIpForwardTable2 w = (NO_ERROR, Some (p, rs), w1) ->
  GetUnicastIpAddressTable w1 = (NO_ERROR, Some (q, rows), w2) ->
  let bound local := sa_port local = 0 /\ exists i, sa_ip local = if_addr (protocol_of (sa_ip remote) i)
    /\ best (protocol_of (sa_ip remote)) (candidate rs rows w2) (Some i) in
  (forall t w', WinTcpStream_new (K := K) remote w = (Ok t, w') ->
    exists local w3 k w4, bound local /\ socket_new (domain_of remote) w3 = (Ok k, w4)
      /\ tcp_set_up local remote (event (wt_socket_handle t)) k (wt_socket t))
  /\ (forall u w', WinUdpStream_new (K := K) remote cfg w = (Ok u, w') ->
    exists local w3 k w4, bound local /\ udp_bind local w3 = (Ok k, w4)
      /\ udp_set_up remote cfg (event (wu_socket_handle u)) k (wu_socket u)).
Proof.
  intros E1 E2 bound. pose proof (local_address_spec remote w w1 w2 p rs q rows E1 E2) as Hl.
  unfold WinTcpStream_new, create_tcp_stream, create_tcp_socket, WinUdpStream_new, create_udp_socket.
  destruct (local_socket_address remote w) as [[local|e] w3]; simpl in Hl; [|by split].
  split; intros t w'.
  - destruct (socket_new _ w3) as [[k|e] w4] eqn:En; [|done].
    destruct (configure_tcp local remote k) as [[[]|e] k3] eqn:Ec; [|done].
    destruct (SocketHandle_new k3 w4) as [[[h|e] k4] w5] eqn:Eh; [|done]. intros [= <- <-].
    apply configure_tcp_inv in Ec as (k1 & k2 & r & Hb & Hn & Hc & Hr). apply socket_handle_selected in Eh.
    exists local, w3, k, w4. split; [done|]. split; [done|]. by exists k1, k2, k3, r.
  - destruct (udp_bind local w3) as [[k|e] w4] eqn:Eb; [|done].
    destruct (configure_udp remote cfg k) as [[[]|e] k3] eqn:Ec; [|done].
    destruct (SocketHandle_new k3 w4) as [[[h|e] k4] w5] eqn:Eh; [|done]. intros [= <- <-].
    apply configure_udp_inv in Ec as (k1 & k2 & Hd & Hn & Hc). apply socket_handle_selected in Eh.
    exists local, w3, k, w4. split; [done|]. split; [done|]. by exists k1, k2, k3.
Qed.
End factory_spec.
