(* ===== verification/WinTun.v ===== *)
(** * Windows: the TUN device

    [src/connection/windows/tun_windows.rs] over a Wintun session, which is an
    interface: packets are received whole and sent in buffers that the session
    allocates. *)

From S2P Require Import Prelude Types Streams WinNet WinSockets.

(** [wintun::Error]: the case the code tells apart, and the text of the others. *)
Inductive wintun_error :=
| WintunIo (e : io_error)
| WintunOther (msg : string).

Definition wintun_display (e : wintun_error) : string :=
  match e with WintunIo e => message e | WintunOther msg => msg end.

(** [wintun::Session].  [allocate_send_packet] answers the size of the packet's
    buffer. *)
Class WintunSession (X : Type) := {
  get_read_wait_event : X -> result Z string;
  try_receive : X -> result (option (list byte)) wintun_error * X;
  allocate_send_packet : nat -> X -> result nat wintun_error * X;
  send_packet : list byte -> X -> X;
  session_shutdown : X -> X;
}.

(** The buffer has the size asked for; [sent] are the packets handed over. *)
Class WintunSessionLaws (X : Type) `{WintunSession X} := {
  sent : X -> list (list byte);
  allocate_size n x m x' : allocate_send_packet n x = (Ok m, x') -> m = n;
  allocate_sent n x r x' : allocate_send_packet n x = (r, x') -> sent x' = sent x;
  send_packet_sent p x : sent (send_packet p x) = sent x ++ [p];
}.

Definition U16_MAX : nat := Z.to_nat 65535.

Lemma U16_MAX_pos : 0 < U16_MAX.
Proof. unfold U16_MAX. lia. Qed.
#[local] Opaque U16_MAX.

Section tun.
Context {X : Type} `{WintunSession X}.

Record TunStreamWindows := { tw_session : X; tw_handle : Z }.

Definition TunStreamWindows_new (tun : X) : result TunStreamWindows ProTunFatalError :=
  match get_read_wait_event tun with
  | Ok event => Ok {| tw_session := tun; tw_handle := event |}
  | Err e => Err (WintunSessionHandleCreationFailed ("Failed to create the Wintun session handle: " +:+ e))
  end.

Definition tun_win_read (buf : list byte) (t : TunStreamWindows)
  : (StreamResult * list byte) * TunStreamWindows :=
  let '(r, x) := try_receive (tw_session t) in
  let t' := {| tw_session := x; tw_handle := tw_handle t |} in
  match r with
  | Ok (Some packet) =>
      let n_bytes := Nat.min (length buf) (length packet) in
      ((stream_ok n_bytes WouldBlockNo PendingNo, fill buf (take n_bytes packet)), t')
  | Ok None => ((stream_ok 0 WouldBlockYes PendingNo, buf), t')
  | Err error => ((StreamErr (io_error_new OtherKind (wintun_display error)), buf), t')
  end.

Definition wintun_error_to_result (error : wintun_error) : StreamResult :=
  match error with
  | WintunIo e => StreamErr e
  | WintunOther msg => StreamErr (io_error_new OtherKind msg)
  end.

(** The [while !unwritten_data.is_empty()] loop; a slice beyond the data panics. *)
Fixpoint tun_win_write_loop (fuel : nat) (total : nat) (unwritten_data : list byte)
  : M TunStreamWindows StreamResult :=
  fun t =>
    match unwritten_data with
    | [] => Ret (stream_ok total WouldBlockNo PendingNo, t)
    | _ =>
        match fuel with
        | O => NoFuel
        | S fuel =>
            match allocate_send_packet (Nat.min (length unwritten_data) U16_MAX) (tw_session t) with
            | (Err error, x) => Ret (wintun_error_to_result error, {| tw_session := x; tw_handle := tw_handle t |})
            | (Ok n_packet_bytes, x) =>
                if decide (length unwritten_data < n_packet_bytes) then Panic
                else tun_win_write_loop fuel total (drop n_packet_bytes unwritten_data)
                       {| tw_session := send_packet (take n_packet_bytes unwritten_data) x;
                          tw_handle := tw_handle t |}
            end
        end
    end.

Definition tun_win_write (fuel : nat) (data : list byte) : M TunStreamWindows StreamResult :=
  tun_win_write_loop fuel (length data) data.

Definition tun_win_write_from_buffer : M TunStreamWindows StreamResult :=
  mret (stream_ok 0 WouldBlockNo PendingNo).

#[global] Instance TunStreamWindows_WindowsStream : WindowsStream TunStreamWindows := {
  win_handle := tw_handle;
  win_has_error t := (false, t);
  win_get_state t := ({| st_is_readable := true; st_is_writable := true |}, t);
}.

#[global] Instance TunStreamWindows_Stream (fuel : nat) : Stream TunStreamWindows := {
  stream_read := tun_win_read;
  stream_write := tun_win_write fuel;
  stream_write_from_buffer := tun_win_write_from_buffer;
  stream_set_option _ t := t;
  stream_shutdown_write t := t;
}.

#[global] Instance TunStreamWindows_laws fuel : @StreamLaws TunStreamWindows (TunStreamWindows_Stream fuel).
Proof.
  split. simpl. unfold tun_win_read. intros buf t r buf' t'.
  destruct (try_receive _) as [[[packet|]|e] x]; intros; simplify_eq; unfold read_fits; simpl; split; try lia.
  rewrite length_fill; [done|]. rewrite length_take. lia.
Qed.
End tun.
Arguments TunStreamWindows X : clear implicits.

(** ** Packets *)

(** The data cut into pieces of at most 65535 bytes. *)
Fixpoint packets (fuel : nat) (data : list byte) : list (list byte) :=
  match fuel, data with
  | S fuel, _ :: _ => take U16_MAX data :: packets fuel (drop U16_MAX data)
  | _, _ => []
  end.

Lemma packets_concat fuel data : length data <= fuel -> concat (packets fuel data) = data.
Proof.
  revert data. induction fuel as [|fuel IH]; intros [|b data] Hl; cbn [packets concat length] in *; try (done || lia).
  rewrite IH; [apply take_drop|]. rewrite length_drop. pose proof U16_MAX_pos. cbn [length]. lia.
Qed.

Lemma packets_sizes fuel data : Forall (fun p => 0 < length p <= U16_MAX) (packets fuel data).
Proof.
  revert data. induction fuel as [|fuel IH]; intros [|b data]; cbn [packets]; constructor; [|done].
  rewrite length_take. pose proof U16_MAX_pos. cbn [length]. lia.
Qed.

Section tun_theorems.
Context {X : Type} `{WintunSessionLaws X}.

Lemma tun_win_loop_spec fuel total data (t : TunStreamWindows X) :
  length data <= fuel ->
  exists r t', tun_win_write_loop fuel total data t = Ret (r, t')
    /\ match r with
       | StreamOk n off wb pw => r = stream_ok total WouldBlockNo PendingNo
           /\ sent (tw_session t') = sent (tw_session t) ++ packets fuel data
       | StreamErr _ => exists k, k < length (packets fuel data)
           /\ sent (tw_session t') = sent (tw_session t) ++ take k (packets fuel data)
       | StreamClosed => False
       end.
Proof.
  revert data t. induction fuel as [|fuel IH]; intros [|b data] t Hl; cbn [tun_win_write_loop packets];
    [|cbn [length] in Hl; lia| |].
  1, 2: eexists _, _; split; [done|]; by rewrite app_nil_r.
  set (all := b :: data) in *.
  destruct (allocate_send_packet _ (tw_session t)) as [[n|e] x] eqn:E; pose proof (allocate_sent _ _ _ _ E) as Hs.
  - apply allocate_size in E as ->. rewrite decide_False by lia.
    assert (Hmin : forall A (l : list A), length l = length all -> take (Nat.min (length all) U16_MAX) l = take U16_MAX l
       /\ drop (Nat.min (length all) U16_MAX) l = drop U16_MAX l).
    { intros A l Hll. destruct (Nat.min_spec (length all) U16_MAX) as [[? ->]|[? ->]]; [|done].
      rewrite !take_ge, !drop_ge by lia. done. }
    destruct (Hmin _ all eq_refl) as [-> ->].
    edestruct (IH (drop U16_MAX all)) as (r & t' & Ew & Hr);
      [rewrite length_drop; pose proof U16_MAX_pos; subst all; cbn [length] in *; lia|].
    exists r, t'. split; [exact Ew|]. cbn [tw_session] in Hr. rewrite send_packet_sent, Hs in Hr.
    destruct r as [| |]; [|destruct Hr as (k & Hk & Hr)|done].
    + destruct Hr as [-> Hr]. split; [done|]. by rewrite Hr, <- app_assoc.
    + exists (S k). split; [cbn [length]; lia|]. by rewrite Hr, <- app_assoc.
  - eexists _, _. split; [done|]. assert (exists e', wintun_error_to_result e = StreamErr e') as [e' ->]
      by (destruct e; simpl; eauto).
    exists 0. split; [cbn [length]; lia|]. simpl. by rewrite app_nil_r.
Qed.

(** Writing to a Wintun device always returns and does not panic.  A
    successful write has sent all the data, in order, as packets of at most
    65535 bytes, one packet when it fits; a failed one has sent some of these
    packets, in order, and not the last. *)
Lemma win_tun_write_packets (fuel : nat) (data : list byte) (t : TunStreamWindows X) :
  length data <= fuel ->
  concat (packets fuel data) = data
  /\ Forall (fun p => 0 < length p <= U16_MAX) (packets fuel data)
  /\ exists r t', tun_win_write fuel data t = Ret (r, t')
    /\ match r with
       | StreamOk n off wb pw => r = stream_ok (length data) WouldBlockNo PendingNo
           /\ sent (tw_session t') = sent (tw_session t) ++ packets fuel data
       | StreamErr _ => exists k, k < length (packets fuel data)
           /\ sent (tw_session t') = sent (tw_session t) ++ take k (packets fuel data)
       | StreamClosed => False
       end.
Proof.
  intros Hf. split_and!; [by apply packets_concat|apply packets_sizes|by apply tun_win_loop_spec].
Qed.

Lemma tun_win_loop_safe fuel total data (t : TunStreamWindows X) :
  tun_win_write_loop fuel total data t <> Panic.
Proof.
  revert data t. induction fuel as [|fuel IH]; intros [|b data] t; cbn [tun_win_write_loop]; try done.
  destruct (allocate_send_packet _ _) as [[n|e] x] eqn:E; [|done].
  apply allocate_size in E as ->. rewrite decide_False by lia. apply IH.
Qed.

#[global] Instance TunStreamWindows_safe fuel : @StreamSafe (TunStreamWindows X) (TunStreamWindows_Stream fuel).
Proof. split; [|done]. intros data t. apply tun_win_loop_safe. Qed.
End tun_theorems.

(** ** A session *)

(** A session with room for [vs_room] packets. *)
Record vec_session := { vs_in : list (list byte); vs_out : list (list byte); vs_room : nat }.

#[global] Instance vec_session_WintunSession : WintunSession vec_session := {
  get_read_wait_event _ := Ok 3%Z;
  try_receive x :=
    match vs_in x with
    | [] => (Ok None, x)
    | p :: q => (Ok (Some p), {| vs_in := q; vs_out := vs_out x; vs_room := vs_room x |})
    end;
  allocate_send_packet n x :=
    match vs_room x with
    | O => (Err (WintunOther "full"), x)
    | S room => (Ok n, {| vs_in := vs_in x; vs_out := vs_out x; vs_room := room |})
    end;
  send_packet p x := {| vs_in := vs_in x; vs_out := vs_out x ++ [p]; vs_room := vs_room x |};
  session_shutdown x := x;
}.

#[global] Instance vec_session_laws : WintunSessionLaws vec_session.
Proof.
  refine {| sent := vs_out |}; simpl.
  - intros n x m x'. destruct (vs_room x); intros; by simplify_eq.
  - intros n x r x'. destruct (vs_room x); intros; by simplify_eq/=.
  - done.
Defined.

Lemma win_tun_write_packets_witness :
  exists r t', tun_win_write 3 bytes3 {| tw_session := {| vs_in := []; vs_out := []; vs_room := 1 |}; tw_handle := 3 |}
    = Ret (r, t') /\ vs_out (tw_session t') = [bytes3].
Proof.
  destruct (win_tun_write_packets 3 bytes3
    {| tw_session := {| vs_in := []; vs_out := []; vs_room := 1 |}; tw_handle := 3 |}) as (_ & _ & r & t' & E & _);
    [vm_compute; lia|].
  exists r, t'. split; [exact E|]. vm_compute in E. by injection E as <- <-.
Defined.
