(* ===== verification/WindowsStreams.v ===== *)
(** * Windows: the stream set

    [src/connection/windows/streams.rs] and [helpers/poll_waker.rs]: the streams
    in a vector, the handles waited on kept beside it, and a manual-reset event
    that wakes the poll.  The file proves that the set implements the interface
    [Streams] of the connection loop and that only open handles are waited on. *)

From S2P Require Import Prelude Types Streams Net Vectors WinNet LocalIpFinder.
From S2P Require Import WinErrors WinSockets WinSocketFactory WinTun.

Local Open Scope Z_scope.

(** ** Events *)

Class WinEvents (W : Type) := {
  CreateEventW : W -> result Z Z * W;
  SetEvent : Z -> W -> result () string * W;
  ResetEvent : Z -> W -> result () string * W;
  WSAWaitForMultipleEvents : list Z -> Z -> W -> Z * W;
}.

Definition WAIT_TIMEOUT : Z := 258.
Definition WAIT_OBJECT_0 : Z := 0.
Definition WSA_INFINITE : Z := 4294967295.
Definition TIMEOUT_EVENT : Z := WAIT_TIMEOUT.
Definition WAKER_EVENT : Z := WAIT_OBJECT_0.

(** [WindowsPollWaker] is its handle. *)
Record WindowsPollWaker := { waker_handle : Z }.

Section waker.
Context {W : Type} `{WinNet W} `{WinEvents W}.

Definition WindowsPollWaker_new (w : W) : result WindowsPollWaker ProTunFatalError * W :=
  match CreateEventW w with
  | (Ok h, w) => (Ok {| waker_handle := h |}, w)
  | (Err e, w) =>
      (Err (HandleCreationFailed ("Cannot create waker: CreateEventW failed. Win32 error code: "
                                  +:+ win32_error_display e)), w)
  end.

Definition waker_reset (wk : WindowsPollWaker) (w : W) : W := (ResetEvent (waker_handle wk) w).2.
Definition waker_wake (wk : WindowsPollWaker) (w : W) : W := (SetEvent (waker_handle wk) w).2.
End waker.

(** ** The three kinds of streams *)

Inductive WinStream (K X : Type) :=
| WTun (t : TunStreamWindows X)
| WTcp (t : WinTcpStream K)
| WUdp (t : WinUdpStream K).
Arguments WTun {K X} t.
Arguments WTcp {K X} t.
Arguments WUdp {K X} t.

Section dyn_stream.
Context {W K X : Type} `{Device K, WinSocket K, WintunSession X} (fuel : nat).

Definition lift_out {A B C} (f : B -> C) (o : outcome (A * B)) : outcome (A * C) :=
  outcome_map (prod_map id f) o.

(** The bound on the loops of a write of [data]: [fuel] iterations more than are
    needed on a socket that makes progress. *)
Definition win_write_bound (data : list byte) (s : WinStream K X) : nat :=
  fuel + match s with
         | WTcp t => length (concat (wt_write_buffer t)) + length (wt_write_buffer t) + length data + 1
         | _ => length data
         end.

(** Method calls through [Box<dyn WindowsStream>]. *)
#[global] Instance WinStream_Stream : Stream (WinStream K X) := {
  stream_read buf s :=
    match s with
    | WTun t => prod_map id WTun (tun_win_read buf t)
    | WTcp t => prod_map id WTcp (win_tcp_read buf t)
    | WUdp t => prod_map id WUdp (win_udp_read buf t)
    end;
  stream_write data s :=
    match s with
    | WTun t => lift_out WTun (tun_win_write (win_write_bound data s) data t)
    | WTcp t => lift_out WTcp (win_tcp_write (win_write_bound data s) data t)
    | WUdp t => lift_out WUdp (win_udp_write data t)
    end;
  stream_write_from_buffer s :=
    match s with
    | WTun t => lift_out WTun (tun_win_write_from_buffer t)
    | WTcp t => lift_out WTcp (win_tcp_write_from_buffer (win_write_bound [] s) t)
    | WUdp t => lift_out WUdp (win_udp_write_from_buffer t)
    end;
  stream_set_option o s := match s with WTcp t => WTcp (win_tcp_set_option o t) | _ => s end;
  stream_shutdown_write s := match s with WTcp t => WTcp (win_tcp_shutdown_write t) | _ => s end;
}.

#[global] Instance WinStream_WindowsStream : WindowsStream (WinStream K X) := {
  win_handle s := match s with WTun t => win_handle t | WTcp t => win_handle t | WUdp t => win_handle t end;
  win_has_error s :=
    match s with
    | WTun t => prod_map id WTun (win_has_error t)
    | WTcp t => prod_map id WTcp (win_has_error t)
    | WUdp t => prod_map id WUdp (win_has_error t)
    end;
  win_get_state s :=
    match s with
    | WTun t => prod_map id WTun (win_get_state t)
    | WTcp t => prod_map id WTcp (win_get_state t)
    | WUdp t => prod_map id WUdp (win_get_state t)
    end;
}.

#[global] Instance WinStream_laws `{!DeviceLaws K} : StreamLaws (WinStream K X).
Proof.
  split. intros buf s r buf' s'. simpl. destruct s as [t|t|t].
  - destruct (tun_win_read buf t) as [[r1 b1] t1] eqn:E. intros [= <- <- <-].
    by apply (read_in_bounds (StreamLaws := TunStreamWindows_laws fuel)) in E.
  - destruct (win_tcp_read buf t) as [[r1 b1] t1] eqn:E. intros [= <- <- <-].
    by apply (read_in_bounds (StreamLaws := WinTcpStream_laws fuel)) in E.
  - destruct (win_udp_read buf t) as [[r1 b1] t1] eqn:E. intros [= <- <- <-].
    by apply (read_in_bounds (StreamLaws := WinUdpStream_laws)) in E.
Qed.

Lemma lift_out_panic {A B C} (f : B -> C) (o : outcome (A * B)) : o <> Panic -> lift_out f o <> Panic.
Proof. by destruct o. Qed.

#[global] Instance WinStream_safe `{!DeviceLaws K} `{!WintunSessionLaws X} : StreamSafe (WinStream K X).
Proof.
  split; [intros data [t|t|t]|intros [t|t|t]]; simpl; try done; apply lift_out_panic.
  - apply (write_no_panic (StreamSafe := TunStreamWindows_safe _)).
  - apply (write_no_panic (StreamSafe := WinTcpStream_safe _)).
  - apply (write_no_panic (StreamSafe := WinUdpStream_safe)).
  - apply (flush_no_panic (StreamSafe := WinTcpStream_safe _)).
Qed.
End dyn_stream.

(** ** The vector *)

Section windows_streams.
Context `{StreamIds} {W K X : Type} `{WinNet W, WinEvents W, WinSockets W K} `{Device K, WinSocket K, WintunSession X}.

Record WindowsStreamInfo := { wsi_id : StreamId; wsi_stream : WinStream K X }.

(** [ws_os] is the state of the system. *)
Record WindowsStreams := {
  ws_streams : list WindowsStreamInfo;
  ws_waker : WindowsPollWaker;
  ws_handles : list Z;
  ws_udp_socket_config : SocketConfig;
  ws_os : W;
}.

Definition ws_with (l : list WindowsStreamInfo) (h : list Z) (w : W) (s : WindowsStreams) : WindowsStreams :=
  {| ws_streams := l; ws_waker := ws_waker s; ws_handles := h;
     ws_udp_socket_config := ws_udp_socket_config s; ws_os := w |}.

(** [once(self.waker.handle).chain(streams.map(handle))]. *)
Definition handles_of (wk : WindowsPollWaker) (l : list WindowsStreamInfo) : list Z :=
  waker_handle wk :: ((fun i => win_handle (wsi_stream i)) <$> l).

Definition reset_handles (s : WindowsStreams) : WindowsStreams :=
  ws_with (ws_streams s) (handles_of (ws_waker s) (ws_streams s)) (ws_os s) s.

Definition ws_register_stream (id : StreamId) (stream : WinStream K X) (s : WindowsStreams) : WindowsStreams :=
  reset_handles (ws_with (ws_streams s ++ [{| wsi_id := id; wsi_stream := stream |}]) (ws_handles s) (ws_os s) s).

Definition WindowsStreams_new (tun : WinStream K X) (waker : WindowsPollWaker) (cfg : SocketConfig) (w : W)
  : WindowsStreams :=
  ws_register_stream TUN_STREAM_ID tun
    {| ws_streams := []; ws_waker := waker; ws_handles := []; ws_udp_socket_config := cfg; ws_os := w |}.

(** [get_state], then [has_error]. *)
Definition create_poll_result (i : WindowsStreamInfo) : PollResult * WindowsStreamInfo :=
  let '(state, t) := win_get_state (wsi_stream i) in
  let '(err, t) := win_has_error t in
  ({| stream_id := wsi_id i; is_readable := st_is_readable state; is_writable := st_is_writable state;
      is_error := err |}, {| wsi_id := wsi_id i; wsi_stream := t |}).

(** [iter_mut().rev().map(create_poll_result)]. *)
Definition get_all_streams_as_poll_results (s : WindowsStreams) : list PollResult * WindowsStreams :=
  let rs := create_poll_result <$> reverse (ws_streams s) in
  (rs.*1, ws_with (reverse rs.*2) (ws_handles s) (ws_os s) s).

Definition ws_find (id : StreamId) (l : list WindowsStreamInfo) : option WindowsStreamInfo :=
  find (fun i => wsi_id i =? id) l.

Definition ws_get_stream (id : StreamId) (s : WindowsStreams) : option (WinStream K X) :=
  wsi_stream <$> ws_find id (ws_streams s).

(** Assignment through the reference that [get_stream] returns. *)
Fixpoint ws_update (id : StreamId) (t : WinStream K X) (l : list WindowsStreamInfo) : list WindowsStreamInfo :=
  match l with
  | [] => []
  | i :: l => if wsi_id i =? id then {| wsi_id := wsi_id i; wsi_stream := t |} :: l else i :: ws_update id t l
  end.

Definition ws_put_stream (id : StreamId) (t : WinStream K X) (s : WindowsStreams) : WindowsStreams :=
  ws_with (ws_update id t (ws_streams s)) (ws_handles s) (ws_os s) s.

Definition ws_open_new_tcp_stream (id : StreamId) (remote : SocketAddr) (s : WindowsStreams)
  : io_result () * WindowsStreams :=
  match WinTcpStream_new remote (ws_os s) with
  | (Ok t, w) => (Ok (), ws_register_stream id (WTcp t) (ws_with (ws_streams s) (ws_handles s) w s))
  | (Err e, w) => (Err e, ws_with (ws_streams s) (ws_handles s) w s)
  end.

Definition ws_open_new_udp_stream (id : StreamId) (remote : SocketAddr) (s : WindowsStreams)
  : io_result () * WindowsStreams :=
  match WinUdpStream_new remote (ws_udp_socket_config s) (ws_os s) with
  | (Ok t, w) => (Ok (), ws_register_stream id (WUdp t) (ws_with (ws_streams s) (ws_handles s) w s))
  | (Err e, w) => (Err e, ws_with (ws_streams s) (ws_handles s) w s)
  end.

(** The destructors; dropping the TUN stream releases the shared session, which
    the application's handle keeps alive. *)
Definition ws_drop_stream (t : WinStream K X) (w : W) : W :=
  match t with WTun _ => w | WTcp t => WinTcpStream_drop t w | WUdp t => WinUdpStream_drop t w end.

(** [retain] drops the streams it removes. *)
Definition ws_close_stream (id : StreamId) (s : WindowsStreams) : WindowsStreams :=
  let keep i := negb (wsi_id i =? id) in
  let w := foldl (fun w i => ws_drop_stream (wsi_stream i) w) (ws_os s)
             (retain (fun i => negb (keep i)) (ws_streams s)) in
  reset_handles (ws_with (retain keep (ws_streams s)) (ws_handles s) w s).

Definition poll_timeout (deadline : option Duration) : Z :=
  match deadline with None => WSA_INFINITE | Some t => Z.min (as_millis t) WSA_INFINITE end.

Definition ws_poll (deadline : option Duration) (s : WindowsStreams)
  : io_result (list PollResult) * WindowsStreams :=
  let '(result_index, w) := WSAWaitForMultipleEvents (ws_handles s) (poll_timeout deadline) (ws_os s) in
  let s := ws_with (ws_streams s) (ws_handles s) w s in
  if result_index =? TIMEOUT_EVENT then (Ok [], s)
  else if result_index =? WAKER_EVENT then
    (Ok [], ws_with (ws_streams s) (ws_handles s) (waker_reset (ws_waker s) w) s)
  else let '(rs, s) := get_all_streams_as_poll_results s in (Ok rs, s).

Definition ws_get_tun_interface_state (e : option InterfaceError) (s : WindowsStreams) : InterfaceState :=
  if ws_find TUN_STREAM_ID (ws_streams s) then InterfaceUp e else InterfaceDown e.

(** [set_poll_enable_wait_for_write] does nothing.  The method [update_tun] does
    not exist in the Windows build, and no message of it asks for it. *)
#[global] Instance WindowsStreams_Streams : Streams WindowsStreams (WinStream K X) := {
  get_stream := ws_get_stream;
  put_stream := ws_put_stream;
  open_new_tcp_stream := ws_open_new_tcp_stream;
  open_new_udp_stream := ws_open_new_udp_stream;
  close_stream := ws_close_stream;
  poll := ws_poll;
  set_poll_enable_wait_for_write _ _ s := s;
  update_tun _ s := (Ok (), s);
  get_tun_interface_state := ws_get_tun_interface_state;
}.

(** ** Lemmas on the vector *)

Lemma ws_find_update_eq id t l : ws_find id (ws_update id t l)
  = (fun i => {| wsi_id := wsi_id i; wsi_stream := t |}) <$> ws_find id l.
Proof.
  unfold ws_find, find. induction l as [|i l IH]; simpl; [done|].
  destruct (wsi_id i =? id) eqn:E; simpl; by rewrite E.
Qed.

Lemma ws_find_update_ne id id' t l : id <> id' -> ws_find id' (ws_update id t l) = ws_find id' l.
Proof.
  intros Hne. unfold ws_find, find. induction l as [|i l IH]; simpl; [done|].
  destruct (Z.eqb_spec (wsi_id i) id) as [E|]; simpl; [|by rewrite IH].
  by rewrite (proj2 (Z.eqb_neq (wsi_id i) id')) by congruence.
Qed.

Lemma ws_find_retain_eq id l : ws_find id (retain (fun i => negb (wsi_id i =? id)) l) = None.
Proof. apply find_None. intros i [Hn _]%elem_of_retain. by destruct (_ =? _). Qed.

Lemma ws_find_retain_ne id id' l :
  id <> id' -> ws_find id' (retain (fun i => negb (wsi_id i =? id)) l) = ws_find id' l.
Proof.
  intros Hne. unfold ws_find, find, retain. induction l as [|i l IH]; simpl; [done|].
  destruct (Z.eqb_spec (wsi_id i) id) as [E|]; simpl; [|by rewrite IH].
  by rewrite (proj2 (Z.eqb_neq (wsi_id i) id')) by congruence.
Qed.

(** The set keeps what the connection loop is promised. *)
#[global] Instance WindowsStreams_laws : StreamsLaws WindowsStreams (WinStream K X).
Proof.
  split; simpl; unfold ws_get_stream, ws_put_stream, ws_close_stream; simpl.
  - intros id t t0 s. rewrite ws_find_update_eq. by destruct (ws_find _ _).
  - intros id id' t s Hne. by rewrite ws_find_update_ne.
  - intros id s. by rewrite ws_find_retain_eq.
  - intros id id' s Hne. by rewrite ws_find_retain_ne.
  - intros e s. unfold ws_get_tun_interface_state. by destruct (ws_find _ _).
Qed.
End windows_streams.
Arguments WindowsStreamInfo K X : clear implicits.
Arguments WindowsStreams W K X : clear implicits.

(** ** Handles *)

Section handles.
Context {K X : Type}.

Definition socket_handle_of (t : WinStream K X) : option SocketHandle :=
  match t with WTun _ => None | WTcp t => Some (wt_socket_handle t) | WUdp t => Some (wu_socket_handle t) end.

Context `{Device K, WinSocket K, WintunSession X} (fuel : nat).

(** Neither of these depends on anything but the stream's own handle. *)
Definition same_handle (t t' : WinStream K X) : Prop :=
  socket_handle_of t' = socket_handle_of t /\ win_handle t' = win_handle t.

Lemma win_tcp_flush_handle n bw (t : WinTcpStream K) r t' :
  win_tcp_flush n bw t = Ret (r, t') -> wt_socket_handle t' = wt_socket_handle t.
Proof.
  revert bw t. induction n as [|n IH]; intros bw t; simpl; destruct (wt_write_buffer t); try done.
  1, 2: by intros [= _ <-].
  destruct (dev_write _ _) as [[c|e] k]; [intros E%IH; by rewrite E|by intros [= _ <-]].
Qed.

Lemma tun_win_loop_handle n total data (t : TunStreamWindows X) r t' :
  tun_win_write_loop n total data t = Ret (r, t') -> tw_handle t' = tw_handle t.
Proof.
  revert data t. induction n as [|n IH]; intros data t; destruct data as [|b data]; cbn [tun_win_write_loop]; try done.
  1, 2: by intros [= _ <-].
  destruct (allocate_send_packet _ _) as [[m|e] x]; [|by intros [= _ <-]].
  case_decide; [done|]. intros E%IH. by rewrite E.
Qed.

(** The calls of the loop keep a stream's handle. *)
Lemma win_step_same_handle (t t' : WinStream K X) :
  @win_step _ (WinStream_Stream fuel) _ (fun _ _ => False) t t' -> same_handle t t'.
Proof.
  intros Hs. inversion Hs as [buf ? r ? E|data ? r ? E|? r ? E|?|? r ? E|? b ? E|? ? []]; subst; clear Hs;
    unfold same_handle; destruct t as [t|t|t]; simpl in *.
  - revert E. unfold tun_win_read. destruct (try_receive _) as [[[p|]|e] x]; intros; by simplify_eq/=.
  - revert E. unfold win_tcp_read. destruct (dev_read _ _) as [[d|e] k]; repeat case_match; intros; by simplify_eq/=.
  - revert E. unfold win_udp_read. destruct (dev_read _ _) as [[d|e] k]; intros; by simplify_eq/=.
  - destruct (tun_win_write _ data t) as [[r1 t1]| |] eqn:E1; simplify_eq/=. by apply tun_win_loop_handle in E1.
  - destruct (win_tcp_write _ data t) as [[r1 t1]| |] eqn:E1; simplify_eq/=.
    by apply (win_tcp_flush_handle _ 0 (wt_with _ _ _ _ t)) in E1 as ->.
  - destruct (win_udp_write data t) as [[r1 t1]| |] eqn:E1; simplify_eq/=.
    revert E1. unfold win_udp_write. destruct (dev_write _ _) as [[d|e] k]; intros; by simplify_eq/=.
  - by simplify_eq/=.
  - destruct (win_tcp_write_from_buffer _ t) as [[r1 t1]| |] eqn:E1; simplify_eq/=.
    by apply win_tcp_flush_handle in E1 as ->.
  - by simplify_eq/=.
  - done.
  - done.
  - done.
  - by simplify_eq/=.
  - revert E. unfold win_tcp_get_state. destruct (get_events _). intros; by simplify_eq/=.
  - revert E. unfold win_udp_get_state. destruct (get_events _). intros; by simplify_eq/=.
  - by simplify_eq/=.
  - revert E. unfold win_tcp_has_error. destruct (socket_has_error _). intros; by simplify_eq/=.
  - revert E. unfold win_udp_has_error. destruct (socket_has_error _). intros; by simplify_eq/=.
Qed.
End handles.

(** Waiting and resetting open and close nothing. *)
Class WinEventsLaws (W : Type) `{WinEvents W, WinResources W} := {
  wait_opened l t w : opened (WSAWaitForMultipleEvents l t w).2 = opened w;
  reset_opened h w : opened (ResetEvent h w).2 = opened w;
}.

Section streams_spec.
Context `{StreamIds} {W K X : Type} `{WintunSession X}.
Context `{WinSocketsLaws W K} `{Device K, WinSocket K} `{!WinEvents W} `{!WinEventsLaws W} (fuel : nat).

Abbreviation Set' := (WindowsStreams W K X).

(** The events of the sockets in the vector. *)
Definition socket_events (l : list (WindowsStreamInfo K X)) : list Z :=
  omap (fun i => event <$> socket_handle_of (wsi_stream i)) l.

Record ws_wf (s : Set') : Prop := {
  wf_handles : ws_handles s = handles_of (ws_waker s) (ws_streams s);
  wf_distinct : NoDup (socket_events (ws_streams s));
  wf_open : forall ev, ev ∈ socket_events (ws_streams s) -> ev ∈ open_events (opened (ws_os s));
  wf_event : forall i h, i ∈ ws_streams s -> socket_handle_of (wsi_stream i) = Some h ->
             handle h = event h;
}.

(** A call of the connection loop on the set or on one of its streams. *)
Inductive ws_step : Set' -> Set' -> Prop :=
| ws_step_stream id t t' s :
    ws_get_stream id s = Some t -> @win_step _ (WinStream_Stream fuel) _ (fun _ _ => False) t t' ->
    ws_step s (ws_put_stream id t' s)
| ws_step_tcp id a s r s' : ws_open_new_tcp_stream id a s = (r, s') -> ws_step s s'
| ws_step_udp id a s r s' : ws_open_new_udp_stream id a s = (r, s') -> ws_step s s'
| ws_step_close id s : ws_step s (ws_close_stream id s)
| ws_step_poll d s r s' : ws_poll d s = (r, s') -> ws_step s s'.

Definition ws_reachable (s : Set') : Prop :=
  exists tun wk cfg w, rtc ws_step (WindowsStreams_new (WTun tun) wk cfg w) s.

(** The vector with streams replaced by streams of the same handles. *)
Definition same_handles : relation (list (WindowsStreamInfo K X)) :=
  Forall2 (fun i i' => same_handle (wsi_stream i) (wsi_stream i')).

Lemma same_handles_refl l : same_handles l l.
Proof. induction l; constructor; [by split|done]. Qed.

Lemma same_handles_events l l' : same_handles l l' -> socket_events l' = socket_events l.
Proof.
  unfold socket_events. induction 1 as [|i i' l l' [Hh _] _ IH]; simpl; [done|].
  rewrite Hh. destruct (socket_handle_of (wsi_stream i)); simpl; [f_equal|]; exact IH.
Qed.

Lemma same_handles_of wk l l' : same_handles l l' -> handles_of wk l' = handles_of wk l.
Proof.
  intros Hs. unfold handles_of. f_equal. induction Hs as [|i i' l l' [_ Hw] _ IH]; csimpl; [done|].
  by f_equal.
Qed.

Lemma ws_wf_same (s : Set') l w :
  ws_wf s -> same_handles (ws_streams s) l -> opened w = opened (ws_os s) -> ws_wf (ws_with l (ws_handles s) w s).
Proof.
  intros [Hh Hd Ho He] Hs Hw. split; simpl.
  - rewrite Hh. symmetry. by apply same_handles_of.
  - by rewrite (same_handles_events _ _ Hs).
  - rewrite (same_handles_events _ _ Hs), Hw. done.
  - intros i' h Hi' Hsh. apply list_elem_of_lookup in Hi' as [n Hn].
    destruct (Forall2_lookup_r _ _ _ _ _ Hs Hn) as (i & Hi & [Heq _]).
    apply (He i); [by eapply list_elem_of_lookup_2|congruence].
Qed.

Lemma ws_update_same id t t' l :
  wsi_stream <$> ws_find id l = Some t -> same_handle t t' -> same_handles l (ws_update id t' l).
Proof.
  unfold ws_find, find. induction l as [|i l IH]; simpl; [done|].
  destruct (wsi_id i =? id); simpl; intros Hf Ht.
  - constructor; [by simplify_eq/=|apply same_handles_refl].
  - constructor; [by split|by apply IH].
Qed.

Lemma poll_result_same (i : WindowsStreamInfo K X) : same_handle (wsi_stream i) (wsi_stream (create_poll_result i).2).
Proof.
  unfold create_poll_result. destruct (win_get_state (wsi_stream i)) as [st t] eqn:E1.
  destruct (win_has_error t) as [e t'] eqn:E2. simpl.
  assert (same_handle (wsi_stream i) t) as [? ?]
    by (eapply (win_step_same_handle fuel), win_step_state; exact E1).
  assert (same_handle t t') as [? ?] by (eapply (win_step_same_handle fuel), win_step_error; exact E2).
  split; congruence.
Qed.

Lemma poll_results_streams (s : Set') :
  ws_streams (get_all_streams_as_poll_results s).2 = (fun i => (create_poll_result i).2) <$> ws_streams s.
Proof. simpl. by rewrite !fmap_reverse, reverse_involutive, <- list_fmap_compose. Qed.

Lemma poll_results_same (s : Set') :
  same_handles (ws_streams s) (ws_streams (get_all_streams_as_poll_results s).2).
Proof.
  rewrite poll_results_streams. induction (ws_streams s) as [|i l IH]; csimpl; constructor;
    [apply poll_result_same|done].
Qed.

(** A stream that is added brings a fresh event. *)
Lemma ws_register_wf id t h w (s : Set') :
  ws_wf s -> socket_handle_of t = Some h -> handle h = event h ->
  event h ∉ open_events (opened (ws_os s)) -> opened w = add_event (event h) (add_socket (opened (ws_os s))) ->
  ws_wf (ws_register_stream id t (ws_with (ws_streams s) (ws_handles s) w s)).
Proof.
  intros [Hh Hd Ho He] Ht Heq Hfresh Hw. split; simpl.
  - done.
  - unfold socket_events. rewrite omap_app. simpl. rewrite Ht. simpl. apply NoDup_app. split_and!; [done| |apply NoDup_singleton].
    intros ev Hev%Ho. rewrite list_elem_of_singleton. congruence.
  - intros ev. unfold socket_events. rewrite omap_app, Hw. simpl. rewrite Ht. simpl.
    rewrite elem_of_app, list_elem_of_singleton, elem_of_union, elem_of_singleton. naive_solver.
  - intros i h' [Hi| ->%list_elem_of_singleton]%elem_of_app Hs; [by eapply He|simpl in Hs; congruence].
Qed.

(** Opening that fails may leave an event open, which no stream has. *)
Lemma ws_failed_wf w (s : Set') :
  ws_wf s -> (opened w = opened (ws_os s) \/ exists ev, opened w = add_event ev (opened (ws_os s))) ->
  ws_wf (ws_with (ws_streams s) (ws_handles s) w s).
Proof.
  intros [Hh Hd Ho He] Hw. split; simpl; try done.
  intros ev Hev%Ho. destruct Hw as [->|[ev' ->]]; [done|]. simpl. set_solver.
Qed.

Lemma stream_opened_failed before e after :
  stream_opened before None e after -> after = before \/ exists ev, after = add_event ev before.
Proof. intros [->|(_ & ev & _ & ->)]; eauto. Qed.

(** Dropping streams closes their events only. *)
Lemma drop_streams_opened (l : list (WindowsStreamInfo K X)) (w : W) ev :
  ev ∈ open_events (opened w) -> ev ∉ socket_events l ->
  ev ∈ open_events (opened (foldl (fun w i => ws_drop_stream (wsi_stream i) w) w l)).
Proof.
  unfold socket_events. induction l as [|i l IH] using rev_ind; [done|].
  rewrite foldl_snoc, omap_app, elem_of_app. intros Hev Hn. specialize (IH Hev ltac:(tauto)).
  destruct (wsi_stream i) as [t|t|t] eqn:Ei; simpl in *; [done| |];
    rewrite Ei in Hn; simpl in Hn; unfold WinTcpStream_drop, WinUdpStream_drop, SocketHandle_drop;
    rewrite close_event_closes, sock_close_closes; simpl; set_solver.
Qed.

Lemma elem_of_socket_events (l : list (WindowsStreamInfo K X)) ev :
  ev ∈ socket_events l <-> exists i h, i ∈ l /\ socket_handle_of (wsi_stream i) = Some h /\ ev = event h.
Proof.
  unfold socket_events. rewrite list_elem_of_omap. split.
  - intros (i & Hi & He). destruct (socket_handle_of _) as [h|] eqn:E; simplify_eq/=. eauto.
  - intros (i & h & Hi & Hh & ->). exists i. by rewrite Hh.
Qed.

(** The events of the streams kept and of those dropped are apart. *)
Lemma socket_events_retain (p : WindowsStreamInfo K X -> bool) l :
  NoDup (socket_events l) ->
  NoDup (socket_events (retain p l))
  /\ forall ev, ev ∈ socket_events (retain p l) ->
     ev ∈ socket_events l /\ ev ∉ socket_events (retain (fun i => negb (p i)) l).
Proof.
  intros Hnd. pose proof (retain_partition p l) as Hp.
  assert (He : socket_events l ≡ₚ socket_events (retain p l) ++ socket_events (retain (fun i => negb (p i)) l))
    by (unfold socket_events; by rewrite <- omap_app, <- Hp).
  rewrite He in Hnd. apply NoDup_app in Hnd as (H1' & H2' & _). split; [done|].
  intros ev Hev. split; [|auto]. rewrite He. apply elem_of_app. by left.
Qed.

Lemma ws_close_wf id (s : Set') : ws_wf s -> ws_wf (ws_close_stream id s).
Proof.
  intros [Hh Hd Ho He]. destruct (socket_events_retain (fun i => negb (wsi_id i =? id)) (ws_streams s) Hd) as [Hn Hr].
  split; simpl; [done|done| |].
  - intros ev [Hev Hout]%Hr. apply drop_streams_opened; [by apply Ho|exact Hout].
  - intros i h [_ Hi]%elem_of_retain. by apply He.
Qed.

Lemma ws_new_wf tun wk cfg (w : W) : ws_wf (WindowsStreams_new (WTun tun) wk cfg w).
Proof.
  split; simpl; [done|apply NoDup_nil_2|set_solver|].
  by intros i h ->%list_elem_of_singleton.
Qed.

Lemma ws_step_wf (s s' : Set') : ws_step s s' -> ws_wf s -> ws_wf s'.
Proof.
  intros Hs Hwf. destruct Hs as [id t t' s Hg Ht|id a s r s' E|id a s r s' E|id s|d s r s' E].
  - apply ws_wf_same; [done| |done]. eapply ws_update_same; [exact Hg|]. by eapply win_step_same_handle.
  - unfold ws_open_new_tcp_stream in E. destruct (WinTcpStream_new a (ws_os s)) as [[t|e] w] eqn:En;
      apply tcp_new_opened in En; injection E as <- <-.
    + destruct En as (Heq & Hf & Hw). by eapply ws_register_wf.
    + apply ws_failed_wf; [done|]. by eapply stream_opened_failed.
  - unfold ws_open_new_udp_stream in E. destruct (WinUdpStream_new a _ (ws_os s)) as [[t|e] w] eqn:En;
      apply udp_new_opened in En; injection E as <- <-.
    + destruct En as (Heq & Hf & Hw). by eapply ws_register_wf.
    + apply ws_failed_wf; [done|]. by eapply stream_opened_failed.
  - by apply ws_close_wf.
  - unfold ws_poll in E. destruct (WSAWaitForMultipleEvents _ _ (ws_os s)) as [idx w] eqn:Ew.
    assert (Hw : opened w = opened (ws_os s)) by (by rewrite <- (wait_opened (ws_handles s) (poll_timeout d) (ws_os s)), Ew).
    destruct (idx =? TIMEOUT_EVENT); [|destruct (idx =? WAKER_EVENT)]; simplify_eq/=.
    + apply ws_wf_same; [done|apply same_handles_refl|done].
    + apply (ws_wf_same s (ws_streams s)); [done|apply same_handles_refl|]. unfold waker_reset. by rewrite reset_opened.
    + apply (ws_wf_same s); [done| |done]. apply (poll_results_same s).
Qed.

Lemma ws_reachable_wf (s : Set') : ws_reachable s -> ws_wf s.
Proof.
  intros (tun & wk & cfg & w & Hr). eapply rtc_invariant; [exact ws_step_wf|exact Hr|apply ws_new_wf].
Qed.

(** A socket in the set waits on its event, which is open. *)
Lemma ws_wf_socket (s : Set') i h :
  ws_wf s -> i ∈ ws_streams s -> socket_handle_of (wsi_stream i) = Some h ->
  win_handle (wsi_stream i) = event h /\ event h ∈ open_events (opened (ws_os s)).
Proof.
  intros [_ _ Ho He] Hi Hs. split; [|apply Ho, elem_of_socket_events; eauto].
  assert (win_handle (wsi_stream i) = handle h) as -> by (destruct (wsi_stream i); by simplify_eq/=).
  by eapply He.
Qed.

(** In every stream set the connection loop can reach, the poll waits on
    the waker and on exactly the handles of the streams, in order; the handle of
    every socket is an open event that no other socket has; and once a stream is
    closed its handle is waited on no more. *)
Lemma windows_waits_on_open_handles (s : Set') :
  ws_reachable s ->
  ws_handles s = waker_handle (ws_waker s) :: ((fun i => win_handle (wsi_stream i)) <$> ws_streams s)
  /\ NoDup (socket_events (ws_streams s))
  /\ (forall i h, i ∈ ws_streams s -> socket_handle_of (wsi_stream i) = Some h ->
       win_handle (wsi_stream i) = event h /\ event h ∈ open_events (opened (ws_os s)))
  /\ (forall id, let s' := ws_close_stream id s in
       ws_get_stream id s' = None /\ ws_handles s' = handles_of (ws_waker s) (ws_streams s')
       /\ forall ev, ev ∈ socket_events (ws_streams s') ->
          ev ∈ open_events (opened (ws_os s'))
          /\ ev ∉ socket_events (retain (fun i => wsi_id i =? id) (ws_streams s))).
Proof.
  intros Hr. apply ws_reachable_wf in Hr as Hwf. destruct Hwf as [Hh Hd Ho He]. split_and!; [done|done| |].
  - intros i h. apply ws_wf_socket. by apply ws_reachable_wf.
  - intros id. cbv zeta. split_and!.
    + unfold ws_get_stream, ws_close_stream. simpl. by rewrite ws_find_retain_eq.
    + done.
    + intros ev Hev. split; [by apply (wf_open _ (ws_close_wf id s (ws_reachable_wf s Hr)))|].
      intros Hc. destruct (socket_events_retain (fun i => negb (wsi_id i =? id)) (ws_streams s) Hd) as [_ Hn].
      apply (Hn ev) in Hev as [_ Hev]. apply Hev. revert Hc. unfold retain.
      erewrite (filter_ext _ (fun i => negb (negb (wsi_id i =? id)))); [done|]. intros i. by destruct (_ =? _).
Qed.

(** What a poll answers: nothing when it times out or is woken, in which case
    the waker is reset; otherwise, a failed wait included, one result per stream,
    the latest stream first, with the readiness of the stream. *)
Lemma windows_poll_spec (deadline : option Duration) (s : Set') idx w :
  WSAWaitForMultipleEvents (ws_handles s) (poll_timeout deadline) (ws_os s) = (idx, w) ->
  match ws_poll deadline s with
  | (Ok rs, s') =>
      (idx = TIMEOUT_EVENT -> rs = [] /\ ws_os s' = w)
      /\ (idx = WAKER_EVENT -> rs = [] /\ ws_os s' = waker_reset (ws_waker s) w)
      /\ (idx <> TIMEOUT_EVENT -> idx <> WAKER_EVENT ->
          rs = (fun i => (create_poll_result i).1) <$> reverse (ws_streams s) /\ ws_os s' = w)
  | (Err _, _) => False
  end.
Proof.
  intros E. unfold ws_poll. rewrite E.
  destruct (Z.eqb_spec idx TIMEOUT_EVENT) as [->|]; [by split_and!|].
  destruct (Z.eqb_spec idx WAKER_EVENT) as [->|]; [by split_and!|].
  simpl. split_and!; [done..|]. by rewrite <- list_fmap_compose.
Qed.
End streams_spec.
