(* ===== verification/WinSettling.v ===== *)
(** * Windows: the promises of [Termination.v] kept

    The writes of the Windows streams return on sockets that make progress, and the
    stream set comes to an end of its reads over sockets and a tunnel that have
    finitely much to be read.  So every iteration of the loop over them returns, and
    every run that is asked to disconnect. *)

From S2P Require Import Prelude Types NetworkRecovery SanitizedPeers Conversions LocalAgent.
From S2P Require Import Streams Pcap PvpnClient PeerSync Net Vectors.
From S2P Require Import Connection ConnectionSteps ConnectionInvariants ConnectionTheorems ConnectionSafety StreamCalls.
From S2P Require Import Threads Termination Settling.
From S2P Require Import WinNet LocalIpFinder WinErrors WinSockets WinSocketFactory WinTun WindowsStreams.

(** A tunnel that has finitely many packets to be received until one arrives. *)
Class SessionPending (X : Type) `{WintunSession X} := {
  session_pending : X -> nat;
  receive_pending x r x' : try_receive x = (r, x') -> session_pending x' <= session_pending x;
  receive_packet x p x' : try_receive x = (Ok (Some p), x') -> session_pending x' < session_pending x;
  allocate_pending n x r x' : allocate_send_packet n x = (r, x') -> session_pending x' <= session_pending x;
  send_pending p x : session_pending (send_packet p x) <= session_pending x;
}.

(** The calls that prepare a socket for its stream. *)
Inductive setup_call {W K} `{WinSockets W K} : K -> K -> Prop :=
| su_bind a k : setup_call k (sock_bind a k).2
| su_nonblocking b k : setup_call k (sock_set_nonblocking b k).2
| su_connect a k : setup_call k (sock_connect a k).2
| su_connreset b k : setup_call k (WSAIoctl_udp_connreset b k).2
| su_send_buffer n k : setup_call k (sock_set_send_buffer_size n k).2
| su_recv_buffer n k : setup_call k (sock_set_recv_buffer_size n k).2
| su_select ev m k : setup_call k (WSAEventSelect ev m k).2.

(** Nothing can be read yet from a socket that has just been opened and set up. *)
Class FreshWinSockets (W K : Type) `{WinSockets W K, DevicePending K} := {
  fresh_udp_bind a (w : W) k w' : udp_bind a w = (Ok k, w') -> dev_pending k = 0;
  fresh_socket d (w : W) k w' : socket_new d w = (Ok k, w') -> dev_pending k = 0;
  setup_pending k k' : setup_call k k' -> dev_pending k' <= dev_pending k;
}.

(** ** Streams *)

Section streams.
Context {K X : Type} `{Device K, WinSocket K, WintunSession X} (fuel : nat).

Lemma lift_returns {A B C} (f : B -> C) (o : outcome (A * B)) :
  (exists a t, o = Ret (a, t)) -> exists a s, lift_out f o = Ret (a, s).
Proof. intros (a & t & ->). by eexists _, _. Qed.

Lemma win_tcp_flush_returns `{!DeviceProgress K} n bw (t : WinTcpStream K) :
  length (concat (wt_write_buffer t)) + length (wt_write_buffer t) <= n ->
  exists r t', win_tcp_flush n bw t = Ret (r, t').
Proof.
  intros Hn. destruct (tcp_flush_terminates n bw (abs_tcp t)) as (r & t' & E); [exact Hn|].
  rewrite win_tcp_flush_sim in E. destruct (win_tcp_flush n bw t) as [[r1 t1]| |]; [by eexists _, _|done..].
Qed.

#[global] Instance WinStream_ends `{!DeviceProgress K, !WintunSessionLaws X} :
  @StreamEnds (WinStream K X) (WinStream_Stream fuel).
Proof.
  split.
  - intros data [t|t|t]; simpl; apply lift_returns.
    + destruct (tun_win_loop_spec (win_write_bound (K := K) fuel data (WTun t)) (length data) data t) as (r & t' & E & _);
        [unfold win_write_bound; lia|by eexists _, _].
    + apply win_tcp_flush_returns. simpl. rewrite concat_app, !length_app. simpl. rewrite app_nil_r.
      unfold win_write_bound. lia.
    + unfold win_udp_write. destruct (dev_write _ _) as [[n|e] k]; by eexists _, _.
  - intros [t|t|t]; [by eexists _, _| |by eexists _, _]. simpl. apply lift_returns, win_tcp_flush_returns.
    unfold win_write_bound. simpl. lia.
Qed.

Context {dp : DevicePending K} {sp : SessionPending X}.

Definition win_pending (s : WinStream K X) : nat :=
  match s with
  | WTun t => session_pending (tw_session t)
  | WTcp t => dev_pending (wt_socket t)
  | WUdp t => dev_pending (wu_socket t)
  end.

Lemma win_tcp_flush_pending n bw (t : WinTcpStream K) r t' :
  win_tcp_flush n bw t = Ret (r, t') -> dev_pending (wt_socket t') <= dev_pending (wt_socket t).
Proof.
  revert bw t. induction n as [|n IH]; intros bw t; simpl; destruct (wt_write_buffer t) as [|data rest].
  1, 3: by intros [= _ <-].
  - done.
  - destruct (dev_write data (wt_socket t)) as [[count|e] k] eqn:E; apply pending_write in E.
    + intros Hf%IH. simpl in Hf. lia.
    + by intros [= _ <-].
Qed.

Lemma tun_win_loop_pending n total data (t : TunStreamWindows X) r t' :
  tun_win_write_loop n total data t = Ret (r, t') -> session_pending (tw_session t') <= session_pending (tw_session t).
Proof.
  revert data t. induction n as [|n IH]; intros [|b data] t; cbn [tun_win_write_loop]; try done.
  1, 2: by intros [= _ <-].
  destruct (allocate_send_packet _ _) as [[m|e] x] eqn:E; apply allocate_pending in E; [|by intros [= _ <-]].
  case_decide; [done|]. intros Hf%IH. cbn [tw_session] in Hf.
  match type of Hf with _ <= session_pending (send_packet ?p x) => pose proof (send_pending p x) end. lia.
Qed.

Lemma win_read_pending buf (s s' : WinStream K X) r buf' :
  stream_read (Stream := WinStream_Stream fuel) buf s = ((r, buf'), s') ->
  win_pending s' <= win_pending s
  /\ forall n off wb pw, r = StreamOk n off wb pw -> 0 < n -> win_pending s' < win_pending s.
Proof.
  destruct s as [t|t|t]; simpl.
  - unfold tun_win_read. destruct (try_receive _) as [[[p|]|e] x] eqn:E; pose proof (receive_pending _ _ _ E) as Hle;
      intros; simplify_eq/=; (split; [done|]); unfold stream_ok; intros; simplify_eq; [|lia].
    by apply receive_packet in E.
  - unfold win_tcp_read. destruct (dev_read _ _) as [[data|e] k] eqn:E; pose proof (pending_read _ _ _ _ E) as Hle;
      try pose proof (pending_data _ _ _ _ E) as Hlt; repeat case_match; intros; simplify_eq/=; (split; [done|]);
      unfold stream_ok in *; intros; simplify_eq; try lia; by apply Hlt.
  - unfold win_udp_read. destruct (dev_read _ _) as [[data|e] k] eqn:E; pose proof (pending_read _ _ _ _ E) as Hle;
      try pose proof (pending_data _ _ _ _ E) as Hlt; repeat case_match; intros; simplify_eq/=; (split; [done|]);
      unfold stream_ok in *; intros; simplify_eq; try lia; by apply Hlt.
Qed.

Lemma lift_out_inv {A B C} (f : B -> C) (o : outcome (A * B)) a s :
  lift_out f o = Ret (a, s) -> exists t, o = Ret (a, t) /\ s = f t.
Proof. destruct o as [[a' t]| |]; [|done..]. intros [= <- <-]. by exists t. Qed.

Lemma win_write_pending data (s s' : WinStream K X) r :
  stream_write (Stream := WinStream_Stream fuel) data s = Ret (r, s') -> win_pending s' <= win_pending s.
Proof.
  destruct s as [t|t|t]; simpl; intros (t' & E & ->)%lift_out_inv; simpl.
  - by eapply tun_win_loop_pending.
  - apply win_tcp_flush_pending in E. exact E.
  - unfold win_udp_write in E. destruct (dev_write _ _) as [[n|e] k] eqn:Ed; apply pending_write in Ed; by injection E as _ <-.
Qed.

Lemma win_flush_pending (s s' : WinStream K X) r :
  stream_write_from_buffer (Stream := WinStream_Stream fuel) s = Ret (r, s') -> win_pending s' <= win_pending s.
Proof.
  destruct s as [t|t|t]; [by intros [= _ <-]| |by intros [= _ <-]]. simpl. intros (t' & E & ->)%lift_out_inv.
  apply win_tcp_flush_pending in E. exact E.
Qed.

#[global] Instance WinStream_pending : @PendingReads (WinStream K X) (WinStream_Stream fuel).
Proof.
  refine (@Build_PendingReads _ (WinStream_Stream fuel) win_pending _ _).
  - intros t t' [buf s r s' E|data s r s' E|s r s' E|o s|s].
    + destruct r as [r buf']. by apply win_read_pending in E as [].
    + by eapply win_write_pending.
    + by eapply win_flush_pending.
    + by destruct s.
    + destruct s; [done| |done]. apply pending_shutdown.
  - intros buf t n off pw buf' t' E Hn. apply win_read_pending in E as [_ Hlt]. by eapply Hlt.
Defined.
End streams.

(** ** The stream set *)

Section set.
Context `{ids : StreamIds} {W K X : Type} `{WinNet W, WinEvents W, WinSockets W K} `{WinSocket K, WintunSession X}.
Context `{!Device K, !DevicePending K, !FreshWinSockets W K, !SessionPending X} (fuel : nat).

#[local] Instance settling_win : Stream (WinStream K X) := WinStream_Stream fuel.

(** A socket is as fresh as it was before it was set up. *)
Lemma setup_keeps (k k' : K) : rtc setup_call k k' -> dev_pending k = 0 -> dev_pending k' = 0.
Proof. induction 1 as [|x y z Hs%setup_pending _ IH]; [done|]. intros Hx. apply IH. lia. Qed.

(** A call on the socket is a setup call whatever it answers. *)
Lemma setup_once {A} (op : K -> A * K) k r k' : (forall k, setup_call k (op k).2) -> op k = (r, k') -> rtc setup_call k k'.
Proof. intros Hop E. apply rtc_once. specialize (Hop k). by rewrite E in Hop. Qed.

Lemma handle_setup k (w : W) r k' w' : SocketHandle_new k w = (r, k', w') -> rtc setup_call k k'.
Proof.
  unfold SocketHandle_new. destruct (WSACreateEvent w) as [[ev|e] w1]; [|by intros; simplify_eq].
  destruct (WSAEventSelect ev _ k) as [z k1] eqn:E. intros Hr.
  assert (k' = k1) as -> by (destruct (z =? 0)%Z; by simplify_eq).
  eapply (setup_once (WSAEventSelect ev (Z.lor FD_READ FD_WRITE))); [constructor|exact E].
Qed.

Lemma tcp_setup local remote k r k' : configure_tcp local remote k = (r, k') -> rtc setup_call k k'.
Proof.
  unfold configure_tcp. destruct (sock_bind local k) as [[|e] k1] eqn:E1; pose proof (setup_once _ _ _ _ (su_bind local) E1) as S1;
    [|by intros; simplify_eq].
  destruct (sock_set_nonblocking true k1) as [[|e] k2] eqn:E2; pose proof (setup_once _ _ _ _ (su_nonblocking true) E2) as S2;
    [|intros; simplify_eq; by etrans].
  destruct (sock_connect remote k2) as [res k3] eqn:E3; pose proof (setup_once _ _ _ _ (su_connect remote) E3) as S3.
  intros Hr. assert (k' = k3) as -> by (repeat case_match; by simplify_eq). etrans; [exact S1|]. by etrans.
Qed.

Lemma udp_setup remote cfg k r k' : configure_udp remote cfg k = (r, k') -> rtc setup_call k k'.
Proof.
  unfold configure_udp, disable_connection_reset.
  destruct (WSAIoctl_udp_connreset 0 k) as [[|e] k1] eqn:E1; pose proof (setup_once _ _ _ _ (su_connreset 0) E1) as S1;
    [|by intros; simplify_eq].
  assert (rtc setup_call k1 (set_buffer_sizes cfg k1)) as Hb.
  { unfold set_buffer_sizes. destruct (sock_set_send_buffer_size _ k1) as [ra ka] eqn:Ea.
    destruct (sock_set_recv_buffer_size _ ka) as [rb kb] eqn:Eb.
    etrans; [exact (setup_once _ _ _ _ (su_send_buffer _) Ea)|exact (setup_once _ _ _ _ (su_recv_buffer _) Eb)]. }
  destruct (sock_set_nonblocking true _) as [[|e] k2] eqn:E2; pose proof (setup_once _ _ _ _ (su_nonblocking true) E2) as S2;
    [|intros; simplify_eq; by do 2 (etrans; [eassumption|])].
  intros E3. pose proof (setup_once _ _ _ _ (su_connect remote) E3). by do 3 (etrans; [eassumption|]).
Qed.

Lemma tcp_fresh remote (w : W) t w' : WinTcpStream_new remote w = (Ok t, w') -> dev_pending (wt_socket t) = 0.
Proof.
  unfold WinTcpStream_new, create_tcp_stream, create_tcp_socket.
  destruct (local_socket_address remote w) as [[local|e] w1]; [|done].
  destruct (socket_new _ w1) as [[k|e] w2] eqn:Es; [|done].
  destruct (configure_tcp local remote k) as [[|e] k1] eqn:Ec; [|done].
  destruct (SocketHandle_new k1 w2) as [[[h|e] k2] w3] eqn:Eh; [|done]. intros [= <- <-]. simpl.
  eapply setup_keeps; [etrans; [by eapply tcp_setup|by eapply handle_setup]|by eapply fresh_socket].
Qed.

Lemma udp_fresh remote cfg (w : W) t w' : WinUdpStream_new remote cfg w = (Ok t, w') -> dev_pending (wu_socket t) = 0.
Proof.
  unfold WinUdpStream_new, create_udp_socket.
  destruct (local_socket_address remote w) as [[local|e] w1]; [|done].
  destruct (udp_bind _ w1) as [[k|e] w2] eqn:Es; [|done].
  destruct (configure_udp remote cfg k) as [[|e] k1] eqn:Ec; [|done].
  destruct (SocketHandle_new k1 w2) as [[[h|e] k2] w3] eqn:Eh; [|done]. intros [= <- <-]. simpl.
  eapply setup_keeps; [etrans; [by eapply udp_setup|by eapply handle_setup]|by eapply fresh_udp_bind].
Qed.

Definition ws_pending (s : WindowsStreams W K X) : nat := sum_list_with (win_pending ∘ wsi_stream) (ws_streams s).

Lemma ws_pending_put id t t' (s : WindowsStreams W K X) :
  ws_get_stream id s = Some t -> ws_pending (ws_put_stream id t' s) + win_pending t = ws_pending s + win_pending t'.
Proof.
  unfold ws_pending, ws_get_stream, ws_find, find. simpl. induction (ws_streams s) as [|i l IH]; simpl; [done|].
  destruct (wsi_id i =? id)%Z; simpl; [intros [= <-]; lia|]. intros Hg%IH. lia.
Qed.

Lemma ws_pending_register id t (s : WindowsStreams W K X) :
  ws_pending (ws_register_stream id t s) = ws_pending s + win_pending t.
Proof. unfold ws_pending. simpl. rewrite sum_list_with_app. simpl. lia. Qed.

Lemma ws_pending_close id (s : WindowsStreams W K X) : ws_pending (ws_close_stream id s) <= ws_pending s.
Proof.
  unfold ws_pending. simpl. unfold retain. induction (ws_streams s) as [|i l IH]; simpl; [done|].
  destruct (negb _); simpl; lia.
Qed.

Lemma ws_pending_io (s s' : WindowsStreams W K X) : io_call s s' -> ws_pending s' <= ws_pending s.
Proof.
  destruct 1 as [id t t' s Hg Hc|id a s r s' E|id a s r s' E|id s|id b s].
  - apply (pending_call (PendingReads := WinStream_pending fuel)) in Hc.
    pose proof (ws_pending_put id t t' s Hg). simpl in *. lia.
  - simpl in E. unfold ws_open_new_tcp_stream in E. destruct (WinTcpStream_new _ _) as [[t|e] w] eqn:Et; simplify_eq.
    + rewrite ws_pending_register. apply tcp_fresh in Et. simpl. unfold ws_pending. simpl. lia.
    + done.
  - simpl in E. unfold ws_open_new_udp_stream in E. destruct (WinUdpStream_new _ _ _) as [[t|e] w] eqn:Et; simplify_eq.
    + rewrite ws_pending_register. apply udp_fresh in Et. simpl. unfold ws_pending. simpl. lia.
    + done.
  - apply ws_pending_close.
  - done.
Qed.

Lemma ws_pending_ios (s s' : WindowsStreams W K X) : rtc io_call s s' -> ws_pending s' <= ws_pending s.
Proof. induction 1 as [|x y z Hs%ws_pending_io _ IH]; [done|lia]. Qed.

#[global] Instance WindowsStreams_settle : @ReadsSettle (WindowsStreams W K X) (WinStream K X) _ (WinStream_Stream fuel).
Proof.
  apply (wf_projected lt ws_pending); [|exact lt_wf].
  intros s' s (a & b & Ha%ws_pending_ios & Hm & Hb%ws_pending_ios).
  destruct Hm as [id t buf n off pw buf' t' a Hg Hr Hn].
  pose proof (pending_more (PendingReads := WinStream_pending fuel) _ _ _ _ _ _ _ Hr Hn).
  pose proof (ws_pending_put id t t' a Hg). simpl in *. lia.
Qed.
End set.
