(* ===== verification/WinLoop.v ===== *)
(** * Windows: the connection loop over the Windows streams

    The loop of [Connection.v] runs over the Windows stream set: the instances of
    its interfaces and their laws are those of [WindowsStreams.v], and its calls
    keep the set well formed. *)

From S2P Require Import Prelude Types NetworkRecovery SanitizedPeers Conversions LocalAgent.
From S2P Require Import Streams Pcap PvpnClient PeerSync Net Vectors.
From S2P Require Import Connection ConnectionSteps ConnectionInvariants ConnectionTheorems ConnectionSafety StreamCalls.
From S2P Require Import Threads Termination Settling.
From S2P Require Import WinNet LocalIpFinder WinErrors WinSockets WinSocketFactory WinTun WindowsStreams WinSettling.

Section composition.
Context `{ids : StreamIds} {C CK W K X : Type} `{pvpn : PvpnClient C, ck : Clock CK}.
Context `{WinSocketsLaws W K} `{WinSocket K} `{!Device K} `{!DeviceLaws K} `{!WinEvents W} `{!WinEventsLaws W}.
Context `{WintunSession X} `{!WintunSessionLaws X} (wfuel : nat).

Abbreviation Set' := (WindowsStreams W K X).
#[local] Instance loop_stream : Stream (WinStream K X) := WinStream_Stream wfuel.
Abbreviation conn := (PvpnConnection C Set' CK).

Lemma stream_call_same_handle (t t' : WinStream K X) : stream_call t t' -> same_handle t t'.
Proof.
  destruct 1 as [buf t r t' E|data t r t' E|t r t' E|o t|t].
  1, 2, 3, 5: eapply (win_step_same_handle wfuel); by econstructor.
  by destruct t.
Qed.

(** The loop's calls keep the set well formed. *)
Lemma streams_call_wf (s s' : Set') : streams_call s s' -> ws_wf s -> ws_wf s'.
Proof.
  intros Hc Hwf. destruct Hc as [s s' [id t t' ? Hg Ht|id a ? r ? E|id a ? r ? E|id ?|id b ?]|d s r s' E|i s r s' E].
  - apply ws_wf_same; [done| |done]. eapply ws_update_same; [exact Hg|]. by apply stream_call_same_handle.
  - eapply (ws_step_wf wfuel); [eapply ws_step_tcp; exact E|done].
  - eapply (ws_step_wf wfuel); [eapply ws_step_udp; exact E|done].
  - by apply ws_close_wf.
  - done.
  - apply (ws_step_wf wfuel s); [eapply ws_step_poll; exact E|done].
  - simpl in E. by simplify_eq.
Qed.

(** What the loop relies on when it waits: the waker and exactly the handles of the
    streams, in order; the handle of a socket is its event, which is open and
    which no other socket has. *)
Definition waits_on_streams (ss : Set') : Prop :=
  ws_handles ss = waker_handle (ws_waker ss) :: ((fun i => win_handle (wsi_stream i)) <$> ws_streams ss)
  /\ NoDup (socket_events (ws_streams ss))
  /\ forall i h, i ∈ ws_streams ss -> socket_handle_of (wsi_stream i) = Some h ->
     win_handle (wsi_stream i) = event h /\ event h ∈ open_events (opened (ws_os ss)).

Lemma windows_loop_waits fuel n tun wk cfg (os : W) (cl : C) w receiver net ps pcap (clock : CK) settings :
  exists s0 : conn,
    connection_new false cl (WindowsStreams_new (WTun tun) wk cfg os) w receiver net ps pcap clock settings
      = Ret ((), s0)
    /\ (run fuel n s0 = Panic -> clock_fails clock \/ time_fails cl)
    /\ forall s, loop_reaches fuel s0 s -> waits_on_streams (conn_streams s).
Proof.
  destruct (new_run_safe fuel n false cl (WindowsStreams_new (WTun tun) wk cfg os) w receiver net ps pcap clock settings)
    as (s0 & E & Hp). exists s0. split_and!; [done..|]. intros s Hr.
  assert (ws_wf (conn_streams s)) as Hwf.
  { eapply loop_set_invariant; [exact streams_call_wf|apply ws_new_wf|exact E|exact Hr]. }
  split_and!; [by apply wf_handles|by apply wf_distinct|]. intros i h. by apply ws_wf_socket.
Qed.

(** C25.  A connection over the Windows streams can be created, panics only if
    some reading of the system's time does, the connection's own or the client's,
    and at the top of every iteration waits on the waker and on exactly the
    handles of its streams, in order: the handle of every socket is its event,
    which is open and which no other socket has. *)
Theorem windows_connection_waits (fuel n : nat) (tun : TunStreamWindows X) (wk : WindowsPollWaker)
    (cfg : SocketConfig) (os : W) (cl : C) (w : World) (receiver : list (option PvpnMessage)) (net : bool)
    (ps : list PeerInfo) (pcap : option PcapFileInfo) (clock : CK) (settings : option LocalAgentSettings) :
  exists s0 : conn,
    connection_new false cl (WindowsStreams_new (WTun tun) wk cfg os) w receiver net ps pcap clock settings
      = Ret ((), s0)
    /\ (run fuel n s0 = Panic -> clock_fails clock \/ time_fails cl)
    /\ forall s, loop_reaches fuel s0 s -> waits_on_streams (conn_streams s).
Proof. apply windows_loop_waits. Qed.

(** A connection over the Windows streams that is asked to disconnect comes to an
    end, on sockets that make progress and, like the tunnel, have finitely much to
    be read. *)
Lemma windows_run_returns {cs : ClientSettles C} `{!DeviceProgress K, !DevicePending K, !FreshWinSockets W K, !SessionPending X}
    tun wk cfg (os : W) (cl : C) w receiver net ps pcap (clock : CK) settings :
  Some Disconnect ∈ receiver ->
  exists fuel n (s0 : conn) o,
    connection_new false cl (WindowsStreams_new (WTun tun) wk cfg os) w receiver net ps pcap clock settings
      = Ret ((), s0)
    /\ (forall fuel' n', fuel <= fuel' -> n <= n' -> run fuel' n' s0 = o)
    /\ run_end o (clock_fails clock \/ time_fails cl).
Proof. apply run_ends_new. Qed.
End composition.
