(* ===== verification/WinAdapter.v ===== *)
(** * Windows: configuration of the adapter

    [src/connection/windows/helpers/windows_api]: the IP interface parameters
    ([adapter_configs.rs]), the unicast addresses ([local_address.rs]) and the DNS
    servers ([dns.rs]) of an adapter. *)

From Stdlib Require Import Strings.Ascii.
From S2P Require Import Prelude Types Net IpParse Text Vectors WinNet LocalIpFinder WinRoutes.

Local Open Scope Z_scope.

(** ** Rows and settings *)

(** [MIB_IPINTERFACE_ROW]: the fields that the code sets, and the others, which it
    only hands back. *)
Record MIB_IPINTERFACE_ROW := {
  if_Family : Z;
  if_InterfaceIndex : Z;
  RouterDiscoveryBehavior : Z;
  DadTransmits : Z;
  ManagedAddressConfigurationSupported : bool;
  OtherStatefulConfigurationSupported : bool;
  NlMtu : Z;
  UseAutomaticMetric : bool;
  if_Metric : Z;
  SitePrefixLength : Z;
  if_others : list Z;
}.

Definition MIB_IPINTERFACE_ROW_default : MIB_IPINTERFACE_ROW :=
  {| if_Family := 0; if_InterfaceIndex := 0; RouterDiscoveryBehavior := 0; DadTransmits := 0;
     ManagedAddressConfigurationSupported := false; OtherStatefulConfigurationSupported := false;
     NlMtu := 0; UseAutomaticMetric := false; if_Metric := 0; SitePrefixLength := 0; if_others := [] |}.

Definition SOCKADDR_INET_default : SOCKADDR_INET :=
  {| si_family := 0; S_addr := 0; sin6_Byte := replicate 16 0 |}.

Definition MIB_UNICASTIPADDRESS_ROW_default : MIB_UNICASTIPADDRESS_ROW :=
  {| ua_Address := SOCKADDR_INET_default; ua_InterfaceLuid := 0; ua_InterfaceIndex := 0;
     ua_ValidLifetime := 0; ua_PreferredLifetime := 0; ua_OnLinkPrefixLength := 0; ua_DadState := 0 |}.

(** [DNS_INTERFACE_SETTINGS]; [NameServer] points to the code units, [None] is null. *)
Record DNS_INTERFACE_SETTINGS := { dns_Version : Z; dns_Flags : Z; NameServer : option (list Z) }.

Definition RouterDiscoveryDisabled : Z := 0.
Definition NldsPreferred : Z := 4.
Definition DNS_INTERFACE_SETTINGS_VERSION1 : Z := 1.
Definition DNS_SETTING_IPV6 : Z := 1.
Definition DNS_SETTING_NAMESERVER : Z := 2.

(** The functions of [iphlpapi] that these files call, over the state [W]. *)
Class WinAdapters (W : Type) := {
  GetIpInterfaceEntry : MIB_IPINTERFACE_ROW -> W -> Z * MIB_IPINTERFACE_ROW;
  SetIpInterfaceEntry : MIB_IPINTERFACE_ROW -> W -> Z * W;
  InitializeUnicastIpAddressEntry : MIB_UNICASTIPADDRESS_ROW -> MIB_UNICASTIPADDRESS_ROW;
  CreateUnicastIpAddressEntry : MIB_UNICASTIPADDRESS_ROW -> W -> Z * W;
  SetInterfaceDnsSettings : Z -> DNS_INTERFACE_SETTINGS -> W -> Z * W;
}.

(** ** [adapter_configs.rs] *)

Definition MINIMUM_MTU : Z := 576.
Definition DEFAULT_MTU : Z := 1420.

Definition get_valid_mtu (mtu : Z) : Z := if mtu <? MINIMUM_MTU then DEFAULT_MTU else mtu.

Section adapter.
Context {W : Type} `{WinAdapters W}.

Definition create_interface_row (interface_index mtu ip_family : Z) (w : W) : result MIB_IPINTERFACE_ROW Z :=
  let row := MIB_IPINTERFACE_ROW_default in
  let row := {| if_Family := ip_family; if_InterfaceIndex := interface_index;
                RouterDiscoveryBehavior := RouterDiscoveryBehavior row; DadTransmits := DadTransmits row;
                ManagedAddressConfigurationSupported := ManagedAddressConfigurationSupported row;
                OtherStatefulConfigurationSupported := OtherStatefulConfigurationSupported row;
                NlMtu := NlMtu row; UseAutomaticMetric := UseAutomaticMetric row; if_Metric := if_Metric row;
                SitePrefixLength := SitePrefixLength row; if_others := if_others row |} in
  let '(status, row) := GetIpInterfaceEntry row w in
  if negb (status =? 0) then Err status
  else Ok {| if_Family := if_Family row; if_InterfaceIndex := if_InterfaceIndex row;
             RouterDiscoveryBehavior := RouterDiscoveryDisabled; DadTransmits := 0;
             ManagedAddressConfigurationSupported := false; OtherStatefulConfigurationSupported := false;
             NlMtu := get_valid_mtu mtu; UseAutomaticMetric := false; if_Metric := 0;
             SitePrefixLength := SitePrefixLength row; if_others := if_others row |}.

Definition set_adapter_configurations (row : MIB_IPINTERFACE_ROW) (w : W) : result () Z * W :=
  let '(status, w) := SetIpInterfaceEntry row w in
  (if status =? NO_ERROR then Ok () else Err status, w).

Definition with_site_prefix_0 (row : MIB_IPINTERFACE_ROW) : MIB_IPINTERFACE_ROW :=
  {| if_Family := if_Family row; if_InterfaceIndex := if_InterfaceIndex row;
     RouterDiscoveryBehavior := RouterDiscoveryBehavior row; DadTransmits := DadTransmits row;
     ManagedAddressConfigurationSupported := ManagedAddressConfigurationSupported row;
     OtherStatefulConfigurationSupported := OtherStatefulConfigurationSupported row;
     NlMtu := NlMtu row; UseAutomaticMetric := UseAutomaticMetric row; if_Metric := if_Metric row;
     SitePrefixLength := 0; if_others := if_others row |}.

Definition set_ipv4_adapter_configurations (interface_index mtu : Z) (w : W) : result () Z * W :=
  match create_interface_row interface_index mtu AF_INET w with
  | Err status => (Err status, w)
  | Ok row => set_adapter_configurations (with_site_prefix_0 row) w
  end.

Definition set_ipv6_adapter_configurations (interface_index mtu : Z) (w : W) : result () Z * W :=
  match create_interface_row interface_index mtu AF_INET6 w with
  | Err status => (Err status, w)
  | Ok row => set_adapter_configurations row w
  end.

(** ** [local_address.rs] *)

Definition create_address_row (interface_index prefix_length : Z) : MIB_UNICASTIPADDRESS_ROW :=
  let row := InitializeUnicastIpAddressEntry MIB_UNICASTIPADDRESS_ROW_default in
  {| ua_Address := ua_Address row; ua_InterfaceLuid := ua_InterfaceLuid row;
     ua_InterfaceIndex := interface_index; ua_ValidLifetime := 0xffffffff;
     ua_PreferredLifetime := 0xffffffff; ua_OnLinkPrefixLength := prefix_length;
     ua_DadState := NldsPreferred |}.

Definition with_address (sa : SOCKADDR_INET) (row : MIB_UNICASTIPADDRESS_ROW) : MIB_UNICASTIPADDRESS_ROW :=
  {| ua_Address := sa; ua_InterfaceLuid := ua_InterfaceLuid row; ua_InterfaceIndex := ua_InterfaceIndex row;
     ua_ValidLifetime := ua_ValidLifetime row; ua_PreferredLifetime := ua_PreferredLifetime row;
     ua_OnLinkPrefixLength := ua_OnLinkPrefixLength row; ua_DadState := ua_DadState row |}.

Definition set_adapter_ip (row : MIB_UNICASTIPADDRESS_ROW) (w : W) : result () Z * W :=
  let '(status, w) := CreateUnicastIpAddressEntry row w in
  (if status =? NO_ERROR then Ok () else Err status, w).

Definition set_adapter_ipv4_address (interface_index address prefix_length : Z) (w : W) : result () Z * W :=
  let row := create_address_row interface_index prefix_length in
  set_adapter_ip (with_address (sockaddr_v4 (ua_Address row) address) row) w.

Definition set_adapter_ipv6_address (interface_index address prefix_length : Z) (w : W) : result () Z * W :=
  let row := create_address_row interface_index prefix_length in
  set_adapter_ip (with_address (sockaddr_v6 (ua_Address row) address) row) w.

(** ** [dns.rs] *)

Definition create_settings : DNS_INTERFACE_SETTINGS :=
  {| dns_Version := DNS_INTERFACE_SETTINGS_VERSION1; dns_Flags := 0; NameServer := None |}.

(** [encode_utf16] of a string of ASCII characters, which addresses are. *)
Definition encode_utf16 (s : string) : list Z :=
  (fun ch => Z.of_nat (nat_of_ascii ch)) <$> String.list_ascii_of_string s.

Definition ips_string_to_pwstr (ips_as_string : string) : list Z := encode_utf16 ips_as_string ++ [0].

Definition set_dns_server (interface_guid : Z) (settings : DNS_INTERFACE_SETTINGS) (w : W) : result () Z * W :=
  let '(status, w) := SetInterfaceDnsSettings interface_guid settings w in
  (if status =? NO_ERROR then Ok () else Err status, w).

(** The vector is changed in place: it is returned. *)
Definition set_adapter_ipv4_dns_servers (interface_guid : Z) (ips : list Z) (w : W)
  : result () Z * list Z * W :=
  match ips with
  | [] => (Ok (), ips, w)
  | _ =>
      let ips := distinct ips in
      let '(r, w) := set_dns_server interface_guid
        {| dns_Version := dns_Version create_settings; dns_Flags := DNS_SETTING_NAMESERVER;
           NameServer := Some (ips_string_to_pwstr (ipv4s_to_comma_separated_string ips)) |} w in
      (r, ips, w)
  end.

Definition set_adapter_ipv6_dns_servers (interface_guid : Z) (ips : list Z) (w : W)
  : result () Z * list Z * W :=
  match ips with
  | [] => (Ok (), ips, w)
  | _ =>
      let ips := distinct ips in
      let '(r, w) := set_dns_server interface_guid
        {| dns_Version := dns_Version create_settings;
           dns_Flags := Z.lor DNS_SETTING_IPV6 DNS_SETTING_NAMESERVER;
           NameServer := Some (ips_string_to_pwstr (ipv6s_to_comma_separated_string ips)) |} w in
      (r, ips, w)
  end.
End adapter.

(** ** What Windows is told *)

(** A reader of [NameServer]: the code units up to the first NUL, split at the
    commas, each part an address. *)
Fixpoint until_nul (l : list Z) : list Z :=
  match l with [] => [] | u :: l => if u =? 0 then [] else u :: until_nul l end.

Definition name_servers (units : list Z) : option (list IpAddr) :=
  mapM IpAddr_from_str
    (String.string_of_list_ascii
       <$> split_on ","%char ((fun u => ascii_of_nat (Z.to_nat u)) <$> until_nul units)).

Lemma until_nul_app l : Forall (fun u => u <> 0) l -> until_nul (l ++ [0]) = l.
Proof.
  induction 1 as [|u l Hu _ IH]; simpl; [done|]. rewrite (proj2 (Z.eqb_neq u 0)) by done. by rewrite IH.
Qed.

Lemma encode_decode_utf16 s :
  ascii_of_nat ∘ Z.to_nat <$> encode_utf16 s = chars s.
Proof.
  unfold encode_utf16. rewrite <- list_fmap_compose. rewrite <- (list_fmap_id (chars s)) at 2.
  apply list_fmap_ext. intros i ch _. simpl. by rewrite Nat2Z.id, ascii_nat_embedding.
Qed.

(** [join(",")] is undone by splitting. *)
Lemma chars_concat (texts : list string) : chars (String.concat "," texts) = join ","%char (chars <$> texts).
Proof.
  induction texts as [|t [|t' texts] IH]; [done..|].
  change (String.concat "," (t :: t' :: texts)) with (t +:+ "," +:+ String.concat "," (t' :: texts)).
  rewrite !chars_app, IH. done.
Qed.

Lemma address_char_spec (l : list ascii) (x : ascii) :
  Forall address_char l -> address_char x = false -> x ∉ l.
Proof. intros Hl Hx Hin. eapply Forall_forall in Hl; [|exact Hin]. simpl in Hl. by rewrite Hx in Hl. Qed.

Lemma name_servers_ok (ips : list IpAddr) :
  ips <> [] -> Forall ip_in_range ips ->
  name_servers (ips_string_to_pwstr (String.concat "," (ip_to_string <$> ips))) = Some ips.
Proof.
  intros Hne Hr. unfold name_servers, ips_string_to_pwstr.
  assert (Hc : Forall (fun ch => address_char ch || bool_decide (ch = ","%char)) (chars (String.concat "," (ip_to_string <$> ips)))).
  { clear Hne Hr. induction ips as [|ip ips IH]; [constructor|].
    assert (Forall (fun ch => address_char ch || bool_decide (ch = ","%char)) (chars (ip_to_string ip))) as Hi.
    { eapply Forall_impl; [apply ip_address_chars|]. intros ch Hch. simpl in *. by destruct (address_char ch). }
    destruct ips as [|ip' ips]; [exact Hi|].
    change (String.concat "," (ip_to_string <$> ip :: ip' :: ips))
      with (ip_to_string ip +:+ "," +:+ String.concat "," (ip_to_string <$> ip' :: ips)).
    rewrite !chars_app, !Forall_app. split_and!; [done|by repeat constructor|done]. }
  rewrite until_nul_app.
  - change (fun u => ascii_of_nat (Z.to_nat u)) with (ascii_of_nat ∘ Z.to_nat). rewrite encode_decode_utf16.
    rewrite chars_concat, split_join; [|by destruct ips|].
    + apply mapM_Some_2. rewrite <- !list_fmap_compose. apply Forall2_fmap_l, Forall_Forall2_diag.
      eapply Forall_impl; [exact Hr|]. intros ip Hip. cbn -[ip_to_string].
      by rewrite String.string_of_list_ascii_of_string, from_str_to_string.
    + rewrite <- list_fmap_compose. apply Forall_fmap, Forall_forall. intros ip _. simpl.
      by eapply address_char_spec; [apply ip_address_chars|].
  - unfold encode_utf16. apply Forall_fmap. eapply Forall_impl; [exact Hc|]. intros ch Hch. simpl.
    intros E. assert (ch = "000"%char) as ->; [|done].
    rewrite <- (ascii_nat_embedding ch). by replace (nat_of_ascii ch) with 0%nat by lia.
Qed.

Section told.
Context {W : Type} `{WinAdapters W}.

Definition status_result (st : Z) : result () Z := if st =? NO_ERROR then Ok () else Err st.

Lemma set_dns_server_eq guid settings (w : W) :
  set_dns_server guid settings w
  = (status_result (SetInterfaceDnsSettings guid settings w).1, (SetInterfaceDnsSettings guid settings w).2).
Proof. unfold set_dns_server. by destruct (SetInterfaceDnsSettings guid settings w). Qed.

Lemma set_adapter_configurations_eq row (w : W) :
  set_adapter_configurations row w = (status_result (SetIpInterfaceEntry row w).1, (SetIpInterfaceEntry row w).2).
Proof. unfold set_adapter_configurations. by destruct (SetIpInterfaceEntry row w). Qed.

(** Windows is told each address once, in the order of their first
    appearance. *)
Lemma ipv4_dns_told guid ips (w : W) :
  ips <> [] -> Forall (fun a => 0 <= a < 2 ^ 32) ips ->
  exists settings,
    set_adapter_ipv4_dns_servers guid ips w
    = (status_result (SetInterfaceDnsSettings guid settings w).1, distinct ips,
       (SetInterfaceDnsSettings guid settings w).2)
    /\ NameServer settings ≫= name_servers = Some (V4 <$> distinct ips)
    /\ dns_Flags settings = DNS_SETTING_NAMESERVER.
Proof.
  intros Hne Hr. destruct ips as [|a ips]; [done|]. eexists. split_and!.
  - unfold set_adapter_ipv4_dns_servers. by rewrite set_dns_server_eq.
  - cbn [NameServer mbind option_bind]. unfold ipv4s_to_comma_separated_string.
    replace (ipv4_to_string <$> distinct (a :: ips)) with (ip_to_string <$> (V4 <$> distinct (a :: ips)))
      by (by rewrite <- list_fmap_compose).
    apply name_servers_ok; [done|]. apply Forall_fmap. by apply distinct_Forall.
  - done.
Qed.

Lemma ipv6_dns_told guid ips (w : W) :
  ips <> [] -> Forall (fun a => 0 <= a < 2 ^ 128) ips ->
  exists settings,
    set_adapter_ipv6_dns_servers guid ips w
    = (status_result (SetInterfaceDnsSettings guid settings w).1, distinct ips,
       (SetInterfaceDnsSettings guid settings w).2)
    /\ NameServer settings ≫= name_servers = Some (V6 <$> distinct ips)
    /\ dns_Flags settings = Z.lor DNS_SETTING_IPV6 DNS_SETTING_NAMESERVER.
Proof.
  intros Hne Hr. destruct ips as [|a ips]; [done|]. eexists. split_and!.
  - unfold set_adapter_ipv6_dns_servers. by rewrite set_dns_server_eq.
  - cbn [NameServer mbind option_bind]. unfold ipv6s_to_comma_separated_string.
    replace (ipv6_to_string <$> distinct (a :: ips)) with (ip_to_string <$> (V6 <$> distinct (a :: ips)))
      by (by rewrite <- list_fmap_compose).
    apply name_servers_ok; [done|]. apply Forall_fmap. by apply distinct_Forall.
  - done.
Qed.

Lemma valid_mtu mtu :
  0 <= mtu < 65536 -> MINIMUM_MTU <= get_valid_mtu mtu < 65536 /\ (MINIMUM_MTU <= mtu -> get_valid_mtu mtu = mtu).
Proof. unfold get_valid_mtu, MINIMUM_MTU, DEFAULT_MTU. destruct (Z.ltb_spec mtu 576); lia. Qed.

(** Configuring an interface: nothing is written when its row cannot be read.
    Otherwise the row read for that family and index is written back with a manual
    metric of zero, router discovery and duplicate address detection off, no
    stateful configuration, and the MTU asked for, or the code's default if that is
    below the code's minimum; the site prefix length is zero for IPv4 and kept for
    IPv6, and the fields not named here are as read. *)
Lemma interface_configured (family interface_index mtu : Z) (w : W) (st : Z) (row : MIB_IPINTERFACE_ROW) :
  0 <= mtu < 65536 -> family = AF_INET \/ family = AF_INET6 ->
  (forall r, if_Family r = family -> if_InterfaceIndex r = interface_index -> GetIpInterfaceEntry r w = (st, row)) ->
  let set := if family =? AF_INET then set_ipv4_adapter_configurations else set_ipv6_adapter_configurations in
  if st =? 0 then
    exists row', set interface_index mtu w = (status_result (SetIpInterfaceEntry row' w).1, (SetIpInterfaceEntry row' w).2)
    /\ MINIMUM_MTU <= NlMtu row' < 65536 /\ (MINIMUM_MTU <= mtu -> NlMtu row' = mtu)
    /\ (UseAutomaticMetric row' = false /\ if_Metric row' = 0)
    /\ (RouterDiscoveryBehavior row' = RouterDiscoveryDisabled /\ DadTransmits row' = 0
        /\ ManagedAddressConfigurationSupported row' = false /\ OtherStatefulConfigurationSupported row' = false)
    /\ SitePrefixLength row' = (if family =? AF_INET then 0 else SitePrefixLength row)
    /\ if_Family row' = if_Family row /\ if_InterfaceIndex row' = if_InterfaceIndex row
    /\ if_others row' = if_others row
  else set interface_index mtu w = (Err st, w).
Proof.
  intros Hm Hf Hget. cbv zeta. destruct (valid_mtu mtu Hm) as [[Hb1 Hb2] Hk].
  assert (Hc : create_interface_row interface_index mtu family w
    = if st =? 0 then Ok {| if_Family := if_Family row; if_InterfaceIndex := if_InterfaceIndex row;
             RouterDiscoveryBehavior := RouterDiscoveryDisabled; DadTransmits := 0;
             ManagedAddressConfigurationSupported := false; OtherStatefulConfigurationSupported := false;
             NlMtu := get_valid_mtu mtu; UseAutomaticMetric := false; if_Metric := 0;
             SitePrefixLength := SitePrefixLength row; if_others := if_others row |} else Err st).
  { unfold create_interface_row. rewrite Hget by done. by destruct (st =? 0). }
  unfold set_ipv4_adapter_configurations, set_ipv6_adapter_configurations.
  destruct Hf as [-> | ->]; change (AF_INET =? AF_INET) with true; change (AF_INET6 =? AF_INET) with false;
    cbn match beta; rewrite Hc; destruct (st =? 0); try done;
    (eexists; split; [apply set_adapter_configurations_eq|]); by split_and!.
Qed.
End told.
