(* ===== verification/WinIpv6.v ===== *)
(** * Windows: IPv6 of the adapter

    [src/connection/windows/helpers/windows_api/ipv6.rs] switches the binding of
    the IPv6 protocol to the tunnel's adapter on and off through the network
    configuration interface [INetCfg].  COM objects are named by numbers; the
    release of the interface pointers at the end of their scopes is not modelled.

    The loop over the binding paths is bounded by fuel; [ipv6_toggle] shows that
    every enumeration is finished by enough of it. *)

From Stdlib Require Import Strings.Ascii.
From S2P Require Import Prelude Types Net IpParse Vectors WinNet LocalIpFinder WinRoutes WinAdapter.

Local Open Scope Z_scope.

(** ** COM and [INetCfg] *)

(** The [HRESULT]s are those that [windows-rs] turns into [Result]s with [ok()],
    except for the ones the code inspects; an error carries its code. *)
Class NetCfg (W : Type) := {
  CoInitializeEx : W -> Z * W;
  CoUninitialize : W -> W;
  CoCreateInstance : Z -> W -> result Z Z * W;
  CoTaskMemFree : Z -> W -> W;
  INetCfg_Initialize : Z -> W -> result () Z * W;
  INetCfg_Uninitialize : Z -> W -> result () Z * W;
  INetCfg_cast_lock : Z -> W -> result Z Z * W;
  AcquireWriteLock : Z -> Z -> string -> option Z -> W -> Z * W;
  ReleaseWriteLock : Z -> W -> result () Z * W;
  FindComponent : Z -> string -> W -> result (option Z) Z * W;
  INetCfgComponent_cast_bindings : Z -> W -> result Z Z * W;
  EnumBindingPaths : Z -> Z -> W -> result (option Z) Z * W;
  (** The answer, the number fetched and the path, if one was stored. *)
  Enum_Next : Z -> W -> (result () Z * Z * option Z) * W;
  (** The string that was stored, [None] for a null pointer. *)
  GetPathToken : Z -> W -> result (option (list Z)) Z * W;
  IsEnabled : Z -> W -> result () Z * W;
  Enable : Z -> bool -> W -> result () Z * W;
  INetCfg_Apply : Z -> W -> result () Z * W;
  (** The string a pointer to a [PWSTR] leads to. *)
  deref_pwstr : Z -> W -> option (list Z);
  (** [Display] of a code and of an error. *)
  hresult_display : Z -> string;
  com_error_display : Z -> string;
}.

(** [str::to_uppercase], on code points. *)
Class Uppercase := to_uppercase : list Z -> list Z.

(** [HRESULT::ok]: only negative codes are errors, [S_FALSE] is not. *)
Definition S_OK : Z := 0.
Definition S_FALSE : Z := 1.
Definition hresult_ok (hr : Z) : result () Z := if hr <? 0 then Err hr else Ok ().

(** ** Strings *)

(** [OsString::from_wide(..).to_string_lossy()]: pairs of surrogates are joined,
    those left alone are replaced. *)
Fixpoint from_wide_lossy (l : list Z) : list Z :=
  match l with
  | [] => []
  | u :: l' =>
      if (0xD800 <=? u) && (u <=? 0xDBFF) then
        match l' with
        | v :: l'' =>
            if (0xDC00 <=? v) && (v <=? 0xDFFF)
            then (0x10000 + (u - 0xD800) * 0x400 + (v - 0xDC00)) :: from_wide_lossy l''
            else 0xFFFD :: from_wide_lossy l'
        | [] => [0xFFFD]
        end
      else if (0xDC00 <=? u) && (u <=? 0xDFFF) then 0xFFFD :: from_wide_lossy l'
      else u :: from_wide_lossy l'
  end.

Definition pwstr_to_string (pwstr : option (list Z)) : list Z :=
  match pwstr with None => [] | Some units => from_wide_lossy (until_nul units) end.

(** The bytes of a code point in UTF-8. *)
Definition utf8 (c : Z) : list Z :=
  if c <? 0x80 then [c]
  else if c <? 0x800 then [0xC0 + c / 64; 0x80 + c mod 64]
  else if c <? 0x10000 then [0xE0 + c / 4096; 0x80 + c / 64 mod 64; 0x80 + c mod 64]
  else [0xF0 + c / 262144; 0x80 + c / 4096 mod 64; 0x80 + c / 64 mod 64; 0x80 + c mod 64].

Definition string_of_code_points (l : list Z) : string :=
  String.string_of_list_ascii ((fun b => ascii_of_nat (Z.to_nat b)) <$> l ≫= utf8).

Fixpoint starts_with (needle l : list Z) : bool :=
  match needle, l with
  | [], _ => true
  | x :: needle, y :: l => (x =? y) && starts_with needle l
  | _, [] => false
  end.

Fixpoint contains (needle l : list Z) : bool :=
  starts_with needle l || match l with [] => false | _ :: l => contains needle l end.

Definition ADAPTER_GUID_STR : string := "{9BEB3451-4026-4F8A-8762-8F608B124FEC}".
Definition LOCK_NAME : string := "ProTunIpv6Toggler".
Definition MS_TCPIP6 : string := "MS_TCPIP6".
Definition INETCFG_CLSID : Z := 0x5b03526140f911d1aaec00805fc1270e.
Definition EBP_BELOW : Z := 2.

(** ** Toggling *)

Section toggle.
Context {W : Type} `{NetCfg W, Uppercase}.

(** A call that changes the state of the system. *)
Definition call {A} (op : W -> A * W) : M W A := fun w => Ret (op w).

(** [op.map_err(|e| message(e))?]. *)
Definition try_call {A} (op : W -> result A Z * W) (message : Z -> string)
    (k : A -> M W (result () string)) : M W (result () string) :=
  r ← call op;
  match r with
  | Ok a => k a
  | Err e => mret (Err (message e))
  end.

Definition code_message (text : string) (e : Z) : string := text +:+ " Code: " +:+ hresult_display e.

Definition toggle_ipv6_in_binding_path (binding_path : Z) (target_status : bool) : M W (result () string) :=
  try_call (IsEnabled binding_path) (fun _ => "Error when checking if binding path is enabled") (fun _ =>
  try_call (Enable binding_path target_status)
    (fun e => "Error when setting IPv6 to " +:+ (if target_status then "true" else "false")
              +:+ " in the adapter. Error: " +:+ com_error_display e) (fun _ =>
  mret (Ok ()))).

(** Whether the token names the tunnel's adapter. *)
Definition names_adapter (path_token : option (list Z)) : bool :=
  contains (encode_utf16 ADAPTER_GUID_STR) (to_uppercase (pwstr_to_string path_token)).

Fixpoint iterate_binding_paths (fuel : nat) (enum_binding_paths : Z) (target_status : bool)
  : M W (result () string) :=
  match fuel with
  | O => no_fuel
  | S fuel =>
      '(res, fetched, binding_paths) ← call (Enum_Next enum_binding_paths);
      if negb (is_ok res) || (fetched =? 0) then
        mret (Err "The adapter was not found in any of the binding paths")
      else
        match binding_paths with
        | Some binding_path =>
            path_token ← call (GetPathToken binding_path);
            match path_token with
            | Ok path_token =>
                if names_adapter path_token then toggle_ipv6_in_binding_path binding_path target_status
                else iterate_binding_paths fuel enum_binding_paths target_status
            | Err _ => iterate_binding_paths fuel enum_binding_paths target_status
            end
        | None => iterate_binding_paths fuel enum_binding_paths target_status
        end
  end.

Definition get_ipv6_component_binding_paths (fuel : nat) (net_cfg ipv6_component : Z) (target_status : bool)
  : M W (result () string) :=
  try_call (INetCfgComponent_cast_bindings ipv6_component)
    (code_message "Error when casting IPv6 component into bindings.") (fun ipv6_bindings =>
  try_call (EnumBindingPaths ipv6_bindings EBP_BELOW)
    (code_message "Error when enumerating the binding paths.") (fun enum_binding_paths =>
  match enum_binding_paths with
  | None => mret (Err "Enum binding paths are empty (2/2)")
  | Some enum_binding_paths =>
      r ← iterate_binding_paths fuel enum_binding_paths target_status;
      match r with
      | Err e => mret (Err e)
      | Ok _ =>
          try_call (INetCfg_Apply net_cfg) (code_message "Error when applying INetCfg changes.") (fun _ =>
          mret (Ok ()))
      end
  end)).

Definition find_ipv6_component (fuel : nat) (net_cfg : Z) (target_status : bool) : M W (result () string) :=
  try_call (FindComponent net_cfg MS_TCPIP6) (code_message "IPv6 component not found.") (fun ipv6_component =>
  match ipv6_component with
  | None => mret (Err "The IPv6 component is empty (2/2)")
  | Some ipv6_component => get_ipv6_component_binding_paths fuel net_cfg ipv6_component target_status
  end).

Definition handle_conflict_holder (fuel : nat) (net_cfg : Z) (conflict_holder : option Z) (target_status : bool)
  : M W (result () string) :=
  match conflict_holder with
  | None => mret (Err "Received no pointer")
  | Some conflict_holder =>
      if negb (conflict_holder =? 0) then
        conflict ← get (fun w => pwstr_to_string (deref_pwstr conflict_holder w));
        modify (CoTaskMemFree conflict_holder) ;;
        mret (Err ("Access denied. Write lock held by: " +:+ string_of_code_points conflict))
      else
        try_call (INetCfg_Initialize net_cfg)
          (code_message "Error when initializing network configuration.") (fun _ =>
        find_ipv6_component fuel net_cfg target_status)
  end.

(** [Some(PWSTR::null().as_ptr() as *mut PWSTR)] is a null pointer. *)
Definition acquire_write_lock (fuel : nat) (net_cfg : Z) (target_status : bool) : M W (result () string) :=
  try_call (INetCfg_cast_lock net_cfg) (code_message "Error when casting INetCfg to a lock.") (fun net_cfg_lock =>
  let conflict_holder := Some 0 in
  try_call (fun w => let '(hr, w) := AcquireWriteLock net_cfg_lock 5000 LOCK_NAME conflict_holder w in (hresult_ok hr, w))
    (code_message "Error when acquiring INetCfg lock.") (fun _ =>
  r ← handle_conflict_holder fuel net_cfg conflict_holder target_status;
  call (ReleaseWriteLock net_cfg_lock) ;;
  mret r)).

Definition create_inetcfg_instance (fuel : nat) (target_status : bool) : M W (result () string) :=
  try_call (CoCreateInstance INETCFG_CLSID) (code_message "Error when creating INetCfg.") (fun net_cfg =>
  r ← acquire_write_lock fuel net_cfg target_status;
  call (INetCfg_Uninitialize net_cfg) ;;
  mret r).

Definition toggle_adapter_ipv6 (fuel : nat) (target_status : bool) : M W (result () string) :=
  hr ← call CoInitializeEx;
  if hr <? 0 then mret (Err "Error when initializing COM")
  else
    r ← create_inetcfg_instance fuel target_status;
    modify CoUninitialize ;;
    mret r.

(** The logged results aside. *)
Definition enable_adapter_ipv6 (fuel : nat) : M W (result () string) := toggle_adapter_ipv6 fuel true.
Definition disable_adapter_ipv6 (fuel : nat) : M W (result () string) := toggle_adapter_ipv6 fuel false.
End toggle.

(** ** Termination with a result *)

(** Some fuel, and any larger amount, gives the same result, which satisfies [Q]. *)
Definition ends_in {St A} (f : nat -> M St A) (s : St) (Q : A -> St -> Prop) : Prop :=
  exists n a s', (forall fuel, (n <= fuel)%nat -> f fuel s = Ret (a, s')) /\ Q a s'.

Section ends.
Context {St A : Type}.

Lemma ends_ret (a : A) (s : St) (Q : A -> St -> Prop) : Q a s -> ends_in (fun _ => mret a) s Q.
Proof. intros HQ. exists 0%nat, a, s. split; [done|exact HQ]. Qed.

Lemma ends_bind {B} (f : nat -> M St B) (k : nat -> B -> M St A) s (P : B -> St -> Prop) Q :
  ends_in f s P -> (forall b s', P b s' -> ends_in (fun fuel => k fuel b) s' Q) ->
  ends_in (fun fuel => f fuel ≫= k fuel) s Q.
Proof.
  intros (n & b & s' & Hf & HP) Hk. destruct (Hk _ _ HP) as (n' & a & s2 & Hk' & HQ).
  exists (Nat.max n n'), a, s2. split; [|exact HQ]. intros fuel Hl.
  rewrite (bind_eq _ _ _ b s') by (apply Hf; lia). apply Hk'. lia.
Qed.

Lemma ends_call (op : St -> A * St) s (Q : A -> St -> Prop) : Q (op s).1 (op s).2 -> ends_in (fun _ s => Ret (op s)) s Q.
Proof. intros HQ. exists 0%nat, (op s).1, (op s).2. split; [|exact HQ]. intros _ _. by destruct (op s). Qed.

End ends.

(** ** What a toggle changes *)

(** The state of the configuration that matters here: how often COM is
    initialized, whether this process holds the write lock, which binding paths
    are enabled. *)
Record cfg_state := { com_count : Z; lock_held : bool; bindings : gmap Z bool }.

Definition add_com (n : Z) (c : cfg_state) : cfg_state :=
  {| com_count := com_count c + n; lock_held := lock_held c; bindings := bindings c |}.
Definition set_lock (b : bool) (c : cfg_state) : cfg_state :=
  {| com_count := com_count c; lock_held := b; bindings := bindings c |}.
Definition set_binding (p : Z) (b : bool) (c : cfg_state) : cfg_state :=
  {| com_count := com_count c; lock_held := lock_held c; bindings := <[p := b]> (bindings c) |}.

(** The documented behaviour: [AcquireWriteLock] answers [S_FALSE] when another
    program holds the lock, and an enumerator goes through a finite list of
    paths, whose tokens are fixed. *)
Class NetCfgLaws (W : Type) `{NetCfg W} := {
  cfg : W -> cfg_state;
  pending : Z -> W -> list Z;
  token_of : Z -> option (list Z);

  co_initialize w hr w' : CoInitializeEx w = (hr, w') -> cfg w' = if hr <? 0 then cfg w else add_com 1 (cfg w);
  co_uninitialize w : cfg (CoUninitialize w) = add_com (-1) (cfg w);
  acquire_lock l t name p w hr w' :
    AcquireWriteLock l t name p w = (hr, w') -> cfg w' = if hr =? S_OK then set_lock true (cfg w) else cfg w;
  release_lock l w : cfg (ReleaseWriteLock l w).2 = set_lock false (cfg w);
  enable_path b t w r w' : Enable b t w = (r, w') -> cfg w' = if is_ok r then set_binding b t (cfg w) else cfg w;
  next_path e w r f p w' : Enum_Next e w = ((r, f, p), w') ->
    cfg w' = cfg w
    /\ (is_ok r = true -> f <> 0 -> exists b, p = Some b /\ pending e w = b :: pending e w');
  path_token b w r w' : GetPathToken b w = (r, w') ->
    cfg w' = cfg w /\ (forall e, pending e w' = pending e w) /\ (forall t, r = Ok t -> t = token_of b);
  create_instance_cfg id w : cfg (CoCreateInstance id w).2 = cfg w;
  initialize_cfg n w : cfg (INetCfg_Initialize n w).2 = cfg w;
  uninitialize_cfg n w : cfg (INetCfg_Uninitialize n w).2 = cfg w;
  cast_lock_cfg n w : cfg (INetCfg_cast_lock n w).2 = cfg w;
  find_component_cfg n s w : cfg (FindComponent n s w).2 = cfg w;
  cast_bindings_cfg n w : cfg (INetCfgComponent_cast_bindings n w).2 = cfg w;
  enum_paths_cfg n f w : cfg (EnumBindingPaths n f w).2 = cfg w;
  is_enabled_cfg n w : cfg (IsEnabled n w).2 = cfg w;
  apply_cfg n w : cfg (INetCfg_Apply n w).2 = cfg w;
}.

Section toggle_spec.
Context {W : Type} `{NetCfgLaws W} `{!Uppercase}.

Abbreviation ends f w Q := (ends_in (St := W) f w Q).

Lemma ends_try {A} (op : W -> result A Z * W) msg (k : nat -> A -> M W (result () string)) w (Q : result () string -> W -> Prop) :
  (forall a w', op w = (Ok a, w') -> ends (fun fuel => k fuel a) w' Q) ->
  (forall e w', op w = (Err e, w') -> Q (Err (msg e)) w') ->
  ends (fun fuel => try_call op msg (k fuel)) w Q.
Proof.
  intros Hk He. destruct (op w) as [[a|e] w'] eqn:E.
  - destruct (Hk _ _ eq_refl) as (n & a' & s' & Hf & HQ). exists n, a', s'. split; [|exact HQ].
    intros fuel Hl. unfold try_call. rewrite (bind_eq _ _ _ (Ok a) w') by (unfold call; by rewrite E). by apply Hf.
  - exists 0%nat, (Err (msg e)), w'. split; [|by apply He].
    intros fuel _. unfold try_call. by rewrite (bind_eq _ _ _ (Err e) w') by (unfold call; by rewrite E).
Qed.

(** The adapter's own binding path was set, or, after an error, possibly nothing. *)
Definition toggled (target : bool) (r : result () string) (c c' : cfg_state) : Prop :=
  (r <> Ok () /\ c' = c)
  \/ exists b, names_adapter (token_of b) = true /\ c' = set_binding b target c.

Lemma binding_path_toggled b target w :
  names_adapter (token_of b) = true ->
  ends (fun _ => toggle_ipv6_in_binding_path b target) w (fun r w' => toggled target r (cfg w) (cfg w')).
Proof.
  intros Hb. unfold toggle_ipv6_in_binding_path. pose proof (is_enabled_cfg b w) as Hq.
  apply ends_try; [|intros e w' E; left; rewrite E in Hq; done]. intros [] w1 E1. rewrite E1 in Hq. simpl in Hq.
  apply ends_try.
  - intros [] w2 E2. apply ends_ret. right. exists b. split; [done|]. apply enable_path in E2. by rewrite E2, Hq.
  - intros e w2 E2. left. apply enable_path in E2. by rewrite E2, Hq.
Qed.

Lemma iterate_toggled e target w :
  ends (fun fuel => iterate_binding_paths fuel e target) w (fun r w' => toggled target r (cfg w) (cfg w')).
Proof.
  remember (pending e w) as l eqn:Hl. revert w Hl. induction l as [|b l IH]; intros w Hl.
  - destruct (Enum_Next e w) as [[[r f] p] w'] eqn:E. destruct (next_path _ _ _ _ _ _ E) as [Hc Hn].
    exists 1%nat, (Err "The adapter was not found in any of the binding paths"), w'. split; [|by left].
    intros [|fuel] Hf; [lia|]. simpl. rewrite (bind_eq _ _ _ (r, f, p) w') by (unfold call; by rewrite E).
    destruct (is_ok r) eqn:Hr; [|done]. destruct (Z.eqb_spec f 0); [done|].
    destruct Hn as (b & _ & Hp); [done..|]. congruence.
  - destruct (Enum_Next e w) as [[[r f] p] w1] eqn:E. destruct (next_path _ _ _ _ _ _ E) as [Hc Hn].
    destruct (negb (is_ok r) || (f =? 0)) eqn:Hstop.
    + exists 1%nat, (Err "The adapter was not found in any of the binding paths"), w1. split; [|by left].
      intros [|fuel] Hf; [lia|]. simpl. rewrite (bind_eq _ _ _ (r, f, p) w1) by (unfold call; by rewrite E).
      by rewrite Hstop.
    + apply orb_false_iff in Hstop as Hs. destruct Hs as [Hr%negb_false_iff Hf%Z.eqb_neq].
      destruct (Hn Hr Hf) as (b' & -> & Hp). rewrite <- Hl in Hp. injection Hp as <- Hp.
      destruct (GetPathToken b w1) as [t w2] eqn:E2. destruct (path_token _ _ _ _ E2) as (Hc2 & Hp2 & Ht).
      assert (Hrest : ends (fun fuel => iterate_binding_paths fuel e target) w2
        (fun r w' => toggled target r (cfg w) (cfg w'))).
      { rewrite <- Hc, <- Hc2. apply IH. by rewrite Hp2. }
      assert (Hnow : names_adapter (token_of b) = true ->
        ends (fun _ => toggle_ipv6_in_binding_path b target) w2 (fun r w' => toggled target r (cfg w) (cfg w'))).
      { intros Hb. rewrite <- Hc, <- Hc2. by apply binding_path_toggled. }
      assert (Hbody : ends (fun fuel => match t with
          | Ok t => if names_adapter t then toggle_ipv6_in_binding_path b target else iterate_binding_paths fuel e target
          | Err _ => iterate_binding_paths fuel e target end) w2 (fun r w' => toggled target r (cfg w) (cfg w'))).
      { destruct t as [t|]; [|exact Hrest]. rewrite (Ht t eq_refl).
        destruct (names_adapter (token_of b)) eqn:Hb; [by apply Hnow|exact Hrest]. }
      destruct Hbody as (n & a & s' & Hf' & HQ). exists (S n), a, s'. split; [|exact HQ].
      intros [|fuel] Hfl; [lia|]. simpl. rewrite (bind_eq _ _ _ (r, f, Some b) w1) by (unfold call; by rewrite E).
      rewrite Hstop, (bind_eq _ _ _ t w2) by (unfold call; by rewrite E2).
      rewrite <- (Hf' fuel) by lia. destruct t; done.
Qed.

(** A call that leaves the configuration alone. *)
Lemma quiet_call {A} (op : W -> A * W) (w : W) a w' : cfg (op w).2 = cfg w -> op w = (a, w') -> cfg w' = cfg w.
Proof. intros Hq E. by rewrite E in Hq. Qed.

Lemma component_toggled n comp target w :
  ends (fun fuel => get_ipv6_component_binding_paths fuel n comp target) w
    (fun r w' => toggled target r (cfg w) (cfg w')).
Proof.
  unfold get_ipv6_component_binding_paths.
  apply ends_try; intros ? w1 E1%quiet_call; [..|left; by rewrite E1|apply cast_bindings_cfg]; [|apply cast_bindings_cfg].
  rewrite <- E1.
  apply ends_try; intros en w2 E2%quiet_call; [..|left; by rewrite E2|apply enum_paths_cfg]; [|apply enum_paths_cfg].
  rewrite <- E2. destruct en as [en|]; [|apply ends_ret; by left].
  eapply ends_bind; [apply iterate_toggled|]. intros r w3 Ht. cbv beta.
  destruct r as [[]|e]; [|by apply ends_ret].
  assert (Hany : forall r' : result () string, r' = Ok () \/ r' <> Ok () -> toggled target r' (cfg w2) (cfg w3))
    by (intros r' _; destruct Ht as [[? _]|?]; [done|by right]).
  apply ends_try; intros u w4 E4%quiet_call; [..|rewrite E4; apply Hany; by right|apply apply_cfg]; [|apply apply_cfg].
  apply ends_ret. rewrite E4. apply Hany. by left.
Qed.

Lemma find_component_toggled n target w :
  ends (fun fuel => find_ipv6_component fuel n target) w (fun r w' => toggled target r (cfg w) (cfg w')).
Proof.
  unfold find_ipv6_component.
  apply ends_try; intros comp w1 E1%quiet_call; [..|left; by rewrite E1|apply find_component_cfg]; [|apply find_component_cfg].
  rewrite <- E1. destruct comp as [comp|]; [apply component_toggled|apply ends_ret; by left].
Qed.

(** The pointer is null, so the holder of a conflicting lock is never reported. *)
Lemma conflict_toggled n target w :
  ends (fun fuel => handle_conflict_holder fuel n (Some 0) target) w
    (fun r w' => toggled target r (cfg w) (cfg w')).
Proof.
  unfold handle_conflict_holder. simpl.
  apply ends_try; intros u w1 E1%quiet_call; [..|left; by rewrite E1|apply initialize_cfg]; [|apply initialize_cfg].
  rewrite <- E1. apply find_component_toggled.
Qed.

(** As [toggled], with the lock released if it was not held before. *)
Definition toggled_unlocked (target : bool) (r : result () string) (c c' : cfg_state) : Prop :=
  exists c1, toggled target r c c1 /\ bindings c' = bindings c1 /\ com_count c' = com_count c1
    /\ (lock_held c = false -> lock_held c' = false).

Lemma toggled_fields target r c c' :
  toggled target r c c' -> com_count c' = com_count c /\ lock_held c' = lock_held c.
Proof. by intros [[_ ->]|(b & _ & ->)]. Qed.

(** Only the bindings and the lock matter to [toggled] and the rest. *)
Lemma toggled_locked target r c c' b :
  toggled target r (set_lock b c) c' -> toggled target r c (set_lock (lock_held c) c').
Proof.
  intros [[Hr ->]|(p & Hp & ->)]; [left; by destruct c|right]. exists p. split; [done|]. by destruct c.
Qed.

Lemma write_lock_toggled n target w :
  ends (fun fuel => acquire_write_lock fuel n target) w (fun r w' => toggled_unlocked target r (cfg w) (cfg w')).
Proof.
  assert (Hsame : forall e w1, cfg w1 = cfg w -> toggled_unlocked target (Err e) (cfg w) (cfg w1)).
  { intros e w1 ->. exists (cfg w). split; [by left|]. by split_and!. }
  unfold acquire_write_lock.
  apply ends_try; intros l w1 E1%quiet_call; [..|by apply Hsame|apply cast_lock_cfg]; [|apply cast_lock_cfg].
  apply ends_try.
  - intros [] w2 E2. destruct (AcquireWriteLock l 5000 LOCK_NAME (Some 0) w1) as [hr w2'] eqn:Ea.
    injection E2 as _ ->. apply acquire_lock in Ea.
    eapply ends_bind; [apply conflict_toggled|]. intros r w3 Ht. cbv beta in Ht.
    pose proof (release_lock l w3) as Hrel. destruct (ReleaseWriteLock l w3) as [rr w4] eqn:Er. simpl in Hrel.
    exists 0%nat, r, w4. split; [intros fuel _; by rewrite (bind_eq _ _ _ rr w4) by (unfold call; by rewrite Er)|].
    assert (toggled target r (cfg w) (set_lock (lock_held (cfg w)) (cfg w3))) as Ht'.
    { rewrite Ea, E1 in Ht. destruct (hr =? S_OK); [by apply toggled_locked in Ht|].
      apply toggled_fields in Ht as Hf. destruct Hf as [_ Hf]. rewrite <- Hf. by destruct (cfg w3). }
    eexists. split; [exact Ht'|]. rewrite Hrel. by split_and!.
  - intros e w2 E2. destruct (AcquireWriteLock l 5000 LOCK_NAME (Some 0) w1) as [hr w2'] eqn:Ea.
    unfold hresult_ok in E2. destruct (Z.ltb_spec hr 0); simplify_eq. apply acquire_lock in Ea. apply Hsame.
    rewrite Ea. destruct (Z.eqb_spec e S_OK); [unfold S_OK in *; lia|done].
Qed.

Lemma instance_toggled target w :
  ends (fun fuel => create_inetcfg_instance fuel target) w (fun r w' => toggled_unlocked target r (cfg w) (cfg w')).
Proof.
  unfold create_inetcfg_instance.
  apply ends_try; intros n w1 E1%quiet_call; [..|exists (cfg w); rewrite E1; split; [by left|by split_and!]|apply create_instance_cfg];
    [|apply create_instance_cfg].
  rewrite <- E1. eapply ends_bind; [apply write_lock_toggled|]. intros r w2 Ht. cbv beta in *.
  pose proof (uninitialize_cfg n w2) as Hu. destruct (INetCfg_Uninitialize n w2) as [u w3] eqn:Eu. simpl in Hu.
  exists 0%nat, r, w3. split; [intros fuel _; by rewrite (bind_eq _ _ _ u w3) by (unfold call; by rewrite Eu)|].
  by rewrite Hu.
Qed.

Lemma toggle_ends (target : bool) (w : W) :
  ends (fun fuel => toggle_adapter_ipv6 fuel target) w (fun r w' =>
    com_count (cfg w') = com_count (cfg w)
    /\ (lock_held (cfg w) = false -> lock_held (cfg w') = false)
    /\ ((exists b, names_adapter (token_of b) = true /\ bindings (cfg w') = <[b := target]> (bindings (cfg w)))
        \/ (r <> Ok () /\ bindings (cfg w') = bindings (cfg w)))).
Proof.
  destruct (CoInitializeEx w) as [hr w1] eqn:E. apply co_initialize in E as Hi.
  destruct (Z.ltb_spec hr 0).
  - exists 0%nat, (Err "Error when initializing COM"), w1. split.
    { intros fuel _. unfold toggle_adapter_ipv6. rewrite (bind_eq _ _ _ hr w1) by (unfold call; by rewrite E).
      by rewrite (proj2 (Z.ltb_lt hr 0)). }
    rewrite Hi. split_and!; [done..|by right].
  - destruct (instance_toggled target w1) as (n & r & w2 & Hf & c1 & Ht & Hb & Hc & Hl).
    exists n, r, (CoUninitialize w2). split.
    { intros fuel Hfl. unfold toggle_adapter_ipv6. rewrite (bind_eq _ _ _ hr w1) by (unfold call; by rewrite E).
      rewrite (proj2 (Z.ltb_ge hr 0)) by done. rewrite (bind_eq _ _ _ r w2) by (by apply Hf). done. }
    rewrite co_uninitialize. simpl. apply toggled_fields in Ht as Hfld. destruct Hfld as [Hcc _].
    rewrite Hi in Ht, Hl, Hcc. simpl in Hl, Hcc. split_and!; [lia|done|].
    rewrite Hb. destruct Ht as [[Hr ->]|(b & Hn & ->)]; [by right|]. left. by exists b.
Qed.

(** C34.  Switching IPv6 of the adapter on or off always ends, whatever the
    number of binding paths.  On every path, errors included, COM is
    uninitialized as often as it was initialized and the configuration lock is
    released; the only binding that can change is one whose token names the
    tunnel's adapter, to the state asked for; and success means that it did. *)
Theorem ipv6_toggle (target : bool) (w : W) :
  exists n r w', (forall fuel, (n <= fuel)%nat -> toggle_adapter_ipv6 fuel target w = Ret (r, w'))
  /\ com_count (cfg w') = com_count (cfg w)
  /\ (lock_held (cfg w) = false -> lock_held (cfg w') = false)
  /\ ((exists b, names_adapter (token_of b) = true /\ bindings (cfg w') = <[b := target]> (bindings (cfg w)))
      \/ (r <> Ok () /\ bindings (cfg w') = bindings (cfg w))).
Proof.
  exact (toggle_ends target w).
Qed.
End toggle_spec.

(** The numeric and the textual form of the adapter's identifier agree, and the
    latter is in upper case. *)
Example adapter_guid_text :
  digits_value 16 0 (omap (to_digit 16) (chars ADAPTER_GUID_STR)) = ADAPTER_GUID
  /\ forallb (fun u => negb ((97 <=? u) && (u <=? 122))) (encode_utf16 ADAPTER_GUID_STR) = true.
Proof. vm_compute. done. Qed.
