(* ===== verification/WinTunSession.v ===== *)
(** * Windows: the Wintun session

    [src/connection/windows/helpers/wintun/wintun_session.rs]: the adapter of the
    tunnel is opened or created, configured, given addresses, DNS servers and
    routes, and its packet session is started; dropping it deletes the routes and
    shuts the session down. *)

From S2P Require Import Prelude Types Net IpParse Vectors WinNet LocalIpFinder WinRoutes WinAdapter WinIpv6.

Local Open Scope Z_scope.

(** ** The [wintun] crate *)

(** Adapters are [A], packet sessions [X]; errors are displayed. *)
Class Wintun (W A X : Type) := {
  load_from_path : string -> W -> result () string * W;
  Adapter_open : string -> W -> result A string * W;
  Adapter_create : string -> string -> option Z -> W -> result A string * W;
  get_adapter_index : A -> W -> result Z string * W;
  start_session : A -> Z -> W -> result X string * W;
  session_shutdown : X -> W -> result () string * W;
}.

(** The sizes of ring that Wintun accepts: powers of two. *)
Class RingCapacity := {
  MIN_RING_CAPACITY : Z;
  MAX_RING_CAPACITY : Z;
  ring_bounds : exists m n, 0 <= m <= n /\ n < 32 /\ MIN_RING_CAPACITY = 2 ^ m /\ MAX_RING_CAPACITY = 2 ^ n;
}.

Definition WINTUN_FILE_NAME : string := "wintun.dll".
Definition ADAPTER_NAME : string := "ProTUN".
Definition ADAPTER_DESCRIPTION : string := "Proton VPN Windows".
Definition ADAPTER_GUID_U128 : Z := ADAPTER_GUID.

(** [AdapterConfig] of [connection_windows.rs]. *)
Record AdapterConfig := {
  custom_dns_server_ips : list IpAddr;
  is_ipv6_enabled : bool;
  mtu : Z;
  buffer_size_bytes : Z;
}.

Record WinTunSession (A X : Type) := {
  wts_adapter : A;
  wts_session : X;
  wts_interface_index : Z;
  client_ipv4_addr : Z;
  server_ipv4_addr : Z;
  client_ipv6_addr : option Z;
  server_ipv6_addr : option Z;
  wts_routes : Routes;
}.
Arguments wts_adapter {A X}.
Arguments wts_session {A X}.
Arguments wts_interface_index {A X}.
Arguments client_ipv4_addr {A X}.
Arguments server_ipv4_addr {A X}.
Arguments client_ipv6_addr {A X}.
Arguments server_ipv6_addr {A X}.
Arguments wts_routes {A X}.

(** ** The size of the ring *)

(** [u32::checked_next_power_of_two]. *)
Definition checked_next_power_of_two (x : Z) : option Z :=
  let p := 2 ^ Z.log2_up x in if p <? 2 ^ 32 then Some p else None.

Definition clamp (x min max : Z) : Z := if x <? min then min else if max <? x then max else x.

Definition get_valid_wintun_buffer_size `{RingCapacity} (proposed_size : Z) : Z :=
  clamp (default MAX_RING_CAPACITY (checked_next_power_of_two proposed_size)) MIN_RING_CAPACITY MAX_RING_CAPACITY.

(** ** Addresses and DNS servers *)

(** [Ipv4Addr::new]. *)
Definition ipv4_new (a b c d : Z) : Z := ((a * 256 + b) * 256 + c) * 256 + d.

Definition client_ipv4 (i : Z) : Z := ipv4_new 10 i 0 2.
Definition client_ipv6 (i : Z) : Z := ipv6_new [0x2a07; 0xb944; 0; 0; 0; 0; i; 0x2].

Section session.
Context {W A X : Type} `{WinNet W, WinAdapters W, NetCfg W, Wintun W A X} `{Uppercase, RouteJson, RingCapacity}.

(** The loop over the second octet. *)
Fixpoint try_addresses (interface_index : Z) (second_octets : list Z) (w : W)
  : result (Z * option Z) ProTunFatalError * W :=
  match second_octets with
  | [] => (Err (WintunIpAddressSetupFailed "Could not set valid IP addresses for the WinTUN adapter."), w)
  | i :: second_octets =>
      let '(r, w) := set_adapter_ipv4_address interface_index (client_ipv4 i) 32 w in
      match r with
      | Err _ => try_addresses interface_index second_octets w
      | Ok _ =>
          let '(r6, w) := set_adapter_ipv6_address interface_index (client_ipv6 i) 128 w in
          (Ok (client_ipv4 i, if is_ok r6 then Some (client_ipv6 i) else None), w)
      end
  end.

(** [2..=255]. *)
Definition set_adapter_ip_addresses (interface_index : Z) (w : W)
  : result (Z * option Z) ProTunFatalError * W :=
  try_addresses interface_index (seqZ 2 254) w.

Definition set_ipv4_dns_servers (dns_server_ips : list Z) (server_addr : Z) (w : W) : result () Z * W :=
  let '(r, _, w) := set_adapter_ipv4_dns_servers ADAPTER_GUID (dns_server_ips ++ [server_addr]) w in (r, w).

Definition set_ipv6_dns_servers (dns_server_ips : list Z) (server_addr : Z) (w : W) : result () Z * W :=
  let '(r, _, w) := set_adapter_ipv6_dns_servers ADAPTER_GUID (dns_server_ips ++ [server_addr]) w in (r, w).

Definition set_dns_servers (custom_dns_server_ips : list IpAddr) (server_ipv4_addr : Z)
    (server_ipv6_addr_option : option Z) (w : W) : result () Z * W :=
  let '(ipv4_dns_servers, ipv6_dns_servers) := split_ips_by_protocol custom_dns_server_ips in
  let '(r, w) := set_ipv4_dns_servers ipv4_dns_servers server_ipv4_addr w in
  match r with
  | Err e => (Err e, w)
  | Ok _ =>
      match server_ipv6_addr_option with
      | Some server_ipv6_addr => set_ipv6_dns_servers ipv6_dns_servers server_ipv6_addr w
      | None => (Ok (), w)
      end
  end.

Definition server_ipv4_of (client : Z) : Z := ipv4_new 10 (octet client 2) 0 1.
Definition server_ipv6_of (client : Z) : Z :=
  ipv6_new [0x2a07; 0xb944; 0; 0; 0; 0; nth 6 (segments client) 0; 0x1].

Definition calculate_and_set_dns_servers (custom_dns_server_ips : list IpAddr) (client_ipv4_addr : Z)
    (client_ipv6_addr : option Z) (w : W) : (Z * option Z) * W :=
  let server_ipv4_addr := server_ipv4_of client_ipv4_addr in
  let server_ipv6_addr := server_ipv6_of <$> client_ipv6_addr in
  let '(_, w) := set_dns_servers custom_dns_server_ips server_ipv4_addr server_ipv6_addr w in
  ((server_ipv4_addr, server_ipv6_addr), w).

(** ** The session *)

Definition create_wintun_adapter (w : W) : result A ProTunFatalError * W :=
  let '(r, w) := load_from_path WINTUN_FILE_NAME w in
  match r with
  | Err e => (Err (WintunLibraryLoadingFailed ("Failed to load WinTUN DLL. Error: " +:+ e)), w)
  | Ok _ =>
      let '(r, w) := Adapter_open ADAPTER_NAME w in
      match r with
      | Ok a => (Ok a, w)
      | Err _ =>
          let '(r, w) := Adapter_create ADAPTER_NAME ADAPTER_DESCRIPTION (Some ADAPTER_GUID_U128) w in
          match r with
          | Ok adapter => (Ok adapter, w)
          | Err e => (Err (WintunInterfaceCreationFailed ("Could not create the WinTUN adapter. Error: " +:+ e)), w)
          end
      end
  end.

(** [op?] on an operation that fails with a fatal error. *)
Definition try_fatal {R B} (op : W -> result B ProTunFatalError * W) (k : B -> M W (result R ProTunFatalError))
  : M W (result R ProTunFatalError) :=
  r ← call op;
  match r with Ok b => k b | Err e => mret (Err e) end.

(** [op.map_err(|e| ..)]. *)
Definition map_err {B} (f : string -> ProTunFatalError) (op : W -> result B string * W) (w : W)
  : result B ProTunFatalError * W :=
  let '(r, w) := op w in (match r with Ok b => Ok b | Err e => Err (f e) end, w).

(** The adapter's interface parameters; failures are only logged. *)
Definition configure_interface (fuel : nat) (interface_index : Z) (adapter_config : AdapterConfig) : M W () :=
  call (set_ipv4_adapter_configurations interface_index (mtu adapter_config)) ;;
  if is_ipv6_enabled adapter_config then
    enable_adapter_ipv6 fuel ;;
    call (set_ipv6_adapter_configurations interface_index (mtu adapter_config)) ;;
    mret ()
  else
    disable_adapter_ipv6 fuel ;;
    mret ().

Definition WinTunSession_create (fuel : nat) (server_ips : list IpAddr) (adapter_config : AdapterConfig)
  : M W (result (WinTunSession A X) ProTunFatalError) :=
  let buffer_size := get_valid_wintun_buffer_size (buffer_size_bytes adapter_config) in
  try_fatal create_wintun_adapter (fun adapter =>
  try_fatal (map_err (fun e => WintunAdapterIndexFetchFailed ("Failed to get the Wintun adapter index. Error: " +:+ e))
               (get_adapter_index adapter)) (fun interface_index =>
  configure_interface fuel interface_index adapter_config ;;
  try_fatal (set_adapter_ip_addresses interface_index) (fun '(client4, client6) =>
  '(server4, server6) ← call (calculate_and_set_dns_servers (custom_dns_server_ips adapter_config) client4 client6);
  try_fatal (Routes_create server4 server6 interface_index server_ips) (fun routes =>
  try_fatal (map_err (fun e => WintunSessionCreationFailed ("Failed to create the Wintun session. Error: " +:+ e))
               (start_session adapter buffer_size)) (fun session =>
  mret (Ok {| wts_adapter := adapter; wts_session := session; wts_interface_index := interface_index;
              client_ipv4_addr := client4; server_ipv4_addr := server4; client_ipv6_addr := client6;
              server_ipv6_addr := server6; wts_routes := routes |})))))).

(** The methods of the session. *)
Definition session_disable_ipv6 (fuel : nat) (self : WinTunSession A X) : M W (result () string) :=
  disable_adapter_ipv6 fuel.
Definition session_enable_ipv6 (fuel : nat) (self : WinTunSession A X) : M W (result () string) :=
  enable_adapter_ipv6 fuel.
Definition session_set_dns_servers (custom_dns_server_ips : list IpAddr) (self : WinTunSession A X) (w : W)
  : result () Z * W :=
  set_dns_servers custom_dns_server_ips (server_ipv4_addr self) (server_ipv6_addr self) w.

(** The answer of [shutdown] is logged. *)
Definition shutdown_session (session : X) (w : W) : W := (session_shutdown session w).2.

Definition WinTunSession_drop (self : WinTunSession A X) (w : W) : W :=
  shutdown_session (wts_session self) (Routes_delete (wts_routes self) w).
End session.

(** ** The ring *)

Lemma log2_up_le p k : 0 <= k -> p <= 2 ^ k -> 2 ^ Z.log2_up p <= 2 ^ k.
Proof. intros Hk Hp. apply Z.pow_le_mono_r; [lia|]. rewrite <- (Z.log2_up_pow2 k) by done. by apply Z.log2_up_le_mono. Qed.

(** Whatever size is asked for, the ring has a size Wintun accepts: a power
    of two between its bounds.  A valid size is kept; a size up to the maximum is
    raised to the least valid one that is large enough; a larger one becomes the
    maximum. *)
Lemma ring_size_valid `{RingCapacity} (p : Z) :
  0 <= p < 2 ^ 32 ->
  let v := get_valid_wintun_buffer_size p in
  (exists k, 0 <= k < 32 /\ v = 2 ^ k) /\ MIN_RING_CAPACITY <= v <= MAX_RING_CAPACITY
  /\ (p <= MAX_RING_CAPACITY -> p <= v /\ forall k, 0 <= k -> p <= 2 ^ k -> MIN_RING_CAPACITY <= 2 ^ k -> v <= 2 ^ k)
  /\ (MAX_RING_CAPACITY < p -> v = MAX_RING_CAPACITY).
Proof.
  intros Hp. cbv zeta. destruct ring_bounds as (m & n & Hmn & Hn & Hmin & Hmax).
  assert (2 ^ m <= 2 ^ n) by (apply Z.pow_le_mono_r; lia).
  assert (2 ^ n < 2 ^ 32) by (apply Z.pow_lt_mono_r; lia).
  pose proof (Z.log2_up_nonneg p) as Hlog.
  assert (Hup : p <= 2 ^ Z.log2_up p).
  { destruct (Z.le_gt_cases p 1) as [Hp1|Hp1]; [pose proof (Z.pow_le_mono_r 2 0 (Z.log2_up p)); lia|].
    apply Z.log2_up_spec. lia. }
  unfold get_valid_wintun_buffer_size, checked_next_power_of_two, clamp. rewrite Hmin, Hmax.
  destruct (Z.ltb_spec (2 ^ Z.log2_up p) (2 ^ 32)) as [Hlt|Hge]; simpl.
  - destruct (Z.ltb_spec (2 ^ Z.log2_up p) (2 ^ m)) as [H1'|H1'];
      [|destruct (Z.ltb_spec (2 ^ n) (2 ^ Z.log2_up p)) as [H2'|H2']].
    + split_and!; [exists m; lia|lia|lia| |lia]. intros _. split; [lia|]. intros; lia.
    + split_and!; [exists n; lia|lia|lia| |done]. intros Hle. apply log2_up_le in Hle; lia.
    + split_and!; [|lia|lia| |lia].
      * exists (Z.log2_up p). split; [|done]. split; [done|]. by apply (Z.pow_lt_mono_r_iff 2) in Hlt.
      * intros _. split; [done|]. intros k Hk Hle _. by apply log2_up_le.
  - destruct (Z.ltb_spec (2 ^ n) (2 ^ m)); [lia|]. destruct (Z.ltb_spec (2 ^ n) (2 ^ n)); [lia|].
    split_and!; [exists n; lia|lia|lia| |done]. intros Hle. apply log2_up_le in Hle; lia.
Qed.

(** ** Addresses *)

Lemma client_ipv4_range i : 2 <= i <= 255 -> 0 <= client_ipv4 i < 2 ^ 32.
Proof. unfold client_ipv4, ipv4_new. lia. Qed.

Lemma client_ipv6_eq i : client_ipv6 i = 0x2a07b944 * 2 ^ 96 + i * 65536 + 2.
Proof. unfold client_ipv6, ipv6_new. simpl. lia. Qed.

Lemma server_ipv4_client i : 2 <= i <= 255 -> server_ipv4_of (client_ipv4 i) = ipv4_new 10 i 0 1.
Proof.
  intros Hi. unfold server_ipv4_of, octet, client_ipv4. f_equal. change 255 with (Z.ones 8).
  rewrite Z.land_ones, Z.shiftr_div_pow2 by lia. unfold ipv4_new. change (2 ^ (8 * 2)) with 65536.
  change (2 ^ 8) with 256. Z.to_euclidean_division_equations. lia.
Qed.

Lemma server_ipv6_client i :
  2 <= i <= 255 -> server_ipv6_of (client_ipv6 i) = ipv6_new [0x2a07; 0xb944; 0; 0; 0; 0; i; 0x1].
Proof.
  intros Hi. unfold server_ipv6_of. assert (nth 6 (segments (client_ipv6 i)) 0 = i) as ->; [|done].
  rewrite client_ipv6_eq. unfold segments. cbv [fmap list_fmap nth].
  change 65535 with (Z.ones 16). rewrite Z.land_ones, Z.shiftr_div_pow2 by lia.
  change (2 ^ (16 * 1)) with 65536. change (2 ^ 16) with 65536.
  change (0x2a07b944 * 2 ^ 96) with ((0x2a07b944 * 2 ^ 64) * 65536 * 65536). rewrite <- Z.mul_add_distr_r.
  rewrite Z.div_add_l by lia. change (2 / 65536) with 0. rewrite Z.add_0_r, Z.add_comm, Z.mod_add by lia.
  apply Z.mod_small. lia.
Qed.

(** What the documentation says of the adapter's functions: [addresses] lists the
    addresses given to interfaces, [dns_servers] the servers of the adapter, by
    protocol; a call that fails changes neither. *)
Class AdapterLaws (W : Type) `{WinAdapters W} := {
  addresses : W -> list (Z * option IpAddr * Z);
  dns_servers : bool -> W -> list IpAddr;
  create_address row w st w' : CreateUnicastIpAddressEntry row w = (st, w') ->
    addresses w' = if st =? NO_ERROR
      then addresses w ++ [(ua_InterfaceIndex row, sockaddr_inet_to_ip_addr (ua_Address row), ua_OnLinkPrefixLength row)]
      else addresses w;
  set_dns s w st w' l : SetInterfaceDnsSettings ADAPTER_GUID s w = (st, w') ->
    NameServer s ≫= name_servers = Some l -> Z.testbit (dns_Flags s) 1 = true ->
    let v6 := Z.testbit (dns_Flags s) 0 in
    dns_servers (negb v6) w' = dns_servers (negb v6) w
    /\ dns_servers v6 w' = if st =? NO_ERROR then l else dns_servers v6 w;
}.

Section addressing.
Context {W : Type} `{AdapterLaws W}.

Lemma set_ipv4_address_spec idx a len (w : W) r w' :
  0 <= a < 2 ^ 32 -> set_adapter_ipv4_address idx a len w = (r, w') ->
  addresses w' = if is_ok r then addresses w ++ [(idx, Some (V4 a), len)] else addresses w.
Proof.
  intros Ha. unfold set_adapter_ipv4_address, set_adapter_ip.
  destruct (CreateUnicastIpAddressEntry _ w) as [st w1] eqn:E. intros [= <- <-]. apply create_address in E.
  cbn [ua_Address ua_InterfaceIndex ua_OnLinkPrefixLength with_address create_address_row] in E.
  rewrite sockaddr_v4_ip in E by done. by destruct (st =? NO_ERROR).
Qed.

Lemma set_ipv6_address_spec idx a len (w : W) r w' :
  0 <= a < 2 ^ 128 -> set_adapter_ipv6_address idx a len w = (r, w') ->
  addresses w' = if is_ok r then addresses w ++ [(idx, Some (V6 a), len)] else addresses w.
Proof.
  intros Ha. unfold set_adapter_ipv6_address, set_adapter_ip.
  destruct (CreateUnicastIpAddressEntry _ w) as [st w1] eqn:E. intros [= <- <-]. apply create_address in E.
  cbn [ua_Address ua_InterfaceIndex ua_OnLinkPrefixLength with_address create_address_row] in E.
  rewrite sockaddr_v6_ip in E by done. by destruct (st =? NO_ERROR).
Qed.

(** The addresses of [l] were tried in order and refused. *)
Fixpoint refused (idx : Z) (l : list Z) (w w' : W) : Prop :=
  match l with
  | [] => w' = w
  | i :: l => exists e w1, set_adapter_ipv4_address idx (client_ipv4 i) 32 w = (Err e, w1) /\ refused idx l w1 w'
  end.

(** What [set_adapter_ip_addresses] answers and does over the octets of [l]. *)
Definition addressed (idx : Z) (l : list Z) (w : W) (r : result (Z * option Z) ProTunFatalError) (w' : W) : Prop :=
  match r with
  | Ok (a4, a6) =>
      exists l1 i l2 w1 w2, l = l1 ++ i :: l2 /\ refused idx l1 w w1
      /\ set_adapter_ipv4_address idx (client_ipv4 i) 32 w1 = (Ok (), w2)
      /\ a4 = client_ipv4 i /\ (a6 = None \/ a6 = Some (client_ipv6 i))
      /\ addresses w' = addresses w ++ (idx, Some (V4 a4), 32)
                        :: match a6 with Some a => [(idx, Some (V6 a), 128)] | None => [] end
  | Err e => e = WintunIpAddressSetupFailed "Could not set valid IP addresses for the WinTUN adapter."
             /\ refused idx l w w' /\ addresses w' = addresses w
  end.

Lemma try_addresses_spec idx l (w : W) :
  Forall (fun i => 2 <= i <= 255) l -> addressed idx l w (try_addresses idx l w).1 (try_addresses idx l w).2.
Proof.
  intros Hl. revert w. induction Hl as [|i l Hi _ IH]; intros w; cbn [try_addresses]; [done|].
  destruct (set_adapter_ipv4_address idx (client_ipv4 i) 32 w) as [[[]|e] w1] eqn:E.
  - apply set_ipv4_address_spec in E as Ha; [|by apply client_ipv4_range]. simpl in Ha.
    destruct (set_adapter_ipv6_address idx (client_ipv6 i) 128 w1) as [r6 w2] eqn:E6.
    apply set_ipv6_address_spec in E6; [|rewrite client_ipv6_eq; lia]. simpl.
    exists [], i, l, w, w1. split_and!; [done..|by destruct r6; [right|left]|].
    rewrite E6, Ha. destruct r6; simpl; [by rewrite <- app_assoc|done].
  - apply set_ipv4_address_spec in E as Ha; [|by apply client_ipv4_range]. simpl in Ha.
    specialize (IH w1). revert IH. unfold addressed. destruct (try_addresses idx l w1).1 as [[a4 a6]|e'].
    + intros (l1 & j & l2 & w2 & w3 & -> & Hr & Hs & H4 & H6 & Hadr).
      exists (i :: l1), j, l2, w2, w3. split_and!; try done; [by exists e, w1|by rewrite Hadr, Ha].
    + intros (-> & Hr & Hadr). split_and!; [done|by exists e, w1|by rewrite Hadr].
Qed.

(** The adapter gets the first address of the form 10.i.0.2, i from 2 to
    255, that Windows accepts, and the matching IPv6 address if it accepts that
    too; these are all the addresses that are added, and the server's are the
    same with a final 1.  When every one is refused, nothing is added and the
    error says so. *)
Lemma adapter_addressed (idx : Z) (w : W) :
  match set_adapter_ip_addresses idx w with
  | (Ok (a4, a6), w') =>
      exists i w1 w2, 2 <= i <= 255 /\ refused idx (seqZ 2 (i - 2)) w w1
      /\ set_adapter_ipv4_address idx (ipv4_new 10 i 0 2) 32 w1 = (Ok (), w2)
      /\ a4 = ipv4_new 10 i 0 2 /\ server_ipv4_of a4 = ipv4_new 10 i 0 1
      /\ (forall a, a6 = Some a -> a = ipv6_new [0x2a07; 0xb944; 0; 0; 0; 0; i; 2]
                    /\ server_ipv6_of a = ipv6_new [0x2a07; 0xb944; 0; 0; 0; 0; i; 1])
      /\ addresses w' = addresses w ++ (idx, Some (V4 a4), 32)
                        :: match a6 with Some a => [(idx, Some (V6 a), 128)] | None => [] end
  | (Err e, w') =>
      e = WintunIpAddressSetupFailed "Could not set valid IP addresses for the WinTUN adapter."
      /\ refused idx (seqZ 2 254) w w' /\ addresses w' = addresses w
  end.
Proof.
  unfold set_adapter_ip_addresses.
  assert (Hl : Forall (fun i => 2 <= i <= 255) (seqZ 2 254)) by (apply Forall_forall; intros i; rewrite elem_of_seqZ; lia).
  pose proof (try_addresses_spec idx (seqZ 2 254) w Hl) as Hs.
  destruct (try_addresses idx (seqZ 2 254) w) as [[[a4 a6]|e] w']; simpl in Hs; [|done].
  destruct Hs as (l1 & i & l2 & w1 & w2 & Heq & Hr & Hset & -> & H6 & Hadr).
  assert (Hi : i = 2 + Z.of_nat (length l1) /\ l1 = seqZ 2 (Z.of_nat (length l1))).
  { assert (Hlk : seqZ 2 254 !! length l1 = Some i) by (by rewrite Heq, list_lookup_middle).
    apply lookup_seqZ in Hlk as [-> Hlt]. split; [lia|].
    pose proof (f_equal (take (length l1)) Heq) as Ht. rewrite take_app_length in Ht. rewrite <- Ht at 1.
    replace 254 with (Z.of_nat (length l1) + (254 - Z.of_nat (length l1))) by lia.
    rewrite seqZ_app by lia. rewrite take_app_le by (rewrite length_seqZ; lia).
    rewrite firstn_all2; [done|rewrite length_seqZ; lia]. }
  destruct Hi as [-> Hl1].
  assert (Hi : 2 <= 2 + Z.of_nat (length l1) <= 255).
  { eapply Forall_forall in Hl; [exact Hl|]. rewrite Heq. set_solver. }
  exists (2 + Z.of_nat (length l1)), w1, w2. split_and!; try done; try lia.
  - replace (2 + Z.of_nat (length l1) - 2) with (Z.of_nat (length l1)) by lia. by rewrite <- Hl1.
  - by apply server_ipv4_client.
  - intros a ->. destruct H6 as [?|[= ->]]; [done|]. split; [done|by apply server_ipv6_client].
Qed.

(** ** DNS servers *)

Lemma omap_in_range {A} (f : IpAddr -> option A) (P : A -> Prop) l :
  Forall ip_in_range l -> (forall ip a, ip_in_range ip -> f ip = Some a -> P a) -> Forall P (omap f l).
Proof.
  intros Hl Hf. apply Forall_forall. intros a (ip & Hin & E)%list_elem_of_omap.
  eapply Forall_forall in Hl; [|exact Hin]. by eapply Hf.
Qed.

Lemma set_ipv4_dns_spec l a (w : W) r w' :
  Forall (fun a => 0 <= a < 2 ^ 32) (l ++ [a]) -> set_ipv4_dns_servers l a w = (r, w') ->
  dns_servers true w' = dns_servers true w
  /\ dns_servers false w' = if is_ok r then V4 <$> distinct (l ++ [a]) else dns_servers false w.
Proof.
  intros Hr. unfold set_ipv4_dns_servers.
  destruct (ipv4_dns_told ADAPTER_GUID (l ++ [a]) w) as (s & -> & Hn & Hf); [by destruct l|done|].
  intros [= <- <-]. destruct (SetInterfaceDnsSettings ADAPTER_GUID s w) as [st w1] eqn:E. simpl.
  apply (set_dns _ _ _ _ _ E) in Hn as [Ho Hs]; rewrite Hf in *; [|done]. simpl in *.
  split; [done|]. rewrite Hs. unfold status_result. by destruct (st =? NO_ERROR).
Qed.

Lemma set_ipv6_dns_spec l a (w : W) r w' :
  Forall (fun a => 0 <= a < 2 ^ 128) (l ++ [a]) -> set_ipv6_dns_servers l a w = (r, w') ->
  dns_servers false w' = dns_servers false w
  /\ dns_servers true w' = if is_ok r then V6 <$> distinct (l ++ [a]) else dns_servers true w.
Proof.
  intros Hr. unfold set_ipv6_dns_servers.
  destruct (ipv6_dns_told ADAPTER_GUID (l ++ [a]) w) as (s & -> & Hn & Hf); [by destruct l|done|].
  intros [= <- <-]. destruct (SetInterfaceDnsSettings ADAPTER_GUID s w) as [st w1] eqn:E. simpl.
  apply (set_dns _ _ _ _ _ E) in Hn as [Ho Hs]; rewrite Hf in *; [|done]. simpl in *.
  split; [done|]. rewrite Hs. unfold status_result. by destruct (st =? NO_ERROR).
Qed.

(** Setting the DNS servers: on success each protocol uses the custom
    servers of that protocol, in order and without duplicates, and the tunnel's
    own resolver last unless it is one of them; without an IPv6 address the IPv6
    servers are left alone.  When the IPv4 servers cannot be set nothing changes;
    when the IPv6 servers cannot, the IPv4 ones stay set. *)
Lemma dns_servers_set (custom : list IpAddr) (a4 : Z) (a6 : option Z) (w : W) :
  Forall ip_in_range custom -> 0 <= a4 < 2 ^ 32 -> (forall a, a6 = Some a -> 0 <= a < 2 ^ 128) ->
  let '(r, w') := set_dns_servers custom a4 a6 w in
  let v4 := V4 <$> distinct (omap as_v4 custom ++ [a4]) in
  let v6 := match a6 with Some a => V6 <$> distinct (omap as_v6 custom ++ [a]) | None => dns_servers true w end in
  match r with
  | Ok _ => dns_servers false w' = v4 /\ dns_servers true w' = v6
  | Err _ => dns_servers true w' = dns_servers true w
             /\ (dns_servers false w' = dns_servers false w \/ (a6 <> None /\ dns_servers false w' = v4))
  end.
Proof.
  intros Hc H4 H6. unfold set_dns_servers. rewrite split_ips_spec.
  assert (Forall (fun a => 0 <= a < 2 ^ 32) (omap as_v4 custom ++ [a4])) as Hr4.
  { apply Forall_app. split; [|by constructor]. eapply omap_in_range; [exact Hc|].
    intros [a|a] a' Ha [= ->]. exact Ha. }
  destruct (set_ipv4_dns_servers (omap as_v4 custom) a4 w) as [[[]|e] w1] eqn:E4;
    apply set_ipv4_dns_spec in E4 as [Ht1 Hf1]; try done; simpl in Hf1; [|by split; [|left]].
  destruct a6 as [a|]; [|by split].
  assert (Forall (fun a => 0 <= a < 2 ^ 128) (omap as_v6 custom ++ [a])) as Hr6.
  { apply Forall_app. split; [|constructor; [by apply H6|constructor]]. eapply omap_in_range; [exact Hc|].
    intros [b|b] a' Ha [= ->]. exact Ha. }
  destruct (set_ipv6_dns_servers (omap as_v6 custom) a w1) as [[[]|e] w2] eqn:E6;
    apply set_ipv6_dns_spec in E6 as [Hf2 Ht2]; try done; simpl in Ht2; rewrite Hf2, ?Ht2.
  - by split.
  - split; [done|]. right. by split.
Qed.
End addressing.

(** ** The life of a session *)

(** The functions of the adapter, of the network configuration and of Wintun leave
    [f] alone: those that concern the interface [idx], which is the one that the
    adapter has.  Windows adds routes with the addresses of an interface, and when
    it comes up; they are routes of that interface. *)
Class SessionFrame (W A X : Type) {B : Type} `{WinAdapters W, NetCfg W, Wintun W A X} (idx : Z) (f : W -> B) := {
  frame_adapter a w i w' : get_adapter_index a w = (Ok i, w') -> i = idx;
  frame_interface row w : f (SetIpInterfaceEntry row w).2 = f w;
  frame_address row w : ua_InterfaceIndex row = idx -> f (CreateUnicastIpAddressEntry row w).2 = f w;
  frame_dns g s w : f (SetInterfaceDnsSettings g s w).2 = f w;
  frame_com w : f (CoInitializeEx w).2 = f w /\ f (CoUninitialize w) = f w;
  frame_instance id w : f (CoCreateInstance id w).2 = f w;
  frame_free p w : f (CoTaskMemFree p w) = f w;
  frame_init n w : f (INetCfg_Initialize n w).2 = f w /\ f (INetCfg_Uninitialize n w).2 = f w;
  frame_cast n w : f (INetCfg_cast_lock n w).2 = f w /\ f (INetCfgComponent_cast_bindings n w).2 = f w;
  frame_lock l t s p w : f (AcquireWriteLock l t s p w).2 = f w;
  frame_release l w : f (ReleaseWriteLock l w).2 = f w;
  frame_component n s w : f (FindComponent n s w).2 = f w;
  frame_paths n fl w : f (EnumBindingPaths n fl w).2 = f w;
  frame_next n w : f (Enum_Next n w).2 = f w;
  frame_path b w : f (GetPathToken b w).2 = f w /\ f (IsEnabled b w).2 = f w;
  frame_enable b t w : f (Enable b t w).2 = f w;
  frame_apply n w : f (INetCfg_Apply n w).2 = f w;
  frame_load p w : f (load_from_path p w).2 = f w;
  frame_open n w : f (Adapter_open n w).2 = f w;
  frame_create n d g w : f (Adapter_create n d g w).2 = f w;
  frame_index a w : f (get_adapter_index a w).2 = f w;
  frame_start a n w : f (start_session a n w).2 = f w;
  frame_shutdown x w : f (session_shutdown x w).2 = f w;
}.

Section frame.
Context {W A X B : Type} `{WinNet W, WinAdapters W, NetCfg W, Wintun W A X} `{Uppercase, RouteJson, RingCapacity}.
Context (idx : Z) (f : W -> B) `{!SessionFrame W A X idx f}.

Definition same (w w' : W) : Prop := f w' = f w.

Lemma same_steps w w' : rtc same w w' -> f w' = f w.
Proof. induction 1 as [|x y z Hs _ IH]; [done|]. by rewrite IH. Qed.

Lemma keeps_call {R} (op : W -> R * W) : (forall w, f (op w).2 = f w) -> tracks same (call op).
Proof. intros Hop w a w' [= E]. apply rtc_once. unfold same. rewrite <- (Hop w). by rewrite E. Qed.

Lemma keeps_try {R} (op : W -> result R Z * W) msg k :
  (forall w, f (op w).2 = f w) -> (forall a, tracks same (k a)) -> tracks same (try_call op msg k).
Proof. intros Hop Hk. unfold try_call. apply tracks_bind; [by apply keeps_call|]. intros [a|e]; [apply Hk|apply tracks_ret]. Qed.

#[local] Ltac keeps :=
  repeat match goal with
  | |- tracks same (try_call _ _ _) => apply keeps_try; [|intros ?]
  | |- tracks same (call _) => apply keeps_call
  | |- tracks same (modify _) => apply tracks_step; intros ?; unfold same
  | |- forall w, f _ = f w => intros ?
  | |- tracks same _ => track1
  | _ => first [apply frame_interface | apply frame_dns | apply frame_com
               | apply frame_instance | apply frame_free | apply frame_init | apply frame_cast | apply frame_release
               | apply frame_component | apply frame_paths | apply frame_next | apply frame_path | apply frame_enable | apply frame_apply]
  end.

Lemma keeps_iterate fuel e t : tracks same (iterate_binding_paths fuel e t).
Proof. induction fuel as [|fuel IH]; simpl; unfold toggle_ipv6_in_binding_path; keeps; exact IH. Qed.

Lemma keeps_toggle fuel t : tracks same (toggle_adapter_ipv6 fuel t).
Proof.
  unfold toggle_adapter_ipv6, create_inetcfg_instance, acquire_write_lock, handle_conflict_holder,
    find_ipv6_component, get_ipv6_component_binding_paths.
  keeps; try apply keeps_iterate.
  match goal with |- f (let '(_, _) := AcquireWriteLock ?l ?t ?s ?p ?w in _).2 = _ =>
    pose proof (frame_lock l t s p w) as Hl; by destruct (AcquireWriteLock l t s p w) end.
Qed.

Lemma keeps_ipv4_configurations i mtu w : f (set_ipv4_adapter_configurations i mtu w).2 = f w.
Proof.
  unfold set_ipv4_adapter_configurations. destruct (create_interface_row _ _ _ w) as [row|e]; [|done].
  rewrite set_adapter_configurations_eq. apply frame_interface.
Qed.

Lemma keeps_ipv6_configurations i mtu w : f (set_ipv6_adapter_configurations i mtu w).2 = f w.
Proof.
  unfold set_ipv6_adapter_configurations. destruct (create_interface_row _ _ _ w) as [row|e]; [|done].
  rewrite set_adapter_configurations_eq. apply frame_interface.
Qed.

Lemma keeps_configure fuel i cfg : tracks same (configure_interface fuel i cfg).
Proof.
  unfold configure_interface, enable_adapter_ipv6, disable_adapter_ipv6.
  repeat first [apply keeps_toggle | apply keeps_call; intros ?; apply keeps_ipv4_configurations
               | apply keeps_call; intros ?; apply keeps_ipv6_configurations | track1].
Qed.

Lemma keeps_set_address row w : ua_InterfaceIndex row = idx -> f (set_adapter_ip row w).2 = f w.
Proof. intros Hi. unfold set_adapter_ip. pose proof (frame_address row w Hi). by destruct (CreateUnicastIpAddressEntry row w). Qed.

Lemma keeps_addresses l w : f (try_addresses idx l w).2 = f w.
Proof.
  revert w. induction l as [|i l IH]; intros w; cbn [try_addresses]; [done|].
  destruct (set_adapter_ipv4_address idx (client_ipv4 i) 32 w) as [[[]|e] w1] eqn:E;
    (assert (f w1 = f w) as Hw by (unfold set_adapter_ipv4_address in E; eapply (f_equal (f ∘ snd)) in E; simpl in E;
      by rewrite <- E, keeps_set_address)); [|by rewrite IH].
  destruct (set_adapter_ipv6_address idx (client_ipv6 i) 128 w1) as [r6 w2] eqn:E6. simpl. rewrite <- Hw.
  unfold set_adapter_ipv6_address in E6. eapply (f_equal (f ∘ snd)) in E6. simpl in E6. by rewrite <- E6, keeps_set_address.
Qed.

Lemma keeps_dns_server g s w : f (set_dns_server g s w).2 = f w.
Proof. rewrite set_dns_server_eq. apply frame_dns. Qed.

Lemma keeps_ipv4_dns l a w : f (set_ipv4_dns_servers l a w).2 = f w.
Proof.
  unfold set_ipv4_dns_servers, set_adapter_ipv4_dns_servers. destruct (l ++ [a]); [done|].
  pose proof (keeps_dns_server ADAPTER_GUID) as Hd. match goal with |- context [set_dns_server ?g ?s w] => specialize (Hd s w);
    by destruct (set_dns_server g s w) end.
Qed.

Lemma keeps_ipv6_dns l a w : f (set_ipv6_dns_servers l a w).2 = f w.
Proof.
  unfold set_ipv6_dns_servers, set_adapter_ipv6_dns_servers. destruct (l ++ [a]); [done|].
  pose proof (keeps_dns_server ADAPTER_GUID) as Hd. match goal with |- context [set_dns_server ?g ?s w] => specialize (Hd s w);
    by destruct (set_dns_server g s w) end.
Qed.

Lemma keeps_dns custom a4 a6 w : f (calculate_and_set_dns_servers custom a4 a6 w).2 = f w.
Proof.
  unfold calculate_and_set_dns_servers, set_dns_servers. destruct (split_ips_by_protocol custom) as [l4 l6].
  pose proof (keeps_ipv4_dns l4 (server_ipv4_of a4) w) as Hk4.
  destruct (set_ipv4_dns_servers l4 (server_ipv4_of a4) w) as [[[]|e] w1]; simpl in Hk4; [|done].
  destruct a6 as [a|]; simpl; [|done]. pose proof (keeps_ipv6_dns l6 (server_ipv6_of a) w1) as Hk6.
  destruct (set_ipv6_dns_servers l6 (server_ipv6_of a) w1) as [? w2]; simpl in *. by rewrite Hk6.
Qed.
End frame.

Section lifecycle.
Context {W A X : Type} `{WinNetLaws W} `{!RouteJson} `{!RouteJsonLaws}.
Context `{!WinAdapters W} `{!AdapterLaws W} `{!NetCfg W} `{!NetCfgLaws W} `{Wintun W A X} `{!Uppercase, RingCapacity}.

(** The routing table but for the tunnel's interface [idx], and the record of the
    routes. *)
Definition net (idx : Z) (w : W) : gset positive * list string := (others idx (routes w), stored w).

Context (tunnel : Z) `{!SessionFrame W A X tunnel (net tunnel)}.
Abbreviation tnet := (net tunnel).

(** The same, as a postcondition: [w'] differs from [w] in other things only. *)
Lemma ends_configure idx cfg (w : W) :
  ends_in (fun fuel => configure_interface fuel idx cfg) w (fun _ w' => tnet w' = tnet w).
Proof.
  unfold configure_interface, enable_adapter_ipv6, disable_adapter_ipv6.
  assert (Htoggle : forall t w0, ends_in (fun fuel => toggle_adapter_ipv6 fuel t) w0 (fun _ w' => tnet w' = tnet w0)).
  { intros t w0. destruct (toggle_ends t w0) as (n & r & w' & Hf & _). exists n, r, w'. split; [exact Hf|].
    apply (same_steps tnet). by eapply keeps_toggle, (Hf n). }
  eapply ends_bind; [apply (ends_call _ _ (fun _ w' => tnet w' = tnet w)), (keeps_ipv4_configurations tunnel tnet)|].
  intros ? w1 H1'. cbv beta in *. destruct (is_ipv6_enabled cfg).
  - eapply ends_bind; [apply Htoggle|]. intros ? w2 H2'. cbv beta in *.
    eapply ends_bind; [apply (ends_call _ _ (fun _ w' => tnet w' = tnet w2)), (keeps_ipv6_configurations tunnel tnet)|].
    intros ? w3 H3'. cbv beta in *. apply ends_ret. congruence.
  - eapply ends_bind; [apply Htoggle|]. intros ? w2 H2'. cbv beta in *. apply ends_ret. congruence.
Qed.

Lemma ends_fatal {R T} (op : W -> result T ProTunFatalError * W) (k : nat -> T -> M W (result R ProTunFatalError)) w Q :
  (forall a w', op w = (Ok a, w') -> ends_in (fun fuel => k fuel a) w' Q) ->
  (forall e w', op w = (Err e, w') -> Q (Err e) w') ->
  ends_in (fun fuel => try_fatal op (k fuel)) w Q.
Proof.
  intros Hk He. unfold try_fatal. eapply (ends_bind (fun _ => call op)); [by apply (ends_call _ _ (fun r w' => op w = (r, w'))); destruct (op w)|].
  intros [a|e] w' E; cbv beta in *; [by apply Hk|]. apply ends_ret. by apply He.
Qed.

Lemma create_adapter_net (w : W) :
  tnet (create_wintun_adapter w).2 = tnet w
  /\ match (create_wintun_adapter w).1 with
     | Ok _ | Err (WintunLibraryLoadingFailed _) | Err (WintunInterfaceCreationFailed _) => True
     | _ => False
     end.
Proof.
  unfold create_wintun_adapter. pose proof (frame_load (f := tnet) WINTUN_FILE_NAME w) as Hl.
  destruct (load_from_path WINTUN_FILE_NAME w) as [[[]|e] w1]; simpl in Hl; [|done].
  pose proof (frame_open (f := tnet) ADAPTER_NAME w1) as Ho.
  destruct (Adapter_open ADAPTER_NAME w1) as [[a|e] w2]; simpl in Ho; [split; [simpl; congruence|done]|].
  pose proof (frame_create (f := tnet) ADAPTER_NAME ADAPTER_DESCRIPTION (Some ADAPTER_GUID_U128) w2) as Hc.
  destruct (Adapter_create _ _ _ w2) as [[a|e'] w3]; simpl in Hc; (split; [simpl; congruence|done]).
Qed.

(** The errors that precede the creation of the routes. *)
Definition before_routes (e : ProTunFatalError) : Prop :=
  match e with
  | WintunLibraryLoadingFailed _ | WintunInterfaceCreationFailed _ | WintunAdapterIndexFetchFailed _
  | WintunIpAddressSetupFailed _ => True
  | _ => False
  end.

(** No deletion of a route and no reading of the routing table fails, and the
    record can be read and written. *)
Definition routes_work : Prop :=
  (forall row (w : W), is_ok (deletion_result (DeleteIpForwardEntry2 row w).1) = true)
  /\ (forall w : W, exists p rs w', GetIpForwardTable2 w = (NO_ERROR, Some (p, rs), w'))
  /\ RegistryWorks W.

(** The routing table and the record that remain of [w]: no route of the tunnel's
    interface, and none that an earlier run had left recorded. *)
Definition table_left (w : W) : gset positive * list string :=
  (others tunnel (routes w) ∖ list_to_set (rid <$> recorded (clean_routes (stored w))), []).

(** Dropping the session [s] in [w2]: the routes are deleted first, and the
    shutdown touches the tunnel's interface only. *)
Definition dropped (s : WinTunSession A X) (w w2 : W) : Prop :=
  exists w3, (routes w3, stored w3) = table_left w
    /\ WinTunSession_drop s w2 = shutdown_session (wts_session s) w3
    /\ tnet (WinTunSession_drop s w2) = table_left w.

(** What creating a session from [w] gives. *)
Definition session_created (server_ips : list IpAddr) (w : W) (r : result (WinTunSession A X) ProTunFatalError) (w1 : W) : Prop :=
  match r with
  | Ok s =>
      wts_interface_index s = tunnel
      /\ (exists i, 2 <= i <= 255 /\ client_ipv4_addr s = ipv4_new 10 i 0 2 /\ server_ipv4_addr s = ipv4_new 10 i 0 1
         /\ (client_ipv6_addr s = None /\ server_ipv6_addr s = None
             \/ client_ipv6_addr s = Some (ipv6_new [0x2a07; 0xb944; 0; 0; 0; 0; i; 2])
                /\ server_ipv6_addr s = Some (ipv6_new [0x2a07; 0xb944; 0; 0; 0; 0; i; 1])))
      /\ (routes_work -> forall w2, tnet w2 = tnet w1 -> dropped s w w2)
  | Err e =>
      (before_routes e /\ tnet w1 = tnet w)
      \/ exists s4 s6 w0 rt wr, tnet w0 = tnet w /\ Routes_create s4 s6 tunnel server_ips w0 = (rt, wr) /\ tnet w1 = tnet wr
         /\ (rt = Err e \/ is_ok rt = true /\ exists msg, e = WintunSessionCreationFailed msg)
  end.

(** The last two steps, the routes and the session, from addresses that were set. *)
Lemma session_tail adapter size a4 a6 i server_ips (w w0 : W) :
  2 <= i <= 255 -> a4 = client_ipv4 i -> a6 = None \/ a6 = Some (client_ipv6 i) -> tnet w0 = tnet w ->
  ends_in (fun _ : nat =>
    try_fatal (Routes_create (server_ipv4_of a4) (server_ipv6_of <$> a6) tunnel server_ips) (fun routes =>
    try_fatal (map_err (fun e => WintunSessionCreationFailed ("Failed to create the Wintun session. Error: " +:+ e))
               (start_session adapter size)) (fun session =>
    mret (Ok {| wts_adapter := adapter; wts_session := session; wts_interface_index := tunnel;
              client_ipv4_addr := a4; server_ipv4_addr := server_ipv4_of a4; client_ipv6_addr := a6;
              server_ipv6_addr := server_ipv6_of <$> a6; wts_routes := routes |})))) w0
    (session_created server_ips w).
Proof.
  intros Hi -> H6 Hnet. set (s4 := server_ipv4_of _). set (s6 := server_ipv6_of <$> a6).
  apply ends_fatal; [intros rt w1 Er|intros e w1 Er; right; by exists s4, s6, w0, (Err e), w1; split_and!; [..|left]].
  pose proof (frame_start (f := tnet) adapter size w1) as Hst.
  apply ends_fatal; unfold map_err; destruct (start_session adapter size w1) as [[x|e] w2]; simpl in Hst; intros y w3 [= <- <-].
  - apply ends_ret. split; [done|]. split.
    + exists i. split_and!; [lia..|done|by apply server_ipv4_client|]. unfold s6. simpl.
      destruct H6 as [-> | ->]; [by left|right]. split; [done|]. simpl. by rewrite server_ipv6_client.
    + intros (Hdel & Htab & Hreg) w3 Hw3. rewrite Hst in Hw3. injection Hw3 as Hr2 Hs2. injection Hnet as Hr0 Hs0.
      destruct (routes_created_deleted Hdel Htab _ _ _ _ _ _ _ Er w3 Hr2 Hs2) as (_ & Hr & Hs).
      exists (Routes_delete rt w3). unfold table_left. rewrite Hr, Hs, Hr0, Hs0. split; [done|]. split; [done|].
      unfold WinTunSession_drop, shutdown_session. simpl. rewrite (frame_shutdown (f := tnet)). unfold net.
      by rewrite Hr, Hs, Hr0, Hs0, others_removed.
  - right. exists s4, s6, w0, (Ok rt), w1. split_and!; [done..|]. right. split; [done|by eexists].
Qed.

Lemma session_ends server_ips adapter_config (w : W) :
  ends_in (fun fuel => WinTunSession_create fuel server_ips adapter_config) w (session_created server_ips w).
Proof.
  unfold WinTunSession_create. pose proof (create_adapter_net w) as [Hn1 Hm1].
  apply ends_fatal; [intros a w1 E1|intros e w1 E1; left; rewrite E1 in *; by destruct e].
  rewrite E1 in Hn1. simpl in Hn1. clear Hm1. pose proof (frame_index (f := tnet) a w1) as Hn2.
  apply ends_fatal; unfold map_err; destruct (get_adapter_index a w1) as [[idx|e] w2] eqn:Ei; simpl in Hn2; intros y w3 [= <- <-];
    [|left; split; [done|congruence]].
  apply frame_adapter in Ei as ->.
  eapply ends_bind; [apply ends_configure|]. intros ? w4 Hn4. cbv beta in *.
  pose proof (keeps_addresses tunnel tnet (seqZ 2 254) w4) as Hn5.
  pose proof (try_addresses_spec tunnel (seqZ 2 254) w4) as Ha.
  apply ends_fatal; unfold set_adapter_ip_addresses; intros p w5 E5; rewrite E5 in Hn5, Ha; simpl in Hn5, Ha.
  - destruct p as [a4 a6]. destruct Ha as (l1 & i & l2 & w6 & w7 & Hl & _ & _ & Ha4 & Ha6 & _).
    { apply Forall_forall. intros j. rewrite elem_of_seqZ. lia. }
    assert (2 <= i <= 255) by (assert (Hi : i ∈ seqZ 2 254) by (rewrite Hl; set_solver); rewrite elem_of_seqZ in Hi; lia).
    eapply ends_bind; [apply (ends_call _ _ (fun q w' => q = (server_ipv4_of a4, server_ipv6_of <$> a6) /\ tnet w' = tnet w5));
      split; [unfold calculate_and_set_dns_servers; by destruct (set_dns_servers _ _ _ _)|apply (keeps_dns (A := A) (X := X) tunnel tnet)]|].
    intros q w8 [-> Hn8]. cbv beta. apply (session_tail a _ a4 a6 i server_ips w w8); [done|done|done|congruence].
  - destruct Ha as [-> _]; [apply Forall_forall; intros j; rewrite elem_of_seqZ; lia|]. left. split; [done|congruence].
Qed.

(** C33.  Creating the tunnel's session always ends, whatever the system answers.
    When it succeeds, the client has the address 10.i.0.2 and the server 10.i.0.1,
    with the matching IPv6 addresses or none.  Dropping the session later deletes
    the routes before it shuts the session down: no route of the tunnel's interface
    is left then, the routes of the other interfaces are those there were before
    the session, less the ones that an earlier run had left recorded, and the
    record is empty.  This last part holds when no deletion of a route and no
    reading of the routing table fails and the record can be read and written
    ([routes_work]), and when nothing but the tunnel's interface was changed between
    the end of the creation and the drop.  When the creation fails before the routes
    are created, the routes of other interfaces and the record are untouched; when
    it fails later, the routes that were created are left in place.

    Windows may add and remove routes of the tunnel's interface at any call on the
    adapter, the network configuration and Wintun, as it does with an address; that
    these calls leave the routes of other interfaces and the record alone, and that
    the adapter's interface is [tunnel], is [SessionFrame]. *)
Theorem session_lifecycle (server_ips : list IpAddr) (adapter_config : AdapterConfig) (w : W) :
  exists n r w1,
    (forall fuel, (n <= fuel)%nat -> WinTunSession_create fuel server_ips adapter_config w = Ret (r, w1))
    /\ session_created server_ips w r w1.
Proof. exact (session_ends server_ips adapter_config w). Qed.
End lifecycle.
