(* ===== verification/WinConnection.v ===== *)
(** * Windows: the library's entry points

    [src/api/windows/connection_windows.rs], [state_changed_callback.rs],
    [protun_error.rs], [helpers/winsock.rs] and the adapter's status text of
    [src/utils/windows/registry_editor.rs]: initialization, the constructor of a
    connection with the dependencies of its thread, and the callback that
    mirrors the connection's state in the registry. *)

From S2P Require Import Prelude Types NetworkRecovery SanitizedPeers Conversions LocalAgent Streams Pcap.
From S2P Require Import PvpnClient PeerSync Net IpParse Vectors Connection ConnectionSteps ConnectionInvariants.
From S2P Require Import ConnectionTheorems ConnectionSafety StreamCalls MioStreams SocketFactory Clocks Mailbox Api Threads Startup.
From S2P Require Import WinNet LocalIpFinder WinRoutes WinErrors WinSockets WinSocketFactory WinTun WindowsStreams.
From S2P Require Import WinAdapter WinIpv6 WinTunSession WinLoop.

Local Open Scope Z_scope.

(** [Display] of [ProTunFatalError]. *)
Definition ProTunFatalError_display (e : ProTunFatalError) : string :=
  match e with
  | NoLocalIp m => "Local IP address not found: " +:+ m
  | HandleCreationFailed m => "Failed to create a Windows HANDLE: " +:+ m
  | WinsockStartFailed m => "Failed to start Winsock: " +:+ m
  | WintunLibraryLoadingFailed m => "Failed to load the Wintun library: " +:+ m
  | WintunInterfaceCreationFailed m => "Failed to create Wintun interface: " +:+ m
  | WintunAdapterIndexFetchFailed m => "Failed to get the Wintun adapter index: " +:+ m
  | WintunSessionCreationFailed m => "Failed to create Wintun session: " +:+ m
  | WintunIpAddressSetupFailed m => "Could not set a valid IP address for the Wintun interface: " +:+ m
  | WintunSessionHandleCreationFailed m => "Failed to create the Wintun stream handle: " +:+ m
  end.

(** ** Winsock *)

Class WinsockApi (W : Type) := {
  WSAStartup : Z -> W -> Z * W;
  WSACleanup : W -> W;
}.

Section winsock.
Context {W : Type} `{WinsockApi W}.

Definition Winsock_create (w : W) : result () ProTunFatalError * W :=
  let '(res, w) := WSAStartup 0x202 w in
  (if res =? 0 then Ok ()
   else Err (WinsockStartFailed ("Winsock startup (WSAStartup) failed. Error code: " +:+ pretty res)), w).

(** Each value of the type is dropped once, clones included. *)
Definition Winsock_drop (w : W) : W := WSACleanup w.

(** [ProTun::initialize]; a [ProTun] holds nothing but its [Winsock]. *)
Definition ProTun_initialize (log_level : LogLevel) (logger_callback : nat)
  : M (LogState * W) (result () ProTunFatalError) := fun '(l, w) =>
  match init_logger log_level logger_callback l with
  | Ret (_, l) => let '(r, w) := Winsock_create w in Ret (r, (l, w))
  | Panic => Panic
  | NoFuel => NoFuel
  end.

Definition ProTun_drop (w : W) : W := Winsock_drop w.
End winsock.

Definition ProTun_delete_routes {W} `{WinNet W, RouteJson} (w : W) : W := delete_created_routes w.

(** ** The status of the adapter *)

(** The registry's list of network profiles: whether it can be opened, its keys
    with [None] for those that cannot be read, and, of a key, whether it can be
    opened, its description and the assignment of its name. *)
Class ProfileRegistry (W : Type) := {
  profiles_open : W -> bool;
  profiles_enum_keys : W -> list (option string);
  profile_open : string -> W -> bool;
  profile_description : string -> W -> option string;
  profile_set_name : string -> string -> W -> bool * W;
}.

Section status.
Context {W : Type} `{ProfileRegistry W}.

(** The number of profiles edited is logged. *)
Definition edit_profile (text : string) (key : option string) (s : nat * W) : nat * W :=
  let '(num_edits, w) := s in
  match key with
  | None => (num_edits, w)
  | Some profile_key =>
      if profile_open profile_key w && bool_decide (profile_description profile_key w = Some ADAPTER_NAME) then
        let '(ok, w) := profile_set_name profile_key text w in
        (if ok : bool then S num_edits else num_edits, w)
      else (num_edits, w)
  end.

Definition set_network_adapter_status_text (text : string) (w : W) : W :=
  if profiles_open w
  then (foldl (fun s key => edit_profile text key s) (0%nat, w) (profiles_enum_keys w)).2
  else w.
End status.

Definition disconnected_to_string (error : option DisconnectReason) : string :=
  match error with Some _ => "Disconnected with error" | None => "Disconnected" end.

Definition connecting_to_string (peers : list PeerConnectionInfo) (wait_reasons : list PeerConnectionWaitReason)
  : string :=
  let waiting_label := match head wait_reasons with
                       | Some WaitingForNetwork => " Waiting for network"
                       | None => ""
                       end in
  let num_peers := length peers in
  if (1 <? num_peers)%nat then "Connecting (" +:+ pretty num_peers +:+ " peers)" +:+ waiting_label
  else match peers with
       | [p] => "Connecting to " +:+ conn_peer_id p +:+ waiting_label
       | _ => "Connecting" +:+ waiting_label
       end.

Definition connected_to_string (peer : PeerConnectionInfo) : string := "Connected to " +:+ conn_peer_id peer.

Definition connecting_local_agent_to_string (peer : PeerConnectionInfo) (wait_reason : option AgentConnectionWaitReason)
  : string :=
  let waiting_label := match wait_reason with
                       | Some SoftJailed => " (Soft jailed)"
                       | Some (HardJailed _) => " (Hard jailed)"
                       | None => ""
                       end in
  "Connecting to " +:+ conn_peer_id peer +:+ waiting_label.

Definition String_from_ConnectionState (s : ConnectionState) : string :=
  match s with
  | Disconnected error => disconnected_to_string error
  | Connecting peers wait_reasons => connecting_to_string peers wait_reasons
  | ConnectingToLocalAgent peer wait_reason => connecting_local_agent_to_string peer wait_reason
  | Connected peer _ => connected_to_string peer
  end.

(** [WindowsStateChangedCallback]: the client's callback is the list of the states
    it was given. *)
Definition win_on_state_changed {W} `{ProfileRegistry W} (state : VpnState) (s : list VpnState * W)
  : list VpnState * W :=
  let '(client_callback, w) := s in
  (client_callback ++ [state], set_network_adapter_status_text (String_from_ConnectionState (vpn_connection_state state)) w).

(** ** The connection *)

Record NetworkConfig := { tun_adapter : AdapterConfig; udp_socket : SocketConfig }.

Record ProTunAdapterDetails := {
  det_interface_index : Z;
  det_client_ipv4_addr : string;
  det_server_ipv4_addr : string;
  det_client_ipv6_addr : string;
  det_server_ipv6_addr : string;
}.

Section windows_connection.
Context `{ids : StreamIds} {W A K X : Type}.
Context `{WinNet W, WinAdapters W, NetCfg W, Wintun W A X, WinEvents W, WinSockets W K}.
Context `{Device K, WinSocket K, WintunSession X} `{Uppercase, RouteJson, RingCapacity}.

(** The [pvpnclient] library: its parsers and its builders; and the system's clocks. *)
Context {L I R Key Cert Auth App Seed : Type} `{PvpnLibrary L} `{InstantSource I, SystemTimeSource R}.
Context (private_key_from_pem : list byte -> result Key string).
Context (certificate_from_pem : list byte -> result Cert string).
Context (muon_auth_try_from : list byte -> result Auth string).
Context (muon_app : string -> string -> result App string).
Context (build_local_agent : Seed -> Instant -> Instant -> option Key -> option Cert -> App -> option Auth -> L).
Context (build_no_local_agent : Seed -> Instant -> Instant -> list byte -> L).

Abbreviation WinClient := (PvpnClientImpl L (ClientMonotonicFactory I) (ClientRealtimeFactory R)).
Abbreviation Deps := (@PvpnDependencies WinClient (WindowsStreams W K X) (ClientRealtimeFactory R)).

(** [create_pvpn_dependencies]; the system's state goes with the streams.  A time
    before the epoch is a panic. *)
Definition create_windows_dependencies (waker : WindowsPollWaker) (config : InitialConnectionConfig)
    (udp_socket_config : SocketConfig) (tun : WinTunSession A X) (cache_get : CacheKey -> option (list byte))
    (i : I) (r : R) (seed : Seed) (w : W) : outcome (io_result Deps) :=
  match TunStreamWindows_new (wts_session tun) with
  | Err e => Ret (Err (io_error_new OtherKind ("Failed to create streams: " +:+ ProTunFatalError_display e)))
  | Ok tun_stream =>
      let streams := WindowsStreams_new (WTun tun_stream) waker udp_socket_config w in
      let realtime := ClientRealtimeFactory_new r in
      outcome_try (Ret (to_pvpn_client_mode private_key_from_pem certificate_from_pem muon_auth_try_from
                          (cfg_connection_mode config) cache_get)) (fun mode =>
      outcome_try (PvpnClientImpl_new muon_app build_local_agent build_no_local_agent
                     (ClientMonotonicFactory_new i) realtime mode seed) (fun client =>
      Ret (Ok {| config := config; dep_streams := streams; dep_client := client; dep_clock := realtime |})))
  end.

Record WindowsConnection := { wc_connection : Handle; wc_tun : WinTunSession A X }.

(** [WindowsConnection::connect]: the connection, and the dependencies that its
    thread builds.  A session without its waker is dropped on return. *)
Definition WindowsConnection_connect (fuel : nat) (connection_config : InitialConnectionConfig)
    (network_config : NetworkConfig) (cache_get : CacheKey -> option (list byte))
    (i : I) (r : R) (seed : Seed)
  : M W (result (WindowsConnection * outcome (io_result Deps)) ProTunFatalError) :=
  let server_ips := server_ip <$> cfg_peers connection_config in
  tun ← WinTunSession_create fuel server_ips (tun_adapter network_config);
  match tun with
  | Err e => mret (Err e)
  | Ok tun =>
      waker ← WinIpv6.call WindowsPollWaker_new;
      match waker with
      | Err e => modify (WinTunSession_drop tun) ;; mret (Err e)
      | Ok waker =>
          deps ← get (create_windows_dependencies waker connection_config (udp_socket network_config) tun cache_get
                        i r seed);
          mret (Ok ({| wc_connection := connect_internal (built deps); wc_tun := tun |}, deps))
      end
  end.

Definition get_connection (self : WindowsConnection) : Handle := wc_connection self.

Definition get_adapter_details (self : WindowsConnection) : ProTunAdapterDetails :=
  {| det_interface_index := wts_interface_index (wc_tun self);
     det_client_ipv4_addr := ipv4_to_string (client_ipv4_addr (wc_tun self));
     det_server_ipv4_addr := ipv4_to_string (server_ipv4_addr (wc_tun self));
     det_client_ipv6_addr := option_ipv6addr_to_string (client_ipv6_addr (wc_tun self));
     det_server_ipv6_addr := option_ipv6addr_to_string (server_ipv6_addr (wc_tun self)) |}.

(** Both answer whether it succeeded, never an error. *)
Definition win_set_ipv6 (fuel : nat) (self : WindowsConnection) (is_enabled : bool)
  : M W (result bool ProTunFatalError) :=
  r ← (if is_enabled then session_enable_ipv6 fuel (wc_tun self) else session_disable_ipv6 fuel (wc_tun self));
  mret (Ok (is_ok r)).

Definition win_set_dns (self : WindowsConnection) (custom_dns_server_ips : list IpAddr)
  : M W (result bool ProTunFatalError) :=
  r ← WinIpv6.call (session_set_dns_servers custom_dns_server_ips (wc_tun self));
  mret (Ok (is_ok r)).
End windows_connection.

(** ** What the callback writes *)

(** Assigning a profile's name changes nothing else. *)
Class ProfileRegistryLaws (W : Type) `{ProfileRegistry W} := {
  profile_name : string -> W -> option string;
  set_name k t w ok w' : profile_set_name k t w = (ok, w') ->
    (forall k', profile_name k' w' = if ok && bool_decide (k' = k) then Some t else profile_name k' w)
    /\ (forall k', profile_description k' w' = profile_description k' w)
    /\ (forall k', profile_open k' w' = profile_open k' w);
}.

Section status_spec.
Context {W : Type} `{ProfileRegistryLaws W}.

Definition adapter_profile (k : string) (w : W) : Prop :=
  profile_open k w = true /\ profile_description k w = Some ADAPTER_NAME.

(** Only names may differ, and only to [text] on the adapter's profiles. *)
Definition renamed (text : string) (w w' : W) : Prop :=
  (forall k, profile_description k w' = profile_description k w)
  /\ (forall k, profile_open k w' = profile_open k w)
  /\ (forall k, profile_name k w' = profile_name k w \/ (adapter_profile k w /\ profile_name k w' = Some text)).

Lemma renamed_trans text w w1 w2 : renamed text w w1 -> renamed text w1 w2 -> renamed text w w2.
Proof.
  intros (Hd & Ho & Hn) (Hd' & Ho' & Hn'). split_and!; [congruence..|]. intros k.
  specialize (Hn' k). unfold adapter_profile in *. rewrite Hd, Ho in Hn'. destruct Hn' as [->|?]; [apply Hn|by right].
Qed.

Lemma edit_profile_renamed text key n (w : W) :
  renamed text w (edit_profile text key (n, w)).2
  /\ forall k, key = Some k -> adapter_profile k w -> (forall w, (profile_set_name k text w).1 = true) ->
     profile_name k (edit_profile text key (n, w)).2 = Some text.
Proof.
  assert (Hrefl : renamed text w w) by (split_and!; [done..|by left]).
  unfold edit_profile. destruct key as [k|]; [|done].
  destruct (profile_open k w && bool_decide (profile_description k w = Some ADAPTER_NAME)) eqn:E.
  - apply andb_true_iff in E as [Ho Hd%bool_decide_eq_true].
    destruct (profile_set_name k text w) as [ok w1] eqn:Es. destruct (set_name _ _ _ _ _ Es) as (Hn & Hd1 & Ho1).
    simpl. split.
    + split_and!; [done..|]. intros k'. rewrite Hn. destruct ok; simpl; [|by left].
      case_bool_decide as Hk; [subst; right; by split|by left].
    + intros k' [= <-] _ Hok. specialize (Hok w). rewrite Es in Hok. simpl in Hok. subst ok.
      rewrite Hn. by rewrite bool_decide_eq_true_2.
  - split; [done|]. intros k' [= <-] [Ho Hd]. by rewrite Ho, Hd in E.
Qed.

Lemma edit_profiles_renamed text keys n (w : W) :
  renamed text w (foldl (fun s key => edit_profile text key s) (n, w) keys).2
  /\ forall k, Some k ∈ keys -> adapter_profile k w -> (forall w, (profile_set_name k text w).1 = true) ->
     profile_name k (foldl (fun s key => edit_profile text key s) (n, w) keys).2 = Some text.
Proof.
  induction keys as [|key keys IH] using rev_ind; [split; [split_and!; [done..|by left]|set_solver]|].
  rewrite foldl_snoc. destruct (foldl _ (n, w) keys) as [n1 w1]. simpl in IH. destruct IH as [Hr Hk].
  destruct (edit_profile_renamed text key n1 w1) as [Hr1 Hk1]. split; [by eapply renamed_trans|].
  assert (Hsame : forall k, adapter_profile k w -> adapter_profile k w1).
  { intros k. unfold adapter_profile. destruct Hr as (Hd & Ho & _). by rewrite Hd, Ho. }
  intros k [Hin|<-%list_elem_of_singleton]%elem_of_app Ha Hok; [|by apply Hk1; auto].
  destruct Hr1 as (_ & _ & Hn). destruct (Hn k) as [->|[_ ->]]; [by apply Hk|done].
Qed.

(** Every state change reaches the client's callback, once and in order, and
    the adapter's network profiles are renamed to the text of the state: no
    other profile is touched, and each of the adapter's that can be written has
    the new name. *)
Lemma adapter_status_text (state : VpnState) (delivered : list VpnState) (w : W) :
  let text := String_from_ConnectionState (vpn_connection_state state) in
  let '(delivered', w') := win_on_state_changed state (delivered, w) in
  delivered' = delivered ++ [state]
  /\ (forall k, profile_name k w' = profile_name k w \/ (adapter_profile k w /\ profile_name k w' = Some text))
  /\ (forall k, profiles_open w = true -> Some k ∈ profiles_enum_keys w -> adapter_profile k w ->
       (forall w, (profile_set_name k text w).1 = true) -> profile_name k w' = Some text).
Proof.
  cbv zeta. unfold win_on_state_changed, set_network_adapter_status_text. split; [done|].
  set (text := String_from_ConnectionState (vpn_connection_state state)).
  destruct (edit_profiles_renamed text (profiles_enum_keys w) 0 w) as [(_ & _ & Hn) Hk].
  destruct (profiles_open w); [|split; [by left|done]]. split; [done|]. intros k _. apply Hk.
Qed.
End status_spec.

(** ** From the constructor to the loop *)

Section connect_spec.
Context `{ids : StreamIds} {W A K X : Type} `{WinSocketsLaws W K}.
Context `{!WinNetLaws W} `{!RouteJson} `{!RouteJsonLaws}.
Context `{!WinAdapters W} `{!AdapterLaws W} `{!NetCfg W} `{!NetCfgLaws W} `{Wintun W A X} `{!Uppercase, RingCapacity}.
Context (tunnel : Z) `{!SessionFrame W A X tunnel (net tunnel)}.
Context `{!Device K} `{!WinSocket K} `{!DeviceLaws K} `{!WinEvents W} `{!WinEventsLaws W} `{!WintunSession X} `{!WintunSessionLaws X}.
Context {L I R Key Cert Auth App Seed : Type} `{PvpnLibrary L} `{InstantSource I, SystemTimeSource R}.
Context (private_key_from_pem : list byte -> result Key string).
Context (certificate_from_pem : list byte -> result Cert string).
Context (muon_auth_try_from : list byte -> result Auth string).
Context (muon_app : string -> string -> result App string).
Context (build_local_agent : Seed -> Instant -> Instant -> option Key -> option Cert -> App -> option Auth -> L).
Context (build_no_local_agent : Seed -> Instant -> Instant -> list byte -> L).
Context (wfuel : nat).

#[local] Instance connect_stream : Stream (WinStream K X) := WinStream_Stream wfuel.

(** What the thread of a connection gets. *)
Lemma windows_dependencies_spec waker config udp tun cache_get (i : I) (r : R) (seed : Seed) (w : W) :
  let deps := create_windows_dependencies private_key_from_pem certificate_from_pem muon_auth_try_from muon_app
    build_local_agent build_no_local_agent waker config udp tun cache_get i r seed w in
  (deps = Panic <-> is_ok (TunStreamWindows_new (wts_session (tun : WinTunSession A X))) = true
     /\ secrets_parse private_key_from_pem certificate_from_pem muon_auth_try_from (cfg_connection_mode config) cache_get = true
     /\ (system_time_now r).1 < 0)
  /\ (forall d, deps = Ret (Ok d) -> thread_safe (Ok d) (before_epoch r))
  /\ (crash_cause deps -> before_epoch r)
  /\ deps <> NoFuel.
Proof.
  cbv zeta. unfold create_windows_dependencies.
  destruct (TunStreamWindows_new (wts_session tun)) as [t|e].
  2: { split_and!; [by split; [|intros [[=] _]]|done|by intros [|(d & [=] & _)]|done]. }
  rewrite outcome_try_assoc.
  pose proof (client_built private_key_from_pem certificate_from_pem muon_auth_try_from muon_app build_local_agent
    build_no_local_agent (cfg_connection_mode config) cache_get (ClientMonotonicFactory_new i) r seed) as Hc.
  destruct (outcome_try (Ret _) _) as [[cl|e]| |]; simpl.
  - destruct Hc as (Hu & Hge & Hr).
    set (d0 := {| config := config; dep_streams := WindowsStreams_new (WTun t) waker udp w; dep_client := cl;
                  dep_clock := ClientRealtimeFactory_new r |}).
    pose proof (crash_before_epoch d0 r Hr eq_refl) as Hcr. split_and!; [split; [done|lia]| |done|done].
    intros d [= <-] android fuel n world receiver. pose proof (started_safe (Ok d0) android fuel n world receiver) as Hst.
    destruct (start_pvpn_connection _ _ _ _ _ _) as [o|]; [|done]. destruct Hst as [Ho Hp]. split; [done|].
    intros Hpo. by apply Hcr, Hp.
  - destruct Hc as [_ Hp]. split_and!; [|done|by intros [|(d & [=] & _)]|done].
    split; [done|]. intros (_ & Hs & Hlt). specialize (Hp Hs). lia.
  - destruct Hc as [Hs Hlt]. split_and!; [by split|done| |done]. intros _. by exists r.
  - done.
Qed.

(** C26.  Connecting on Windows always ends, whatever the system answers.  When it
    answers a connection, its thread panics at once exactly when the TUN stream can
    be had, every cached secret can be read and the system's clock is set before the
    epoch; the handle accepts messages exactly when the thread could build its
    dependencies, and then the loop panics only if the system's clock is set
    before the epoch later on.  For every interleaving of the application's calls
    with the thread, it crashes only because of the system's clock, ends without a
    connection only because its dependencies were refused, and otherwise ends
    disconnected with no capture open.

    Dropping the tunnel's session later deletes the routes and then shuts it down:
    none of the tunnel's interface is left then, the routes of the other interfaces
    are those there were before the call, less the ones that an earlier run had left
    recorded, and the record is empty ([table_left]).  This holds when no deletion
    of a route and no reading of the routing table fails and the record can be read
    and written ([routes_work]), and when only the tunnel's interface was changed in
    between.  An error before the routes are created leaves the routes of the other
    interfaces and the record as they were; a failure to create the waker, which
    drops the session, leaves what a drop leaves.

    That the adapter's interface is [tunnel] and that its calls concern the routes
    of that interface alone is [SessionFrame]; [event_net] says the same of the
    creation of an event. *)
Theorem windows_connect (event_net : forall w : W, net tunnel (CreateEventW w).2 = net tunnel w)
    (connection_config : InitialConnectionConfig) (network_config : NetworkConfig)
    (cache_get : CacheKey -> option (list byte)) (i : I) (t : R) (seed : Seed) (w : W) :
  let server_ips := server_ip <$> cfg_peers connection_config in
  exists n r w1,
    (forall fuel, (n <= fuel)%nat ->
       WindowsConnection_connect private_key_from_pem certificate_from_pem muon_auth_try_from muon_app
         build_local_agent build_no_local_agent fuel connection_config network_config cache_get i t seed w
       = Ret (r, w1))
    /\ match r with
       | Ok (wc, deps) =>
           (deps = Panic <-> is_ok (TunStreamWindows_new (wts_session (wc_tun wc))) = true
              /\ secrets_parse private_key_from_pem certificate_from_pem muon_auth_try_from
                   (cfg_connection_mode connection_config) cache_get = true
              /\ (system_time_now t).1 < 0)
           /\ receiver_alive (get_connection wc) = built deps
           /\ (forall d, deps = Ret (Ok d) -> thread_safe (Ok d) (before_epoch t))
           /\ (forall android files x, sys_reachable android files deps x ->
                match thread x with
                | Crashed => before_epoch t
                | Ended None => exists e, deps = Ret (Err e)
                | Ended (Some s) => closed s
                | _ => True
                end)
           /\ (routes_work (W := W) -> forall w2, net tunnel w2 = net tunnel w1 -> dropped tunnel (wc_tun wc) w w2)
       | Err e => session_created (A := A) (X := X) tunnel server_ips w (Err e) w1
                  \/ (exists msg, e = HandleCreationFailed msg)
                     /\ (routes_work (W := W) -> net tunnel w1 = table_left tunnel w)
       end.
Proof.
  cbv zeta. eapply ends_bind; [apply (session_ends tunnel)|]. intros [tun|e] w1 Hs; cbv beta.
  2: { apply ends_ret. by left. }
  pose proof (event_net w1) as Hev.
  eapply (ends_bind (fun _ => WinIpv6.call _)); [apply (ends_call _ _ (fun r w' => net tunnel w' = net tunnel w1 /\
    match r with Err e => exists msg, e = HandleCreationFailed msg | Ok _ => True end))|].
  { unfold WindowsPollWaker_new. destruct (CreateEventW w1) as [[h|e] w2]; simpl in *; [done|]. split; [done|by eexists]. }
  destruct Hs as (_ & _ & Hdrop). intros [waker|e] w2 [Hw2 He]; cbv beta.
  - exists 0%nat. eexists _, w2. split; [intros fuel _; reflexivity|].
    destruct (windows_dependencies_spec waker connection_config (udp_socket network_config) tun cache_get i t seed w2)
      as (Hp & Hsafe & Hc & _).
    split_and!; [exact Hp|done|exact Hsafe| |].
    + intros android files x Hx%started_fate. destruct (thread x) as [| | | |[s|]|]; try done. by apply Hc.
    + intros Hw w3 Hw3. apply Hdrop; [done|congruence].
  - exists 0%nat. eexists _, _. split; [intros fuel _; reflexivity|]. right. split; [done|].
    intros Hw. by destruct (Hdrop Hw w2 Hw2) as (w3 & _ & _ & Hd).
Qed.
End connect_spec.
