(* ===== verification/WinRegistry.v ===== *)
(** * The registry under the record of routes and the network profiles

    The keys of [src/utils/windows/registry_editor.rs] in one tree: the paths the
    source opens, the calls of the registry it makes on them, and the proof that
    they have the behaviour that [WinRoutes.v] and [WinConnection.v] ask of the
    registry, and that the two uses do not disturb each other. *)

From S2P Require Import Prelude Types Api WinNet WinRoutes WinTunSession WinConnection.

(** ** The tree *)

Inductive reg_value := RegSz (s : string) | RegMultiSz (l : list string).

(** The values of every key that exists, by its path below [HKEY_LOCAL_MACHINE]. *)
Abbreviation Registry := (gmap (list string) (gmap string reg_value)).

Definition open_subkey (path : list string) (r : Registry) : bool := bool_decide (is_Some (r !! path)).

Definition add_key (path : list string) (r : Registry) : Registry :=
  if open_subkey path r then r else <[path := ∅]> r.

(** The key with those above it. *)
Fixpoint create_keys (above path : list string) (r : Registry) : Registry :=
  match path with
  | [] => r
  | k :: path => create_keys (above ++ [k]) path (add_key (above ++ [k]) r)
  end.

Definition create_subkey (path : list string) (r : Registry) : bool * Registry := (true, create_keys [] path r).

Definition get_value (path : list string) (name : string) (r : Registry) : option reg_value := r !! path ≫= (.!! name).

Definition get_string (path : list string) (name : string) (r : Registry) : option string :=
  match get_value path name r with Some (RegSz s) => Some s | _ => None end.
Definition get_strings (path : list string) (name : string) (r : Registry) : option (list string) :=
  match get_value path name r with Some (RegMultiSz l) => Some l | _ => None end.

Definition set_value (path : list string) (name : string) (v : reg_value) (r : Registry) : bool * Registry :=
  match r !! path with
  | Some values => (true, <[path := <[name := v]> values]> r)
  | None => (false, r)
  end.

(** The names of the keys directly below a path. *)
Definition enum_keys (path : list string) (r : Registry) : list string :=
  omap (fun e => match last e.1 with Some k => if decide (e.1 = path ++ [k]) then Some k else None | None => None end)
    (map_to_list r).

(** ** The paths of the source *)

Definition get_profiles_path : list string :=
  ["SOFTWARE"; "Microsoft"; "Windows NT"; "CurrentVersion"; "NetworkList"; "Profiles"]%string.

Definition get_protun_path : list string := ["SOFTWARE"; "Proton AG"; "Proton VPN"; "ProTUN"]%string.

Definition profile_path (k : string) : list string := get_profiles_path ++ [k].

#[global] Instance Registry_profiles : ProfileRegistry Registry := {
  profiles_open r := open_subkey get_profiles_path r;
  profiles_enum_keys r := Some <$> enum_keys get_profiles_path r;
  profile_open k r := open_subkey (profile_path k) r;
  profile_description k r := get_string (profile_path k) "Description" r;
  profile_set_name k t r := set_value (profile_path k) "ProfileName" (RegSz t) r;
}.

(** ** Values and keys *)

Lemma set_value_get path name v r ok r' path' name' :
  set_value path name v r = (ok, r') ->
  get_value path' name' r' = if ok && bool_decide (path' = path /\ name' = name) then Some v else get_value path' name' r.
Proof.
  unfold set_value, get_value. destruct (r !! path) as [values|] eqn:E; intros [= <- <-]; [|done]. simpl.
  destruct (decide (path' = path)) as [->|Hp].
  - rewrite lookup_insert_eq, E. simpl. case_bool_decide as Hd.
    + destruct Hd as [_ ->]. by rewrite lookup_insert_eq.
    + rewrite lookup_insert_ne; [done|]. intros ->. by apply Hd.
  - rewrite lookup_insert_ne by done. rewrite bool_decide_eq_false_2; [done|]. by intros [? _].
Qed.

Lemma set_value_open path name v r path' : open_subkey path' (set_value path name v r).2 = open_subkey path' r.
Proof.
  unfold set_value, open_subkey. destruct (r !! path) as [values|] eqn:E; [|done]. simpl.
  destruct (decide (path' = path)) as [->|Hp]; [|by rewrite lookup_insert_ne].
  rewrite lookup_insert_eq, E. by rewrite !bool_decide_eq_true_2 by done.
Qed.

Lemma add_key_value path r path' name : get_value path' name (add_key path r) = get_value path' name r.
Proof.
  unfold add_key, open_subkey, get_value. case_bool_decide as He; [done|]. apply eq_None_not_Some in He.
  destruct (decide (path' = path)) as [->|Hp]; [by rewrite lookup_insert_eq, He|by rewrite lookup_insert_ne].
Qed.

Lemma create_keys_value above path r path' name : get_value path' name (create_keys above path r) = get_value path' name r.
Proof. revert above r. induction path as [|k path IH]; intros above r; simpl; [done|]. by rewrite IH, add_key_value. Qed.

Lemma add_key_open path r path' : open_subkey path' (add_key path r) = bool_decide (path' = path) || open_subkey path' r.
Proof.
  unfold add_key. destruct (open_subkey path r) eqn:E; unfold open_subkey in *.
  - destruct (decide (path' = path)) as [->|Hp]; [by rewrite E, orb_true_r|by rewrite (bool_decide_eq_false_2 (path' = path))].
  - destruct (decide (path' = path)) as [->|Hp].
    + rewrite lookup_insert_eq. by rewrite !bool_decide_eq_true_2 by done.
    + rewrite lookup_insert_ne by done. by rewrite (bool_decide_eq_false_2 (path' = path)).
Qed.

Lemma create_keys_open above path r path' : open_subkey path' r = true -> open_subkey path' (create_keys above path r) = true.
Proof.
  revert above r. induction path as [|k path IH]; intros above r Ho; simpl; [done|]. apply IH. by rewrite add_key_open, Ho, orb_true_r.
Qed.

Lemma create_subkey_open path r : path <> [] -> open_subkey path (create_subkey path r).2 = true.
Proof.
  intros Hp. unfold create_subkey. simpl. enough (forall above r, open_subkey (above ++ path) (create_keys above path r) = true) as H
    by apply (H []). induction path as [|k path IH]; intros above r0; [done|]. simpl.
  replace (above ++ k :: path) with ((above ++ [k]) ++ path) by (by rewrite <- app_assoc). destruct path as [|k' path]; [|by apply IH].
  simpl. by rewrite app_nil_r, add_key_open, bool_decide_eq_true_2.
Qed.

(** ** The interfaces are implemented *)

#[global] Instance Registry_profiles_laws : ProfileRegistryLaws Registry.
Proof.
  refine {| profile_name k r := get_string (profile_path k) "ProfileName" r |}.
  intros k t r ok r' E. split_and!; intros k'.
  - unfold get_string. rewrite (set_value_get _ _ _ _ _ _ (profile_path k') "ProfileName" E).
    destruct ok; simpl; [|done]. destruct (decide (k' = k)) as [->|Hk].
    + by rewrite !bool_decide_eq_true_2.
    + rewrite !bool_decide_eq_false_2; [done|done|]. intros [H%app_inj_tail _]. by destruct H.
  - simpl. unfold get_string. rewrite (set_value_get _ _ _ _ _ _ (profile_path k') "Description" E).
    rewrite bool_decide_eq_false_2 by (by intros [_ ?]). by rewrite andb_false_r.
  - simpl. pose proof (set_value_open (profile_path k) "ProfileName" (RegSz t) r (profile_path k')) as Ho.
    simpl in E. by rewrite E in Ho.
Qed.

(** What the record of routes relies on: the key can always be created, which
    keeps the record, and the routes written to it are those read. *)
Lemma routes_recorded (l : list string) (r : Registry) :
  let '(opened, r1) := create_subkey get_protun_path r in
  opened = true /\ get_strings get_protun_path "RoutingTable" r1 = get_strings get_protun_path "RoutingTable" r
  /\ let '(ok, r2) := set_value get_protun_path "RoutingTable" (RegMultiSz l) r1 in
     ok = true /\ get_strings get_protun_path "RoutingTable" r2 = Some l.
Proof.
  pose proof (create_subkey_open get_protun_path r ltac:(done)) as Ho.
  assert (forall name, get_value get_protun_path name (create_subkey get_protun_path r).2 = get_value get_protun_path name r) as Hv
    by (intros; apply create_keys_value).
  assert ((create_subkey get_protun_path r).1 = true) as Hc by done.
  destruct (create_subkey get_protun_path r) as [opened r1]. simpl in Ho, Hv, Hc. subst opened. split; [done|].
  split; [unfold get_strings; by rewrite Hv|].
  destruct (set_value _ _ _ _) as [ok r2] eqn:E. unfold get_strings.
  rewrite (set_value_get _ _ _ _ _ _ get_protun_path "RoutingTable" E).
  assert (ok = true) as ->; [|by rewrite bool_decide_eq_true_2].
  unfold set_value, open_subkey in *. apply bool_decide_eq_true in Ho as [values Hl]. rewrite Hl in E. by injection E.
Qed.

(** Writing the status text of the adapter never touches the record of routes, nor
    any value but the names of profiles. *)
Lemma status_keeps_others (text : string) (r : Registry) path name :
  (forall k, path <> profile_path k) \/ name <> "ProfileName"%string ->
  get_value path name (set_network_adapter_status_text text r) = get_value path name r.
Proof.
  intros Hn. unfold set_network_adapter_status_text. destruct (profiles_open r); [|done].
  generalize 0 as n. generalize (profiles_enum_keys r) as keys. intros keys. revert r.
  induction keys as [|key keys IH]; intros r n; simpl; [done|].
  destruct key as [k|]; [|apply IH]. destruct (_ && _); [|apply IH].
  destruct (set_value (profile_path k) "ProfileName" (RegSz text) r) as [ok r1] eqn:E.
  rewrite IH. rewrite (set_value_get _ _ _ _ _ _ path name E).
  rewrite bool_decide_eq_false_2; [by rewrite andb_false_r|]. intros [Hp Hq]. destruct Hn as [Hn|Hn]; [by apply (Hn k)|done].
Qed.

Lemma status_keeps_routes (text : string) (r : Registry) :
  get_strings get_protun_path "RoutingTable" (set_network_adapter_status_text text r)
  = get_strings get_protun_path "RoutingTable" r.
Proof. unfold get_strings. rewrite status_keeps_others; [done|]. by left. Qed.

(** A machine with two profiles, one of them the adapter's. *)
Example renames_own_profile :
  let r := list_to_map [(get_profiles_path, ∅); (profile_path "{1}", {["Description" := RegSz ADAPTER_NAME]});
                        (profile_path "{2}", {["Description" := RegSz "Network"; "ProfileName" := RegSz "Home"]})] : Registry in
  let r' := set_network_adapter_status_text "Connected to CH#1" r in
  get_string (profile_path "{1}") "ProfileName" r' = Some "Connected to CH#1"%string
  /\ get_string (profile_path "{2}") "ProfileName" r' = Some "Home"%string.
Proof. vm_compute. split; reflexivity. Qed.
