(* ===== verification/WinScenario.v ===== *)
(** * Windows: a concrete system

    A simulated Windows networking state that satisfies the laws of [WinNet],
    with a machine that has a wired default route, a second one with a higher
    metric, the tunnel's own adapter and an unrelated host route, with sockets and
    events; the witnesses of the theorems of [LocalIpFinder.v], [WinRoutes.v] and
    [WinSocketFactory.v]. *)

From Stdlib Require Import Strings.Ascii.
From S2P Require Import Prelude Types Streams Net Vectors WinNet LocalIpFinder WinRoutes.
From S2P Require Import WinErrors WinSockets WinSocketFactory WinTun WindowsStreams WinAdapter WinIpv6.

Local Open Scope Z_scope.

(** The adapter, the network configuration and the profiles in the registry. *)
Record Box := {
  box_addresses : list (Z * option IpAddr * Z);
  box_dns4 : list IpAddr;
  box_dns6 : list IpAddr;
  box_rows : list MIB_IPINTERFACE_ROW;
  box_cfg : cfg_state;
  box_pending : list Z;
  box_names : gmap string string;
}.

Record Sim := {
  sim_rows : list MIB_IPFORWARD_ROW2;
  sim_addrs : list MIB_UNICASTIPADDRESS_ROW;
  sim_reg : option (list string);
  sim_live : gset Z;
  sim_opened : resources;
  sim_waits : list Z;
  sim_box : Box;
}.

Definition sa_tuple (sa : SOCKADDR_INET) : Z * Z * list Z := (si_family sa, S_addr sa, sin6_Byte sa).

(** A route is identified by its prefix, next hop and interface. *)
Definition sim_key (row : MIB_IPFORWARD_ROW2) : positive :=
  encode (sa_tuple (DestinationPrefix row), PrefixLength row, sa_tuple (NextHop row), InterfaceIndex row).

Definition sim_iface (id : positive) : Z :=
  match decode (A := (Z * Z * list Z) * Z * (Z * Z * list Z) * Z) id with
  | Some (_, idx) => idx
  | None => 0
  end.

Definition sim_has (row : MIB_IPFORWARD_ROW2) (w : Sim) : bool :=
  existsb (fun r => bool_decide (sim_key r = sim_key row)) (sim_rows w).

Definition with_rows (w : Sim) rows :=
  {| sim_rows := rows; sim_addrs := sim_addrs w; sim_reg := sim_reg w; sim_live := sim_live w;
     sim_opened := sim_opened w; sim_waits := sim_waits w; sim_box := sim_box w |}.
Definition with_reg (w : Sim) reg :=
  {| sim_rows := sim_rows w; sim_addrs := sim_addrs w; sim_reg := reg; sim_live := sim_live w;
     sim_opened := sim_opened w; sim_waits := sim_waits w; sim_box := sim_box w |}.
Definition with_live (w : Sim) l :=
  {| sim_rows := sim_rows w; sim_addrs := sim_addrs w; sim_reg := sim_reg w; sim_live := l;
     sim_opened := sim_opened w; sim_waits := sim_waits w; sim_box := sim_box w |}.
Definition with_opened (w : Sim) r :=
  {| sim_rows := sim_rows w; sim_addrs := sim_addrs w; sim_reg := sim_reg w; sim_live := sim_live w;
     sim_opened := r; sim_waits := sim_waits w; sim_box := sim_box w |}.
Definition with_waits (w : Sim) l :=
  {| sim_rows := sim_rows w; sim_addrs := sim_addrs w; sim_reg := sim_reg w; sim_live := sim_live w;
     sim_opened := sim_opened w; sim_waits := l; sim_box := sim_box w |}.
Definition with_box (w : Sim) b :=
  {| sim_rows := sim_rows w; sim_addrs := sim_addrs w; sim_reg := sim_reg w; sim_live := sim_live w;
     sim_opened := sim_opened w; sim_waits := sim_waits w; sim_box := b |}.

Definition zero_sa : SOCKADDR_INET := {| si_family := 0; S_addr := 0; sin6_Byte := replicate 16 0 |}.

Definition TUNNEL_LUID : Z := 77.

#[global] Instance Sim_WinNet : WinNet Sim := {
  InitializeIpForwardEntry := {| DestinationPrefix := zero_sa; PrefixLength := 255; NextHop := zero_sa;
                                 InterfaceLuid := 0; InterfaceIndex := 0; Metric := -1 |};
  GetIpForwardTable2 w := let p := fresh (sim_live w) in
    (NO_ERROR, Some (p, sim_rows w), with_live w ({[p]} ∪ sim_live w));
  GetUnicastIpAddressTable w := let p := fresh (sim_live w) in
    (NO_ERROR, Some (p, sim_addrs w), with_live w ({[p]} ∪ sim_live w));
  FreeMibTable p w := with_live w (sim_live w ∖ {[p]});
  CreateIpForwardEntry2 row w :=
    if sim_has row w then (ERROR_OBJECT_ALREADY_EXISTS, w) else (NO_ERROR, with_rows w (sim_rows w ++ [row]));
  DeleteIpForwardEntry2 row w :=
    if sim_has row w then
      (NO_ERROR, with_rows w (retain (fun r => negb (bool_decide (sim_key r = sim_key row))) (sim_rows w)))
    else (ERROR_OBJECT_NOT_FOUND, w);
  ConvertInterfaceLuidToGuid luid _ := Ok (if luid =? TUNNEL_LUID then ADAPTER_GUID else luid);
  GetIfEntry2 _ _ := Ok {| AdminStatus := 1; OperStatus := 1; MediaConnectState := 1 |};
  GetIpInterfaceEntry_metric _ luid _ := Ok (if luid =? 2 then 50 else 25);
  win32_error_display := pretty;
  reg_open w := bool_decide (is_Some (sim_reg w));
  reg_get_routes := sim_reg;
  reg_create w := (true, with_reg w (Some (default [] (sim_reg w))));
  reg_set_routes l w := (true, with_reg w (Some l));
}.

Lemma sim_has_spec row w : sim_has row w = true <-> sim_key row ∈ sim_key <$> sim_rows w.
Proof.
  unfold sim_has. rewrite existsb_exists, list_elem_of_fmap.
  setoid_rewrite bool_decide_eq_true. setoid_rewrite <- list_elem_of_In. naive_solver.
Qed.

Lemma sim_key_iface row : sim_iface (sim_key row) = InterfaceIndex row.
Proof. unfold sim_iface, sim_key. by rewrite decode_encode. Qed.

Lemma sim_delete row rows :
  list_to_set (sim_key <$> retain (fun r => negb (bool_decide (sim_key r = sim_key row))) rows)
  =@{gset positive} list_to_set (sim_key <$> rows) ∖ {[sim_key row]}.
Proof.
  apply set_eq. intros id.
  rewrite elem_of_difference, !elem_of_list_to_set, elem_of_singleton, !list_elem_of_fmap.
  setoid_rewrite elem_of_retain. setoid_rewrite negb_true_iff. setoid_rewrite bool_decide_eq_false. naive_solver.
Qed.

#[global] Instance Sim_laws : WinNetLaws Sim.
Proof.
  refine {| live := sim_live; route_id := sim_key; routes w := list_to_set (sim_key <$> sim_rows w);
            route_iface := sim_iface; stored w := default [] (sim_reg w) |}.
  - intros w st r w' [= <- <- <-]. rewrite decide_True by done. split; [apply is_fresh|done].
  - intros w st r w' [= <- <- <-]. rewrite decide_True by done. split; [apply is_fresh|done].
  - done.
  - done.
  - done.
  - intros w p rs w' [= <- <- <-] id. rewrite elem_of_list_to_set, list_elem_of_fmap. naive_solver.
  - apply sim_key_iface.
  - done.
  - intros row w st w'. simpl. pose proof (sim_has_spec row w) as Hh.
    destruct (sim_has row w); intros [= <- <-]; (split; [done|]); simpl.
    + done.
    + rewrite elem_of_list_to_set. split; [naive_solver|]. rewrite fmap_app, list_to_set_app_L. simpl.
      clear. set_solver.
  - intros row w st w'. simpl. pose proof (sim_has_spec row w) as Hh.
    destruct (sim_has row w); intros [= <- <-]; (split; [done|]); simpl.
    + apply sim_delete.
    + split; [done|]. intros _. rewrite elem_of_list_to_set. naive_solver.
  - intros w l. simpl. by intros ->.
  - done.
  - by intros l w b w' [= <- <-].
Defined.

#[global] Instance Sim_registry : RegistryWorks Sim.
Proof. split; try done. intros w. simpl. by destruct (sim_reg w). Qed.

(** ** A serialization *)

Fixpoint pos_to_string (p : positive) : string :=
  match p with
  | xH => "1"
  | xO p => String.String "0"%char (pos_to_string p)
  | xI p => String.String "i"%char (pos_to_string p)
  end.

Fixpoint string_to_pos (s : string) : option positive :=
  match s with
  | String.EmptyString => None
  | String.String ch s =>
      if decide (ch = "1"%char) then match s with String.EmptyString => Some xH | _ => None end
      else if decide (ch = "0"%char) then xO <$> string_to_pos s
      else if decide (ch = "i"%char) then xI <$> string_to_pos s
      else None
  end.

Lemma string_to_pos_to_string p : string_to_pos (pos_to_string p) = Some p.
Proof. induction p as [p IH|p IH|]; simpl; rewrite ?IH; done. Qed.

Definition route_tuple (r : IpRoute) : Z * Z * option Z * Z :=
  (destination_ip_addr r, destination_prefix_length r, next_hop_address r, route_interface_index r).
Definition tuple_route '(a, l, n, i) : IpRoute :=
  {| destination_ip_addr := a; destination_prefix_length := l; next_hop_address := n;
     route_interface_index := i |}.

#[global] Instance IpRoute_eq_dec : EqDecision IpRoute.
Proof. solve_decision. Defined.
#[global] Instance IpRoute_countable : Countable IpRoute.
Proof. refine (inj_countable' route_tuple tuple_route _). by intros []. Defined.
#[global] Instance Route_eq_dec : EqDecision Route.
Proof. solve_decision. Defined.
#[global] Instance Route_countable : Countable Route.
Proof.
  refine (inj_countable' (fun r => match r with RouteV4 r => inl r | RouteV6 r => inr r end)
    (fun s => match s with inl r => RouteV4 r | inr r => RouteV6 r end) _). by intros [].
Defined.

#[global] Instance Sim_json : RouteJson := {
  route_to_json r := Ok (pos_to_string (encode r));
  route_from_json s := match string_to_pos s ≫= decode with Some r => Ok r | None => Err "invalid" end;
}.

#[global] Instance Sim_json_laws : RouteJsonLaws.
Proof.
  split. intros r. eexists. split; [done|]. split; [simpl; by destruct (encode r)|].
  simpl. by rewrite string_to_pos_to_string; simpl; rewrite decode_encode.
Qed.

(** ** The machine *)

Definition default_route (luid idx gw metric : Z) : MIB_IPFORWARD_ROW2 :=
  {| DestinationPrefix := sockaddr_v4 zero_sa 0; PrefixLength := 0; NextHop := sockaddr_v4 zero_sa gw;
     InterfaceLuid := luid; InterfaceIndex := idx; Metric := metric |}.

Definition IP (a b c d : Z) : Z := from_be_bytes [a; b; c; d].

(** Another program's route to one of the servers. *)
Definition foreign_route : MIB_IPFORWARD_ROW2 :=
  create_ipv4_mib_ipforward_row (W := Sim) (create_ipv4_host_route (IP 5 6 7 8) (Some (IP 192 168 1 1)) 10).

Definition address_of (luid a : Z) : MIB_UNICASTIPADDRESS_ROW :=
  {| ua_Address := sockaddr_v4 zero_sa a; ua_InterfaceLuid := luid; ua_InterfaceIndex := 0;
     ua_ValidLifetime := 0; ua_PreferredLifetime := 0; ua_OnLinkPrefixLength := 24; ua_DadState := 4 |}.

Definition machine : Sim := {|
  sim_rows := [default_route 2 20 (IP 10 0 0 1) 5; default_route TUNNEL_LUID 77 0 0;
               default_route 1 10 (IP 192 168 1 1) 5; foreign_route];
  sim_addrs := [address_of 2 (IP 10 0 0 9);
                address_of 1 (IP 192 168 1 9);
                address_of TUNNEL_LUID (IP 10 2 0 2)];
  sim_reg := None;
  sim_live := ∅;
  sim_opened := {| open_sockets := 0; open_events := ∅ |};
  sim_waits := [];
  sim_box := {| box_addresses := [(10, Some (V4 (IP 10 2 0 2)), 32)]; box_dns4 := []; box_dns6 := []; box_rows := [];
                box_cfg := {| com_count := 0; lock_held := false; bindings := ∅ |}; box_pending := [];
                box_names := ∅ |};
|}.

Definition servers : list IpAddr := [V4 (IP 1 2 3 4); V4 (IP 5 6 7 8); V4 (IP 1 2 3 4); V6 1].

Definition after_create : Sim := (Routes_create (IP 10 2 0 1) None 77 servers machine).2.

(** The wired interface is chosen. *)
Example wired_chosen : get_internet_interfaces machine =
  (Ok (Some {| interface_metric := 25; any_route_metric := 5; local_ip := IP 192 168 1 9;
               interface_index := 10; next_hop := IP 192 168 1 1 |}, None), machine).
Proof. vm_compute. reflexivity. Qed.

(** Three routes are added: the local agent's, the default one and that of the
    first server, the only one recorded. *)
Example created : length (sim_rows after_create) = 7%nat /\ length (stored after_create) = 1%nat.
Proof. vm_compute. by split. Qed.

(** The table at the end is the one at the beginning less the tunnel's route. *)
Example deleted :
  sim_rows (Routes_delete {| routes_interface_index := 77 |} after_create)
  = retain (fun r => negb (InterfaceIndex r =? 77)) (sim_rows machine).
Proof. vm_compute. reflexivity. Qed.

(** ** Witnesses *)

Lemma Sim_deletes_ok row (w : Sim) : is_ok (deletion_result (DeleteIpForwardEntry2 row w).1) = true.
Proof. simpl. by destruct (sim_has row w). Defined.

Lemma Sim_table_ok (w : Sim) : exists p rs w', GetIpForwardTable2 w = (NO_ERROR, Some (p, rs), w').
Proof. simpl. eauto. Defined.

Definition machine1 : Sim := (GetIpForwardTable2 machine).2.
Definition machine2 : Sim := (GetUnicastIpAddressTable machine1).2.

Lemma internet_interface_best_witness :
  match (get_internet_interfaces machine).1 with
  | Ok (v4, v6) =>
      best IfV4 (candidate (sim_rows machine) (sim_addrs machine) machine2) v4
      /\ best IfV6 (candidate (sim_rows machine) (sim_addrs machine) machine2) v6
      /\ (v4 <> None \/ v6 <> None)
  | Err _ => forall i, ~ candidate (sim_rows machine) (sim_addrs machine) machine2 i
  end /\ is_ok (get_internet_interfaces machine).1 = true.
Proof.
  split; [|vm_compute; reflexivity].
  exact (internet_interface_best machine machine1 machine2 _ _ _ _ eq_refl eq_refl).
Defined.

Lemma interfaces_free_tables_witness : live (get_internet_interfaces machine).2 = ∅.
Proof. exact (interfaces_free_tables machine). Defined.

Lemma created_routes_not_forgotten_witness :
  length (stored after_create) = 1%nat /\ routes (delete_created_routes after_create) ⊆ routes after_create.
Proof.
  split; [vm_compute; reflexivity|].
  assert (is_Some (if reg_open after_create then reg_get_routes after_create else None)) as [l Hl]
    by (vm_compute; eexists; reflexivity).
  pose proof (created_routes_not_forgotten after_create) as H. cbv zeta in H. rewrite Hl in H. exact (proj1 H).
Defined.

Lemma routes_create_delete_witness :
  routes (Routes_delete {| routes_interface_index := 77 |} after_create)
  = others 77 (routes machine) ∖ list_to_set (rid <$> recorded (clean_routes (stored machine)))
  /\ stored (Routes_delete {| routes_interface_index := 77 |} after_create) = [].
Proof.
  apply (routes_create_delete Sim_deletes_ok Sim_table_ok (IP 10 2 0 1) None 77 servers).
  vm_compute. reflexivity.
Defined.

Lemma route_rows_roundtrip_witness :
  sockaddr_inet_to_ip_addr (NextHop foreign_route) = Some (V4 (IP 192 168 1 1)).
Proof.
  refine (proj2 (proj1 (route_rows_roundtrip (W := Sim)
    (create_ipv4_host_route (IP 5 6 7 8) (Some (IP 192 168 1 1)) 10) (IP 5 6 7 8) (IP 192 168 1 1) eq_refl eq_refl) _ _));
    vm_compute; split; congruence.
Defined.

(** ** Sockets and events

    Sockets are queues, events are fresh numbers, and the poll's waits are
    answered from a script, by a timeout once it is used up. *)

#[global] Instance Sim_WinSockets : WinSockets Sim queue_socket := {
  udp_bind _ w := (Ok empty_socket, with_opened w (add_socket (sim_opened w)));
  socket_new _ w := (Ok empty_socket, with_opened w (add_socket (sim_opened w)));
  sock_bind _ k := (Ok (), k);
  sock_set_nonblocking _ k := (Ok (), k);
  sock_connect _ k := (Err would_block_error, k);
  WSAIoctl_udp_connreset _ k := (Ok (), k);
  sock_set_send_buffer_size _ k := (Ok (), k);
  sock_set_recv_buffer_size _ k := (Ok (), k);
  sock_close _ w := with_opened w (drop_socket (sim_opened w));
  WSACreateEvent w := let ev := fresh (open_events (sim_opened w)) in (Ok ev, with_opened w (add_event ev (sim_opened w)));
  WSAEventSelect _ _ k := (0, k);
  WSACloseEvent ev w := with_opened w (drop_event ev (sim_opened w));
}.

#[global] Instance Sim_resources : WinResources Sim := sim_opened.

#[global] Instance Sim_sockets_laws : WinSocketsLaws Sim queue_socket.
Proof.
  split; try done.
  - by intros a w r w' [= <- <-].
  - by intros a w r w' [= <- <-].
  - intros w r w' [= <- <-]. split; [apply is_fresh|done].
Qed.

#[global] Instance Sim_events : WinEvents Sim := {
  CreateEventW w := (Ok 1, w);
  SetEvent _ w := (Ok (), w);
  ResetEvent _ w := (Ok (), w);
  WSAWaitForMultipleEvents _ _ w :=
    match sim_waits w with [] => (WAIT_TIMEOUT, w) | i :: l => (i, with_waits w l) end;
}.

#[global] Instance Sim_events_laws : WinEventsLaws Sim.
Proof. split; [|done]. intros l t w. simpl. by destruct (sim_waits w). Qed.

Lemma win_open_accounted_witness :
  let '(r, w') := WinTcpStream_new (K := queue_socket) {| sa_ip := V4 (IP 1 2 3 4); sa_port := 443 |} machine in
  stream_opened (opened machine) (win_handle <$> ok_of r) (err_of r) (opened w') /\ is_ok r = true.
Proof.
  destruct (win_open_accounted (K := queue_socket) {| sa_ip := V4 (IP 1 2 3 4); sa_port := 443 |}
    {| send_buffer_size_bytes := 0; receive_buffer_size_bytes := 0 |} machine) as [Ht _].
  destruct (WinTcpStream_new _ _) as [r w'] eqn:E. split; [exact (proj1 Ht)|].
  assert (Hr : is_ok (WinTcpStream_new (K := queue_socket) {| sa_ip := V4 (IP 1 2 3 4); sa_port := 443 |} machine).1 = true)
    by (vm_compute; reflexivity).
  by rewrite E in Hr.
Defined.

Lemma win_sockets_outside_tunnel_witness :
  exists local w3 (k : queue_socket) w4 k' ev,
    (sa_port local = 0 /\ exists i, sa_ip local = V4 (local_ip i)
       /\ best IfV4 (candidate (sim_rows machine) (sim_addrs machine) machine2) (Some i))
    /\ socket_new AF_INET w3 = (Ok k, w4)
    /\ tcp_set_up local {| sa_ip := V4 (IP 1 2 3 4); sa_port := 443 |} ev k k'.
Proof.
  destruct (WinTcpStream_new (K := queue_socket) {| sa_ip := V4 (IP 1 2 3 4); sa_port := 443 |} machine) as [r w'] eqn:E.
  destruct r as [t|e]; [|vm_compute in E; discriminate E].
  assert (E1 : GetIpForwardTable2 machine = (NO_ERROR, Some (fresh (sim_live machine), sim_rows machine), machine1)) by reflexivity.
  assert (E2 : GetUnicastIpAddressTable machine1 = (NO_ERROR, Some (fresh (sim_live machine1), sim_addrs machine), machine2))
    by reflexivity.
  destruct (proj1 (win_sockets_outside_tunnel (K := queue_socket) {| sa_ip := V4 (IP 1 2 3 4); sa_port := 443 |}
    {| send_buffer_size_bytes := 0; receive_buffer_size_bytes := 0 |} machine machine1 machine2 _ _ _ _ E1 E2) t w' E)
    as (local & w3 & k & w4 & Hb & Hn & Hs).
  exists local, w3, k, w4, (wt_socket t), (event (wt_socket_handle t)). exact (conj Hb (conj Hn Hs)).
Defined.
