(* ===== verification/WinRun.v ===== *)
(** * Windows: a concrete connection

    The connection loop over the Windows streams, run on the machine of
    [WinScenario.v]: it opens a TCP stream, sends and receives. *)

From S2P Require Import Prelude Types NetworkRecovery SanitizedPeers Conversions LocalAgent.
From S2P Require Import Streams Pcap MioStreams PvpnClient PeerSync Net Vectors.
From S2P Require Import Connection ConnectionSteps ConnectionInvariants ConnectionTheorems ConnectionSafety StreamCalls.
From S2P Require Import Mailbox Threads Termination Settling WinSettling.
From S2P Require Import WinNet LocalIpFinder WinErrors WinSockets WinSocketFactory WinTun WindowsStreams WinRoutes WinLoop WinScenario.

#[local] Existing Instance sample_ids.

Abbreviation WCl := (PvpnClientImpl script_lib Z Z).
Abbreviation WStr := (WinStream queue_socket vec_session).
Abbreviation WStrs := (WindowsStreams Sim queue_socket vec_session).

#[local] Instance win_demo_stream : Stream WStr := WinStream_Stream 100.
#[local] Instance win_demo_laws : StreamLaws WStr := WinStream_laws 100.
#[local] Instance win_demo_safe : StreamSafe WStr := WinStream_safe 100.

(** A Wintun session with one packet, and a poll that finds a handle signalled. *)
Definition win_tun : TunStreamWindows vec_session :=
  {| tw_session := {| vs_in := [[Byte.x45]]; vs_out := []; vs_room := 10 |}; tw_handle := 900 |}.

Definition win_config : SocketConfig := {| send_buffer_size_bytes := 65536; receive_buffer_size_bytes := 65536 |}.

Definition win_streams : WStrs :=
  WindowsStreams_new (WTun win_tun) {| waker_handle := 901 |} win_config (with_waits machine [1%Z]).

Definition win_remote : SocketAddr := {| sa_ip := V4 (IP 1 2 3 4); sa_port := 443 |}.

Definition win_client : WCl :=
  {| c := {| sl_actions := [{| act_stream := 7; act_kind := ActOpen {| os_kind := TcpStream; os_addr := win_remote |} None |};
                            {| act_stream := 7; act_kind := ActWrite bytes3 |}];
             sl_messages := []; sl_info := None; sl_peers := ∅; sl_pushed := [] |};
     c_need_pull := true; c_wakeup_deadline := None; monotonic_factory := 0%Z; realtime_factory := 0%Z |}.

Definition win_world : World := {| w_files := ∅; w_fds := ∅; w_faults := []; w_writes := [] |}.

(** The connection after one iteration. *)
Definition win_run : option (PvpnConnection WCl WStrs Z) :=
  match connection_new false win_client win_streams win_world [] true [] None 0%Z None with
  | Ret (_, s) => match iteration 50 s with Ret (_, s') => Some s' | _ => None end
  | _ => None
  end.

Definition waiting_data (i : WindowsStreamInfo queue_socket vec_session) : list byte :=
  match wsi_stream i with WTcp t => concat (wt_write_buffer t) | _ => [] end.

(** Two streams, three handles: the waker's, the TUN's and that of the socket,
    whose event is open; the packet was read from the TUN device, and the
    two bytes the socket did not take yet are kept. *)
Example win_loop_runs :
  (fun s : PvpnConnection WCl WStrs Z => (ws_handles (conn_streams s), wsi_id <$> ws_streams (conn_streams s),
             open_sockets (opened (ws_os (conn_streams s))), sl_pushed (c (client s)),
             waiting_data <$> ws_streams (conn_streams s)))
  <$> win_run
  = Some ([901; 900; 0]%Z, [0; 7]%Z, 1, [Action_read 0 [Byte.x45]], [[]; [Byte.x02; Byte.x03]]).
Proof. vm_compute. reflexivity. Qed.

(** The connection's clocks start at the epoch. *)
Lemma win_time_told : ~ (clock_fails 0%Z \/ time_fails win_client).
Proof. intros [Hf|Hf%impl_time_fails]; by apply tick_never_fails in Hf. Qed.

Lemma windows_connection_waits_witness :
  exists s0 : PvpnConnection WCl WStrs Z,
    connection_new false win_client win_streams win_world [] true [] None 0%Z None = Ret ((), s0)
    /\ run 50 2 s0 <> Panic.
Proof.
  destruct (windows_connection_waits 100 50 2 win_tun {| waker_handle := 901 |} win_config
              (with_waits machine [1%Z]) win_client win_world [] true [] None 0%Z None) as (s0 & E & Hp & _).
  exists s0. split; [exact E|]. intros Hr. exact (win_time_told (Hp Hr)).
Defined.

(** ** The run ends *)

#[local] Instance vec_session_pending : SessionPending vec_session.
Proof.
  refine {| session_pending x := length (vs_in x) |}; simpl.
  - intros x r x'. destruct (vs_in x) eqn:E; intros; simplify_eq/=; rewrite ?E; simpl; lia.
  - intros x p x'. destruct (vs_in x) eqn:E; intros; simplify_eq/=; lia.
  - intros n x r x'. destruct (vs_room x); intros; by simplify_eq/=.
  - done.
Defined.

#[local] Instance queue_socket_pending : DevicePending queue_socket.
Proof.
  refine {| dev_pending k := length (qs_in k) |}.
  - simpl. intros n k r k'. destruct (qs_in k) eqn:E; intros; simplify_eq/=; lia.
  - simpl. intros n k data k'. destruct (qs_in k) eqn:E; intros; simplify_eq/=; lia.
  - by intros data k r k' (o & _ & ->)%queue_write.
  - done.
Defined.

#[local] Instance sim_sockets_fresh : FreshWinSockets Sim queue_socket.
Proof.
  split.
  - by intros a w k w' [= <- _].
  - by intros d w k w' [= <- _].
  - by destruct 1.
Qed.

(** The connection above, disconnected after its first iteration. *)
Example win_run_returns :
  exists fuel n (s0 s : PvpnConnection WCl WStrs Z),
    connection_new false win_client win_streams win_world [None; Some Disconnect] true [] None 0%Z None = Ret ((), s0)
    /\ run fuel n s0 = Ret ((), s) /\ closed s.
Proof.
  destruct (windows_run_returns 100 win_tun {| waker_handle := 901 |} win_config (with_waits machine [1%Z]) win_client win_world
    [None; Some Disconnect] true [] None 0%Z None) as (f & n & s0 & o & E & Hr & Hc); [set_solver|].
  destruct o as [[[] s]| |]; [|by apply win_time_told in Hc|done].
  exists f, n, s0, s. split; [exact E|]. split; [by apply Hr|exact Hc].
Qed.
