(* ===== verification/WinMachine.v ===== *)
(** * Windows: the adapter of the concrete system

    The machine of [WinScenario.v] with an adapter, a network configuration that
    has two binding paths, a Wintun library and registry profiles; the witnesses
    of [WinAdapter.v], [WinIpv6.v], [WinTunSession.v] and [WinConnection.v]. *)

From Stdlib Require Import Strings.Ascii.
From S2P Require Import Prelude Types Conversions Streams MioStreams PvpnClient Net IpParse Vectors Connection Api.
From S2P Require Import Clocks Startup WinNet LocalIpFinder WinRoutes WinErrors WinSockets WinSocketFactory WinTun WindowsStreams.
From S2P Require Import WinAdapter WinIpv6 WinTunSession WinConnection WinScenario.

Local Open Scope Z_scope.

#[local] Existing Instance sample_ids.

(** Clocks that count nanoseconds from 1970. *)
#[local] Instance win_instants : InstantSource Z := fun t => (t, t + 1000).
#[local] Instance win_system_time : SystemTimeSource Z := fun t => (t, t + 1000).

Definition box_with_addresses (b : Box) l :=
  {| box_addresses := l; box_dns4 := box_dns4 b; box_dns6 := box_dns6 b; box_rows := box_rows b; box_cfg := box_cfg b;
     box_pending := box_pending b; box_names := box_names b |}.
Definition box_with_dns (b : Box) l4 l6 :=
  {| box_addresses := box_addresses b; box_dns4 := l4; box_dns6 := l6; box_rows := box_rows b; box_cfg := box_cfg b;
     box_pending := box_pending b; box_names := box_names b |}.
Definition box_with_rows (b : Box) l :=
  {| box_addresses := box_addresses b; box_dns4 := box_dns4 b; box_dns6 := box_dns6 b; box_rows := l; box_cfg := box_cfg b;
     box_pending := box_pending b; box_names := box_names b |}.
Definition box_with_cfg (b : Box) c p :=
  {| box_addresses := box_addresses b; box_dns4 := box_dns4 b; box_dns6 := box_dns6 b; box_rows := box_rows b; box_cfg := c;
     box_pending := p; box_names := box_names b |}.
Definition box_with_names (b : Box) m :=
  {| box_addresses := box_addresses b; box_dns4 := box_dns4 b; box_dns6 := box_dns6 b; box_rows := box_rows b; box_cfg := box_cfg b;
     box_pending := box_pending b; box_names := m |}.

Definition on_box (w : Sim) (f : Box -> Box) : Sim := with_box w (f (sim_box w)).
Definition on_cfg (w : Sim) (f : cfg_state -> cfg_state) : Sim :=
  on_box w (fun b => box_with_cfg b (f (box_cfg b)) (box_pending b)).

(** ** The adapter *)

Definition sim_row : MIB_IPINTERFACE_ROW :=
  {| if_Family := AF_INET; if_InterfaceIndex := 77; RouterDiscoveryBehavior := 1; DadTransmits := 3;
     ManagedAddressConfigurationSupported := true; OtherStatefulConfigurationSupported := true; NlMtu := 1500;
     UseAutomaticMetric := true; if_Metric := 25; SitePrefixLength := 64; if_others := [7] |}.

(** The route to an address that is on an interface. *)
Definition on_link_row (row : MIB_UNICASTIPADDRESS_ROW) : MIB_IPFORWARD_ROW2 :=
  {| DestinationPrefix := ua_Address row; PrefixLength := ua_OnLinkPrefixLength row; NextHop := zero_sa;
     InterfaceLuid := ua_InterfaceLuid row; InterfaceIndex := ua_InterfaceIndex row; Metric := 256 |}.

(** An address is given once, and an on-link route comes with it; DNS settings are
    read as Windows reads them. *)
#[global] Instance Sim_adapters : WinAdapters Sim := {
  GetIpInterfaceEntry _ _ := (0, sim_row);
  SetIpInterfaceEntry row w := (0, on_box w (fun b => box_with_rows b (box_rows b ++ [row])));
  InitializeUnicastIpAddressEntry row := row;
  CreateUnicastIpAddressEntry row w :=
    let ip := sockaddr_inet_to_ip_addr (ua_Address row) in
    if bool_decide (ip ∈ (fun x => x.1.2) <$> box_addresses (sim_box w)) then (ERROR_OBJECT_ALREADY_EXISTS, w)
    else (NO_ERROR, with_rows (on_box w (fun b =>
            box_with_addresses b (box_addresses b ++ [(ua_InterfaceIndex row, ip, ua_OnLinkPrefixLength row)])))
            (sim_rows w ++ [on_link_row row]));
  SetInterfaceDnsSettings _ s w :=
    match NameServer s ≫= name_servers with
    | Some l => (NO_ERROR, on_box w (fun b => if Z.testbit (dns_Flags s) 0 then box_with_dns b (box_dns4 b) l
                                              else box_with_dns b l (box_dns6 b)))
    | None => (87, w)
    end;
}.

#[global] Instance Sim_adapter_laws : AdapterLaws Sim.
Proof.
  refine {| addresses w := box_addresses (sim_box w);
            dns_servers (v6 : bool) w := if v6 then box_dns6 (sim_box w) else box_dns4 (sim_box w) |}.
  - intros row w st w'. cbn [CreateUnicastIpAddressEntry Sim_adapters]. cbv zeta.
    case_bool_decide; intros E; injection E as <- <-; cbn; reflexivity.
  - intros s w st w' l E Hn _. cbn [SetInterfaceDnsSettings Sim_adapters] in E. rewrite Hn in E.
    apply pair_equal_spec in E as [<- <-]. cbv zeta. destruct (Z.testbit (dns_Flags s) 0); split; reflexivity.
Defined.

(** ** The network configuration *)

#[global] Instance ascii_uppercase : Uppercase :=
  fun l => (fun u => if (97 <=? u) && (u <=? 122) then u - 32 else u) <$> l.

Definition path_name (b : Z) : string :=
  if b =? 11 then "ms_tcpip6->{9beb3451-4026-4f8a-8762-8f608b124fec}"
  else "ms_tcpip6->{00000000-0000-0000-0000-000000000000}".

#[global] Instance Sim_netcfg : NetCfg Sim := {
  CoInitializeEx w := (0, on_cfg w (add_com 1));
  CoUninitialize w := on_cfg w (add_com (-1));
  CoCreateInstance _ w := (Ok 1, w);
  CoTaskMemFree _ w := w;
  INetCfg_Initialize _ w := (Ok (), w);
  INetCfg_Uninitialize _ w := (Ok (), w);
  INetCfg_cast_lock _ w := (Ok 2, w);
  AcquireWriteLock _ _ _ _ w := (S_OK, on_cfg w (set_lock true));
  ReleaseWriteLock _ w := (Ok (), on_cfg w (set_lock false));
  FindComponent _ _ w := (Ok (Some 3), w);
  INetCfgComponent_cast_bindings _ w := (Ok 4, w);
  EnumBindingPaths _ _ w := (Ok (Some 5), on_box w (fun b => box_with_cfg b (box_cfg b) [10; 11; 12]));
  Enum_Next _ w :=
    match box_pending (sim_box w) with
    | [] => ((Ok (), 0, None), w)
    | p :: l => ((Ok (), 1, Some p), on_box w (fun b => box_with_cfg b (box_cfg b) l))
    end;
  GetPathToken b w := (Ok (Some (ips_string_to_pwstr (path_name b))), w);
  IsEnabled _ w := (Ok (), w);
  Enable b t w := (Ok (), on_cfg w (set_binding b t));
  INetCfg_Apply _ w := (Ok (), w);
  deref_pwstr _ _ := None;
  hresult_display := pretty;
  com_error_display := pretty;
}.

#[global] Instance Sim_netcfg_laws : NetCfgLaws Sim.
Proof.
  refine {| cfg w := box_cfg (sim_box w); pending _ w := box_pending (sim_box w);
            token_of b := Some (ips_string_to_pwstr (path_name b)) |}; try done.
  - by intros w hr w' [= <- <-].
  - by intros l t name p w hr w' [= <- <-].
  - by intros b t w r w' [= <- <-].
  - intros e w r f p w'. cbn [Enum_Next Sim_netcfg]. destruct (box_pending (sim_box w)) as [|b l] eqn:E;
      intros [= <- <- <- <-]; (split; [done|]); [done|]. intros _ _. by exists b.
  - intros b w r w' [= <- <-]. split_and!; [done..|]. by intros t [= <-].
Defined.

(** ** Wintun *)

Definition sim_session : vec_session := {| vs_in := []; vs_out := []; vs_room := 10 |}.

#[global] Instance Sim_wintun : Wintun Sim () vec_session := {
  load_from_path _ w := (Ok (), w);
  Adapter_open _ w := (Err "not found", w);
  Adapter_create _ _ _ w := (Ok (), w);
  get_adapter_index _ w := (Ok 77, w);
  start_session _ _ w := (Ok sim_session, w);
  WinTunSession.session_shutdown _ w := (Ok (), w);
}.

#[global] Instance Sim_ring : RingCapacity.
Proof. refine {| MIN_RING_CAPACITY := 0x20000; MAX_RING_CAPACITY := 0x4000000 |}. exists 17, 26. lia. Defined.

(** A new address changes the routes of its interface only. *)
#[global] Instance Sim_frame : SessionFrame Sim () vec_session 77 (net 77).
Proof.
  split; try done.
  - by intros a w i w' [= <- _].
  - intros row w Hi. cbn [CreateUnicastIpAddressEntry Sim_adapters]. cbv zeta. case_bool_decide; [done|].
    unfold net. f_equal. cbn [snd routes Sim_laws sim_rows with_rows on_box with_box]. unfold others. apply set_eq. intros id.
    rewrite !elem_of_filter, !elem_of_list_to_set, fmap_app, elem_of_app. cbn [fmap list_fmap].
    rewrite list_elem_of_singleton.
    split; [|tauto]. intros [Hid [Hin| ->]]; [done|]. destruct Hid.
    change (sim_iface (sim_key (on_link_row row)) = 77). rewrite sim_key_iface. exact Hi.
  - intros g s w. cbn [SetInterfaceDnsSettings Sim_adapters]. by case_match.
  - intros n w. cbn [Enum_Next Sim_netcfg]. by case_match.
Qed.

(** ** Witnesses *)

Lemma interface_configured_witness :
  exists row', set_ipv4_adapter_configurations 77 100 machine
    = (status_result (SetIpInterfaceEntry row' machine).1, (SetIpInterfaceEntry row' machine).2)
    /\ MINIMUM_MTU <= NlMtu row'.
Proof.
  destruct (interface_configured AF_INET 77 100 machine 0 sim_row) as (row' & E & Hm & _);
    [lia|by left|reflexivity|]. exists row'. split; [exact E|exact (proj1 Hm)].
Defined.

Lemma ipv6_toggle_witness :
  exists n r w', toggle_adapter_ipv6 n false machine = Ret (r, w') /\ com_count (cfg w') = 0 /\ lock_held (cfg w') = false.
Proof.
  destruct (ipv6_toggle false machine) as (n & r & w' & Hf & Hc & Hl & _).
  exists n, r, w'. split; [apply Hf; lia|]. split; [exact Hc|apply Hl; reflexivity].
Defined.

(** The second of the three paths is the adapter's. *)
Example ipv6_toggle_runs :
  match toggle_adapter_ipv6 5 true machine with
  | Ret (Ok _, w') => map_to_list (bindings (cfg w')) = [(11, true)]
  | _ => False
  end.
Proof. vm_compute. reflexivity. Qed.

Lemma ring_size_valid_witness :
  get_valid_wintun_buffer_size 300000 = 0x80000 /\ 300000 <= get_valid_wintun_buffer_size 300000.
Proof.
  split; [vm_compute; reflexivity|].
  apply (ring_size_valid 300000); [lia|]. vm_compute. discriminate.
Defined.

(** 10.2.0.2 is taken. *)
Lemma adapter_addressed_witness :
  match set_adapter_ip_addresses 77 machine with
  | (Ok (a4, a6), w') =>
      a4 = IP 10 3 0 2 /\ exists i, 2 <= i <= 255 /\ server_ipv4_of a4 = ipv4_new 10 i 0 1
  | _ => False
  end.
Proof.
  pose proof (adapter_addressed 77 machine) as H.
  assert ((fun r => match r with Ok p => Some (p.1) | Err _ => None end) (set_adapter_ip_addresses 77 machine).1
          = Some (IP 10 3 0 2)) as Hok by (vm_compute; reflexivity).
  destruct (set_adapter_ip_addresses 77 machine) as [[[a4 a6]|e] w']; [|discriminate Hok].
  injection Hok as ->. split; [reflexivity|].
  destruct H as (i & w1 & w2 & Hi & _ & _ & _ & Hs & _). exists i. split; [exact Hi|exact Hs].
Defined.

Definition custom_dns : list IpAddr := [V4 (IP 9 9 9 9); V6 1; V4 (IP 1 1 1 1); V4 (IP 9 9 9 9)].

Lemma dns_servers_set_witness :
  exists w', set_dns_servers custom_dns (IP 10 3 0 1) (Some 7) machine = (Ok (), w')
    /\ dns_servers false w' = [V4 (IP 9 9 9 9); V4 (IP 1 1 1 1); V4 (IP 10 3 0 1)]
    /\ dns_servers true w' = [V6 1; V6 7].
Proof.
  assert (Hok : is_ok (set_dns_servers custom_dns (IP 10 3 0 1) (Some 7) machine).1 = true) by (vm_compute; reflexivity).
  pose proof (dns_servers_set custom_dns (IP 10 3 0 1) (Some 7) machine) as H.
  destruct (set_dns_servers custom_dns (IP 10 3 0 1) (Some 7) machine) as [[[]|e] w']; [|discriminate Hok].
  exists w'. split; [reflexivity|]. cbv zeta in H. destruct H as [H4 H6].
  - repeat constructor; vm_compute; congruence.
  - vm_compute. split; congruence.
  - intros a [= <-]. split; [lia|vm_compute; reflexivity].
  - rewrite H4, H6. split; vm_compute; reflexivity.
Defined.

Definition sim_adapter_config : AdapterConfig :=
  {| custom_dns_server_ips := custom_dns; is_ipv6_enabled := true; mtu := 1280; buffer_size_bytes := 300000 |}.

Lemma sim_deletes_ok row (w : Sim) : is_ok (deletion_result (DeleteIpForwardEntry2 row w).1) = true.
Proof. cbn [DeleteIpForwardEntry2 Sim_WinNet]. by destruct (sim_has row w). Qed.

Lemma sim_table_ok (w : Sim) : exists p rs w', GetIpForwardTable2 w = (NO_ERROR, Some (p, rs), w').
Proof. by eexists _, _, _. Qed.

Lemma sim_routes_work : routes_work (W := Sim).
Proof. split; [exact sim_deletes_ok|]. split; [exact sim_table_ok|exact Sim_registry]. Qed.

Lemma sim_session_ok n :
  match WinTunSession_create (A := ()) (X := vec_session) (5 + n) servers sim_adapter_config machine with
  | Ret (Ok _, _) => True
  | _ => False
  end.
Proof. vm_compute. exact I. Qed.

Lemma session_lifecycle_witness :
  exists n r w1, WinTunSession_create n servers sim_adapter_config machine = Ret (r, w1)
    /\ session_created (A := ()) (X := vec_session) 77 servers machine r w1
    /\ match r with
       | Ok s => net 77 (WinTunSession_drop s w1) = table_left 77 machine
       | Err _ => False
       end.
Proof.
  destruct (session_lifecycle (A := ()) (X := vec_session) 77 servers sim_adapter_config machine)
    as (n & r & w1 & Hf & Hs).
  exists (5 + n)%nat, r, w1. split; [apply Hf; lia|]. split; [exact Hs|].
  pose proof (sim_session_ok n) as Hok. specialize (Hf (5 + n)%nat (Nat.le_add_l n 5)). revert Hok. rewrite Hf.
  destruct r as [s|e]; [|intros []]. intros _. destruct Hs as (_ & _ & Hd).
  destruct (Hd sim_routes_work w1 eq_refl) as (w3 & _ & _ & Hn). exact Hn.
Defined.

(** The session comes up with the second address, the ring is rounded up and IPv6
    is enabled on the adapter. *)
Example session_runs :
  match WinTunSession_create (A := ()) (X := vec_session) 5 servers sim_adapter_config machine with
  | Ret (Ok s, w1) =>
      (ip_to_string (V4 (client_ipv4_addr s)), option_ipv6addr_to_string (server_ipv6_addr s))
        = ("10.3.0.2", "2a07:b944::3:1")
      /\ map_to_list (bindings (cfg w1)) = [(11, true)] /\ length (box_rows (sim_box w1)) = 2%nat
  | _ => False
  end.
Proof. vm_compute. done. Qed.

(** ** The profiles in the registry

    Two profiles are the adapter's and one another network's; one key cannot be
    read. *)

#[global] Instance Sim_profiles : ProfileRegistry Sim := {
  profiles_open _ := true;
  profiles_enum_keys _ := [Some "{1}"; None; Some "{2}"; Some "{3}"];
  profile_open _ _ := true;
  profile_description k _ := Some (if bool_decide (k = "{2}") then "Home" else ADAPTER_NAME);
  profile_set_name k t w := (true, on_box w (fun b => box_with_names b (<[k := t]> (box_names b))));
}.

#[global] Instance Sim_profiles_laws : ProfileRegistryLaws Sim.
Proof.
  refine {| profile_name k w := box_names (sim_box w) !! k |}.
  intros k t w ok w' [= <- <-]. split_and!; [|done..]. intros k'. simpl.
  case_bool_decide as Hk; [subst; by rewrite lookup_insert_eq|by rewrite lookup_insert_ne].
Defined.

Definition disconnected_state : VpnState :=
  {| interface_state := InterfaceUp None; vpn_connection_state := Disconnected None |}.

Lemma adapter_status_text_witness :
  profile_name "{3}" (win_on_state_changed disconnected_state ([], machine)).2 = Some "Disconnected"
  /\ profile_name "{2}" (win_on_state_changed disconnected_state ([], machine)).2 = None.
Proof.
  pose proof (adapter_status_text disconnected_state [] machine) as H.
  destruct (win_on_state_changed disconnected_state ([], machine)) as [d w'].
  destruct H as (_ & Ho & Hn). cbn [snd]. split.
  - apply (Hn "{3}"); [reflexivity|set_solver|split; reflexivity|reflexivity].
  - destruct (Ho "{2}") as [->|[[_ E] _]]; [reflexivity|discriminate E].
Defined.

(** ** A connection *)

Definition win_peer (ip : Z) : PeerInfo :=
  {| peer_id := "peer"; server_ip := V4 ip; server_public_key := {| peer_key := [] |};
     udp_ports := [51820]; tcp_ports := []; tls_ports := []; priority := 1; peer_exit_label := None |}.

Definition win_initial : InitialConnectionConfig :=
  {| cfg_peers := [win_peer (IP 1 2 3 4); win_peer (IP 5 6 7 8)]; cfg_network_available := true; cfg_pcap_file := None;
     cfg_connection_mode := NoLocalAgent {| client_key := [] |} |}.

Definition win_network : NetworkConfig :=
  {| tun_adapter := sim_adapter_config;
     udp_socket := {| send_buffer_size_bytes := 65536; receive_buffer_size_bytes := 65536 |} |}.

Abbreviation win_connect_with f :=
  (f (fun _ => Ok ()) (fun _ => Ok ()) (fun _ => Ok ()) (fun _ _ => Ok ())
     (fun _ _ _ _ _ _ _ => script_lib_new) (fun _ _ _ _ => script_lib_new)).

Abbreviation win_connect_at t fuel :=
  (win_connect_with (WindowsConnection_connect (K := queue_socket) (A := ()) (X := vec_session) (L := script_lib) (I := Z) (R := Z)
    (Key := ()) (Cert := ()) (Auth := ()) (App := ()) (Seed := ())) fuel win_initial win_network (fun _ => None) 0 t () machine).
Abbreviation win_connect fuel := (win_connect_at 0 fuel).

(** The connection is up, its thread could be started and its adapter is the one
    created. *)
Example win_connect_runs :
  match win_connect 5 with
  | Ret (Ok (wc, Ret (Ok _)), w1) =>
      get_adapter_details wc =
        {| det_interface_index := 77; det_client_ipv4_addr := "10.3.0.2"; det_server_ipv4_addr := "10.3.0.1";
           det_client_ipv6_addr := "2a07:b944::3:2"; det_server_ipv6_addr := "2a07:b944::3:1" |}
      /\ receiver_alive (get_connection wc) = true /\ length (sim_rows w1) = 11%nat
  | _ => False
  end.
Proof. vm_compute. done. Qed.

(** A machine whose clock is set before 1970. *)
Example win_connect_before_epoch :
  match win_connect_at (-5) 5 with
  | Ret (Ok (wc, Panic), _) => receiver_alive (get_connection wc) = false
  | _ => False
  end.
Proof. vm_compute. done. Qed.

Lemma sim_event_net (w : Sim) : net 77 (CreateEventW w).2 = net 77 w.
Proof. done. Qed.

Lemma win_connect_ok n : match win_connect (5 + n) with Ret (Ok _, _) => True | _ => False end.
Proof. vm_compute. exact I. Qed.

Lemma windows_connect_witness :
  exists n wc deps w1, win_connect n = Ret (Ok (wc, deps), w1)
    /\ receiver_alive (get_connection wc) = built deps
    /\ net 77 (WinTunSession_drop (wc_tun wc) w1) = table_left 77 machine.
Proof.
  destruct (win_connect_with (windows_connect (K := queue_socket) (A := ()) (X := vec_session) 77 (L := script_lib) (I := Z) (R := Z)
    (Key := ()) (Cert := ()) (Auth := ()) (App := ()) (Seed := ())) 100%nat sim_event_net
    win_initial win_network (fun _ => None) 0 0 () machine) as (n & r & w1 & Hf & Hr).
  pose proof (win_connect_ok n) as Hok. specialize (Hf (5 + n)%nat (Nat.le_add_l n 5)). exists (5 + n)%nat.
  revert Hok. rewrite Hf.
  destruct r as [[wc deps]|e]; [|intros []]. intros _. destruct Hr as (_ & Ha & _ & _ & Hd).
  exists wc, deps, w1. split; [reflexivity|]. split; [exact Ha|].
  destruct (Hd sim_routes_work w1 eq_refl) as (w3 & _ & _ & Hn). exact Hn.
Defined.
